(** * CellList: the spatial cell list of HOOMD-blue

    A shallow embedding of [src/libhoomd/computes/CellList.cc]: grid
    dimensioning, bucket-capacity estimation, the adjacency table and the
    per-step bucket fill, together with the [compute] driver and its dirty
    flags.

    Conventions.
    - [unsigned int] values are integers in [0, 2^32); every unsigned
      operation of the source is followed by [u32] (reduction modulo 2^32).
    - [float] is IEEE-754 binary32, computed with the Standard Library's
      [SpecFloat] at precision 24 and maximal exponent 128.
    - [Scalar] is the build-dependent real type of the engine; it is kept
      abstract behind the class [ScalarOps], and [Scalar32] instantiates it
      with binary32 (the single-precision build).
    - Arrays ([GPUArray] on the host) are lists; an access outside the
      allocation, undefined in C++, is the explicit fault [OutOfRangeAccess]. *)

From Stdlib Require Import ZArith Lia.
From Stdlib Require Import QArith Qpower Lqa.
From Stdlib Require Import Floats.SpecFloat.
From Stdlib Require Import Sorting.Sorted.
From stdpp Require Import base tactics option list numbers.

Local Open Scope Z_scope.

(** ** Unsigned 32-bit arithmetic *)

Definition UINT_MAX : Z := 4294967295.

Definition u32 (z : Z) : Z := z mod 2 ^ 32.

(** [int(u)] for an unsigned [u]: values from 2^31 on come out negative. *)
Definition int_of_uint (u : Z) : Z := if u <? 2 ^ 31 then u else u - 2 ^ 32.

Record uint3 : Type := make_uint3 { u3x : Z; u3y : Z; u3z : Z }.

Definition uint3_eqb (a b : uint3) : bool :=
  (u3x a =? u3x b) && (u3y a =? u3y b) && (u3z a =? u3z b).

(** ** Index mapping *)

(** Modelled from the spec: [Index2D] of Index1D.h, which is not among the
    sources. A slot [(i, j)] of a [w] by [h] table lives at [j*w + i]; all
    arithmetic is [unsigned int]. *)
Record Index2D : Type := mkIndex2D { i2_w : Z; i2_h : Z }.

Definition Index2D_at (ix : Index2D) (i j : Z) : Z := u32 (j * i2_w ix + i).

Definition Index2D_getNumElements (ix : Index2D) : Z := u32 (i2_w ix * i2_h ix).

(** Modelled from the spec: [Index3D] of Index1D.h, which is not among the
    sources. Cell [(i, j, k)] of a [w] by [h] by [d] grid is flattened with
    [i] running fastest. *)
Record Index3D : Type := mkIndex3D { i3_w : Z; i3_h : Z; i3_d : Z }.

Definition Index3D_at (ix : Index3D) (i j k : Z) : Z :=
  u32 ((k * i3_h ix + j) * i3_w ix + i).

Definition Index3D_getNumElements (ix : Index3D) : Z :=
  u32 (i3_w ix * i3_h ix * i3_d ix).

(** ** binary32 *)

Definition float32 : Type := spec_float.

Definition f32_mul : float32 -> float32 -> float32 := SFmul 24 128.
Definition f32_div : float32 -> float32 -> float32 := SFdiv 24 128.
Definition f32_sub : float32 -> float32 -> float32 := SFsub 24 128.

(** [float(n)] for an integer [n], rounded to nearest even. *)
Definition f32_of_Z (n : Z) : float32 := binary_normalize 24 128 n 0 false.

(** The literal [1.1f], i.e. 0x3F8CCCCD. *)
Definition f32_1_1 : float32 := S754_finite false 9227469 (-23).

(** Integer part of a float, rounded toward zero. Infinities and NaN, whose
    conversion is undefined in C++, give 0 as the x86-64 conversion does in
    its low 32 bits. *)
Definition f32_trunc (x : float32) : Z :=
  match x with
  | S754_finite s m e =>
      let v := match e with
               | Zneg p => Z.shiftr (Zpos m) (Zpos p)
               | _ => Z.shiftl (Zpos m) e
               end in
      if s then - v else v
  | _ => 0
  end.

(** [(unsigned int)(x)]. *)
Definition f32_to_uint (x : float32) : Z := u32 (f32_trunc x).

(** [int(x)]. A value outside the range of [int], an infinity or NaN,
    whose conversion is undefined in C++, gives [INT_MIN] as the x86-64
    conversion instruction does. *)
Definition f32_to_int (x : float32) : Z :=
  match x with
  | S754_zero _ => 0
  | S754_finite _ _ _ =>
      let t := f32_trunc x in
      if (- 2 ^ 31 <=? t) && (t <? 2 ^ 31) then t else - 2 ^ 31
  | _ => - 2 ^ 31
  end.

(** [ceilf]. *)
Definition ceilf (x : float32) : float32 :=
  match x with
  | S754_finite s m (Zneg p) =>
      let q := Z.shiftr (Zpos m) (Zpos p) in
      let exact := Z.shiftl q (Zpos p) =? Zpos m in
      if s then f32_of_Z (- q)
      else f32_of_Z (if exact then q else q + 1)
  | _ => x
  end.

(** [__int_as_scalar] in single precision: the float whose bit pattern is
    the 32-bit integer [b]. *)
Definition f32_of_bits (b : Z) : float32 :=
  let b := u32 b in
  let s := 2 ^ 31 <=? b in
  let e := (b / 2 ^ 23) mod 256 in
  let m := b mod 2 ^ 23 in
  if e =? 0 then
    match m with Zpos p => S754_finite s p (-149) | _ => S754_zero s end
  else if e =? 255 then
    if m =? 0 then S754_infinity s else S754_nan
  else
    match m + 2 ^ 23 with Zpos p => S754_finite s p (e - 150) | _ => S754_nan end.

(** ** The engine's real type *)

Class ScalarOps (Scalar : Type) : Type := {
  Ssub : Scalar -> Scalar -> Scalar;
  Smul : Scalar -> Scalar -> Scalar;
  Sdiv : Scalar -> Scalar -> Scalar;
  Sltb : Scalar -> Scalar -> bool;
  Sisnan : Scalar -> bool;
  (** [Scalar(u)] for an unsigned [u] *)
  S_of_uint : Z -> Scalar;
  (** [Scalar(1.0)] and [Scalar(0.0)] *)
  Sone : Scalar;
  Szero : Scalar;
  (** [(unsigned int)(x)] *)
  S_to_uint : Scalar -> Z;
  (** [__int_as_scalar(n)] *)
  int_as_scalar : Z -> Scalar;
  S_to_uint_range : forall x, 0 <= S_to_uint x < 2 ^ 32
}.

Definition Scalar32 : Type := float32.

#[export] Instance Scalar32_ops : ScalarOps Scalar32 := {|
  Ssub := f32_sub;
  Smul := f32_mul;
  Sdiv := f32_div;
  Sltb := SFltb;
  Sisnan := fun x => match x with S754_nan => true | _ => false end;
  S_of_uint := f32_of_Z;
  Sone := f32_of_Z 1;
  Szero := S754_zero false;
  S_to_uint := f32_to_uint;
  int_as_scalar := f32_of_bits;
  S_to_uint_range := fun x => Z.mod_pos_bound (f32_trunc x) (2 ^ 32) eq_refl
|}.

Record Scalar3 (Scalar : Type) : Type :=
  make_scalar3 { s3x : Scalar; s3y : Scalar; s3z : Scalar }.
Arguments make_scalar3 {Scalar} _ _ _.
Arguments s3x {Scalar} _.
Arguments s3y {Scalar} _.
Arguments s3z {Scalar} _.

Record Scalar4 (Scalar : Type) : Type :=
  make_scalar4 { s4x : Scalar; s4y : Scalar; s4z : Scalar; s4w : Scalar }.
Arguments make_scalar4 {Scalar} _ _ _ _.
Arguments s4x {Scalar} _.
Arguments s4y {Scalar} _.
Arguments s4z {Scalar} _.
Arguments s4w {Scalar} _.

(** ** External collaborators: box, particle store *)

Record BoxDim (Scalar : Type) : Type := mkBoxDim {
  xlo : Scalar; xhi : Scalar;
  ylo : Scalar; yhi : Scalar;
  zlo : Scalar; zhi : Scalar
}.
Arguments mkBoxDim {Scalar} _ _ _ _ _ _.
Arguments xlo {Scalar} _.
Arguments xhi {Scalar} _.
Arguments ylo {Scalar} _.
Arguments yhi {Scalar} _.
Arguments zlo {Scalar} _.
Arguments zhi {Scalar} _.

(** One row of the particle arrays [x], [y], [z], [charge], [type],
    [diameter], [body] handed out by [acquireReadOnly]. *)
Record Particle (Scalar : Type) : Type := mkParticle {
  p_x : Scalar; p_y : Scalar; p_z : Scalar;
  p_charge : Scalar;
  p_type : Z;
  p_diameter : Scalar;
  p_body : Z
}.
Arguments mkParticle {Scalar} _ _ _ _ _ _ _.
Arguments p_x {Scalar} _.
Arguments p_y {Scalar} _.
Arguments p_z {Scalar} _.
Arguments p_charge {Scalar} _.
Arguments p_type {Scalar} _.
Arguments p_diameter {Scalar} _.
Arguments p_body {Scalar} _.

(** What the engine reads from [m_sysdef] and [m_pdata]. *)
Record SystemDefinition (Scalar : Type) : Type := mkSystem {
  getNDimensions : Z;
  getBox : BoxDim Scalar;
  arrays : list (Particle Scalar)
}.
Arguments mkSystem {Scalar} _ _ _.
Arguments getNDimensions {Scalar} _.
Arguments getBox {Scalar} _.
Arguments arrays {Scalar} _.

Definition getN {Scalar : Type} (sys : SystemDefinition Scalar) : Z :=
  Z.of_nat (length (arrays sys)).

(** ** The engine state *)

Record CellList (Scalar : Type) : Type := mkCellList {
  m_nominal_width : Scalar;
  m_radius : Z;
  m_max_cells : Z;
  m_compute_tdb : bool;
  m_flag_charge : bool;
  m_width : Scalar3 Scalar;
  m_dim : uint3;
  m_Nmax : Z;
  m_params_changed : bool;
  m_particles_sorted : bool;
  m_box_changed : bool;
  m_overflowed : bool;
  m_cell_indexer : Index3D;
  m_cell_list_indexer : Index2D;
  m_cell_adj_indexer : Index2D;
  m_cell_size : list Z;
  m_cell_adj : list Z;
  m_xyzf : list (Scalar4 Scalar);
  m_tdb : list (Scalar4 Scalar)
}.
Arguments mkCellList {Scalar} _ _ _ _ _ _ _ _ _ _ _ _ _ _ _ _ _ _ _.
Arguments m_nominal_width {Scalar} _.
Arguments m_radius {Scalar} _.
Arguments m_max_cells {Scalar} _.
Arguments m_compute_tdb {Scalar} _.
Arguments m_flag_charge {Scalar} _.
Arguments m_width {Scalar} _.
Arguments m_dim {Scalar} _.
Arguments m_Nmax {Scalar} _.
Arguments m_params_changed {Scalar} _.
Arguments m_particles_sorted {Scalar} _.
Arguments m_box_changed {Scalar} _.
Arguments m_overflowed {Scalar} _.
Arguments m_cell_indexer {Scalar} _.
Arguments m_cell_list_indexer {Scalar} _.
Arguments m_cell_adj_indexer {Scalar} _.
Arguments m_cell_size {Scalar} _.
Arguments m_cell_adj {Scalar} _.
Arguments m_xyzf {Scalar} _.
Arguments m_tdb {Scalar} _.

(** ** Failures *)

Inductive fault : Type :=
  | InvalidPosition (n : Z)    (* "Particle n has NaN for its position." *)
  | OutOfBoundsCell (n : Z)    (* "Elvis has left the building (particle n ...)" *)
  | BucketOverflow             (* "CellList overflowed" *)
  | AssertionFailure           (* a failed assert of a debug build *)
  | OutOfRangeAccess.          (* an array access outside its allocation *)

Inductive outcome (A : Type) : Type :=
  | Returned (a : A)
  | Raised (f : fault).
Arguments Returned {A} _.
Arguments Raised {A} _.

(** Member functions run on the engine state; a member function that
    throws leaves the state as it was at the throw. *)
Definition M (Scalar A : Type) : Type :=
  CellList Scalar -> outcome A * CellList Scalar.

Definition ret {Scalar A : Type} (a : A) : M Scalar A := fun c => (Returned a, c).

Definition raise {Scalar A : Type} (f : fault) : M Scalar A := fun c => (Raised f, c).

Definition bind {Scalar A B : Type} (m : M Scalar A) (k : A -> M Scalar B) : M Scalar B :=
  fun c => match m c with
           | (Returned a, c') => k a c'
           | (Raised f, c') => (Raised f, c')
           end.

Definition gets {Scalar A : Type} (f : CellList Scalar -> A) : M Scalar A :=
  fun c => (Returned (f c), c).

Definition modify {Scalar : Type} (f : CellList Scalar -> CellList Scalar) : M Scalar unit :=
  fun c => (Returned tt, f c).

Declare Scope cell_scope.
Delimit Scope cell_scope with cell.
Notation "'let*' x := m 'in' k" := (bind m (fun x => k))
  (at level 10, x name, m at level 100, k at level 200) : cell_scope.
Notation "m ;; k" := (bind m (fun _ => k))
  (at level 100, k at level 200, right associativity) : cell_scope.
Local Open Scope cell_scope.

(** *** Field updates *)

Section Setters.
Context {Scalar : Type}.
Implicit Type c : CellList Scalar.

Definition set_geometry (d : uint3) (w : Scalar3 Scalar) c : CellList Scalar :=
  mkCellList (m_nominal_width c) (m_radius c) (m_max_cells c) (m_compute_tdb c)
    (m_flag_charge c) w d (m_Nmax c) (m_params_changed c) (m_particles_sorted c)
    (m_box_changed c) (m_overflowed c) (m_cell_indexer c) (m_cell_list_indexer c)
    (m_cell_adj_indexer c) (m_cell_size c) (m_cell_adj c) (m_xyzf c) (m_tdb c).

Definition set_Nmax (n : Z) c : CellList Scalar :=
  mkCellList (m_nominal_width c) (m_radius c) (m_max_cells c) (m_compute_tdb c)
    (m_flag_charge c) (m_width c) (m_dim c) n (m_params_changed c) (m_particles_sorted c)
    (m_box_changed c) (m_overflowed c) (m_cell_indexer c) (m_cell_list_indexer c)
    (m_cell_adj_indexer c) (m_cell_size c) (m_cell_adj c) (m_xyzf c) (m_tdb c).

Definition set_indexers (ci : Index3D) (cli cadj : Index2D) c : CellList Scalar :=
  mkCellList (m_nominal_width c) (m_radius c) (m_max_cells c) (m_compute_tdb c)
    (m_flag_charge c) (m_width c) (m_dim c) (m_Nmax c) (m_params_changed c)
    (m_particles_sorted c) (m_box_changed c) (m_overflowed c) ci cli cadj
    (m_cell_size c) (m_cell_adj c) (m_xyzf c) (m_tdb c).

Definition set_params_changed (b : bool) c : CellList Scalar :=
  mkCellList (m_nominal_width c) (m_radius c) (m_max_cells c) (m_compute_tdb c)
    (m_flag_charge c) (m_width c) (m_dim c) (m_Nmax c) b (m_particles_sorted c)
    (m_box_changed c) (m_overflowed c) (m_cell_indexer c) (m_cell_list_indexer c)
    (m_cell_adj_indexer c) (m_cell_size c) (m_cell_adj c) (m_xyzf c) (m_tdb c).

Definition set_particles_sorted (b : bool) c : CellList Scalar :=
  mkCellList (m_nominal_width c) (m_radius c) (m_max_cells c) (m_compute_tdb c)
    (m_flag_charge c) (m_width c) (m_dim c) (m_Nmax c) (m_params_changed c) b
    (m_box_changed c) (m_overflowed c) (m_cell_indexer c) (m_cell_list_indexer c)
    (m_cell_adj_indexer c) (m_cell_size c) (m_cell_adj c) (m_xyzf c) (m_tdb c).

Definition set_box_changed (b : bool) c : CellList Scalar :=
  mkCellList (m_nominal_width c) (m_radius c) (m_max_cells c) (m_compute_tdb c)
    (m_flag_charge c) (m_width c) (m_dim c) (m_Nmax c) (m_params_changed c)
    (m_particles_sorted c) b (m_overflowed c) (m_cell_indexer c) (m_cell_list_indexer c)
    (m_cell_adj_indexer c) (m_cell_size c) (m_cell_adj c) (m_xyzf c) (m_tdb c).

Definition set_overflowed (b : bool) c : CellList Scalar :=
  mkCellList (m_nominal_width c) (m_radius c) (m_max_cells c) (m_compute_tdb c)
    (m_flag_charge c) (m_width c) (m_dim c) (m_Nmax c) (m_params_changed c)
    (m_particles_sorted c) (m_box_changed c) b (m_cell_indexer c) (m_cell_list_indexer c)
    (m_cell_adj_indexer c) (m_cell_size c) (m_cell_adj c) (m_xyzf c) (m_tdb c).

Definition set_cell_size (a : list Z) c : CellList Scalar :=
  mkCellList (m_nominal_width c) (m_radius c) (m_max_cells c) (m_compute_tdb c)
    (m_flag_charge c) (m_width c) (m_dim c) (m_Nmax c) (m_params_changed c)
    (m_particles_sorted c) (m_box_changed c) (m_overflowed c) (m_cell_indexer c)
    (m_cell_list_indexer c) (m_cell_adj_indexer c) a (m_cell_adj c) (m_xyzf c) (m_tdb c).

Definition set_cell_adj (a : list Z) c : CellList Scalar :=
  mkCellList (m_nominal_width c) (m_radius c) (m_max_cells c) (m_compute_tdb c)
    (m_flag_charge c) (m_width c) (m_dim c) (m_Nmax c) (m_params_changed c)
    (m_particles_sorted c) (m_box_changed c) (m_overflowed c) (m_cell_indexer c)
    (m_cell_list_indexer c) (m_cell_adj_indexer c) (m_cell_size c) a (m_xyzf c) (m_tdb c).

Definition set_xyzf (a : list (Scalar4 Scalar)) c : CellList Scalar :=
  mkCellList (m_nominal_width c) (m_radius c) (m_max_cells c) (m_compute_tdb c)
    (m_flag_charge c) (m_width c) (m_dim c) (m_Nmax c) (m_params_changed c)
    (m_particles_sorted c) (m_box_changed c) (m_overflowed c) (m_cell_indexer c)
    (m_cell_list_indexer c) (m_cell_adj_indexer c) (m_cell_size c) (m_cell_adj c) a (m_tdb c).

Definition set_tdb (a : list (Scalar4 Scalar)) c : CellList Scalar :=
  mkCellList (m_nominal_width c) (m_radius c) (m_max_cells c) (m_compute_tdb c)
    (m_flag_charge c) (m_width c) (m_dim c) (m_Nmax c) (m_params_changed c)
    (m_particles_sorted c) (m_box_changed c) (m_overflowed c) (m_cell_indexer c)
    (m_cell_list_indexer c) (m_cell_adj_indexer c) (m_cell_size c) (m_cell_adj c) (m_xyzf c) a.
End Setters.

(** *** Loops and array accesses *)

(** A [for] loop over [l] carrying a local variable. *)
Fixpoint foldM {Scalar A B : Type} (f : B -> A -> M Scalar B) (b : B) (l : list A)
  : M Scalar B :=
  match l with
  | [] => ret b
  | x :: l' => let* b' := f b x in foldM f b' l'
  end.

Definition forM_ {Scalar A : Type} (l : list A) (f : A -> M Scalar unit) : M Scalar unit :=
  foldM (fun _ x => f x) tt l.

(** [for (unsigned int n = n0; n < n0 + |ps|; n++)] over the rows [ps] of the
    particle arrays. *)
Fixpoint for_particles {Scalar P : Type} (n : Z) (ps : list P)
    (body : Z -> P -> M Scalar unit) : M Scalar unit :=
  match ps with
  | [] => ret tt
  | p :: ps' => body n p;; for_particles (n + 1) ps' body
  end.

(** [std::sort] on a range of unsigned integers; the result of sorting
    integers is unique, insertion sort computes it. *)
Fixpoint sort_insert (x : Z) (l : list Z) : list Z :=
  match l with
  | [] => [x]
  | y :: l' => if x <=? y then x :: l else y :: sort_insert x l'
  end.

Fixpoint std_sort (l : list Z) : list Z :=
  match l with
  | [] => []
  | x :: l' => sort_insert x (std_sort l')
  end.

(** [n % m] on [int], made non-negative as the source does. *)
Definition wrap_index (n m : Z) : Z :=
  let w := Z.rem n m in
  if w <? 0 then w + m else w.

Section Engine.
Context {Scalar : Type} `{ScalarOps Scalar}.

(** [NDEBUG]: whether the build compiles [assert] out. *)
Variable NDEBUG : bool.

(** [powf] of the C library, which is outside the sources. *)
Variable powf : float32 -> float32 -> float32.

Definition assert_ (b : bool) : M Scalar unit :=
  if NDEBUG || b then ret tt else raise AssertionFailure.

Definition load_cell_size (i : Z) : M Scalar Z :=
  let* a := gets m_cell_size in
  match a !! Z.to_nat i with
  | Some v => ret v
  | None => raise OutOfRangeAccess
  end.

Definition store_cell_size (i v : Z) : M Scalar unit :=
  let* a := gets m_cell_size in
  if i <? Z.of_nat (length a) then modify (set_cell_size (<[Z.to_nat i := v]> a))
  else raise OutOfRangeAccess.

Definition store_cell_adj (i v : Z) : M Scalar unit :=
  let* a := gets m_cell_adj in
  if i <? Z.of_nat (length a) then modify (set_cell_adj (<[Z.to_nat i := v]> a))
  else raise OutOfRangeAccess.

Definition store_xyzf (i : Z) (v : Scalar4 Scalar) : M Scalar unit :=
  let* a := gets m_xyzf in
  if i <? Z.of_nat (length a) then modify (set_xyzf (<[Z.to_nat i := v]> a))
  else raise OutOfRangeAccess.

Definition store_tdb (i : Z) (v : Scalar4 Scalar) : M Scalar unit :=
  let* a := gets m_tdb in
  if i <? Z.of_nat (length a) then modify (set_tdb (<[Z.to_nat i := v]> a))
  else raise OutOfRangeAccess.

(** [sort(&data[lo], &data[hi])] on [m_cell_adj]. *)
Definition sort_cell_adj (lo hi : Z) : M Scalar unit :=
  let* a := gets m_cell_adj in
  if (lo <=? hi) && (hi <=? Z.of_nat (length a)) then
    modify (set_cell_adj (take (Z.to_nat lo) a
                          ++ std_sort (take (Z.to_nat (hi - lo)) (drop (Z.to_nat lo) a))
                          ++ drop (Z.to_nat hi) a))
  else raise OutOfRangeAccess.

(** [memset(h_cell_size.data, 0, sizeof(unsigned int) * n)]. *)
Definition memset_cell_size (n : Z) : M Scalar unit :=
  let* a := gets m_cell_size in
  if n <=? Z.of_nat (length a) then
    modify (set_cell_size (replicate (Z.to_nat n) 0 ++ drop (Z.to_nat n) a))
  else raise OutOfRangeAccess.

(** Modelled from the spec: a freshly constructed [GPUArray] of [n]
    elements (GPUArray.h is not among the sources); its storage is
    zero-filled. *)
Definition GPUArray_new {T : Type} (zero : T) (n : Z) : list T :=
  replicate (Z.to_nat n) zero.

(** *** computeDimensions *)

Definition computeDimensions (sys : SystemDefinition Scalar) : M Scalar uint3 :=
  let box := getBox sys in
  assert_ (Sltb (xlo box) (xhi box) && Sltb (ylo box) (yhi box)
           && Sltb (zlo box) (zhi box));;
  let* nominal_width := gets m_nominal_width in
  let* max_cells := gets m_max_cells in
  let dim_x := S_to_uint (Sdiv (Ssub (xhi box) (xlo box)) nominal_width) in
  let dim_y := S_to_uint (Sdiv (Ssub (yhi box) (ylo box)) nominal_width) in
  if getNDimensions sys =? 2 then
    let dim_z := 3 in
    (* decrease the number of bins if it exceeds the max *)
    if u32 (dim_x * dim_y * dim_z) >? max_cells then
      let scale_factor :=
        powf (f32_div (f32_of_Z max_cells) (f32_of_Z (u32 (dim_x * dim_y * dim_z))))
             (f32_div (f32_of_Z 1) (f32_of_Z 2)) in
      ret (make_uint3 (u32 (f32_to_int (f32_mul (f32_of_Z dim_x) scale_factor)))
                      (u32 (f32_to_int (f32_mul (f32_of_Z dim_y) scale_factor)))
                      dim_z)
    else ret (make_uint3 dim_x dim_y dim_z)
  else
    let dim_z := S_to_uint (Sdiv (Ssub (zhi box) (zlo box)) nominal_width) in
    if u32 (dim_x * dim_y * dim_z) >? max_cells then
      let scale_factor :=
        powf (f32_div (f32_of_Z max_cells) (f32_of_Z (u32 (dim_x * dim_y * dim_z))))
             (f32_div (f32_of_Z 1) (f32_of_Z 3)) in
      ret (make_uint3 (u32 (f32_to_int (f32_mul (f32_of_Z dim_x) scale_factor)))
                      (u32 (f32_to_int (f32_mul (f32_of_Z dim_y) scale_factor)))
                      (u32 (f32_to_int (f32_mul (f32_of_Z dim_z) scale_factor))))
    else ret (make_uint3 dim_x dim_y dim_z).

(** *** initializeWidth *)

Definition initializeWidth (sys : SystemDefinition Scalar) : M Scalar unit :=
  let* dim := computeDimensions sys in
  let box := getBox sys in
  modify (set_geometry dim
            (make_scalar3 (Sdiv (Ssub (xhi box) (xlo box)) (S_of_uint (u3x dim)))
                          (Sdiv (Ssub (yhi box) (ylo box)) (S_of_uint (u3y dim)))
                          (Sdiv (Ssub (zhi box) (zlo box)) (S_of_uint (u3z dim))))).

(** *** initializeCellAdj *)

(** The body of the three inner loops: one neighbour of cell [(i, j, k)]. *)
Definition adj_entry (cur_cell : Z) (offset : Z) (ni nj nk : Z) : M Scalar Z :=
  let* dim := gets m_dim in
  let* ci := gets m_cell_indexer in
  let* cadj := gets m_cell_adj_indexer in
  let mx := int_of_uint (u3x dim) in
  let my := int_of_uint (u3y dim) in
  let mz := int_of_uint (u3z dim) in
  let wrapi := wrap_index ni mx in
  let wrapj := wrap_index nj my in
  let wrapk := wrap_index nk mz in
  let neigh_cell := Index3D_at ci wrapi wrapj wrapk in
  store_cell_adj (Index2D_at cadj offset cur_cell) neigh_cell;;
  ret (u32 (offset + 1)).

(** The body of the three outer loops: the list of cell [(i, j, k)]. *)
Definition adj_cell (i j k : Z) : M Scalar unit :=
  let* ci := gets m_cell_indexer in
  let* cadj := gets m_cell_adj_indexer in
  let* radius := gets m_radius in
  let cur_cell := Index3D_at ci i j k in
  let r := int_of_uint radius in
  let* offset :=
    foldM (fun offset nk =>
      foldM (fun offset nj =>
        foldM (fun offset ni => adj_entry cur_cell offset ni nj nk)
              offset (seqZ (i - r) (2 * r + 1)))
            offset (seqZ (j - r) (2 * r + 1)))
          0 (seqZ (k - r) (2 * r + 1)) in
  (* sort the adj list for each cell *)
  sort_cell_adj (Index2D_at cadj 0 cur_cell) (Index2D_at cadj offset cur_cell).

Definition initializeCellAdj : M Scalar unit :=
  let* dim := gets m_dim in
  forM_ (seqZ 0 (int_of_uint (u3z dim))) (fun k =>
    forM_ (seqZ 0 (int_of_uint (u3y dim))) (fun j =>
      forM_ (seqZ 0 (int_of_uint (u3x dim))) (fun i =>
        adj_cell i j k))).

(** *** initializeMemory *)

Definition estimate_Nmax (N : Z) (dim : uint3) : Z :=
  let estimated_Nmax :=
    f32_to_uint (ceilf (f32_div (f32_mul (f32_of_Z N) f32_1_1)
                                (f32_of_Z (u32 (u3x dim * u3y dim * u3z dim))))) in
  (* round up to the nearest multiple of 32 *)
  u32 (estimated_Nmax + 32 - Z.land estimated_Nmax 31).

Definition initializeMemory (sys : SystemDefinition Scalar) : M Scalar unit :=
  let* dim := gets m_dim in
  let* radius := gets m_radius in
  let* compute_tdb := gets m_compute_tdb in
  let Nmax := estimate_Nmax (getN sys) dim in
  modify (set_Nmax Nmax);;
  let ci := mkIndex3D (u3x dim) (u3y dim) (u3z dim) in
  let cli := mkIndex2D Nmax (Index3D_getNumElements ci) in
  let cadj := mkIndex2D (u32 ((radius * 2 + 1) * (radius * 2 + 1) * (radius * 2 + 1)))
                        (Index3D_getNumElements ci) in
  modify (set_indexers ci cli cadj);;
  modify (set_cell_size (GPUArray_new 0 (Index3D_getNumElements ci)));;
  modify (set_cell_adj (GPUArray_new 0 (Index2D_getNumElements cadj)));;
  modify (set_xyzf (GPUArray_new (make_scalar4 Szero Szero Szero Szero)
                                 (Index2D_getNumElements cli)));;
  (if compute_tdb
   then modify (set_tdb (GPUArray_new (make_scalar4 Szero Szero Szero Szero)
                                      (Index2D_getNumElements cli)))
   else modify (set_tdb []));;
  initializeCellAdj.

Definition initializeAll (sys : SystemDefinition Scalar) : M Scalar unit :=
  initializeWidth sys;;
  initializeMemory sys.

(** *** computeCellList *)

(** The body of the particle loop. *)
Definition bin_particle (box : BoxDim Scalar) (scale : Scalar3 Scalar)
    (ci : Index3D) (cli : Index2D) (n : Z) (p : Particle Scalar) : M Scalar unit :=
  if Sisnan (p_x p) || Sisnan (p_y p) || Sisnan (p_z p) then
    raise (InvalidPosition n)
  else
    let* dim := gets m_dim in
    (* find the bin each particle belongs in *)
    let ib := S_to_uint (Smul (Ssub (p_x p) (xlo box)) (s3x scale)) in
    let jb := S_to_uint (Smul (Ssub (p_y p) (ylo box)) (s3y scale)) in
    let kb := S_to_uint (Smul (Ssub (p_z p) (zlo box)) (s3z scale)) in
    (* need to handle the case where the particle is exactly at the box hi *)
    let ib := if ib =? u3x dim then 0 else ib in
    let jb := if jb =? u3y dim then 0 else jb in
    let kb := if kb =? u3z dim then 0 else kb in
    (* sanity check *)
    assert_ ((ib <? u3x dim) && (jb <? u3y dim) && (kb <? u3z dim));;
    (* record its bin *)
    let bin := Index3D_at ci ib jb kb in
    (* check if the particle is inside the dimensions *)
    if bin >=? Index3D_getNumElements ci then
      raise (OutOfBoundsCell n)
    else
      (* setup the flag value to store *)
      let* flag_charge := gets m_flag_charge in
      let flag := if flag_charge then p_charge p else int_as_scalar n in
      (* store the bin entries *)
      let* offset := load_cell_size bin in
      let* Nmax := gets m_Nmax in
      (if offset <? Nmax then
         store_xyzf (Index2D_at cli offset bin)
                    (make_scalar4 (p_x p) (p_y p) (p_z p) flag);;
         let* compute_tdb := gets m_compute_tdb in
         if compute_tdb then
           store_tdb (Index2D_at cli offset bin)
                     (make_scalar4 (int_as_scalar (p_type p)) (p_diameter p)
                                   (int_as_scalar (p_body p)) Szero)
         else ret tt
       else
         modify (set_overflowed true));;
      (* increment the cell occupancy counter *)
      store_cell_size bin (u32 (offset + 1)).

Definition computeCellList (sys : SystemDefinition Scalar) : M Scalar unit :=
  (* precompute scale factor *)
  let* width := gets m_width in
  let scale := make_scalar3 (Sdiv Sone (s3x width))
                            (Sdiv Sone (s3y width))
                            (Sdiv Sone (s3z width)) in
  let box := getBox sys in
  (* shorthand copies of the indexers *)
  let* ci := gets m_cell_indexer in
  let* cli := gets m_cell_list_indexer in
  (* clear the bin sizes to 0 *)
  memset_cell_size (Index3D_getNumElements ci);;
  (* for each particle *)
  for_particles 0 (arrays sys) (bin_particle box scale ci cli).

(** *** compute *)

(** [should_compute] is the answer of [shouldCompute(timestep)], the
    periodicity policy of the [Compute] base class, at this call. *)
Definition compute (sys : SystemDefinition Scalar) (should_compute : bool)
  : M Scalar unit :=
  let force := false in
  let* params_changed := gets m_params_changed in
  let* force :=
    (if params_changed then
       (* need to fully reinitialize on any parameter change *)
       initializeAll sys;;
       modify (set_params_changed false);;
       ret true
     else ret force) in
  let* box_changed := gets m_box_changed in
  let* force :=
    (if box_changed then
       let* new_dim := computeDimensions sys in
       let* dim := gets m_dim in
       (if uint3_eqb new_dim dim then
          (* number of bins has not changed, only need to update width *)
          initializeWidth sys
        else
          (* number of bins has changed, need to fully reinitialize memory *)
          initializeAll sys);;
       modify (set_box_changed false);;
       ret true
     else ret force) in
  let* particles_sorted := gets m_particles_sorted in
  let* force :=
    (if particles_sorted then
       modify (set_particles_sorted false);;
       ret true
     else ret force) in
  (* only update if we need to *)
  if should_compute || force then
    modify (set_overflowed false);;
    computeCellList sys;;
    let* overflowed := gets m_overflowed in
    if overflowed then raise BucketOverflow else ret tt
  else ret tt.

(** *** Construction and notification slots *)

(** The state the constructor leaves: allocation is deferred to the first
    [compute]. *)
Definition CellList_new : CellList Scalar :=
  mkCellList Sone 1 UINT_MAX false false
    (make_scalar3 Szero Szero Szero) (make_uint3 0 0 0) 32
    true false false false
    (mkIndex3D 0 0 0) (mkIndex2D 0 0) (mkIndex2D 0 0) [] [] [] [].

(** Modelled from the spec: the two notification handlers, declared in
    CellList.h which is not among the sources; each only raises its flag. *)
Definition slotParticlesSorted : M Scalar unit := modify (set_particles_sorted true).

Definition slotBoxChanged : M Scalar unit := modify (set_box_changed true).

End Engine.

(** * Specification vocabulary *)

Section Specification.
Context {Scalar : Type} `{ScalarOps Scalar}.

(** The condition asserted on entry of [computeDimensions]. *)
Definition box_positive (box : BoxDim Scalar) : bool :=
  Sltb (xlo box) (xhi box) && Sltb (ylo box) (yhi box) && Sltb (zlo box) (zhi box).

(** Number of cells of nominal width [w] along one axis: the truncated
    quotient of the extent by [w]. *)
Definition axis_cells (lo hi w : Scalar) : Z := S_to_uint (Sdiv (Ssub hi lo) w).

(** The grid before any scale-down. *)
Definition raw_dim (sys : SystemDefinition Scalar) (c : CellList Scalar) : uint3 :=
  let box := getBox sys in
  make_uint3 (axis_cells (xlo box) (xhi box) (m_nominal_width c))
             (axis_cells (ylo box) (yhi box) (m_nominal_width c))
             (if getNDimensions sys =? 2 then 3
              else axis_cells (zlo box) (zhi box) (m_nominal_width c)).

Definition numCells (d : uint3) : Z := u3x d * u3y d * u3z d.

Definition all_at_least_one (d : uint3) : Prop := 1 <= u3x d /\ 1 <= u3y d /\ 1 <= u3z d.

(** Modelled from the spec: [setNominalCellWidth] of the configuration
    surface (CellList.h is not among the sources); it stores the width and
    marks the parameters stale. *)
Definition setNominalCellWidth (w : Scalar) (c : CellList Scalar) : CellList Scalar :=
  mkCellList w (m_radius c) (m_max_cells c) (m_compute_tdb c)
    (m_flag_charge c) (m_width c) (m_dim c) (m_Nmax c) true (m_particles_sorted c)
    (m_box_changed c) (m_overflowed c) (m_cell_indexer c) (m_cell_list_indexer c)
    (m_cell_adj_indexer c) (m_cell_size c) (m_cell_adj c) (m_xyzf c) (m_tdb c).

(** Modelled from the spec: [setMaxCells] of the same configuration
    surface; it stores the cap and marks the parameters stale. *)
Definition setMaxCells (n : Z) (c : CellList Scalar) : CellList Scalar :=
  mkCellList (m_nominal_width c) (m_radius c) n (m_compute_tdb c)
    (m_flag_charge c) (m_width c) (m_dim c) (m_Nmax c) true (m_particles_sorted c)
    (m_box_changed c) (m_overflowed c) (m_cell_indexer c) (m_cell_list_indexer c)
    (m_cell_adj_indexer c) (m_cell_size c) (m_cell_adj c) (m_xyzf c) (m_tdb c).

(** Modelled from the spec: [enableExtendedRecords] of the same
    configuration surface; it stores the switch for the type, diameter and
    body records and marks the parameters stale. *)
Definition enableExtendedRecords (b : bool) (c : CellList Scalar) : CellList Scalar :=
  mkCellList (m_nominal_width c) (m_radius c) (m_max_cells c) b
    (m_flag_charge c) (m_width c) (m_dim c) (m_Nmax c) true (m_particles_sorted c)
    (m_box_changed c) (m_overflowed c) (m_cell_indexer c) (m_cell_list_indexer c)
    (m_cell_adj_indexer c) (m_cell_size c) (m_cell_adj c) (m_xyzf c) (m_tdb c).

(** **** Adjacency table *)

(** The neighbour coordinates of cell [(i, j, k)], in the order of the
    three inner loops of [initializeCellAdj]. *)
Definition adj_offsets (r i j k : Z) : list (Z * Z * Z) :=
  seqZ (k - r) (2 * r + 1) ≫= fun nk =>
  seqZ (j - r) (2 * r + 1) ≫= fun nj =>
  (fun ni => (ni, nj, nk)) <$> seqZ (i - r) (2 * r + 1).

(** Cell id of in-range coordinates, without machine arithmetic. *)
Definition flat_cell (d : uint3) (i j k : Z) : Z := (k * u3y d + j) * u3x d + i.

(** The spec's neighbour list of a cell: each neighbour coordinate is
    taken floor-modulo the grid dimension, then flattened. *)
Definition floor_mod_neighbours (d : uint3) (r i j k : Z) : list Z :=
  (fun t : Z * Z * Z =>
     flat_cell d (t.1.1 `mod` u3x d) (t.1.2 `mod` u3y d) (t.2 `mod` u3z d))
  <$> adj_offsets r i j k.

Definition stencil (r : Z) : Z := (2 * r + 1) * (2 * r + 1) * (2 * r + 1).

(** What a Consumer reads as the adjacency list of [cell]: the row of
    [m_cell_adj] addressed through [m_cell_adj_indexer]. *)
Definition cell_adj_list (c : CellList Scalar) (cell : Z) : list Z :=
  let cadj := m_cell_adj_indexer c in
  take (Z.to_nat (i2_w cadj)) (drop (Z.to_nat (Index2D_at cadj 0 cell)) (m_cell_adj c)).

(** The state in which [initializeMemory] calls [initializeCellAdj], for
    grids whose adjacency table fits signed 32-bit index arithmetic. *)
Definition adj_ready (c : CellList Scalar) : Prop :=
  let d := m_dim c in
  0 <= m_radius c /\ 0 <= u3x d /\ 0 <= u3y d /\ 0 <= u3z d
  /\ stencil (m_radius c) * numCells d < 2 ^ 31
  /\ m_cell_indexer c = mkIndex3D (u3x d) (u3y d) (u3z d)
  /\ i2_w (m_cell_adj_indexer c) = stencil (m_radius c)
  /\ Z.of_nat (length (m_cell_adj c)) = stencil (m_radius c) * numCells d.

(** The cell id that the inner loops store for neighbour coordinates [t]. *)
Definition adj_value (c : CellList Scalar) (t : Z * Z * Z) : Z :=
  Index3D_at (m_cell_indexer c)
    (wrap_index t.1.1 (int_of_uint (u3x (m_dim c))))
    (wrap_index t.1.2 (int_of_uint (u3y (m_dim c))))
    (wrap_index t.2 (int_of_uint (u3z (m_dim c)))).

(** Total correctness of a member function: from a state in [P] it
    returns normally, in a state and with a value in [Q]. *)
Definition returns {A : Type} (P : CellList Scalar -> Prop) (m : M Scalar A)
    (Q : A -> CellList Scalar -> Prop) : Prop :=
  forall c, P c -> exists a c', m c = (Returned a, c') /\ Q a c'.

(** [c'] is [c0] with another content of the adjacency array, still
    ready. *)
Definition adj_frame (c0 c' : CellList Scalar) : Prop :=
  adj_ready c' /\ c' = set_cell_adj (m_cell_adj c') c0.

(** The row of cell [(i, j, k)] holds its sorted neighbour list. *)
Definition adj_row_done (d : uint3) (r i j k : Z) (c' : CellList Scalar) : Prop :=
  cell_adj_list c' (flat_cell d i j k) = std_sort (floor_mod_neighbours d r i j k).

(** **** Bucket fill *)

(** The position of coordinate [x] along an axis in units of the cell
    width, as the loop body computes it. *)
Definition cell_coordinate (x lo scale : Scalar) : Scalar := Smul (Ssub x lo) scale.

(** Cell index of coordinate [x] along an axis with [d] cells: the
    truncated scaled offset, with the value [d] itself sent to 0. *)
Definition axis_index (x lo scale : Scalar) (d : Z) : Z :=
  let ib := S_to_uint (Smul (Ssub x lo) scale) in
  if ib =? d then 0 else ib.

(** The scale factors that [computeCellList] precomputes. *)
Definition inverse_width (c : CellList Scalar) : Scalar3 Scalar :=
  make_scalar3 (Sdiv Sone (s3x (m_width c)))
               (Sdiv Sone (s3y (m_width c)))
               (Sdiv Sone (s3z (m_width c))).

Definition has_nan (p : Particle Scalar) : bool :=
  Sisnan (p_x p) || Sisnan (p_y p) || Sisnan (p_z p).

(** The condition of the sanity assertion. *)
Definition in_grid (d : uint3) (ib jb kb : Z) : bool :=
  (ib <? u3x d) && (jb <? u3y d) && (kb <? u3z d).

Section OneParticle.
Variable box : BoxDim Scalar.
Variable scale : Scalar3 Scalar.
Variable d : uint3.
Variable ci : Index3D.

Definition particle_ib (p : Particle Scalar) : Z :=
  axis_index (p_x p) (xlo box) (s3x scale) (u3x d).
Definition particle_jb (p : Particle Scalar) : Z :=
  axis_index (p_y p) (ylo box) (s3y scale) (u3y d).
Definition particle_kb (p : Particle Scalar) : Z :=
  axis_index (p_z p) (zlo box) (s3z scale) (u3z d).

(** The flat id of the cell a particle is binned into. *)
Definition particle_bin (p : Particle Scalar) : Z :=
  Index3D_at ci (particle_ib p) (particle_jb p) (particle_kb p).

(** The fault, if any, that particle [n] raises before it is binned. *)
Definition particle_fault (ndebug : bool) (n : Z) (p : Particle Scalar) : option fault :=
  if has_nan p then Some (InvalidPosition n)
  else if negb (ndebug || in_grid d (particle_ib p) (particle_jb p) (particle_kb p))
  then Some AssertionFailure
  else if particle_bin p >=? Index3D_getNumElements ci then Some (OutOfBoundsCell n)
  else None.
End OneParticle.

Definition xyzf_record (flag_charge : bool) (n : Z) (p : Particle Scalar) : Scalar4 Scalar :=
  make_scalar4 (p_x p) (p_y p) (p_z p) (if flag_charge then p_charge p else int_as_scalar n).

Definition tdb_record (p : Particle Scalar) : Scalar4 Scalar :=
  make_scalar4 (int_as_scalar (p_type p)) (p_diameter p) (int_as_scalar (p_body p)) Szero.

(** The state after particle [n], which raises no fault and belongs to
    cell [bin], went through the loop body. *)
Definition after_bin (bin n : Z) (p : Particle Scalar) (c : CellList Scalar)
  : CellList Scalar :=
  let offset := default 0 (m_cell_size c !! Z.to_nat bin) in
  let slot := Z.to_nat (bin * m_Nmax c + offset) in
  let c1 :=
    if offset <? m_Nmax c then
      let c' := set_xyzf (<[slot := xyzf_record (m_flag_charge c) n p]> (m_xyzf c)) c in
      if m_compute_tdb c then set_tdb (<[slot := tdb_record p]> (m_tdb c)) c' else c'
    else set_overflowed true c in
  set_cell_size (<[Z.to_nat bin := u32 (offset + 1)]> (m_cell_size c)) c1.

(** The particle loop, started at particle number [n], with the loop body
    replaced by its effect. *)
Fixpoint sweep (ndebug : bool) (box : BoxDim Scalar) (scale : Scalar3 Scalar)
    (n : Z) (ps : list (Particle Scalar)) (c : CellList Scalar)
  : outcome unit * CellList Scalar :=
  match ps with
  | [] => (Returned tt, c)
  | p :: ps' =>
      match particle_fault box scale (m_dim c) (m_cell_indexer c) ndebug n p with
      | Some f => (Raised f, c)
      | None =>
          sweep ndebug box scale (n + 1) ps'
            (after_bin (particle_bin box scale (m_dim c) (m_cell_indexer c) p) n p c)
      end
  end.

Definition sumZ (l : list Z) : Z := foldr Z.add 0 l.

(** The bucket storage as [initializeMemory] sizes it, for grids whose
    bucket array fits 32-bit indices. *)
Definition fill_ready (c : CellList Scalar) : Prop :=
  let ci := m_cell_indexer c in
  let n := i3_w ci * i3_h ci * i3_d ci in
  0 <= n /\ 0 <= m_Nmax c /\ n < 2 ^ 32 /\ m_Nmax c * n < 2 ^ 32
  /\ i2_w (m_cell_list_indexer c) = m_Nmax c
  /\ Z.of_nat (length (m_cell_size c)) = n
  /\ Z.of_nat (length (m_xyzf c)) = m_Nmax c * n
  /\ (m_compute_tdb c = true -> Z.of_nat (length (m_tdb c)) = m_Nmax c * n)
  /\ Forall (fun v => 0 <= v < 2 ^ 32) (m_cell_size c).

(** Number of entries of [bins] equal to [b]: the true occupancy of cell
    [b] when [bins] lists the cell of every particle. *)
Fixpoint occupancy (b : Z) (bins : list Z) : Z :=
  match bins with
  | [] => 0
  | x :: l => (if x =? b then 1 else 0) + occupancy b l
  end.

(** The bucket storage of [c] replaced. *)
Definition rebucket (cell_size : list Z) (xyzf tdb : list (Scalar4 Scalar))
    (overflowed : bool) (c : CellList Scalar) : CellList Scalar :=
  mkCellList (m_nominal_width c) (m_radius c) (m_max_cells c) (m_compute_tdb c)
    (m_flag_charge c) (m_width c) (m_dim c) (m_Nmax c) (m_params_changed c)
    (m_particles_sorted c) (m_box_changed c) overflowed (m_cell_indexer c)
    (m_cell_list_indexer c) (m_cell_adj_indexer c) cell_size (m_cell_adj c) xyzf tdb.

(** [c'] differs from [c0] in the bucket storage and the overflow flag
    only. *)
Definition storage_frame (c0 c' : CellList Scalar) : Prop :=
  exists cell_size xyzf tdb overflowed, c' = rebucket cell_size xyzf tdb overflowed c0.

Section Sweep.
Variable box : BoxDim Scalar.
Variable scale : Scalar3 Scalar.
(** the state in which the sweep starts *)
Variable c0 : CellList Scalar.

Definition bin_of (p : Particle Scalar) : Z :=
  particle_bin box scale (m_dim c0) (m_cell_indexer c0) p.

(** Slot [r] of the bucket of cell [b]. *)
Definition slot (b r : Z) : nat := Z.to_nat (b * m_Nmax c0 + r).

(** The slot offset of particle [i] of [ps]: how many earlier particles
    went to its cell. *)
Definition rank (ps : list (Particle Scalar)) (i : nat) (p : Particle Scalar) : Z :=
  occupancy (bin_of p) (bin_of <$> take i ps).

(** [c] is what binning the particles [pre], numbered from 0, makes of
    the buckets. *)
Definition bucketed (pre : list (Particle Scalar)) (c : CellList Scalar) : Prop :=
  (forall b, 0 <= b < Z.of_nat (length (m_cell_size c)) ->
     m_cell_size c !! Z.to_nat b = Some (occupancy b (bin_of <$> pre)))
  /\ (forall i p, pre !! i = Some p -> rank pre i p < m_Nmax c0 ->
        m_xyzf c !! slot (bin_of p) (rank pre i p)
        = Some (xyzf_record (m_flag_charge c0) (Z.of_nat i) p)
        /\ (m_compute_tdb c0 = true ->
            m_tdb c !! slot (bin_of p) (rank pre i p) = Some (tdb_record p)))
  /\ (m_overflowed c = true <->
      m_overflowed c0 = true \/ exists b, m_Nmax c0 < occupancy b (bin_of <$> pre))
  /\ sumZ (m_cell_size c) = Z.of_nat (length pre).
End Sweep.

(** The state after the [memset] that opens [computeCellList]. *)
Definition cleared (c : CellList Scalar) : CellList Scalar :=
  set_cell_size (replicate (length (m_cell_size c)) 0) c.

(** The cell id of every particle of [sys], in particle order. *)
Definition bins (sys : SystemDefinition Scalar) (c : CellList Scalar) : list Z :=
  bin_of (getBox sys) (inverse_width c) c <$> arrays sys.

(** Whatever its outcome, [m] moves the state along [R]. *)
Definition preserves {A : Type} (R : CellList Scalar -> CellList Scalar -> Prop)
    (m : M Scalar A) : Prop :=
  forall c r c', m c = (r, c') -> R c c'.

(** The three notification flags are those of [c]. *)
Definition same_flags (c c' : CellList Scalar) : Prop :=
  m_params_changed c' = m_params_changed c
  /\ m_box_changed c' = m_box_changed c
  /\ m_particles_sorted c' = m_particles_sorted c.

(** Only the contents of the bucket storage and the overflow flag differ
    from [c]; no array is resized. *)
Definition same_allocation (c c' : CellList Scalar) : Prop :=
  storage_frame c c'
  /\ length (m_cell_size c') = length (m_cell_size c)
  /\ length (m_xyzf c') = length (m_xyzf c)
  /\ length (m_tdb c') = length (m_tdb c).

(** The rebuild that closes [compute] when it is due or forced. *)
Definition rebuild (ndebug : bool) (sys : SystemDefinition Scalar) : M Scalar unit :=
  modify (set_overflowed false);;
  computeCellList ndebug sys;;
  let* overflowed := gets m_overflowed in
  if overflowed then raise BucketOverflow else ret tt.

(** The widths that [initializeWidth] derives for the grid [d]. *)
Definition refreshed_width (sys : SystemDefinition Scalar) (d : uint3) : Scalar3 Scalar :=
  let box := getBox sys in
  make_scalar3 (Sdiv (Ssub (xhi box) (xlo box)) (S_of_uint (u3x d)))
               (Sdiv (Ssub (yhi box) (ylo box)) (S_of_uint (u3y d)))
               (Sdiv (Ssub (zhi box) (zlo box)) (S_of_uint (u3z d))).

(** The three flag blocks that open [compute]; each returns whether a
    rebuild is forced so far. *)
Definition handle_params (ndebug : bool) (powf : float32 -> float32 -> float32)
    (sys : SystemDefinition Scalar) : M Scalar bool :=
  let* params_changed := gets m_params_changed in
  if params_changed then
    initializeAll ndebug powf sys;;
    modify (set_params_changed false);;
    ret true
  else ret false.

Definition handle_box (ndebug : bool) (powf : float32 -> float32 -> float32)
    (sys : SystemDefinition Scalar) (force : bool) : M Scalar bool :=
  let* box_changed := gets m_box_changed in
  if box_changed then
    let* new_dim := computeDimensions ndebug powf sys in
    let* dim := gets m_dim in
    (if uint3_eqb new_dim dim then initializeWidth ndebug powf sys
     else initializeAll ndebug powf sys);;
    modify (set_box_changed false);;
    ret true
  else ret force.

Definition handle_sorted (force : bool) : M Scalar bool :=
  let* particles_sorted := gets m_particles_sorted in
  if particles_sorted then
    modify (set_particles_sorted false);;
    ret true
  else ret force.

Definition prepare (ndebug : bool) (powf : float32 -> float32 -> float32)
    (sys : SystemDefinition Scalar) : M Scalar bool :=
  let* force := handle_params ndebug powf sys in
  let* force := handle_box ndebug powf sys force in
  handle_sorted force.

(** [vs] written over [a] from position [b] on. *)
Definition splice {T : Type} (b : nat) (vs a : list T) : list T :=
  take b a ++ vs ++ drop (b + length vs) a.

End Specification.

(** * Concrete single-precision systems used in the examples *)

Module Fixtures.

Definition F (n : Z) : Scalar32 := f32_of_Z n.

(** The cubic box [0, L)^3. *)
Definition cube (L : Z) : BoxDim Scalar32 := mkBoxDim (F 0) (F L) (F 0) (F L) (F 0) (F L).

(** A neutral particle of type 0 and unit diameter at integer coordinates. *)
Definition at_ (x y z : Z) : Particle Scalar32 := mkParticle (F x) (F y) (F z) (F 0) 0 (F 1) 0.

(** A particle whose x coordinate is NaN. *)
Definition lost : Particle Scalar32 := mkParticle S754_nan (F 0) (F 0) (F 0) 0 (F 1) 0.

(** None of the systems below reaches the scale-down of
    [computeDimensions] ([m_max_cells] stays at [UINT_MAX]), so [powf] is
    never called; NaN would make a call visible. *)
Definition powf_uncalled : float32 -> float32 -> float32 := fun _ _ => S754_nan.

(** A freshly constructed engine with nominal cell width [w]. *)
Definition engine (w : Z) : CellList Scalar32 := setNominalCellWidth (F w) CellList_new.

(** The engine after its first [compute] on [sys] in a release build. *)
Definition built (w : Z) (sys : SystemDefinition Scalar32) : CellList Scalar32 :=
  snd (compute true powf_uncalled sys true (engine w)).


(** The example of the specification: two particles in the box
    [0, 1000)^3. *)
Definition two_particles : SystemDefinition Scalar32 :=
  mkSystem 3 (cube 1000) [at_ 0 0 0; at_ 1 1 1].


(** One particle far outside that box, and one two box lengths out. *)
Definition escaped : SystemDefinition Scalar32 :=
  mkSystem 3 (cube 1000) [at_ 5000 0 0].

Definition strayed : SystemDefinition Scalar32 :=
  mkSystem 3 (cube 1000) [at_ 2000 0 0].

(** Forty particles crowded at one point. *)
Definition crowded : SystemDefinition Scalar32 :=
  mkSystem 3 (cube 1000) (replicate 40 (at_ 1 1 1)).

(** A particle in the cell next to the origin followed by one with a NaN
    coordinate. *)
Definition then_lost : SystemDefinition Scalar32 :=
  mkSystem 3 (cube 1000) [at_ 600 0 0; lost].

(** The same two particles after the box grew to [0, 1100)^3. *)
Definition grown : SystemDefinition Scalar32 :=
  mkSystem 3 (cube 1100) [at_ 0 0 0; at_ 1 1 1].

(** A box with extents [lx], [ly], [lz] from the origin. *)
Definition slab (lx ly lz : Z) : BoxDim Scalar32 :=
  mkBoxDim (F 0) (F lx) (F 0) (F ly) (F 0) (F lz).

(** The largest single-precision number below 100, 99.99999237060547. *)
Definition just_below_100 : Scalar32 := S754_finite false 13107199 (-17).

(** A particle strictly inside the box [0, 100)^3, next to its upper x
    boundary, and a second one near the origin. *)
Definition inside_edge : Particle Scalar32 :=
  mkParticle just_below_100 (F 0) (F 0) (F 0) 0 (F 1) 0.

Definition near_edge : SystemDefinition Scalar32 :=
  mkSystem 3 (cube 100) [inside_edge; at_ 1 1 1].

(** The two particles of the example after the box grew to [0, 2000)^3. *)
Definition doubled : SystemDefinition Scalar32 :=
  mkSystem 3 (cube 2000) [at_ 0 0 0; at_ 1 1 1].

(** A two-dimensional system, one cell wide along x and four along y, and
    an engine of unit nominal width capped at three cells. *)
Definition strip : SystemDefinition Scalar32 := mkSystem 2 (slab 1 4 1) [].

Definition capped : CellList Scalar32 := setMaxCells 3 (engine 1).

(** The engine with extended records after its first [compute] on the
    two particles of the example. *)
Definition extended : CellList Scalar32 :=
  snd (compute true powf_uncalled two_particles true
         (enableExtendedRecords true (engine 500))).

End Fixtures.

(** * Further vocabulary *)

Section FurtherVocabulary.
Context {Scalar : Type} `{ScalarOps Scalar}.

(** The overflow flag, once up, stays up. *)
Definition overflow_kept (c c' : CellList Scalar) : Prop :=
  m_overflowed c = true -> m_overflowed c' = true.

(** Grid, widths and the two parameters that [computeDimensions] reads
    are those of [c]. *)
Definition geometry_kept (c c' : CellList Scalar) : Prop :=
  m_nominal_width c' = m_nominal_width c /\ m_max_cells c' = m_max_cells c
  /\ m_dim c' = m_dim c /\ m_width c' = m_width c.

(** The state in which [initializeMemory] hands over to
    [initializeCellAdj]: capacity and indexers set, arrays freshly
    allocated. *)
Definition allocated (sys : SystemDefinition Scalar) (c : CellList Scalar)
  : CellList Scalar :=
  let dim := m_dim c in
  let Nmax := estimate_Nmax (getN sys) dim in
  let ci := mkIndex3D (u3x dim) (u3y dim) (u3z dim) in
  let cli := mkIndex2D Nmax (Index3D_getNumElements ci) in
  let cadj := mkIndex2D (u32 ((m_radius c * 2 + 1) * (m_radius c * 2 + 1)
                              * (m_radius c * 2 + 1)))
                        (Index3D_getNumElements ci) in
  set_tdb (if m_compute_tdb c
           then GPUArray_new (make_scalar4 Szero Szero Szero Szero)
                             (Index2D_getNumElements cli)
           else [])
    (set_xyzf (GPUArray_new (make_scalar4 Szero Szero Szero Szero)
                            (Index2D_getNumElements cli))
       (set_cell_adj (GPUArray_new 0 (Index2D_getNumElements cadj))
          (set_cell_size (GPUArray_new 0 (Index3D_getNumElements ci))
             (set_indexers ci cli cadj (set_Nmax Nmax c))))).

(** No particle of [sys] raises a fault of its own in the grid of [c]:
    none has a NaN coordinate and each passes the checks that precede
    binning. *)
Definition fault_free (ndebug : bool) (sys : SystemDefinition Scalar)
    (c : CellList Scalar) : Prop :=
  forall i p, arrays sys !! i = Some p ->
    particle_fault (getBox sys) (inverse_width c) (m_dim c) (m_cell_indexer c) ndebug
      (Z.of_nat i) p = None.

(** [run] is the result of a full rebuild started in [c]: the counters
    are the true occupancies, every particle with room is recorded in its
    slot, the overflow flag tells whether a cell exceeded [Nmax], and the
    outcome is the overflow failure exactly then. *)
Definition rebuilt (sys : SystemDefinition Scalar) (c : CellList Scalar)
    (run : outcome unit * CellList Scalar) : Prop :=
  fst run = (if m_overflowed (snd run) then Raised BucketOverflow else Returned tt)
  /\ bucketed (getBox sys) (inverse_width c) (set_overflowed false c) (arrays sys) (snd run).

End FurtherVocabulary.

(** * Exact values of binary32 numbers *)

(** The rational number that a finite binary32 value denotes. *)
Definition f32_value (v : float32) : option Q :=
  match v with
  | S754_zero _ => Some 0%Q
  | S754_finite s m e =>
      let M := if s then Zneg m else Zpos m in
      Some (match e with
            | Zneg p => Qmake M (2 ^ p)
            | _ => inject_Z (M * 2 ^ e)
            end)
  | _ => None
  end.

(** [v] is finite with [a <= v < b]. *)
Definition f32_within (a b : Z) (v : float32) : bool :=
  match f32_value v with
  | Some q => Qle_bool (inject_Z a) q && negb (Qle_bool (inject_Z b) q)
  | None => false
  end.

(** [x <= y] for two finite numbers, on their exact values. *)
Definition f32_exact_leb (x y : float32) : bool :=
  match f32_value x, f32_value y with
  | Some a, Some b => Qle_bool a b
  | _, _ => false
  end.

(** [x] is finite and [0 < x]. *)
Definition f32_positive (x : float32) : bool :=
  match f32_value x with
  | Some q => negb (Qle_bool q 0)
  | None => false
  end.

(** [m * 2^e], for a positive mantissa [m], is at least 1. *)
Definition mantissa_at_least_one (m e : Z) : Prop :=
  0 < m /\ (e <= 0 -> 2 ^ (- e) <= m).

(** ** Cells and positions *)

(** Cell [i] of an axis with [d] cells holds the cell coordinate [v]: [v]
    lies in [[i, i + 1)], or [v] lies in [[d, d + 1)], one past the last
    cell, and [i] is the first cell. *)
Definition cell_holds (d : Z) (v : float32) (i : Z) : Prop :=
  0 <= i < d
  /\ (f32_within i (i + 1) v = true \/ (i = 0 /\ f32_within d (d + 1) v = true)).

(** The bounds of cell [i] of an axis that starts at [lo] with cells of
    width [w] contain the position [x]: on exact values,
    [lo + i * w <= x < lo + (i + 1) * w]. *)
Definition within_cell (lo w x : float32) (i : Z) : bool :=
  match f32_value lo, f32_value w, f32_value x with
  | Some l, Some w', Some x' =>
      Qle_bool (l + inject_Z i * w') x' && negb (Qle_bool (l + inject_Z (i + 1) * w') x')
  | _, _, _ => false
  end.

(** The grid of one axis is usable: the nominal width is positive, does
    not exceed the extent that [computeDimensions] computes, and their
    quotient, as computed, is below [2^32]. *)
Definition axis_fits (lo hi w : float32) : bool :=
  f32_positive w && f32_exact_leb w (f32_sub hi lo)
  && f32_within 0 (2 ^ 32) (f32_div (f32_sub hi lo) w).

(** ** Rounding *)

(** [m * 2^e] as a rational number. *)
Definition F2Q (m e : Z) : Q := (inject_Z m * 2 ^ e)%Q.

(** The relative spacing of binary32 numbers, [2^-23], and the smallest
    normal number, [2^-126]. *)
Definition f32_eps : Q := 1 # 8388608.
Definition f32_tiny : Q := F2Q 1 (-126).

(** A finite number whose exponent the format allows. *)
Definition f32_wellformed (x : float32) : bool :=
  match x with
  | S754_zero _ => true
  | S754_finite _ _ e => -149 <=? e
  | _ => false
  end.

(** Zero or a positive finite number. *)
Definition f32_nonneg (x : float32) : bool :=
  match x with
  | S754_zero _ => true
  | S754_finite false _ _ => true
  | _ => false
  end.

(** The slack that three roundings leave between a position and its cell
    coordinate. *)
Definition f32_slack : Q := (1 + f32_eps) * (1 + f32_eps) * (1 + f32_eps).

(** The bounds of cell [k] of an axis that starts at [lo] with cells of
    width [w], widened by the slack, contain the position [x]: on exact
    values, [k * w <= (x - lo) * slack] and [x - lo < (k + 1) * w * slack]. *)
Definition within_cell_slack (lo w x : float32) (k : Z) : bool :=
  match f32_value lo, f32_value w, f32_value x with
  | Some l, Some w', Some x' =>
      Qle_bool (inject_Z k * w') ((x' - l) * f32_slack)
      && negb (Qle_bool (inject_Z (k + 1) * w' * f32_slack) (x' - l))
  | _, _, _ => false
  end.

(** Cell [i] of an axis with [d] cells takes the position [x]: its
    widened bounds contain [x], or it is the first cell and [x] lies
    within the widened bounds of the cell one past the last, at the upper
    box boundary. *)
Definition cell_takes (d : Z) (lo w x : float32) (i : Z) : Prop :=
  0 <= i < d
  /\ (within_cell_slack lo w x i = true
      \/ (i = 0 /\ within_cell_slack lo w x d = true)).

(** A cell width that [computeCellList] can invert: positive and below
    [2^126]. *)
Definition width_invertible (w : float32) : bool :=
  f32_positive w && f32_within 0 (2 ^ 126) w.

(** * Basic facts *)

(** Linear arithmetic with the two machine bounds spelled out. *)
Ltac machine_lia :=
  change (2 ^ 31) with 2147483648 in *;
  change (2 ^ 32) with 4294967296 in *;
  lia.

(** Reading a field of an updated state. *)
Tactic Notation "fields" :=
  cbn [m_nominal_width m_radius m_max_cells m_compute_tdb m_flag_charge m_width m_dim
       m_Nmax m_params_changed m_particles_sorted m_box_changed m_overflowed
       m_cell_indexer m_cell_list_indexer m_cell_adj_indexer m_cell_size m_cell_adj
       m_xyzf m_tdb set_geometry set_Nmax set_indexers set_params_changed
       set_particles_sorted set_box_changed set_overflowed set_cell_size set_cell_adj
       set_xyzf set_tdb].

Tactic Notation "fields" "in" "*" :=
  cbn [m_nominal_width m_radius m_max_cells m_compute_tdb m_flag_charge m_width m_dim
       m_Nmax m_params_changed m_particles_sorted m_box_changed m_overflowed
       m_cell_indexer m_cell_list_indexer m_cell_adj_indexer m_cell_size m_cell_adj
       m_xyzf m_tdb set_geometry set_Nmax set_indexers set_params_changed
       set_particles_sorted set_box_changed set_overflowed set_cell_size set_cell_adj
       set_xyzf set_tdb] in *.

Lemma u32_range (z : Z) : 0 <= u32 z < 2 ^ 32.
Proof. unfold u32. apply Z.mod_pos_bound. lia. Qed.

Lemma u32_small (z : Z) : 0 <= z < 2 ^ 32 -> u32 z = z.
Proof. intros Hz. unfold u32. apply Z.mod_small. exact Hz. Qed.

Lemma int_of_uint_small (u : Z) : u < 2 ^ 31 -> int_of_uint u = u.
Proof. intros Hu. unfold int_of_uint. destruct (Z.ltb_spec u (2 ^ 31)); lia. Qed.

Lemma int_of_uint_le (u : Z) : int_of_uint u <= u.
Proof. unfold int_of_uint. destruct (u <? 2 ^ 31); lia. Qed.

(** Rounding "up" as the source writes it always moves to the multiple of 32
    strictly above the estimate. *)
Lemma round_up_32_strict (e : Z) :
  0 <= e -> e + 32 - Z.land e 31 = 32 * (e / 32) + 32.
Proof.
  intros He.
  change 31 with (Z.ones 5). rewrite Z.land_ones by lia.
  change (2 ^ 5) with 32.
  pose proof (Z.div_mod e 32 ltac:(lia)). lia.
Qed.

Lemma wrap_index_mod (n m : Z) : 0 < m -> wrap_index n m = n `mod` m.
Proof.
  intros Hm. unfold wrap_index.
  pose proof (Z.rem_bound_abs n m ltac:(lia)) as Habs.
  pose proof (Z.quot_rem n m ltac:(lia)) as Hq.
  destruct (Z.ltb_spec (Z.rem n m) 0).
  - apply (Z.mod_unique_pos n m (Z.quot n m - 1)); lia.
  - apply (Z.mod_unique_pos n m (Z.quot n m)); lia.
Qed.

Lemma flat_cell_bound (d : uint3) (i j k : Z) :
  0 <= i < u3x d -> 0 <= j < u3y d -> 0 <= k < u3z d ->
  0 <= flat_cell d i j k < numCells d.
Proof.
  unfold flat_cell, numCells. intros Hi Hj Hk.
  assert (0 <= k * u3y d + j <= u3z d * u3y d - 1) as Hkj by nia.
  assert ((k * u3y d + j) * u3x d <= (u3z d * u3y d - 1) * u3x d) by nia.
  split; [nia | lia].
Qed.

Lemma flat_cell_inj (d : uint3) (i j k i' j' k' : Z) :
  0 <= i < u3x d -> 0 <= j < u3y d -> 0 <= k < u3z d ->
  0 <= i' < u3x d -> 0 <= j' < u3y d -> 0 <= k' < u3z d ->
  flat_cell d i j k = flat_cell d i' j' k' -> i = i' /\ j = j' /\ k = k'.
Proof.
  unfold flat_cell. intros Hi Hj Hk Hi' Hj' Hk' Heq.
  assert (k * u3y d + j = k' * u3y d + j') as Hkj.
  { destruct (Z.lt_trichotomy (k * u3y d + j) (k' * u3y d + j')) as [Hlt|[Heq'|Hlt]];
      [exfalso | exact Heq' | exfalso]; nia. }
  assert (k = k') as Hkk.
  { destruct (Z.lt_trichotomy k k') as [Hlt|[Heq'|Hlt]];
      [exfalso | exact Heq' | exfalso]; nia. }
  subst k'. split; [nia|]. split; [nia|reflexivity].
Qed.

Lemma dims_below_cells (d : uint3) (b : Z) :
  1 <= u3x d -> 1 <= u3y d -> 1 <= u3z d -> numCells d < b ->
  u3x d < b /\ u3y d < b /\ u3z d < b.
Proof.
  unfold numCells. intros Hx Hy Hz Hb.
  assert (1 <= u3x d * u3y d) by nia.
  assert (u3x d <= u3x d * u3y d) by nia.
  assert (u3y d <= u3x d * u3y d) by nia.
  assert (u3x d * u3y d <= u3x d * u3y d * u3z d) by nia.
  assert (u3z d <= u3x d * u3y d * u3z d) by nia.
  lia.
Qed.

(** Slot [off] of row [row] in a table of [n] rows of width [w]. *)
Lemma slot_bound (row off w n : Z) :
  0 <= row < n -> 0 <= off < w -> 0 <= row * w + off < w * n.
Proof.
  intros Hrow Hoff.
  assert (row * w <= (n - 1) * w) by (apply Z.mul_le_mono_nonneg_r; lia).
  assert (0 <= row * w) by (apply Z.mul_nonneg_nonneg; lia).
  rewrite Z.mul_sub_distr_r in *. lia.
Qed.

(** ** The state-and-fault monad *)

Section MonadFacts.
Context {Scalar : Type}.

Lemma foldM_app {A B : Type} (f : B -> A -> M Scalar B) (l1 l2 : list A) (b : B)
    (c : CellList Scalar) :
  foldM f b (l1 ++ l2) c = (let* b' := foldM f b l1 in foldM f b' l2) c.
Proof.
  revert b c. induction l1 as [|x l1 IH]; intros b c.
  - reflexivity.
  - change ((x :: l1) ++ l2) with (x :: (l1 ++ l2)). cbn [foldM]. unfold bind.
    destruct (f b x c) as [[b'|e] c']; [|reflexivity].
    rewrite IH. reflexivity.
Qed.

Lemma foldM_ext {A B : Type} (f g : B -> A -> M Scalar B) (l : list A) :
  (forall b x c, f b x c = g b x c) ->
  forall b c, foldM f b l c = foldM g b l c.
Proof.
  intros Hfg. induction l as [|x l IH]; intros b c; cbn; [reflexivity|].
  unfold bind. rewrite Hfg. destruct (g b x c) as [[b'|e] c']; [apply IH | reflexivity].
Qed.

Lemma foldM_fmap {A A' B : Type} (f : B -> A' -> M Scalar B) (h : A -> A') (l : list A) :
  forall b c, foldM (fun b x => f b (h x)) b l c = foldM f b (h <$> l) c.
Proof.
  induction l as [|x l IH]; intros b c; cbn; [reflexivity|].
  unfold bind. destruct (f b (h x) c) as [[b'|e] c']; [apply IH | reflexivity].
Qed.

Lemma foldM_bind {A A' B : Type} (f : B -> A' -> M Scalar B) (g : A -> list A')
    (l : list A) :
  forall b c, foldM (fun b x => foldM f b (g x)) b l c = foldM f b (l ≫= g) c.
Proof.
  induction l as [|x l IH]; intros b c; cbn; [reflexivity|].
  rewrite foldM_app. unfold bind.
  destruct (foldM f b (g x) c) as [[b'|e] c']; [apply IH | reflexivity].
Qed.

Lemma forM_cons {A : Type} (x : A) (l : list A) (f : A -> M Scalar unit)
    (c : CellList Scalar) :
  forM_ (x :: l) f c = (f x;; forM_ l f) c.
Proof.
  unfold forM_. cbn [foldM]. unfold bind.
  destruct (f x c) as [[[]|e] c']; reflexivity.
Qed.

(** A loop whose body keeps [I] keeps [I]. *)
Lemma returns_forM {A : Type} (I : CellList Scalar -> Prop) (l : list A)
    (f : A -> M Scalar unit) :
  (forall x, x ∈ l -> returns I (f x) (fun _ => I)) ->
  returns I (forM_ l f) (fun _ => I).
Proof.
  induction l as [|x l IH]; intros Hbody c Hc.
  - exists tt, c. split; [reflexivity | exact Hc].
  - rewrite forM_cons. unfold bind.
    destruct (Hbody x ltac:(left) c Hc) as ([] & c1 & -> & Hc1).
    apply IH; [|exact Hc1]. intros y Hy. apply Hbody. right. exact Hy.
Qed.

(** A loop that passes through [x0], where the body establishes [Q], and
    whose body keeps [I] and then [Q], ends in [Q]. *)
Lemma returns_forM_hit {A : Type} (I Q : CellList Scalar -> Prop) (l : list A)
    (f : A -> M Scalar unit) (x0 : A) :
  x0 ∈ l ->
  (forall x, x ∈ l -> returns I (f x) (fun _ => I)) ->
  returns I (f x0) (fun _ c => I c /\ Q c) ->
  (forall x, x ∈ l -> returns (fun c => I c /\ Q c) (f x) (fun _ c => I c /\ Q c)) ->
  returns I (forM_ l f) (fun _ c => I c /\ Q c).
Proof.
  induction l as [|x l IH]; intros Hin HI Hhit HQ c Hc.
  - inversion Hin.
  - rewrite forM_cons. unfold bind.
    apply elem_of_cons in Hin as [<-|Hin].
    + destruct (Hhit c Hc) as ([] & c1 & -> & Hc1).
      apply (returns_forM (fun c => I c /\ Q c)); [|exact Hc1].
      intros y Hy. apply HQ. right. exact Hy.
    + destruct (HI x ltac:(left) c Hc) as ([] & c1 & -> & Hc1).
      apply IH; [exact Hin | | exact Hhit | | exact Hc1].
      * intros y Hy. apply HI. right. exact Hy.
      * intros y Hy. apply HQ. right. exact Hy.
Qed.

Lemma bind_returned {A B : Type} (m : M Scalar A) (k : A -> M Scalar B)
    (c c' : CellList Scalar) (b : B) :
  bind m k c = (Returned b, c') ->
  exists a c1, m c = (Returned a, c1) /\ k a c1 = (Returned b, c').
Proof.
  unfold bind. destruct (m c) as [[a|f] c1]; [|discriminate].
  intros Hk. exists a, c1. split; [reflexivity | exact Hk].
Qed.

(** *** Frame rules *)

Section Preserves.
Context (R : relation (CellList Scalar)) `{!PreOrder R}.

Lemma preserves_ret {A : Type} (a : A) : preserves R (ret a).
Proof. intros c r c' Hrun. injection Hrun as _ <-. reflexivity. Qed.

Lemma preserves_raise {A : Type} (f : fault) : preserves R (raise (A := A) f).
Proof. intros c r c' Hrun. injection Hrun as _ <-. reflexivity. Qed.

Lemma preserves_gets {A : Type} (f : CellList Scalar -> A) : preserves R (gets f).
Proof. intros c r c' Hrun. injection Hrun as _ <-. reflexivity. Qed.

Lemma preserves_modify (f : CellList Scalar -> CellList Scalar) :
  (forall c, R c (f c)) -> preserves R (modify f).
Proof. intros Hf c r c' Hrun. injection Hrun as _ <-. apply Hf. Qed.

Lemma preserves_bind {A B : Type} (m : M Scalar A) (k : A -> M Scalar B) :
  preserves R m -> (forall a, preserves R (k a)) -> preserves R (bind m k).
Proof.
  intros Hm Hk c r c' Hrun. unfold bind in Hrun.
  destruct (m c) as [[a|f] c1] eqn:Hmc.
  - transitivity c1; [eapply Hm, Hmc | eapply Hk, Hrun].
  - injection Hrun as _ <-. eapply Hm, Hmc.
Qed.

Lemma preserves_foldM {A B : Type} (f : B -> A -> M Scalar B) (l : list A) :
  (forall b x, preserves R (f b x)) -> forall b, preserves R (foldM f b l).
Proof.
  intros Hf. induction l as [|x l IH]; intros b; cbn [foldM].
  - apply preserves_ret.
  - apply preserves_bind; [apply Hf | exact IH].
Qed.

Lemma preserves_forM {A : Type} (l : list A) (f : A -> M Scalar unit) :
  (forall x, preserves R (f x)) -> preserves R (forM_ l f).
Proof. intros Hf. apply preserves_foldM. intros _ x. apply Hf. Qed.

Lemma preserves_for_particles {P : Type} (body : Z -> P -> M Scalar unit) (ps : list P) :
  (forall n p, preserves R (body n p)) -> forall n, preserves R (for_particles n ps body).
Proof.
  intros Hbody. induction ps as [|p ps IH]; intros n; cbn [for_particles].
  - apply preserves_ret.
  - apply preserves_bind; [apply Hbody | intros _; apply IH].
Qed.
End Preserves.

End MonadFacts.

(** ** Lists as arrays *)

Lemma splice_nil {T : Type} (b : nat) (a : list T) : splice b [] a = a.
Proof. unfold splice. cbn. rewrite Nat.add_0_r. apply take_drop. Qed.

Lemma length_splice {T : Type} (b : nat) (vs a : list T) :
  (b + length vs <= length a)%nat -> length (splice b vs a) = length a.
Proof.
  intros Hb. unfold splice. rewrite !length_app, length_take, length_drop. lia.
Qed.

Lemma insert_splice_snoc {T : Type} (b : nat) (vs a : list T) (v : T) :
  (b + length vs < length a)%nat ->
  <[(b + length vs)%nat := v]> (splice b vs a) = splice b (vs ++ [v]) a.
Proof.
  intros Hb. unfold splice.
  rewrite app_assoc.
  replace (b + length vs)%nat with (length (take b a ++ vs) + 0)%nat at 1
    by (rewrite length_app, length_take; lia).
  rewrite insert_app_r.
  destruct (lookup_lt_is_Some_2 a (b + length vs) Hb) as [x Hx].
  rewrite (drop_S _ _ _ Hx). cbn.
  rewrite length_app. cbn.
  rewrite <- !app_assoc. cbn.
  replace (b + (length vs + 1))%nat with (S (b + length vs)) by lia.
  reflexivity.
Qed.

Lemma lookup_splice_in {T : Type} (b : nat) (vs a : list T) (o : nat) :
  (b <= length a)%nat -> (o < length vs)%nat ->
  splice b vs a !! (b + o)%nat = vs !! o.
Proof.
  intros Hb Ho. unfold splice.
  rewrite lookup_app_r by (rewrite length_take; lia).
  rewrite length_take. rewrite Nat.min_l by lia.
  replace (b + o - b)%nat with o by lia.
  apply lookup_app_l. exact Ho.
Qed.

Lemma lookup_splice_out {T : Type} (b : nat) (vs a : list T) (p : nat) :
  (b + length vs <= length a)%nat -> (p < b \/ b + length vs <= p)%nat ->
  splice b vs a !! p = a !! p.
Proof.
  intros Hb Hp. unfold splice. destruct Hp as [Hp|Hp].
  - rewrite lookup_app_l by (rewrite length_take; lia).
    apply lookup_take_lt. exact Hp.
  - rewrite lookup_app_r by (rewrite length_take; lia).
    rewrite length_take, Nat.min_l by lia.
    rewrite lookup_app_r by lia.
    rewrite lookup_drop. f_equal. lia.
Qed.

Lemma take_splice {T : Type} (b : nat) (vs a : list T) :
  (b <= length a)%nat -> take b (splice b vs a) = take b a.
Proof.
  intros Hb. unfold splice. rewrite take_app_le by (rewrite length_take; lia).
  rewrite take_take. f_equal. lia.
Qed.

Lemma drop_splice {T : Type} (b : nat) (vs a : list T) :
  (b <= length a)%nat -> drop b (splice b vs a) = vs ++ drop (b + length vs) a.
Proof.
  intros Hb. unfold splice. apply drop_app_length'. rewrite length_take. lia.
Qed.

Lemma row_splice_same {T : Type} (b : nat) (vs a : list T) :
  (b <= length a)%nat -> take (length vs) (drop b (splice b vs a)) = vs.
Proof. intros Hb. rewrite drop_splice by exact Hb. apply take_app_length. Qed.

Lemma row_splice_other {T : Type} (b b' w : nat) (vs a : list T) :
  (b + length vs <= length a)%nat ->
  (b' + w <= b \/ b + length vs <= b')%nat ->
  take w (drop b' (splice b vs a)) = take w (drop b' a).
Proof.
  intros Hb Hsep. apply list_eq. intros o.
  destruct (decide (o < w)%nat) as [Ho|Ho].
  - rewrite !lookup_take_lt, !lookup_drop by exact Ho.
    apply lookup_splice_out; [exact Hb | lia].
  - rewrite !lookup_take_ge by lia. reflexivity.
Qed.

Lemma length_bind_const {A B : Type} (g : A -> list B) (l : list A) (m : nat) :
  (forall x, length (g x) = m) -> length (l ≫= g) = (length l * m)%nat.
Proof.
  intros Hg. induction l as [|x l IH]; cbn; [reflexivity|].
  rewrite length_app, Hg, IH. reflexivity.
Qed.

(** ** Counting *)

Lemma occupancy_app (b : Z) (l1 l2 : list Z) :
  occupancy b (l1 ++ l2) = occupancy b l1 + occupancy b l2.
Proof. induction l1 as [|x l1 IH]; cbn; [reflexivity | rewrite IH; lia]. Qed.

Lemma occupancy_bounds (b : Z) (l : list Z) : 0 <= occupancy b l <= Z.of_nat (length l).
Proof. induction l as [|x l IH]; cbn; [lia | destruct (x =? b); lia]. Qed.

Lemma occupancy_snoc_same (b : Z) (l : list Z) :
  occupancy b (l ++ [b]) = occupancy b l + 1.
Proof. rewrite occupancy_app. cbn. rewrite Z.eqb_refl. lia. Qed.

Lemma occupancy_snoc_other (b x : Z) (l : list Z) :
  x <> b -> occupancy b (l ++ [x]) = occupancy b l.
Proof.
  intros Hne. rewrite occupancy_app. cbn.
  destruct (Z.eqb_spec x b); [contradiction | lia].
Qed.

(** An entry counts itself: fewer equal entries precede it than there are. *)
Lemma occupancy_take_lt (b : Z) (l : list Z) (i : nat) :
  l !! i = Some b -> occupancy b (take i l) < occupancy b l.
Proof.
  intros Hi. rewrite <- (take_drop_middle l i b Hi) at 2.
  rewrite occupancy_app. cbn. rewrite Z.eqb_refl.
  pose proof (occupancy_bounds b (drop (S i) l)). lia.
Qed.

Lemma sumZ_insert (l : list Z) (i : nat) (v w : Z) :
  l !! i = Some v -> sumZ (<[i := w]> l) = sumZ l - v + w.
Proof.
  revert i. induction l as [|x l IH]; intros [|i] Hi; try discriminate.
  - injection Hi as ->. cbn. lia.
  - change (<[S i := w]> (x :: l)) with (x :: <[i := w]> l).
    change (sumZ (x :: <[i := w]> l)) with (x + sumZ (<[i := w]> l)).
    change (sumZ (x :: l)) with (x + sumZ l).
    rewrite (IH i Hi). lia.
Qed.

Lemma sumZ_replicate_0 (n : nat) : sumZ (replicate n 0) = 0.
Proof. induction n as [|n IH]; cbn; [reflexivity | exact IH]. Qed.

(** Two slots of a table with rows of width [w] coincide only if row and
    offset do. *)
Lemma slot_inj (b1 r1 b2 r2 w : Z) :
  0 <= r1 < w -> 0 <= r2 < w -> b1 * w + r1 = b2 * w + r2 -> b1 = b2 /\ r1 = r2.
Proof.
  intros H1 H2 Heq.
  assert (b1 = b2) as ->.
  { destruct (Z.lt_trichotomy b1 b2) as [Hlt|[Heq'|Hlt]]; [exfalso | exact Heq' | exfalso]; nia. }
  split; [reflexivity | lia].
Qed.


(** * Facts on binary32 conversions and division *)

Lemma Zpos_pow2 (p : positive) : Zpos (2 ^ p) = 2 ^ Zpos p.
Proof. rewrite Pos2Z.inj_pow. reflexivity. Qed.

Lemma f32_within_spec (a b : Z) (v : float32) :
  f32_within a b v = true
  <-> exists q, f32_value v = Some q /\ (inject_Z a <= q)%Q /\ (q < inject_Z b)%Q.
Proof.
  unfold f32_within. destruct (f32_value v) as [q|].
  - split.
    + intros H. apply andb_prop in H as [H1 H2]. exists q.
      split; [reflexivity|]. split; [apply Qle_bool_iff; exact H1|].
      apply Qnot_le_lt. intros Hle. apply Qle_bool_iff in Hle.
      rewrite Hle in H2. discriminate.
    + intros (q' & [= <-] & H1 & H2). apply andb_true_intro. split.
      * apply Qle_bool_iff. exact H1.
      * destruct (Qle_bool (inject_Z b) q) eqn:Hle; [|reflexivity].
        apply Qle_bool_iff in Hle. exfalso. exact (Qlt_not_le _ _ H2 Hle).
  - split; [discriminate | intros (q & Hq & _); discriminate].
Qed.

(** The integer part of a non-negative finite number is its floor. *)
Lemma f32_trunc_floor (v : float32) (a b : Z) :
  0 <= a -> f32_within a b v = true ->
  a <= f32_trunc v < b
  /\ f32_within (f32_trunc v) (f32_trunc v + 1) v = true.
Proof.
  intros Ha Hin. apply f32_within_spec in Hin as (q & Hq & H1 & H2).
  rewrite f32_within_spec.
  destruct v as [s| | |s m e]; cbn [f32_value f32_trunc] in *; try discriminate.
  - injection Hq as <-. unfold Qle, Qlt in *. cbn [Qnum Qden inject_Z] in *.
    split; [lia|]. exists 0%Q. split; [reflexivity|].
    unfold Qle, Qlt. cbn [Qnum Qden inject_Z]. lia.
  - injection Hq as <-. destruct s.
    + (* a negative number is below [a] *)
      exfalso. destruct e as [|p|p]; unfold Qle in H1; cbn [Qnum Qden inject_Z] in H1.
      * lia.
      * pose proof (Z.pow_pos_nonneg 2 (Zpos p) ltac:(lia) ltac:(lia)). nia.
      * lia.
    + destruct e as [|p|p].
      * rewrite Z.shiftl_0_r. unfold Qle, Qlt in *. cbn [Qnum Qden inject_Z] in *.
        split; [lia|]. eexists. split; [reflexivity|].
        unfold Qle, Qlt. cbn [Qnum Qden inject_Z]. lia.
      * rewrite Z.shiftl_mul_pow2 by lia.
        unfold Qle, Qlt in *. cbn [Qnum Qden inject_Z] in *.
        split; [lia|]. eexists. split; [reflexivity|].
        unfold Qle, Qlt. cbn [Qnum Qden inject_Z]. lia.
      * rewrite Z.shiftr_div_pow2 by lia.
        pose proof (Z.pow_pos_nonneg 2 (Zpos p) ltac:(lia) ltac:(lia)) as Hp.
        pose proof (Z.div_mod (Zpos m) (2 ^ Zpos p) ltac:(lia)) as Hdm.
        pose proof (Z.mod_pos_bound (Zpos m) (2 ^ Zpos p) Hp) as Hm.
        unfold Qle, Qlt in *. cbn [Qnum Qden inject_Z] in *. rewrite !Zpos_pow2 in *.
        split; [nia|]. eexists. split; [reflexivity|].
        unfold Qle, Qlt. cbn [Qnum Qden inject_Z]. rewrite !Zpos_pow2. nia.
Qed.

(** ** Division of a number by a smaller positive one *)

Lemma digits2_pos_bounds (m : positive) :
  2 ^ (Zpos (digits2_pos m) - 1) <= Zpos m < 2 ^ Zpos (digits2_pos m).
Proof.
  induction m as [m IH|m IH|]; cbn [digits2_pos].
  - rewrite Pos2Z.inj_succ. replace (Z.succ (Zpos (digits2_pos m)) - 1)
      with (Z.succ (Zpos (digits2_pos m) - 1)) by lia.
    rewrite !Z.pow_succ_r by lia. lia.
  - rewrite Pos2Z.inj_succ. replace (Z.succ (Zpos (digits2_pos m)) - 1)
      with (Z.succ (Zpos (digits2_pos m) - 1)) by lia.
    rewrite !Z.pow_succ_r by lia. lia.
  - cbn. lia.
Qed.

Lemma shr_1_div2 (mrs : shr_record) :
  0 <= shr_m mrs -> shr_m (shr_1 mrs) = shr_m mrs / 2 /\ 0 <= shr_m (shr_1 mrs).
Proof.
  destruct mrs as [m r s]. cbn [shr_m shr_1]. intros Hm.
  destruct m as [|[p|p|]|p]; cbn [shr_m]; try lia.
  - split; [reflexivity | lia].
  - split; [|lia]. apply Z.div_unique with 1; lia.
  - split; [|lia]. apply Z.div_unique with 0; lia.
  - split; [reflexivity | lia].
Qed.

Lemma iter_shr_1_div (p : positive) :
  forall mrs, 0 <= shr_m mrs ->
    shr_m (SpecFloat.iter_pos shr_1 p mrs) = shr_m mrs / 2 ^ Zpos p
    /\ 0 <= shr_m (SpecFloat.iter_pos shr_1 p mrs).
Proof.
  induction p as [p IH|p IH|]; intros mrs Hm; cbn [SpecFloat.iter_pos].
  - destruct (shr_1_div2 mrs Hm) as [E1 H1].
    destruct (IH _ H1) as [E2 H2]. destruct (IH _ H2) as [E3 H3].
    split; [|exact H3]. rewrite E3, E2, E1.
    pose proof (Z.pow_pos_nonneg 2 (Zpos p) ltac:(lia) ltac:(lia)).
    rewrite !Z.div_div by lia.
    assert (2 ^ Zpos p~1 = 2 * 2 ^ Zpos p * 2 ^ Zpos p) as ->; [|f_equal; lia].
    change 2 with (2 ^ 1) at 2. rewrite <- !Z.pow_add_r by lia. f_equal. lia.
  - destruct (IH _ Hm) as [E2 H2]. destruct (IH _ H2) as [E3 H3].
    split; [|exact H3]. rewrite E3, E2.
    pose proof (Z.pow_pos_nonneg 2 (Zpos p) ltac:(lia) ltac:(lia)).
    rewrite !Z.div_div by lia.
    assert (2 ^ Zpos p~0 = 2 ^ Zpos p * 2 ^ Zpos p) as ->; [|f_equal; lia].
    rewrite <- Z.pow_add_r by lia. f_equal. lia.
  - apply shr_1_div2. exact Hm.
Qed.

Lemma shr_m_of_loc (m : Z) (l : location) : shr_m (shr_record_of_loc m l) = m.
Proof. destruct l as [|[]]; reflexivity. Qed.

Lemma shr_fexp_at_least_one (m e : Z) (l : location) :
  mantissa_at_least_one m e ->
  mantissa_at_least_one (shr_m (fst (shr_fexp 24 128 m e l))) (snd (shr_fexp 24 128 m e l)).
Proof.
  intros [Hm He]. unfold shr_fexp, shr.
  destruct m as [|m|m]; try lia. cbn [Zdigits2].
  pose proof (digits2_pos_bounds m) as Hd.
  set (d := Zpos (digits2_pos m)) in *.
  destruct (fexp 24 128 (d + e) - e) as [|p|p] eqn:Hn; cbn [fst snd];
    rewrite ?shr_m_of_loc; try (split; assumption).
  destruct (iter_shr_1_div p (shr_record_of_loc (Zpos m) l)) as [E _];
    [rewrite shr_m_of_loc; lia|].
  rewrite E, shr_m_of_loc. clear E.
  pose proof (Z.pow_pos_nonneg 2 (Zpos p) ltac:(lia) ltac:(lia)) as Hp.
  unfold fexp, emin in Hn.
  destruct (Z.le_gt_cases (e + Zpos p) 0) as [Hneg|Hpos].
  - assert (2 ^ (- (e + Zpos p)) * 2 ^ Zpos p <= Zpos m) as Hle.
    { rewrite <- Z.pow_add_r by lia. replace (- (e + Zpos p) + Zpos p) with (- e) by lia.
      apply He. lia. }
    pose proof (Z.pow_pos_nonneg 2 (- (e + Zpos p)) ltac:(lia) ltac:(lia)) as Hq.
    assert (2 ^ (- (e + Zpos p)) <= Zpos m / 2 ^ Zpos p) as Hdiv
      by (apply Z.div_le_lower_bound; lia).
    split; [lia | intros _; exact Hdiv].
  - assert (Zpos p = d - 24) as Hpd by lia.
    assert (2 ^ Zpos p <= Zpos m) as Hle.
    { rewrite Hpd. transitivity (2 ^ (d - 1)); [|lia].
      apply Z.pow_le_mono_r; lia. }
    assert (1 <= Zpos m / 2 ^ Zpos p) by (apply Z.div_le_lower_bound; lia).
    split; [lia | intros Habs; lia].
Qed.

Lemma round_nearest_even_ge (m : Z) (l : location) : m <= round_nearest_even m l.
Proof. destruct l as [|[]]; cbn; try lia. destruct (Z.even m); lia. Qed.

Lemma at_least_one_mono (m m' e : Z) : mantissa_at_least_one m e -> m <= m' -> mantissa_at_least_one m' e.
Proof. intros [Hm He] Hle. split; [lia | intros H; specialize (He H); lia]. Qed.

(** Rounding a number that is at least 1 gives a finite number that is at
    least 1, or overflows to infinity. *)
Lemma binary_round_aux_at_least_one (m e : Z) (l : location) :
  mantissa_at_least_one m e ->
  (exists m' e', binary_round_aux 24 128 false m e l = S754_finite false m' e'
                 /\ mantissa_at_least_one (Zpos m') e')
  \/ binary_round_aux 24 128 false m e l = S754_infinity false.
Proof.
  intros H1. unfold binary_round_aux.
  pose proof (shr_fexp_at_least_one m e l H1) as H2.
  destruct (shr_fexp 24 128 m e l) as [mrs1 e1]. cbn [fst snd] in H2.
  pose proof (at_least_one_mono _ _ _ H2
                (round_nearest_even_ge (shr_m mrs1) (loc_of_shr_record mrs1))) as H3.
  pose proof (shr_fexp_at_least_one _ _ loc_Exact H3) as H4.
  destruct (shr_fexp 24 128 _ e1 loc_Exact) as [mrs2 e2]. cbn [fst snd] in H4.
  destruct (shr_m mrs2) as [|m2|m2] eqn:Hm2; try (destruct H4; lia).
  destruct (e2 <=? 128 - 24); [left; exists m2, e2; auto | right; reflexivity].
Qed.

Lemma at_least_one_value (m : positive) (e : Z) :
  mantissa_at_least_one (Zpos m) e ->
  exists q, f32_value (S754_finite false m e) = Some q /\ (1 <= q)%Q.
Proof.
  intros [_ He]. unfold f32_value. eexists; split; [reflexivity|].
  destruct e as [|p|p].
  - unfold Qle; cbn. lia.
  - pose proof (Z.pow_pos_nonneg 2 (Zpos p) ltac:(lia) ltac:(lia)).
    unfold Qle; cbn [Qnum Qden inject_Z]. nia.
  - specialize (He ltac:(lia)). change (- Zneg p) with (Zpos p) in He.
    unfold Qle; cbn [Qnum Qden]. rewrite Zpos_pow2. lia.
Qed.

(** The value of a positive finite number, scaled to an integer. *)
Lemma f32_value_scaled (m : positive) (e k : Z) :
  0 <= k -> 0 <= e + k ->
  exists q, f32_value (S754_finite false m e) = Some q
            /\ (q * inject_Z (2 ^ k) == inject_Z (Zpos m * 2 ^ (e + k)))%Q.
Proof.
  intros Hk Hek. unfold f32_value. eexists; split; [reflexivity|].
  destruct e as [|p|p].
  - rewrite Z.mul_1_r, Z.add_0_l, <- inject_Z_mult. reflexivity.
  - rewrite <- inject_Z_mult, Z.pow_add_r by lia. rewrite Z.mul_assoc. reflexivity.
  - unfold Qeq, Qmult; cbn [Qnum Qden inject_Z]. rewrite Pos.mul_1_r, Zpos_pow2.
    rewrite Z.mul_1_r, <- !Z.mul_assoc. f_equal.
    rewrite <- Z.pow_add_r by lia. f_equal. lia.
Qed.

Lemma f32_value_negative (m : positive) (e : Z) :
  exists q, f32_value (S754_finite true m e) = Some q /\ (q < 0)%Q.
Proof.
  unfold f32_value. eexists; split; [reflexivity|].
  destruct e as [|p|p]; unfold Qlt; cbn [Qnum Qden inject_Z]; lia.
Qed.

Lemma f32_positive_spec (x : float32) :
  f32_positive x = true <-> exists q, f32_value x = Some q /\ (0 < q)%Q.
Proof.
  unfold f32_positive. destruct (f32_value x) as [q|].
  - rewrite negb_true_iff. split.
    + intros Hq. exists q. split; [reflexivity|]. apply Qnot_le_lt. intros Hle.
      apply Qle_bool_iff in Hle. congruence.
    + intros (q' & [= <-] & Hlt). destruct (Qle_bool q 0) eqn:E; [|reflexivity].
      apply Qle_bool_iff in E. exfalso. exact (Qlt_not_le _ _ Hlt E).
  - split; [discriminate | intros (q & Hq & _); discriminate].
Qed.

Lemma f32_exact_leb_spec (x y : float32) :
  f32_exact_leb x y = true
  <-> exists a b, f32_value x = Some a /\ f32_value y = Some b /\ (a <= b)%Q.
Proof.
  unfold f32_exact_leb.
  destruct (f32_value x) as [a|], (f32_value y) as [b|].
  - rewrite Qle_bool_iff. split; [intros Hle; exists a, b; auto|].
    intros (a' & b' & [= <-] & [= <-] & Hle). exact Hle.
  - split; [discriminate | intros (a' & b' & _ & Hb & _); discriminate].
  - split; [discriminate | intros (a' & b' & Ha & _); discriminate].
  - split; [discriminate | intros (a' & b' & Ha & _); discriminate].
Qed.

(** The core of the division: the quotient of a number by a smaller one
    is at least 1 before rounding. *)
Lemma SFdiv_core_at_least_one (m1 m2 : positive) (e1 e2 : Z) :
  f32_exact_leb (S754_finite false m2 e2) (S754_finite false m1 e1) = true ->
  mantissa_at_least_one (fst (fst (SFdiv_core_binary 24 128 (Zpos m1) e1 (Zpos m2) e2)))
               (snd (fst (SFdiv_core_binary 24 128 (Zpos m1) e1 (Zpos m2) e2))).
Proof.
  intros Hle. apply f32_exact_leb_spec in Hle as (a & b & Ha & Hb & Hab).
  set (k := Z.max 0 (Z.max (- e1) (- e2))).
  destruct (f32_value_scaled m2 e2 k) as (a' & Ha' & Ea); [lia | lia |].
  destruct (f32_value_scaled m1 e1 k) as (b' & Hb' & Eb); [lia | lia |].
  rewrite Ha in Ha'; rewrite Hb in Hb'. injection Ha' as <-. injection Hb' as <-.
  assert (Zpos m2 * 2 ^ (e2 + k) <= Zpos m1 * 2 ^ (e1 + k)) as Hint.
  { rewrite Zle_Qle, <- Ea, <- Eb. apply Qmult_le_compat_r; [exact Hab|].
    rewrite <- (Zle_Qle 0). apply Z.pow_nonneg. lia. }
  clear Ha Hb Hab Ea Eb a b.
  unfold SFdiv_core_binary. cbn [Zdigits2].
  pose proof (digits2_pos_bounds m1) as Hd1. pose proof (digits2_pos_bounds m2) as Hd2.
  set (d1 := Zpos (digits2_pos m1)) in *. set (d2 := Zpos (digits2_pos m2)) in *.
  set (e' := Z.min (fexp 24 128 (d1 + e1 - (d2 + e2))) (e1 - e2)).
  assert (0 <= e1 - e2 - e') as Hs by lia.
  assert ((match e1 - e2 - e' with
           | 0 => Zpos m1
           | Zpos _ => Z.shiftl (Zpos m1) (e1 - e2 - e')
           | Zneg _ => 0
           end) = Zpos m1 * 2 ^ (e1 - e2 - e')) as ->.
  { destruct (e1 - e2 - e') eqn:Es; try lia.
    rewrite Z.shiftl_mul_pow2 by lia. reflexivity. }
  set (s := e1 - e2 - e') in *.
  pose proof (Z.pow_pos_nonneg 2 s ltac:(lia) Hs) as Hps.
  assert (fst (Z.div_eucl (Zpos m1 * 2 ^ s) (Zpos m2)) = Zpos m1 * 2 ^ s / Zpos m2) as Hq
    by reflexivity.
  destruct (Z.div_eucl (Zpos m1 * 2 ^ s) (Zpos m2)) as [q r]. cbn [fst snd] in *. subst q.
  destruct (Z.le_gt_cases e' 0) as [Hneg|Hpos].
  - assert (2 ^ (- e') <= Zpos m1 * 2 ^ s / Zpos m2) as Hlow.
    { apply Z.div_le_lower_bound; [lia|].
      pose proof (Z.pow_pos_nonneg 2 (e2 + k) ltac:(lia) ltac:(lia)) as Hp2.
      apply Z.mul_le_mono_pos_r with (2 ^ (e2 + k)); [exact Hp2|].
      assert (2 ^ s * 2 ^ (e2 + k) = 2 ^ (e1 + k) * 2 ^ (- e')) as Hpow
        by (rewrite <- !Z.pow_add_r by lia; f_equal; lia).
      pose proof (Z.pow_pos_nonneg 2 (- e') ltac:(lia) ltac:(lia)) as Hpe.
      replace (Zpos m2 * 2 ^ (- e') * 2 ^ (e2 + k))
        with (Zpos m2 * 2 ^ (e2 + k) * 2 ^ (- e')) by ring.
      rewrite <- (Z.mul_assoc (Zpos m1)), Hpow, Z.mul_assoc.
      apply Z.mul_le_mono_nonneg_r; [lia | exact Hint]. }
    pose proof (Z.pow_pos_nonneg 2 (- e') ltac:(lia) ltac:(lia)).
    split; [lia | intros _; exact Hlow].
  - assert (1 <= Zpos m1 * 2 ^ s / Zpos m2) as Hlow.
    { apply Z.div_le_lower_bound; [lia|].
      unfold fexp, emin in e'.
      assert (d2 - d1 + 24 <= s) by lia.
      assert (2 ^ d2 <= 2 ^ (d1 - 1) * 2 ^ s) as Hpow.
      { rewrite <- Z.pow_add_r by lia. apply Z.pow_le_mono_r; lia. }
      apply Z.le_trans with (2 ^ (d1 - 1) * 2 ^ s); [lia|].
      apply Z.mul_le_mono_nonneg_r; lia. }
    split; [lia | intros Habs; lia].
Qed.

(** Dividing a number by a positive one that does not exceed it gives a
    finite quotient of at least 1, or overflows to infinity. *)
Lemma f32_div_at_least_one (x y : float32) :
  f32_positive y = true -> f32_exact_leb y x = true ->
  (exists q, f32_value (f32_div x y) = Some q /\ (1 <= q)%Q)
  \/ f32_div x y = S754_infinity false.
Proof.
  intros Hy Hle. apply f32_positive_spec in Hy as (vy & Hvy & Hpos).
  pose proof Hle as Hle'.
  apply f32_exact_leb_spec in Hle' as (a & b & Ha & Hb & Hab).
  rewrite Hvy in Ha. injection Ha as <-.
  assert (0 < b)%Q as Hbpos by (eapply Qlt_le_trans; eassumption).
  destruct y as [sy|sy| |sy my ey]; try discriminate.
  { injection Hvy as <-. exfalso. exact (Qlt_irrefl _ Hpos). }
  destruct sy.
  { destruct (f32_value_negative my ey) as (q & Hq & Hlt).
    rewrite Hq in Hvy. injection Hvy as <-.
    exfalso. exact (Qlt_irrefl _ (Qlt_trans _ _ _ Hpos Hlt)). }
  destruct x as [sx|sx| |sx mx ex]; try discriminate.
  { injection Hb as <-. exfalso. exact (Qlt_irrefl _ Hbpos). }
  destruct sx.
  { destruct (f32_value_negative mx ex) as (q & Hq & Hlt).
    rewrite Hq in Hb. injection Hb as <-.
    exfalso. exact (Qlt_irrefl _ (Qlt_trans _ _ _ Hbpos Hlt)). }
  pose proof (SFdiv_core_at_least_one mx my ex ey Hle) as Hcore.
  unfold f32_div, SFdiv.
  destruct (SFdiv_core_binary 24 128 (Zpos mx) ex (Zpos my) ey) as [[mz ez] lz].
  cbn [fst snd xorb] in *.
  destruct (binary_round_aux_at_least_one mz ez lz Hcore) as [(m' & e' & E & H1)|E];
    rewrite E; [left | right; reflexivity].
  apply at_least_one_value. exact H1.
Qed.

(** The truncation of a quotient that is at least 1 and below [2^32] is
    its floor, between 1 and [2^32]. *)
Lemma f32_to_uint_quotient (x y : float32) :
  f32_positive y = true -> f32_exact_leb y x = true ->
  f32_within 0 (2 ^ 32) (f32_div x y) = true ->
  1 <= f32_to_uint (f32_div x y)
  /\ f32_within (f32_to_uint (f32_div x y)) (f32_to_uint (f32_div x y) + 1) (f32_div x y)
     = true.
Proof.
  intros Hy Hle Hlt.
  assert (f32_within 1 (2 ^ 32) (f32_div x y) = true) as Hin.
  { apply f32_within_spec in Hlt as (q & Hq & _ & Hhi).
    destruct (f32_div_at_least_one x y Hy Hle) as [(q' & Hq' & Hone)|E].
    - rewrite Hq in Hq'. injection Hq' as <-.
      apply f32_within_spec. exists q. auto.
    - rewrite E in Hq. discriminate. }
  destruct (f32_trunc_floor _ 1 (2 ^ 32) ltac:(lia) Hin) as [Hr Hfl].
  unfold f32_to_uint, u32. rewrite Z.mod_small by lia. split; [lia | exact Hfl].
Qed.

(** * Enclosure of the rounded result *)


Lemma Zdigits2_bounds (z : Z) :
  0 < z -> 2 ^ (Zdigits2 z - 1) <= z < 2 ^ Zdigits2 z.
Proof.
  destruct z as [|p|p]; try lia. intros _. exact (digits2_pos_bounds p).
Qed.

Lemma Zdigits2_pos (z : Z) : 0 < z -> 0 < Zdigits2 z.
Proof. destruct z; cbn; lia. Qed.

Lemma Zdigits2_unique (z k : Z) :
  0 < z -> 2 ^ (k - 1) <= z < 2 ^ k -> Zdigits2 z = k.
Proof.
  intros Hz [Hlo Hhi]. pose proof (Zdigits2_bounds z Hz) as [Dlo Dhi].
  pose proof (Zdigits2_pos z Hz) as Hd.
  assert (0 < k) as Hk.
  { destruct (Z.le_gt_cases k 0) as [H0|H0]; [|exact H0].
    assert (2 ^ k <= 2 ^ 0) by (apply Z.pow_le_mono_r; lia).
    change (2 ^ 0) with 1 in *. lia. }
  destruct (Z.lt_trichotomy (Zdigits2 z) k) as [Hlt|[Heq|Hgt]]; [|exact Heq|].
  - assert (2 ^ Zdigits2 z <= 2 ^ (k - 1)) by (apply Z.pow_le_mono_r; lia). lia.
  - assert (2 ^ k <= 2 ^ (Zdigits2 z - 1)) by (apply Z.pow_le_mono_r; lia). lia.
Qed.

(** The digits of a quotient by a power of two. *)
Lemma Zdigits2_div_pow2 (z p : Z) :
  0 < z -> 0 <= p < Zdigits2 z -> Zdigits2 (z / 2 ^ p) = Zdigits2 z - p.
Proof.
  intros Hz Hp. pose proof (Zdigits2_bounds z Hz) as [Dlo Dhi].
  pose proof (Z.pow_pos_nonneg 2 p ltac:(lia) ltac:(lia)) as Hpp.
  assert (2 ^ (Zdigits2 z - p - 1) <= z / 2 ^ p) as Hlo.
  { apply Z.div_le_lower_bound; [lia|].
    rewrite <- Z.pow_add_r by lia.
    replace (p + (Zdigits2 z - p - 1)) with (Zdigits2 z - 1) by lia. exact Dlo. }
  assert (z / 2 ^ p < 2 ^ (Zdigits2 z - p)) as Hhi.
  { apply Z.div_lt_upper_bound; [lia|].
    rewrite <- Z.pow_add_r by lia.
    replace (p + (Zdigits2 z - p)) with (Zdigits2 z) by lia. exact Dhi. }
  apply Zdigits2_unique; [|split; assumption].
  assert (0 < 2 ^ (Zdigits2 z - p - 1)) by (apply Z.pow_pos_nonneg; lia). lia.
Qed.

Lemma Zdigits2_succ (z : Z) :
  0 < z ->
  Zdigits2 (z + 1) = Zdigits2 z
  \/ (Zdigits2 (z + 1) = Zdigits2 z + 1 /\ z + 1 = 2 ^ Zdigits2 z).
Proof.
  intros Hz. pose proof (Zdigits2_bounds z Hz) as [Dlo Dhi].
  pose proof (Zdigits2_pos z Hz) as Hd.
  destruct (Z.eq_dec (z + 1) (2 ^ Zdigits2 z)) as [E|E].
  - right. split; [|exact E]. apply Zdigits2_unique; [lia|].
    replace (Zdigits2 z + 1 - 1) with (Zdigits2 z) by lia.
    rewrite Z.pow_add_r by lia. change (2 ^ 1) with 2. lia.
  - left. apply Zdigits2_unique; lia.
Qed.

(** What [shr_fexp] computes on a positive mantissa. *)
Lemma shr_fexp_mantissa (m e : Z) (l : location) :
  0 <= m ->
  let p := fexp 24 128 (Zdigits2 m + e) - e in
  (p <= 0 -> shr_fexp 24 128 m e l = (shr_record_of_loc m l, e))
  /\ (0 < p -> shr_m (fst (shr_fexp 24 128 m e l)) = m / 2 ^ p
              /\ snd (shr_fexp 24 128 m e l) = e + p).
Proof.
  intros Hm p. unfold shr_fexp, shr. fold p. split; intros Hp.
  - destruct p; try lia; reflexivity.
  - destruct p as [|q|q] eqn:Ep; try lia. cbn [fst snd].
    destruct (iter_shr_1_div q (shr_record_of_loc m l)) as [E _];
      [rewrite shr_m_of_loc; exact Hm|].
    rewrite E, shr_m_of_loc. split; reflexivity.
Qed.

Lemma loc_of_shr_record_of_loc (m : Z) (l : location) :
  loc_of_shr_record (shr_record_of_loc m l) = l.
Proof. destruct l as [|[]]; reflexivity. Qed.

Lemma round_nearest_even_cases (m : Z) (l : location) :
  round_nearest_even m l = m \/ round_nearest_even m l = m + 1.
Proof. destruct l as [|[]]; cbn; auto. destruct (Z.even m); auto. Qed.

Lemma fexp_succ (k : Z) : fexp 24 128 k <= fexp 24 128 (k + 1) <= fexp 24 128 k + 1.
Proof. unfold fexp, emin. lia. Qed.

(** The second alignment of [binary_round_aux] keeps the value of a
    mantissa that is [m1] or [m1 + 1], where [m1] is aligned. *)
Lemma shr_fexp_realign (m1 e1 t : Z) :
  0 <= m1 -> (m1 = 0 -> -149 <= e1) ->
  fexp 24 128 (Zdigits2 m1 + e1) <= e1 ->
  (t = m1 \/ t = m1 + 1) -> 0 < t ->
  exists k,
    0 <= k
    /\ snd (shr_fexp 24 128 t e1 loc_Exact) = e1 + k
    /\ shr_m (fst (shr_fexp 24 128 t e1 loc_Exact)) * 2 ^ k = t
    /\ 0 < shr_m (fst (shr_fexp 24 128 t e1 loc_Exact)).
Proof.
  intros Hm1 He1 Hal Ht Htpos.
  destruct (shr_fexp_mantissa t e1 loc_Exact ltac:(lia)) as [Hno Hsh].
  set (p := fexp 24 128 (Zdigits2 t + e1) - e1) in *.
  destruct (Z.le_gt_cases p 0) as [Hp|Hp].
  - rewrite (Hno Hp). exists 0. cbn [fst snd]. rewrite shr_m_of_loc.
    split; [lia|]. split; [lia|]. split; [lia | exact Htpos].
  - destruct (Hsh Hp) as [Em Ee]. rewrite Em, Ee.
    (* the mantissa grew by one digit to a power of two *)
    assert (t = m1 + 1 /\ 0 < m1 /\ p = 1 /\ t = 2 ^ Zdigits2 m1) as (-> & Hpos & Hp1 & Hpow).
    { destruct Ht as [->| ->]; [unfold p in Hp; lia|].
      destruct (Z.eq_dec m1 0) as [->|Hnz].
      - exfalso. unfold p in Hp. change (Zdigits2 (0 + 1)) with 1 in Hp.
        specialize (He1 eq_refl). unfold fexp, emin in Hp. lia.
      - destruct (Zdigits2_succ m1 ltac:(lia)) as [E|[E Epow]].
        + exfalso. unfold p in Hp. rewrite E in Hp. lia.
        + split; [reflexivity|]. split; [lia|]. split; [|exact Epow].
          unfold p in *. rewrite E in *.
          pose proof (fexp_succ (Zdigits2 m1 + e1)) as Hs.
          replace (Zdigits2 m1 + 1 + e1) with (Zdigits2 m1 + e1 + 1) in * by lia. lia. }
    pose proof (Zdigits2_pos m1 Hpos) as Hd.
    exists 1. rewrite Hp1. split; [lia|]. split; [reflexivity|].
    rewrite Hpow. change (2 ^ 1) with 2.
    replace (Zdigits2 m1) with (1 + (Zdigits2 m1 - 1)) by lia.
    rewrite Z.pow_add_r by lia. change (2 ^ 1) with 2.
    assert (0 < 2 ^ (Zdigits2 m1 - 1)) as Hh by (apply Z.pow_pos_nonneg; lia).
    set (h := 2 ^ (Zdigits2 m1 - 1)) in *.
    rewrite (Z.mul_comm 2 h), Z.div_mul by lia.
    split; lia.
Qed.

(** The shape of a rounded positive number: the mantissa is cut down to
    [m1] at the exponent [e1] that the format prescribes, and the result
    has the value of [m1] or [m1 + 1] at that exponent. *)
Lemma binary_round_aux_shape (m e : Z) (l : location) :
  0 < m ->
  exists m1 e1 t,
    ((fexp 24 128 (Zdigits2 m + e) <= e /\ m1 = m /\ e1 = e
      /\ (l = loc_Exact -> t = m))
     \/ (e < fexp 24 128 (Zdigits2 m + e) /\ e1 = fexp 24 128 (Zdigits2 m + e)
         /\ m1 = m / 2 ^ (e1 - e)))
    /\ (t = m1 \/ t = m1 + 1)
    /\ (binary_round_aux 24 128 false m e l = S754_infinity false
        \/ (t = 0 /\ binary_round_aux 24 128 false m e l = S754_zero false)
        \/ exists mr er k,
             binary_round_aux 24 128 false m e l = S754_finite false mr er
             /\ 0 <= k /\ er = e1 + k /\ Zpos mr * 2 ^ k = t).
Proof.
  intros Hm. unfold binary_round_aux.
  destruct (shr_fexp_mantissa m e l ltac:(lia)) as [Hno Hsh].
  set (p := fexp 24 128 (Zdigits2 m + e) - e) in *.
  destruct (shr_fexp 24 128 m e l) as [mrs1 e1] eqn:E1.
  set (t := round_nearest_even (shr_m mrs1) (loc_of_shr_record mrs1)).
  assert (0 <= shr_m mrs1
          /\ (shr_m mrs1 = 0 -> -149 <= e1)
          /\ fexp 24 128 (Zdigits2 (shr_m mrs1) + e1) <= e1
          /\ ((fexp 24 128 (Zdigits2 m + e) <= e /\ shr_m mrs1 = m /\ e1 = e
               /\ (l = loc_Exact -> t = m))
              \/ (e < fexp 24 128 (Zdigits2 m + e) /\ e1 = fexp 24 128 (Zdigits2 m + e)
                  /\ shr_m mrs1 = m / 2 ^ (e1 - e))))
    as (Hm1 & Hz & Hal & Hcase).
  { destruct (Z.le_gt_cases p 0) as [Hp|Hp].
    - specialize (Hno Hp). injection Hno as -> ->. rewrite shr_m_of_loc.
      split; [lia|]. split; [lia|]. split; [unfold p in Hp; lia|].
      left. split; [unfold p in Hp; lia|]. split; [reflexivity|]. split; [reflexivity|].
      intros ->. unfold t. reflexivity.
    - destruct (Hsh Hp) as [Em Ee]. cbn [fst snd] in Em, Ee.
      pose proof (Z.pow_pos_nonneg 2 p ltac:(lia) ltac:(lia)) as Hpp.
      assert (0 <= m / 2 ^ p) as Hq by (apply Z.div_pos; lia).
      assert (e1 = fexp 24 128 (Zdigits2 m + e)) as He1 by (unfold p in Ee; lia).
      split; [lia|]. split; [intros _; rewrite He1; unfold fexp, emin; lia|].
      split.
      + destruct (Z.lt_ge_cases p (Zdigits2 m)) as [Hlt|Hge].
        * rewrite Em, (Zdigits2_div_pow2 m p Hm) by lia.
          replace (Zdigits2 m - p + e1) with (Zdigits2 m + e) by lia. lia.
        * assert (m / 2 ^ p = 0) as Hzero.
          { apply Z.div_small. pose proof (Zdigits2_bounds m Hm) as [_ Dhi].
            assert (2 ^ Zdigits2 m <= 2 ^ p) by (apply Z.pow_le_mono_r; lia). lia. }
          rewrite Em, Hzero. change (Zdigits2 0) with 0.
          rewrite He1. unfold fexp, emin. lia.
      + right. split; [unfold p in Hp; lia|]. split; [exact He1|].
        rewrite Em. f_equal. f_equal. lia. }
  pose proof (round_nearest_even_cases (shr_m mrs1) (loc_of_shr_record mrs1)) as Ht.
  fold t in Ht.
  exists (shr_m mrs1), e1, t. split; [exact Hcase|]. split; [exact Ht|].
  destruct (Z.eq_dec t 0) as [Ht0|Ht0].
  - right; left. split; [exact Ht0|]. rewrite Ht0.
    destruct (shr_fexp_mantissa 0 e1 loc_Exact ltac:(lia)) as [Hno0 Hsh0].
    destruct (Z.le_gt_cases (fexp 24 128 (Zdigits2 0 + e1) - e1) 0) as [Hp|Hp].
    + rewrite (Hno0 Hp). reflexivity.
    + destruct (Hsh0 Hp) as [Em _].
      destruct (shr_fexp 24 128 0 e1 loc_Exact) as [mrs2 e2]. cbn [fst] in Em.
      rewrite Em, Z.div_0_l; [reflexivity|].
      apply Z.pow_nonzero; lia.
  - assert (0 < t) as Htpos by lia.
    destruct (shr_fexp_realign (shr_m mrs1) e1 t Hm1 Hz Hal Ht Htpos)
      as (k & Hk & Ee & Ev & Hpos).
    destruct (shr_fexp 24 128 t e1 loc_Exact) as [mrs2 e2]. cbn [fst snd] in *.
    destruct (shr_m mrs2) as [|mr|mr] eqn:Emr; try lia.
    destruct (e2 <=? 128 - 24); [|left; reflexivity].
    right; right. exists mr, e2, k. auto.
Qed.


(** ** Values as rationals *)

Lemma pow2Q_pos (e : Z) : (0 < 2 ^ e)%Q.
Proof. apply Qpower_0_lt. reflexivity. Qed.

Lemma pow2Q_inject (p : Z) : 0 <= p -> (inject_Z (2 ^ p) == 2 ^ p)%Q.
Proof. intros Hp. rewrite Zpower_Qpower by exact Hp. reflexivity. Qed.

Lemma pow2Q_add (a b : Z) : (2 ^ (a + b) == 2 ^ a * 2 ^ b)%Q.
Proof. apply Qpower_plus. intros H. discriminate H. Qed.

Lemma F2Q_shift (m e p : Z) : 0 <= p -> (F2Q m (e + p) == F2Q (m * 2 ^ p) e)%Q.
Proof.
  intros Hp. unfold F2Q.
  rewrite pow2Q_add, inject_Z_mult, (pow2Q_inject p Hp). ring.
Qed.

Lemma F2Q_le (m m' e : Z) : m <= m' -> (F2Q m e <= F2Q m' e)%Q.
Proof.
  intros Hle. unfold F2Q. apply Qmult_le_compat_r.
  - rewrite <- Zle_Qle. exact Hle.
  - apply Qlt_le_weak, pow2Q_pos.
Qed.

Lemma F2Q_lt (m m' e : Z) : m < m' -> (F2Q m e < F2Q m' e)%Q.
Proof.
  intros Hlt. unfold F2Q. apply Qmult_lt_compat_r.
  - apply pow2Q_pos.
  - rewrite <- Zlt_Qlt. exact Hlt.
Qed.

Lemma F2Q_plus (m m' e : Z) : (F2Q (m + m') e == F2Q m e + F2Q m' e)%Q.
Proof. unfold F2Q. rewrite inject_Z_plus. ring. Qed.

Lemma F2Q_0 (e : Z) : (F2Q 0 e == 0)%Q.
Proof. unfold F2Q. change (inject_Z 0) with 0%Q. ring. Qed.

Lemma F2Q_integer (m : Z) : (F2Q m 0 == inject_Z m)%Q.
Proof. unfold F2Q. change (2 ^ 0)%Q with 1%Q. ring. Qed.

(** The value of a finite number. *)
Lemma f32_value_finite (s : bool) (m : positive) (e : Z) :
  exists q, f32_value (S754_finite s m e) = Some q
            /\ (q == F2Q (if s then Zneg m else Zpos m) e)%Q.
Proof.
  unfold f32_value. eexists. split; [reflexivity|].
  set (M := if s then Zneg m else Zpos m).
  destruct e as [|p|p].
  - rewrite Z.mul_1_r. symmetry. apply F2Q_integer.
  - unfold F2Q. rewrite inject_Z_mult, pow2Q_inject by lia. reflexivity.
  - unfold F2Q. rewrite Qmake_Qdiv, Zpos_pow2, pow2Q_inject by lia.
    change (Zneg p) with (- Zpos p). rewrite Qpower_opp. reflexivity.
Qed.


(** ** One-ulp enclosure of a rounded positive number *)

(** The result of rounding the positive mantissa [m] at exponent [e]
    given what the alignment discarded: it overflows, or it has a value
    [q] such that either nothing was cut and [q] lies between [m] and
    [m + 1] (it is [m] when the location is exact), or the result is
    normal and [q] is within a relative distance of [2^-23] of every
    number between [m] and [m + 1], or everything stays below the
    smallest normal number, which takes an exponent below the least one
    of the format. *)
Lemma binary_round_aux_enclosure (m e : Z) (l : location) :
  0 < m ->
  binary_round_aux 24 128 false m e l = S754_infinity false
  \/ exists q,
       f32_value (binary_round_aux 24 128 false m e l) = Some q
       /\ ((fexp 24 128 (Zdigits2 m + e) <= e
            /\ (F2Q m e <= q)%Q /\ (q <= F2Q (m + 1) e)%Q
            /\ (l = loc_Exact -> (q == F2Q m e)%Q))
           \/ ((F2Q (m + 1) e <= q * (1 + f32_eps))%Q
               /\ (q <= F2Q m e * (1 + f32_eps))%Q)
           \/ (e < -149 /\ (F2Q (m + 1) e <= f32_tiny)%Q /\ (q <= f32_tiny)%Q)).
Proof.
  intros Hm.
  destruct (binary_round_aux_shape m e l Hm) as (m1 & e1 & t & Hcase & Ht & Hres).
  destruct Hres as [Hinf|Hres]; [left; exact Hinf | right].
  assert (exists q, f32_value (binary_round_aux 24 128 false m e l) = Some q
                    /\ (q == F2Q t e1)%Q) as (q & Hq & Eq).
  { destruct Hres as [[Ht0 ->]|(mr & er & k & -> & Hk & -> & Ev)].
    - exists 0%Q. split; [reflexivity|]. rewrite Ht0, F2Q_0. reflexivity.
    - destruct (f32_value_finite false mr (e1 + k)) as (q & Hq & Eq).
      exists q. split; [exact Hq|]. rewrite Eq, F2Q_shift by exact Hk.
      rewrite Ev. reflexivity. }
  exists q. split; [exact Hq|].
  assert (F2Q (m1 + 1) e1 == F2Q m1 e1 + F2Q 1 e1)%Q as Hsucc by apply F2Q_plus.
  assert (0 < F2Q 1 e1)%Q as HU.
  { unfold F2Q. change (inject_Z 1) with 1%Q. rewrite Qmult_1_l. apply pow2Q_pos. }
  assert (F2Q m1 e1 <= q /\ q <= F2Q (m1 + 1) e1)%Q as [Hq1 Hq2].
  { rewrite Eq. destruct Ht as [-> | ->].
    - split; [lra | apply F2Q_le; lia].
    - split; [apply F2Q_le; lia | lra]. }
  destruct Hcase as [(Hal & -> & -> & Hex)|(Hsh & He1 & Hm1)].
  - left. split; [exact Hal|]. split; [exact Hq1|]. split; [exact Hq2|].
    intros Hl. rewrite Eq, (Hex Hl). reflexivity.
  - right.
    set (p := e1 - e) in *.
    assert (0 < p) as Hp by (unfold p; lia).
    pose proof (Z.pow_pos_nonneg 2 p ltac:(lia) ltac:(lia)) as Hpp.
    assert (m1 * 2 ^ p <= m /\ m + 1 <= (m1 + 1) * 2 ^ p) as [Hlo Hhi].
    { rewrite Hm1. pose proof (Z.mul_div_le m (2 ^ p) Hpp).
      pose proof (Z.mul_succ_div_gt m (2 ^ p) Hpp). lia. }
    assert (e1 = e + p) as Ee by (unfold p; lia).
    assert (F2Q m1 e1 <= F2Q m e)%Q as HA.
    { rewrite Ee, F2Q_shift by lia. apply F2Q_le. exact Hlo. }
    assert (F2Q (m + 1) e <= F2Q (m1 + 1) e1)%Q as HB.
    { rewrite Ee, F2Q_shift by lia. apply F2Q_le. exact Hhi. }
    pose proof (Zdigits2_bounds m Hm) as [Dlo Dhi].
    pose proof (Zdigits2_pos m Hm) as Hd.
    unfold fexp, emin in He1, Hsh.
    destruct (Z.le_gt_cases (-149) (Zdigits2 m + e - 24)) as [Hnorm|Hsub].
    + (* normal *)
      left.
      assert (p = Zdigits2 m - 24) as Ep by lia.
      assert (2 ^ 23 <= m1) as Hbig.
      { rewrite Hm1. apply Z.div_le_lower_bound; [lia|].
        rewrite <- Z.pow_add_r by lia.
        replace (p + 23) with (Zdigits2 m - 1) by lia. exact Dlo. }
      assert (F2Q (2 ^ 23) e1 <= F2Q m1 e1)%Q as HC by (apply F2Q_le; exact Hbig).
      assert (F2Q (2 ^ 23) e1 == (8388608 # 1) * F2Q 1 e1)%Q as HD.
      { unfold F2Q. change (inject_Z (2 ^ 23)) with (8388608 # 1)%Q.
        change (inject_Z 1) with 1%Q. generalize (2 ^ e1)%Q. intros U. ring. }
      unfold f32_eps. split; lra.
    + (* subnormal *)
      right.
      assert (e1 = -149) as E149 by lia.
      assert (m1 + 1 <= 2 ^ 23) as Hsmall.
      { assert (m < 2 ^ (p + 23)) as Hlt.
        { apply Z.lt_le_trans with (2 ^ Zdigits2 m); [exact Dhi|].
          apply Z.pow_le_mono_r; lia. }
        rewrite Z.pow_add_r in Hlt by lia.
        assert (m1 < 2 ^ 23); [|lia].
        rewrite Hm1. apply Z.div_lt_upper_bound; lia. }
      assert (F2Q (m1 + 1) e1 <= f32_tiny)%Q as HT.
      { unfold f32_tiny. change (-126) with (-149 + 23). rewrite F2Q_shift by lia.
        rewrite E149. apply F2Q_le. lia. }
      split; [lia|]. split; lra.
Qed.


(** ** Subtraction *)

Lemma pos_iter_xO (m : positive) (d : positive) :
  Zpos (Pos.iter xO m d) = Zpos m * 2 ^ Zpos d.
Proof.
  rewrite <- Zpos_pow2. revert m.
  induction d as [|d IH] using Pos.peano_ind; intros m.
  - cbn. lia.
  - rewrite Pos.iter_succ. rewrite Pos.pow_succ_r.
    rewrite Pos2Z.inj_xO, IH. lia.
Qed.

Lemma shl_align_value (m : positive) (e e' : Z) :
  exists k, 0 <= k /\ snd (shl_align m e e') = e - k
            /\ Zpos (fst (shl_align m e e')) = Zpos m * 2 ^ k
            /\ (e' <= e -> k = e - e') /\ (e <= e' -> k = 0).
Proof.
  unfold shl_align. destruct (e' - e) as [|d|d] eqn:Ed.
  - exists 0. cbn [fst snd]. repeat split; lia.
  - exists 0. cbn [fst snd]. repeat split; lia.
  - exists (Zpos d). cbn [fst snd]. split; [lia|]. split; [lia|].
    split; [apply pos_iter_xO|]. split; lia.
Qed.

(** The sign of what [binary_round_aux] returns for a positive number. *)
Lemma binary_round_aux_nonneg (m e : Z) (l : location) :
  binary_round_aux 24 128 false m e l <> S754_nan ->
  binary_round_aux 24 128 false m e l = S754_infinity false
  \/ f32_nonneg (binary_round_aux 24 128 false m e l) = true.
Proof.
  unfold binary_round_aux.
  destruct (shr_fexp 24 128 m e l) as [mrs1 e1].
  destruct (shr_fexp 24 128 _ e1 loc_Exact) as [mrs2 e2].
  destruct (shr_m mrs2); [right; reflexivity| |intros H; contradiction].
  destruct (e2 <=? 128 - 24); [right; reflexivity | left; reflexivity].
Qed.

(** Rounding a positive integer multiple of a power of two that the
    format allows: the result overflows or lies within a relative
    distance of [2^-23]. *)
Lemma binary_round_enclosure (M : positive) (e : Z) :
  -149 <= e ->
  binary_round 24 128 false M e = S754_infinity false
  \/ (f32_nonneg (binary_round 24 128 false M e) = true
      /\ exists q,
           f32_value (binary_round 24 128 false M e) = Some q
           /\ (F2Q (Zpos M) e <= q * (1 + f32_eps))%Q
           /\ (q <= F2Q (Zpos M) e * (1 + f32_eps))%Q).
Proof.
  intros He. unfold binary_round.
  destruct (shl_align_value M e (fexp 24 128 (Zpos (digits2_pos M) + e)))
    as (k & Hk & Ee & Em & Hk1 & Hk2).
  destruct (shl_align M e (fexp 24 128 (Zpos (digits2_pos M) + e))) as [mz ez].
  cbn [fst snd] in Ee, Em.
  assert (F2Q (Zpos mz) ez == F2Q (Zpos M) e)%Q as EV.
  { rewrite Em, <- F2Q_shift by exact Hk. rewrite Ee.
    replace (e - k + k) with e by lia. reflexivity. }
  assert (0 < F2Q (Zpos M) e)%Q as Hpos.
  { rewrite <- (F2Q_0 e). apply F2Q_lt. lia. }
  assert (-149 <= ez) as Hez.
  { destruct (Z.le_gt_cases (fexp 24 128 (Zpos (digits2_pos M) + e)) e) as [H1|H1].
    - rewrite Ee, (Hk1 H1). unfold fexp, emin. lia.
    - rewrite Ee, (Hk2 ltac:(lia)). lia. }
  destruct (binary_round_aux_enclosure (Zpos mz) ez loc_Exact ltac:(lia))
    as [Hinf|(q & Hq & Hcases)]; [left; exact Hinf | right].
  split.
  { destruct (binary_round_aux_nonneg (Zpos mz) ez loc_Exact) as [Hinf|Hnn].
    - intros Hnan. rewrite Hnan in Hq. discriminate.
    - rewrite Hinf in Hq. discriminate.
    - exact Hnn. }
  exists q. split; [exact Hq|].
  assert (0 < f32_eps)%Q as Heps by reflexivity.
  destruct Hcases as [(_ & _ & _ & Hex)|[(H1 & H2)|(Habs & _)]].
  - specialize (Hex eq_refl). rewrite Hex, EV. split; nra.
  - rewrite EV in H2. split; [|exact H2].
    apply Qle_trans with (F2Q (Zpos mz + 1) ez); [|exact H1].
    rewrite <- EV. apply F2Q_le. lia.
  - lia.
Qed.


Lemma F2Q_sign (m e : Z) : (0 <= F2Q m e)%Q -> 0 <= m.
Proof.
  intros H. destruct (Z.lt_ge_cases m 0) as [Hneg|Hpos]; [|exact Hpos].
  exfalso. pose proof (F2Q_lt m 0 e Hneg) as Hlt. rewrite F2Q_0 in Hlt. lra.
Qed.

(** The difference of two finite numbers [lo <= x]: the result overflows,
    or it is zero or positive and within a relative distance of [2^-23]
    of the exact difference. *)
Lemma f32_sub_enclosure (x lo : float32) (vx vl : Q) :
  f32_wellformed x = true -> f32_wellformed lo = true ->
  f32_value x = Some vx -> f32_value lo = Some vl -> (vl <= vx)%Q ->
  f32_sub x lo = S754_infinity false
  \/ (f32_nonneg (f32_sub x lo) = true
      /\ exists q,
           f32_value (f32_sub x lo) = Some q
           /\ (vx - vl <= q * (1 + f32_eps))%Q
           /\ (q <= (vx - vl) * (1 + f32_eps))%Q).
Proof.
  intros Wx Wl Hx Hl Hle.
  assert (0 < f32_eps)%Q as Heps by reflexivity.
  destruct x as [sx|sx| |sx mx ex]; try discriminate;
    destruct lo as [sy|sy| |sy my ey]; try discriminate.
  - (* zero - zero *)
    right. injection Hx as <-. injection Hl as <-.
    assert (exists s, f32_sub (S754_zero sx) (S754_zero sy) = S754_zero s) as [s ->]
      by (destruct sx, sy; eexists; reflexivity).
    split; [reflexivity|]. exists 0%Q. split; [reflexivity|]. split; lra.
  - (* zero - finite *)
    right. injection Hx as <-.
    destruct (f32_value_finite sy my ey) as (q & Hq & Eq).
    rewrite Hl in Hq. injection Hq as <-.
    destruct sy.
    + cbn [f32_sub SFsub negb]. split; [reflexivity|].
      destruct (f32_value_finite false my ey) as (q & Hq & Eq').
      exists q. split; [exact Hq|].
      assert (q == - vl)%Q as ->.
      { rewrite Eq', Eq. unfold F2Q. change (Zneg my) with (- Zpos my).
        rewrite inject_Z_opp. ring. }
      split; nra.
    + exfalso. pose proof (F2Q_lt 0 (Zpos my) ey ltac:(lia)) as Hpos.
      rewrite F2Q_0 in Hpos. lra.
  - (* finite - zero *)
    right. injection Hl as <-.
    destruct (f32_value_finite sx mx ex) as (q & Hq & Eq).
    rewrite Hx in Hq. injection Hq as <-.
    destruct sx.
    + exfalso. pose proof (F2Q_lt (Zneg mx) 0 ex ltac:(lia)) as Hneg.
      rewrite F2Q_0 in Hneg. lra.
    + cbn [f32_sub SFsub]. split; [reflexivity|].
      exists vx. split; [exact Hx|]. split; nra.
  - (* finite - finite *)
    cbn [f32_wellformed] in Wx, Wl. apply Z.leb_le in Wx, Wl.
    destruct (f32_value_finite sx mx ex) as (q & Hq & Ex).
    rewrite Hx in Hq. injection Hq as <-.
    destruct (f32_value_finite sy my ey) as (q & Hq & Ey).
    rewrite Hl in Hq. injection Hq as <-.
    unfold f32_sub, SFsub.
    set (ez := Z.min ex ey).
    destruct (shl_align_value mx ex ez) as (kx & Hkx & _ & Emx & Hkx1 & _).
    destruct (shl_align_value my ey ez) as (ky & Hky & _ & Emy & Hky1 & _).
    specialize (Hkx1 ltac:(lia)). specialize (Hky1 ltac:(lia)).
    set (Mx := if sx then Zneg mx else Zpos mx) in *.
    set (My := if sy then Zneg my else Zpos my) in *.
    assert (cond_Zopp sx (Zpos (fst (shl_align mx ex ez))) = Mx * 2 ^ kx) as ->.
    { rewrite Emx. unfold Mx. destruct sx; cbn [cond_Zopp]; lia. }
    assert (cond_Zopp sy (Zpos (fst (shl_align my ey ez))) = My * 2 ^ ky) as ->.
    { rewrite Emy. unfold My. destruct sy; cbn [cond_Zopp]; lia. }
    set (M := Mx * 2 ^ kx - My * 2 ^ ky).
    assert (F2Q M ez == vx - vl)%Q as EM.
    { unfold M. unfold Z.sub. rewrite F2Q_plus.
      replace (- (My * 2 ^ ky)) with ((- My) * 2 ^ ky) by lia.
      rewrite <- !F2Q_shift by lia.
      replace (ez + kx) with ex by lia. replace (ez + ky) with ey by lia.
      rewrite Ex, Ey. unfold F2Q. rewrite inject_Z_opp. ring. }
    assert (0 <= M) as HM by (apply (F2Q_sign M ez); rewrite EM; lra).
    destruct M as [|Mp|Mp] eqn:EMp; try lia.
    + right. cbn [binary_normalize]. split; [reflexivity|].
      exists 0%Q. split; [reflexivity|]. rewrite F2Q_0 in EM. split; nra.
    + cbn [binary_normalize].
      destruct (binary_round_enclosure Mp ez ltac:(lia)) as [Hinf|(Hnn & q & Hq & H1 & H2)];
        [left; exact Hinf | right].
      split; [exact Hnn|]. exists q. split; [exact Hq|].
      rewrite EM in H1, H2. split; assumption.
Qed.


(** ** Multiplication and division *)

Lemma F2Q_mult (m m' e e' : Z) : (F2Q m e * F2Q m' e' == F2Q (m * m') (e + e'))%Q.
Proof. unfold F2Q. rewrite inject_Z_mult, pow2Q_add. ring. Qed.

Lemma F2Q_pos (m e : Z) : 0 < m -> (0 < F2Q m e)%Q.
Proof. intros Hm. rewrite <- (F2Q_0 e). apply F2Q_lt. exact Hm. Qed.

(** The product of a non-negative number and a positive finite one: the
    result overflows, or lies within a relative distance of [2^-23] of
    the exact product, or both stay below the smallest normal number. *)
Lemma f32_mul_enclosure (a : float32) (mb : positive) (eb : Z) (va vb : Q) :
  f32_nonneg a = true ->
  f32_value a = Some va -> f32_value (S754_finite false mb eb) = Some vb ->
  f32_mul a (S754_finite false mb eb) = S754_infinity false
  \/ exists q,
       f32_value (f32_mul a (S754_finite false mb eb)) = Some q
       /\ (((va * vb <= q * (1 + f32_eps))%Q /\ (q <= va * vb * (1 + f32_eps))%Q)
           \/ ((va * vb <= f32_tiny)%Q /\ (q <= f32_tiny)%Q)).
Proof.
  intros Ha Hva Hvb.
  assert (0 < f32_eps)%Q as Heps by reflexivity.
  destruct (f32_value_finite false mb eb) as (q & Hq & Eb).
  rewrite Hvb in Hq. injection Hq as <-.
  destruct a as [sa|sa| |[|] ma ea]; try discriminate.
  - right. injection Hva as <-. exists 0%Q. split; [reflexivity|]. left. split; nra.
  - destruct (f32_value_finite false ma ea) as (q & Hq & Ea).
    rewrite Hva in Hq. injection Hq as <-.
    unfold f32_mul, SFmul. cbn [xorb].
    assert (F2Q (Zpos (ma * mb)) (ea + eb) == va * vb)%Q as EV.
    { rewrite Ea, Eb, F2Q_mult. reflexivity. }
    assert (0 < va * vb)%Q as Hpos by (rewrite <- EV; apply F2Q_pos; lia).
    destruct (binary_round_aux_enclosure (Zpos (ma * mb)) (ea + eb) loc_Exact ltac:(lia))
      as [Hinf|(q & Hq & Hcases)]; [left; exact Hinf | right].
    exists q. split; [exact Hq|].
    assert (F2Q (Zpos (ma * mb)) (ea + eb) <= F2Q (Zpos (ma * mb) + 1) (ea + eb))%Q as Hstep
      by (apply F2Q_le; lia).
    destruct Hcases as [(_ & _ & _ & Hex)|[(H1 & H2)|(_ & H1 & H2)]].
    + left. specialize (Hex eq_refl). rewrite Hex, EV. split; nra.
    + left. rewrite EV in H2, Hstep. split; [lra | exact H2].
    + right. rewrite EV in Hstep. split; [lra | exact H2].
Qed.

(** The quotient of two positive finite numbers, when it is not below the
    normal range: the result overflows, or it is positive and within a
    relative distance of [2^-23] of the exact quotient. *)
Lemma f32_div_enclosure (ma mb : positive) (ea eb : Z) (va vb : Q) :
  f32_value (S754_finite false ma ea) = Some va ->
  f32_value (S754_finite false mb eb) = Some vb ->
  -125 <= Zpos (digits2_pos ma) + ea - (Zpos (digits2_pos mb) + eb) ->
  -149 <= ea - eb ->
  f32_div (S754_finite false ma ea) (S754_finite false mb eb) = S754_infinity false
  \/ (f32_nonneg (f32_div (S754_finite false ma ea) (S754_finite false mb eb)) = true
      /\ exists q,
           f32_value (f32_div (S754_finite false ma ea) (S754_finite false mb eb)) = Some q
           /\ (va <= q * vb * (1 + f32_eps))%Q
           /\ (q * vb <= va * (1 + f32_eps))%Q).
Proof.
  intros Hva Hvb Hdelta Hexp.
  assert (0 < f32_eps)%Q as Heps by reflexivity.
  destruct (f32_value_finite false ma ea) as (q & Hq & Ea).
  rewrite Hva in Hq. injection Hq as <-.
  destruct (f32_value_finite false mb eb) as (q & Hq & Eb).
  rewrite Hvb in Hq. injection Hq as <-.
  assert (0 < vb)%Q as Hbpos by (rewrite Eb; apply F2Q_pos; lia).
  unfold f32_div, SFdiv, SFdiv_core_binary. cbn [Zdigits2 xorb].
  pose proof (digits2_pos_bounds ma) as Hd1. pose proof (digits2_pos_bounds mb) as Hd2.
  set (d1 := Zpos (digits2_pos ma)) in *. set (d2 := Zpos (digits2_pos mb)) in *.
  set (e' := Z.min (fexp 24 128 (d1 + ea - (d2 + eb))) (ea - eb)).
  assert (e' <= d1 + ea - (d2 + eb) - 24 /\ e' <= ea - eb /\ -149 <= e') as (He1 & He2 & He3)
    by (unfold e', fexp, emin; lia).
  set (s := ea - eb - e').
  assert (0 <= s /\ d2 - d1 + 24 <= s) as [Hs Hs'] by (unfold s; lia).
  assert ((match s with
           | 0 => Zpos ma
           | Zpos _ => Z.shiftl (Zpos ma) s
           | Zneg _ => 0
           end) = Zpos ma * 2 ^ s) as ->.
  { destruct s eqn:Es; try lia. rewrite Z.shiftl_mul_pow2 by lia. reflexivity. }
  pose proof (Z.pow_pos_nonneg 2 s ltac:(lia) Hs) as Hps.
  set (m' := Zpos ma * 2 ^ s) in *.
  assert (fst (Z.div_eucl m' (Zpos mb)) = m' / Zpos mb) as Hq0 by reflexivity.
  destruct (Z.div_eucl m' (Zpos mb)) as [q0 r0]. cbn [fst] in Hq0. subst q0.
  set (q0 := m' / Zpos mb).
  assert (2 ^ 23 <= q0) as Hbig.
  { apply Z.div_le_lower_bound; [lia|].
    assert (2 ^ (23 + d2) <= 2 ^ (d1 - 1 + s)) as Hpow by (apply Z.pow_le_mono_r; lia).
    rewrite !Z.pow_add_r in Hpow by lia.
    apply Z.le_trans with (2 ^ (d1 - 1) * 2 ^ s); [nia|].
    unfold m'. apply Z.mul_le_mono_nonneg_r; lia. }
  assert (q0 * Zpos mb <= m' /\ m' + 1 <= (q0 + 1) * Zpos mb) as [Hlo Hhi].
  { unfold q0. pose proof (Z.mul_div_le m' (Zpos mb) ltac:(lia)).
    pose proof (Z.mul_succ_div_gt m' (Zpos mb) ltac:(lia)). lia. }
  assert (F2Q m' (e' + eb) == va)%Q as EA.
  { unfold m'. rewrite <- F2Q_shift by exact Hs. rewrite Ea.
    replace (e' + eb + s) with ea by (unfold s; lia). reflexivity. }
  assert (F2Q q0 e' * vb <= va)%Q as HA.
  { rewrite Eb, F2Q_mult, <- EA. apply F2Q_le. exact Hlo. }
  assert (va < F2Q (q0 + 1) e' * vb)%Q as HB.
  { rewrite Eb, F2Q_mult, <- EA. apply F2Q_lt. lia. }
  assert (F2Q (q0 + 1) e' == F2Q q0 e' + F2Q 1 e')%Q as Hsucc by apply F2Q_plus.
  assert (0 < F2Q 1 e')%Q as HU by (apply F2Q_pos; lia).
  assert ((8388608 # 1) * F2Q 1 e' <= F2Q q0 e')%Q as HC.
  { apply Qle_trans with (F2Q (2 ^ 23) e'); [|apply F2Q_le; exact Hbig].
    unfold F2Q. change (inject_Z (2 ^ 23)) with (8388608 # 1)%Q.
    change (inject_Z 1) with 1%Q. generalize (2 ^ e')%Q. intros U. lra. }
  set (A := F2Q q0 e') in *. set (U := F2Q 1 e') in *.
  assert (A + U <= A * (1 + f32_eps))%Q as Hulp by (unfold f32_eps; lra).
  destruct (binary_round_aux_enclosure q0 e' (new_location (Zpos mb) r0) ltac:(lia))
    as [Hinf|(q & Hq & Hcases)]; [left; exact Hinf | right].
  split.
  { destruct (binary_round_aux_nonneg q0 e' (new_location (Zpos mb) r0)) as [Hinf|Hnn].
    - intros Hnan. rewrite Hnan in Hq. discriminate.
    - rewrite Hinf in Hq. discriminate.
    - exact Hnn. }
  exists q. split; [exact Hq|].
  unfold f32_eps in *.
  destruct Hcases as [(_ & H1 & H2 & _)|[(H1 & H2)|(Habs & _)]].
  - fold A in H1, H2. rewrite Hsucc in H2, HB.
    assert (0 <= (q * (1 + (1 # 8388608)) - (A + U)) * vb)%Q
      by (apply Qmult_le_0_compat; lra).
    assert (0 <= (A * (1 + (1 # 8388608)) - q) * vb)%Q
      by (apply Qmult_le_0_compat; lra).
    split; lra.
  - fold A in H2. rewrite Hsucc in H1, HB.
    assert (0 <= (q * (1 + (1 # 8388608)) - (A + U)) * vb)%Q
      by (apply Qmult_le_0_compat; lra).
    assert (0 <= (A * (1 + (1 # 8388608)) - q) * vb)%Q
      by (apply Qmult_le_0_compat; lra).
    split; lra.
  - lia.
Qed.


(** ** The cell coordinate against the position *)

Lemma F2Q_pow2 (a e : Z) : 0 <= a -> 0 <= a + e -> (F2Q (2 ^ a) e == inject_Z (2 ^ (a + e)))%Q.
Proof.
  intros Ha Hae. unfold F2Q.
  rewrite (pow2Q_inject a Ha), (pow2Q_inject (a + e) Hae), pow2Q_add. reflexivity.
Qed.

(** A positive number below [2^126] has digits and exponent summing to at
    most 126. *)
Lemma f32_below_magnitude (m : positive) (e : Z) (v : Q) :
  f32_value (S754_finite false m e) = Some v -> (v < inject_Z (2 ^ 126))%Q ->
  Zpos (digits2_pos m) + e <= 126.
Proof.
  intros Hv Hlt.
  destruct (f32_value_finite false m e) as (q & Hq & E).
  rewrite Hv in Hq. injection Hq as <-.
  pose proof (digits2_pos_bounds m) as [Dlo _].
  set (d := Zpos (digits2_pos m)) in *.
  destruct (Z.le_gt_cases (d + e) 126) as [H|H]; [exact H | exfalso].
  assert (inject_Z (2 ^ 126) <= v)%Q; [|lra].
  rewrite E.
  apply Qle_trans with (F2Q (2 ^ (d - 1)) e); [|apply F2Q_le; exact Dlo].
  rewrite F2Q_pow2 by lia. rewrite <- Zle_Qle. apply Z.pow_le_mono_r; lia.
Qed.

(** The reciprocal of a positive width below [2^126], as
    [computeCellList] computes it: it overflows, or it is a positive
    finite number within a relative distance of [2^-23] of the exact
    reciprocal. *)
Lemma f32_reciprocal_enclosure (w : float32) (vw : Q) :
  f32_positive w = true -> f32_value w = Some vw ->
  f32_within 0 (2 ^ 126) w = true ->
  f32_div (f32_of_Z 1) w = S754_infinity false
  \/ exists ms es sigma,
       f32_div (f32_of_Z 1) w = S754_finite false ms es
       /\ f32_value (S754_finite false ms es) = Some sigma
       /\ (1 <= sigma * vw * (1 + f32_eps))%Q
       /\ (sigma * vw <= 1 + f32_eps)%Q.
Proof.
  intros Hpos Hvw Hin.
  apply f32_positive_spec in Hpos as (q & Hq & Hqpos).
  rewrite Hvw in Hq. injection Hq as <-.
  apply f32_within_spec in Hin as (q & Hq & _ & Hlt).
  rewrite Hvw in Hq. injection Hq as <-.
  destruct w as [sw|sw| |sw mw ew]; try discriminate.
  { injection Hvw as <-. lra. }
  destruct sw.
  { destruct (f32_value_negative mw ew) as (q & Hq & Hneg).
    rewrite Hvw in Hq. injection Hq as <-. lra. }
  pose proof (f32_below_magnitude mw ew vw Hvw Hlt) as Hmag.
  assert (0 < Zpos (digits2_pos mw)) as Hd by lia.
  change (f32_of_Z 1) with (S754_finite false 8388608 (-23)).
  assert (f32_value (S754_finite false 8388608 (-23)) = Some (8388608 # 8388608)) as Hone
    by reflexivity.
  destruct (f32_div_enclosure 8388608 mw (-23) ew _ vw Hone Hvw)
    as [Hinf|(Hnn & sigma & Hs & H1 & H2)].
  { change (Zpos (digits2_pos 8388608)) with 24. lia. }
  { lia. }
  { left. exact Hinf. }
  right.
  assert ((8388608 # 8388608) == 1)%Q as E1 by reflexivity.
  rewrite E1 in H1, H2.
  destruct (f32_div (S754_finite false 8388608 (-23)) (S754_finite false mw ew))
    as [sz|sz| |[|] ms es] eqn:Ediv; try discriminate.
  - exfalso. injection Hs as <-. assert (0 < f32_eps)%Q by reflexivity. lra.
  - exists ms, es, sigma. split; [reflexivity|]. split; [exact Hs|].
    split; [exact H1 | lra].
Qed.

(** If the cell coordinate of a position [x >= lo] falls into the unit
    interval of [k], then the position lies within the bounds
    [lo + k * w] and [lo + (k + 1) * w] of cell [k], widened by the
    slack. *)
Lemma cell_coordinate_position (x lo w : float32) (k : Z) (vx vl vw : Q) :
  f32_wellformed x = true -> f32_wellformed lo = true ->
  f32_value x = Some vx -> f32_value lo = Some vl -> f32_value w = Some vw ->
  (vl <= vx)%Q ->
  f32_positive w = true -> f32_within 0 (2 ^ 126) w = true ->
  0 <= k ->
  f32_within k (k + 1) (cell_coordinate x lo (f32_div (f32_of_Z 1) w)) = true ->
  (inject_Z k * vw <= (vx - vl) * f32_slack)%Q
  /\ (vx - vl < inject_Z (k + 1) * vw * f32_slack)%Q.
Proof.
  intros Wx Wl Hx Hl Hw Hle Hpos Hmag Hk Hin.
  assert (0 < vw)%Q as Hwpos.
  { apply f32_positive_spec in Hpos as (q & Hq & Hqpos).
    rewrite Hw in Hq. injection Hq as <-. exact Hqpos. }
  change (cell_coordinate x lo (f32_div (f32_of_Z 1) w))
    with (f32_mul (f32_sub x lo) (f32_div (f32_of_Z 1) w)) in Hin.
  apply f32_within_spec in Hin as (qv & Hqv & Hk1 & Hk2).
  rewrite inject_Z_plus in *. change (inject_Z 1) with 1%Q in *.
  set (K := inject_Z k) in *.
  assert (0 <= K)%Q as HK by (unfold K; rewrite <- (Zle_Qle 0); exact Hk).
  destruct (f32_reciprocal_enclosure w vw Hpos Hw Hmag)
    as [Hinf|(ms & es & sigma & Es & Hs & R1 & R2)].
  { exfalso. rewrite Hinf in Hqv.
    destruct (f32_sub x lo) as [| | |[|]]; discriminate. }
  rewrite Es in Hqv.
  destruct (f32_sub_enclosure x lo vx vl Wx Wl Hx Hl Hle)
    as [Hinf|(Hnn & o & Ho & S1 & S2)].
  { exfalso. rewrite Hinf in Hqv. discriminate. }
  assert (0 < f32_eps)%Q as Heps by reflexivity.
  assert (0 <= o)%Q as Hopos by nra.
  assert (0 < sigma)%Q as Hspos.
  { destruct (f32_value_finite false ms es) as (q & Hq & E).
    rewrite Hs in Hq. injection Hq as <-. rewrite E. apply F2Q_pos. lia. }
  destruct (f32_mul_enclosure (f32_sub x lo) ms es o sigma Hnn Ho Hs)
    as [Hinf|(q & Hq & Hcases)].
  { exfalso. rewrite Hinf in Hqv. discriminate. }
  rewrite Hqv in Hq. injection Hq as <-.
  set (X := (vx - vl)%Q) in *.
  assert (0 <= X)%Q as HX by (unfold X; lra).
  assert (f32_tiny < 1)%Q as Htiny by reflexivity.
  unfold f32_slack, f32_eps in *.
  set (u := (1 + (1 # 8388608))%Q) in *.
  assert (1 < u)%Q as Hu by reflexivity.
  (* the exact product stays below [(k + 1) * u] *)
  assert (o * sigma < (K + 1) * u)%Q as Hprod.
  { destruct Hcases as [[M1 M2]|[T1 T2]]; [nra | nra]. }
  split.
  - destruct (Z.eq_dec k 0) as [->|Hk0].
    + unfold K. change (inject_Z 0) with 0%Q.
      assert (0 <= X * (u * u * u))%Q by (apply Qmult_le_0_compat; nra). lra.
    + assert (1 <= K)%Q as HK1 by (unfold K; rewrite <- (Zle_Qle 1); lia).
      destruct Hcases as [[M1 M2]|[T1 T2]]; [|lra].
      (* k <= qv <= o * sigma * u, and sigma * vw <= u *)
      assert (K * vw <= o * sigma * u * vw)%Q as L1.
      { apply Qmult_le_compat_r; lra. }
      assert (o * (sigma * vw) <= o * u)%Q as L2.
      { rewrite !(Qmult_comm o). apply Qmult_le_compat_r; lra. }
      assert (o * u * u <= X * u * u * u)%Q as L3.
      { apply Qmult_le_compat_r; [|lra]. apply Qmult_le_compat_r; lra. }
      assert (o * sigma * u * vw == o * (sigma * vw) * u)%Q as E1 by ring.
      assert (o * (sigma * vw) * u <= o * u * u)%Q as L4.
      { apply Qmult_le_compat_r; lra. }
      lra.
  - (* X <= o * u <= o * sigma * vw * u * u < (k + 1) * u * vw * u * u *)
    assert (o <= o * (sigma * vw * u))%Q as U1.
    { rewrite <- (Qmult_1_r o) at 1. rewrite !(Qmult_comm o).
      apply Qmult_le_compat_r; lra. }
    assert (o * sigma * (vw * u * u) < (K + 1) * u * (vw * u * u))%Q as U2.
    { apply Qmult_lt_compat_r; [|exact Hprod].
      apply Qmult_lt_0_compat; [apply Qmult_lt_0_compat|]; lra. }
    assert (o * u <= o * (sigma * vw * u) * u)%Q as U3.
    { apply Qmult_le_compat_r; lra. }
    lra.
Qed.

(** * Grid dimensioning and capacity estimation *)

Section Dimensioning.
Context {Scalar : Type} `{ScalarOps Scalar}.
Variable NDEBUG : bool.
Variable powf : float32 -> float32 -> float32.

(** The branch without scale-down: for a box with positive extents whose
    unscaled cell count, as the comparison sees it, does not exceed
    [m_max_cells], [computeDimensions] returns the truncated quotients. *)
Lemma computeDimensions_raw (sys : SystemDefinition Scalar) (c : CellList Scalar) :
  box_positive (getBox sys) = true ->
  u32 (numCells (raw_dim sys c)) <= m_max_cells c ->
  computeDimensions NDEBUG powf sys c = (Returned (raw_dim sys c), c).
Proof.
  intros Hbox Hmax.
  unfold computeDimensions, assert_, bind, gets, ret.
  unfold box_positive in Hbox. rewrite Hbox, orb_true_r.
  unfold raw_dim, numCells, axis_cells in *. cbn [u3x u3y u3z] in Hmax.
  destruct (getNDimensions sys =? 2).
  - destruct (Z.gtb_spec
      (u32 (S_to_uint (Sdiv (Ssub (xhi (getBox sys)) (xlo (getBox sys))) (m_nominal_width c))
            * S_to_uint (Sdiv (Ssub (yhi (getBox sys)) (ylo (getBox sys))) (m_nominal_width c))
            * 3)) (m_max_cells c)); [lia | reflexivity].
  - destruct (Z.gtb_spec
      (u32 (S_to_uint (Sdiv (Ssub (xhi (getBox sys)) (xlo (getBox sys))) (m_nominal_width c))
            * S_to_uint (Sdiv (Ssub (yhi (getBox sys)) (ylo (getBox sys))) (m_nominal_width c))
            * S_to_uint (Sdiv (Ssub (zhi (getBox sys)) (zlo (getBox sys))) (m_nominal_width c))))
      (m_max_cells c)); [lia | reflexivity].
Qed.

End Dimensioning.

Section DimensioningSinglePrecision.
Variable NDEBUG : bool.
Variable powf : float32 -> float32 -> float32.

Lemma axis_fits_cells (lo hi w : float32) :
  axis_fits lo hi w = true ->
  1 <= axis_cells lo hi w
  /\ f32_within (axis_cells lo hi w) (axis_cells lo hi w + 1) (f32_div (f32_sub hi lo) w)
     = true.
Proof.
  unfold axis_fits. intros Hfit.
  apply andb_prop in Hfit as [Hfit Hlt]. apply andb_prop in Hfit as [Hpos Hle].
  exact (f32_to_uint_quotient (f32_sub hi lo) w Hpos Hle Hlt).
Qed.

(** C6 (as amended). Take a box with positive extents and a positive
    nominal width that on every axis does not exceed the extent, the
    quotient of the two staying below [2^32] (in two dimensions the z axis
    is exempt), and let the unscaled cell count not exceed [m_max_cells],
    so that no scale-down applies. Then [computeDimensions] returns,
    without touching the state, a grid whose components are all at least
    1: each is the integer part of the single-precision quotient of the
    extent by the nominal width, and 3 along z in two dimensions. *)
Theorem computeDimensions_cells_at_least_one
    (sys : SystemDefinition Scalar32) (c : CellList Scalar32) :
  let box := getBox sys in
  let w := m_nominal_width c in
  box_positive box = true ->
  axis_fits (xlo box) (xhi box) w = true ->
  axis_fits (ylo box) (yhi box) w = true ->
  (getNDimensions sys <> 2 -> axis_fits (zlo box) (zhi box) w = true) ->
  u32 (numCells (raw_dim sys c)) <= m_max_cells c ->
  exists d,
    computeDimensions NDEBUG powf sys c = (Returned d, c)
    /\ all_at_least_one d
    /\ f32_within (u3x d) (u3x d + 1) (f32_div (f32_sub (xhi box) (xlo box)) w) = true
    /\ f32_within (u3y d) (u3y d + 1) (f32_div (f32_sub (yhi box) (ylo box)) w) = true
    /\ (if getNDimensions sys =? 2 then u3z d = 3
        else f32_within (u3z d) (u3z d + 1) (f32_div (f32_sub (zhi box) (zlo box)) w)
             = true).
Proof.
  intros box w Hbox Hx Hy Hz Hmax.
  exists (raw_dim sys c).
  split; [apply computeDimensions_raw; assumption|].
  destruct (axis_fits_cells _ _ _ Hx) as [Hx1 Hxq].
  destruct (axis_fits_cells _ _ _ Hy) as [Hy1 Hyq].
  unfold all_at_least_one, raw_dim. cbn [u3x u3y u3z]. fold box w.
  destruct (Z.eqb_spec (getNDimensions sys) 2) as [E|E].
  - repeat split; first [assumption | lia].
  - destruct (axis_fits_cells _ _ _ (Hz E)) as [Hz1 Hzq].
    repeat split; assumption.
Qed.

End DimensioningSinglePrecision.

(** C6 (counterexample). Three boxes with positive extents for which a
    component of the returned grid is 0. In the unit cube with nominal
    width 2 the extents are below the nominal width and all three
    components come out 0. In the cube of side [2^32] with nominal width 1
    every quotient is [2^32], which the conversion to [unsigned int] wraps
    to 0. In a two-dimensional box of extents 1 and 4 with nominal width 1
    and at most 3 cells, the unscaled grid (1, 4, 3) has 12 cells, the
    scale factor is [powf(0.25, 0.5)], and as soon as [powf] returns one
    half there the component along x is [int(1 * 0.5) = 0]. *)
Lemma computeDimensions_zero_cells :
  (box_positive (Fixtures.cube 1) = true
   /\ computeDimensions false Fixtures.powf_uncalled
        (mkSystem 3 (Fixtures.cube 1) []) (Fixtures.engine 2)
      = (Returned (make_uint3 0 0 0), Fixtures.engine 2))
  /\ (box_positive (Fixtures.cube (2 ^ 32)) = true
      /\ computeDimensions false Fixtures.powf_uncalled
           (mkSystem 3 (Fixtures.cube (2 ^ 32)) []) (Fixtures.engine 1)
         = (Returned (make_uint3 0 0 0), Fixtures.engine 1))
  /\ (box_positive (getBox Fixtures.strip) = true
      /\ raw_dim Fixtures.strip Fixtures.capped = make_uint3 1 4 3
      /\ axis_fits (Fixtures.F 0) (Fixtures.F 1) (m_nominal_width Fixtures.capped) = true
      /\ axis_fits (Fixtures.F 0) (Fixtures.F 4) (m_nominal_width Fixtures.capped) = true
      /\ m_max_cells Fixtures.capped = 3
      /\ forall powf : float32 -> float32 -> float32,
           powf (f32_div (Fixtures.F 1) (Fixtures.F 4)) (f32_div (Fixtures.F 1) (Fixtures.F 2))
           = f32_div (Fixtures.F 1) (Fixtures.F 2) ->
           computeDimensions false powf Fixtures.strip Fixtures.capped
           = (Returned (make_uint3 0 2 3), Fixtures.capped)).
Proof.
  split; [split; vm_compute; reflexivity|].
  split; [split; vm_compute; reflexivity|].
  split; [vm_compute; reflexivity|]. split; [vm_compute; reflexivity|].
  split; [vm_compute; reflexivity|]. split; [vm_compute; reflexivity|].
  split; [vm_compute; reflexivity|].
  intros powf Hhalf.
  assert (computeDimensions false powf Fixtures.strip Fixtures.capped
          = (Returned
               (make_uint3
                  (u32 (f32_to_int
                          (f32_mul (f32_of_Z 1)
                             (powf (f32_div (f32_of_Z 3) (f32_of_Z 12))
                                   (f32_div (f32_of_Z 1) (f32_of_Z 2))))))
                  (u32 (f32_to_int
                          (f32_mul (f32_of_Z 4)
                             (powf (f32_div (f32_of_Z 3) (f32_of_Z 12))
                                   (f32_div (f32_of_Z 1) (f32_of_Z 2))))))
                  3),
             Fixtures.capped)) as -> by reflexivity.
  assert (f32_div (f32_of_Z 3) (f32_of_Z 12) = f32_div (Fixtures.F 1) (Fixtures.F 4)) as ->
    by (vm_compute; reflexivity).
  change (f32_div (f32_of_Z 1) (f32_of_Z 2)) with (f32_div (Fixtures.F 1) (Fixtures.F 2)).
  rewrite Hhalf. vm_compute. reflexivity.
Qed.

(** C5. With 29 particles in a single cell the estimate [ceilf(29 * 1.1f / 1)]
    is exactly 32, already a multiple of 32, and the capacity that
    [initializeMemory] stores is 64. *)
Theorem initializeMemory_Nmax_skips_multiple :
  let sys := mkSystem 3 (Fixtures.cube 1) (replicate 29 (Fixtures.at_ 0 0 0)) in
  let c := set_geometry (make_uint3 1 1 1) (make_scalar3 (Fixtures.F 1) (Fixtures.F 1) (Fixtures.F 1))
             (Fixtures.engine 1) in
  f32_to_uint (ceilf (f32_div (f32_mul (f32_of_Z (getN sys)) f32_1_1) (f32_of_Z 1))) = 32
  /\ fst (initializeMemory sys c) = Returned tt
  /\ m_Nmax (snd (initializeMemory sys c)) = 64.
Proof. cbv zeta. split; [|split]; vm_compute; reflexivity. Qed.

(** * The adjacency table *)

Lemma sort_insert_perm (x : Z) (l : list Z) : sort_insert x l ≡ₚ x :: l.
Proof.
  induction l as [|y l IH]; cbn; [reflexivity|].
  destruct (x <=? y); [reflexivity|].
  rewrite IH. apply Permutation_swap.
Qed.

Lemma std_sort_perm (l : list Z) : std_sort l ≡ₚ l.
Proof.
  induction l as [|x l IH]; cbn; [reflexivity|].
  rewrite sort_insert_perm, IH. reflexivity.
Qed.

Lemma length_std_sort (l : list Z) : length (std_sort l) = length l.
Proof. apply Permutation_length, std_sort_perm. Qed.

Lemma sort_insert_sorted (x : Z) (l : list Z) :
  Sorted Z.le l -> Sorted Z.le (sort_insert x l).
Proof.
  induction 1 as [|y l Hs IH Hhd]; cbn.
  - repeat constructor.
  - destruct (Z.leb_spec x y).
    + constructor; [constructor; assumption | constructor; assumption].
    + constructor; [exact IH|].
      destruct l as [|z l]; cbn.
      * constructor. lia.
      * inversion Hhd; subst. destruct (Z.leb_spec x z); constructor; lia.
  Qed.

Lemma std_sort_sorted (l : list Z) : Sorted Z.le (std_sort l).
Proof.
  induction l as [|x l IH]; cbn; [constructor | apply sort_insert_sorted, IH].
Qed.

Section Adjacency.
Context {Scalar : Type} `{ScalarOps Scalar}.
Implicit Type c : CellList Scalar.

Lemma set_cell_adj_id c : set_cell_adj (m_cell_adj c) c = c.
Proof. destruct c; reflexivity. Qed.

Lemma adj_ready_set_cell_adj c (a : list Z) :
  adj_ready c -> length a = length (m_cell_adj c) -> adj_ready (set_cell_adj a c).
Proof.
  unfold adj_ready. cbn. intros (Hr & Hx & Hy & Hz & Hn & Hci & Hcadj & Hlen) Ha.
  rewrite Ha. auto 10.
Qed.

Lemma stencil_pos (r : Z) : 0 <= r -> 1 <= stencil r.
Proof. unfold stencil. intros. nia. Qed.

Lemma adj_entry_spec c (cur off ni nj nk : Z) :
  adj_ready c -> 0 <= cur < numCells (m_dim c) -> 0 <= off < stencil (m_radius c) ->
  adj_entry cur off ni nj nk c
  = (Returned (off + 1),
     set_cell_adj (<[Z.to_nat (cur * stencil (m_radius c) + off) := adj_value c (ni, nj, nk)]>
                     (m_cell_adj c)) c).
Proof.
  intros (Hr & Hx & Hy & Hz & Hn & Hci & Hcadj & Hlen) Hcur Hoff.
  unfold adj_entry, store_cell_adj, bind, gets, modify, ret.
  unfold Index2D_at. rewrite Hcadj.
  assert (0 <= cur * stencil (m_radius c) + off < stencil (m_radius c) * numCells (m_dim c))
    as Hidx by (apply slot_bound; lia).
  rewrite (u32_small (cur * _ + off)) by machine_lia.
  destruct (Z.ltb_spec (cur * stencil (m_radius c) + off) (Z.of_nat (length (m_cell_adj c))));
    [|lia].
  assert (stencil (m_radius c) <= stencil (m_radius c) * numCells (m_dim c)) by nia.
  rewrite u32_small by machine_lia. reflexivity.
Qed.

Lemma adj_fold_spec c (cur : Z) (ts : list (Z * Z * Z)) :
  adj_ready c -> 0 <= cur < numCells (m_dim c) ->
  Z.of_nat (length ts) <= stencil (m_radius c) ->
  foldM (fun off t => adj_entry cur off t.1.1 t.1.2 t.2) 0 ts c
  = (Returned (Z.of_nat (length ts)),
     set_cell_adj (splice (Z.to_nat (cur * stencil (m_radius c)))
                          (adj_value c <$> ts) (m_cell_adj c)) c).
Proof.
  intros Hready Hcur. induction ts as [|t ts IH] using rev_ind; intros Hlen.
  - cbn. unfold ret. rewrite splice_nil, set_cell_adj_id. reflexivity.
  - rewrite length_app in Hlen. cbn in Hlen.
    rewrite foldM_app. unfold bind. rewrite IH by lia. cbn [foldM]. unfold bind.
    pose proof Hready as (Hr & Hx & Hy & Hz & Hn & Hci & Hcadj & Hal).
    pose proof (slot_bound cur (Z.of_nat (length ts)) (stencil (m_radius c))
                  (numCells (m_dim c)) Hcur ltac:(lia)) as Hslot.
    assert (0 <= cur * stencil (m_radius c)) as Hbase
      by (apply Z.mul_nonneg_nonneg; lia).
    assert (Z.to_nat (cur * stencil (m_radius c)) + length ts < length (m_cell_adj c))%nat
      as Hin by lia.
    rewrite adj_entry_spec.
    + cbn. unfold ret. f_equal.
      * f_equal. rewrite length_app. cbn. lia.
      * unfold set_cell_adj at 1. cbn. unfold set_cell_adj. f_equal.
        replace (Z.to_nat (cur * stencil (m_radius c) + Z.of_nat (length ts)))
          with (Z.to_nat (cur * stencil (m_radius c)) + length (adj_value c <$> ts))%nat
          by (rewrite length_fmap; lia).
        rewrite insert_splice_snoc by (rewrite length_fmap; exact Hin).
        rewrite fmap_app. destruct t as [[ni nj] nk]. reflexivity.
    + apply adj_ready_set_cell_adj; [exact Hready|].
      apply length_splice. rewrite length_fmap. lia.
    + exact Hcur.
    + cbn. lia.
Qed.

Lemma length_adj_offsets (r i j k : Z) :
  0 <= r -> Z.of_nat (length (adj_offsets r i j k)) = stencil r.
Proof.
  intros Hr. unfold adj_offsets, stencil.
  rewrite (length_bind_const _ _ (Z.to_nat (2 * r + 1) * Z.to_nat (2 * r + 1))).
  - rewrite length_seqZ. lia.
  - intros nk. rewrite (length_bind_const _ _ (Z.to_nat (2 * r + 1))).
    + rewrite length_seqZ. reflexivity.
    + intros nj. rewrite length_fmap, length_seqZ. reflexivity.
Qed.

(** The three inner loops visit [adj_offsets] in order. *)
Lemma adj_loops_flat c (cur r i j k off : Z) :
  foldM (fun offset nk =>
    foldM (fun offset nj =>
      foldM (fun offset ni => adj_entry cur offset ni nj nk)
            offset (seqZ (i - r) (2 * r + 1)))
          offset (seqZ (j - r) (2 * r + 1)))
        off (seqZ (k - r) (2 * r + 1)) c
  = foldM (fun off t => adj_entry cur off t.1.1 t.1.2 t.2) off (adj_offsets r i j k) c.
Proof.
  unfold adj_offsets. rewrite <- foldM_bind. apply foldM_ext. intros b nk c1.
  rewrite <- foldM_bind. apply foldM_ext. intros b' nj c2.
  rewrite <- foldM_fmap. reflexivity.
Qed.

Lemma sort_splice (b : nat) (vs a : list Z) :
  (b + length vs <= length a)%nat ->
  take b (splice b vs a)
    ++ std_sort (take (length vs) (drop b (splice b vs a)))
    ++ drop (b + length vs) (splice b vs a)
  = splice b (std_sort vs) a.
Proof.
  intros Hb. rewrite take_splice by lia. rewrite row_splice_same by lia.
  unfold splice at 2. rewrite length_std_sort. do 2 f_equal.
  unfold splice. rewrite app_assoc.
  rewrite drop_app_length'; [reflexivity|].
  rewrite length_app, length_take. lia.
Qed.

(** In a grid that has the cell, the stored neighbour id is the spec's
    floor-modulo one. *)
Lemma adj_value_floor_mod c (t : Z * Z * Z) :
  adj_ready c -> 1 <= u3x (m_dim c) -> 1 <= u3y (m_dim c) -> 1 <= u3z (m_dim c) ->
  adj_value c t
  = flat_cell (m_dim c) (t.1.1 `mod` u3x (m_dim c)) (t.1.2 `mod` u3y (m_dim c))
              (t.2 `mod` u3z (m_dim c))
  /\ 0 <= adj_value c t < numCells (m_dim c).
Proof.
  intros (Hr & _ & _ & _ & Hn & Hci & Hcadj & Hlen) Hx Hy Hz.
  pose proof (stencil_pos _ Hr) as Hs.
  assert (numCells (m_dim c) < 2 ^ 31) as Hcells by nia.
  assert (u3x (m_dim c) < 2 ^ 31 /\ u3y (m_dim c) < 2 ^ 31 /\ u3z (m_dim c) < 2 ^ 31)
    as (Hbx & Hby & Hbz) by (apply dims_below_cells; [lia | lia | lia | exact Hcells]).
  unfold adj_value. rewrite Hci. unfold Index3D_at. cbn [i3_w i3_h i3_d].
  rewrite !int_of_uint_small by assumption.
  rewrite !wrap_index_mod by lia.
  pose proof (flat_cell_bound (m_dim c) (t.1.1 `mod` u3x (m_dim c))
                (t.1.2 `mod` u3y (m_dim c)) (t.2 `mod` u3z (m_dim c))
                ltac:(apply Z.mod_pos_bound; lia) ltac:(apply Z.mod_pos_bound; lia)
                ltac:(apply Z.mod_pos_bound; lia)) as Hb.
  unfold flat_cell in *. rewrite u32_small by machine_lia. split; [reflexivity | exact Hb].
Qed.

(** One iteration of the outer loops rewrites exactly the row of its cell,
    with the sorted neighbour list. *)
Lemma adj_cell_spec c (i j k : Z) :
  adj_ready c ->
  0 <= i < u3x (m_dim c) -> 0 <= j < u3y (m_dim c) -> 0 <= k < u3z (m_dim c) ->
  adj_cell i j k c
  = (Returned tt,
     set_cell_adj
       (splice (Z.to_nat (flat_cell (m_dim c) i j k * stencil (m_radius c)))
               (std_sort (floor_mod_neighbours (m_dim c) (m_radius c) i j k))
               (m_cell_adj c)) c).
Proof.
  intros Hready Hi Hj Hk.
  pose proof Hready as (Hr & _ & _ & _ & Hn & Hci & Hcadj & Hlen).
  pose proof (stencil_pos _ Hr) as Hs.
  pose proof (flat_cell_bound (m_dim c) i j k Hi Hj Hk) as Hcur.
  assert (stencil (m_radius c) <= stencil (m_radius c) * numCells (m_dim c)) as Hsn by nia.
  assert (m_radius c < stencil (m_radius c)) as Hrs by (unfold stencil; nia).
  assert (numCells (m_dim c) <= stencil (m_radius c) * numCells (m_dim c)) by nia.
  assert (Index3D_at (m_cell_indexer c) i j k = flat_cell (m_dim c) i j k) as Hidx.
  { rewrite Hci. unfold Index3D_at. cbn [i3_w i3_h i3_d].
    fold (flat_cell (m_dim c) i j k). apply u32_small. machine_lia. }
  unfold adj_cell, bind at 1 2 3, gets.
  rewrite !Hidx.
  rewrite int_of_uint_small by machine_lia.
  unfold bind at 1. rewrite adj_loops_flat.
  rewrite adj_fold_spec; [| exact Hready | exact Hcur | rewrite length_adj_offsets; lia].
  rewrite length_adj_offsets by exact Hr.
  unfold sort_cell_adj, bind, gets, modify. cbn [m_cell_adj set_cell_adj m_cell_adj_indexer].
  unfold Index2D_at. rewrite Hcadj.
  set (W := stencil (m_radius c)) in *.
  set (cur := flat_cell (m_dim c) i j k) in *.
  pose proof (slot_bound cur 0 W (numCells (m_dim c)) Hcur ltac:(lia)) as Hlo.
  assert (0 <= cur * W) as Hbase by (apply Z.mul_nonneg_nonneg; lia).
  assert (cur * W + W <= W * numCells (m_dim c)) as Hhi.
  { assert (cur * W <= (numCells (m_dim c) - 1) * W)
      by (apply Z.mul_le_mono_nonneg_r; lia).
    rewrite Z.mul_sub_distr_r in *. lia. }
  rewrite !u32_small by machine_lia.
  set (vs := adj_value c <$> adj_offsets (m_radius c) i j k).
  assert (Z.of_nat (length vs) = W) as Hvs
    by (unfold vs; rewrite length_fmap; apply length_adj_offsets; exact Hr).
  assert (Z.to_nat (cur * W) + length vs <= length (m_cell_adj c))%nat as Hfit by lia.
  rewrite length_splice by exact Hfit.
  destruct (Z.leb_spec (cur * W + 0) (cur * W + W)); [|lia].
  destruct (Z.leb_spec (cur * W + W) (Z.of_nat (length (m_cell_adj c)))); [|lia].
  cbn [andb]. f_equal. unfold set_cell_adj. cbn. f_equal.
  replace (Z.to_nat (cur * W + 0)) with (Z.to_nat (cur * W)) by lia.
  replace (Z.to_nat (cur * W + W - (cur * W + 0))) with (length vs) by lia.
  replace (Z.to_nat (cur * W + W)) with (Z.to_nat (cur * W) + length vs)%nat by lia.
  rewrite sort_splice by exact Hfit.
  do 2 f_equal. unfold vs, floor_mod_neighbours.
  apply list_fmap_ext. intros n t _.
  apply adj_value_floor_mod; [exact Hready | lia | lia | lia].
Qed.

Lemma adj_frame_fields c0 c' :
  adj_frame c0 c' ->
  m_dim c' = m_dim c0 /\ m_radius c' = m_radius c0
  /\ m_cell_adj_indexer c' = m_cell_adj_indexer c0
  /\ m_cell_indexer c' = m_cell_indexer c0.
Proof. intros [_ ->]. repeat split. Qed.

Lemma adj_cell_rows c0 c (i j k : Z) :
  adj_frame c0 c ->
  0 <= i < u3x (m_dim c0) -> 0 <= j < u3y (m_dim c0) -> 0 <= k < u3z (m_dim c0) ->
  exists c',
    adj_cell i j k c = (Returned tt, c') /\ adj_frame c0 c'
    /\ adj_row_done (m_dim c0) (m_radius c0) i j k c'
    /\ forall cell, 0 <= cell < numCells (m_dim c0) ->
         cell <> flat_cell (m_dim c0) i j k ->
         cell_adj_list c' cell = cell_adj_list c cell.
Proof.
  intros Hfr Hi Hj Hk.
  destruct (adj_frame_fields _ _ Hfr) as (Hd & Hrad & Hcadj & Hci).
  destruct Hfr as [Hready Hc].
  pose proof Hready as (Hr & _ & _ & _ & Hn & _ & Hw & Hlen).
  rewrite Hd, Hrad in *.
  pose proof (stencil_pos _ Hr) as Hs.
  pose proof (flat_cell_bound (m_dim c0) i j k Hi Hj Hk) as Hcur.
  set (W := stencil (m_radius c0)) in *.
  set (cur := flat_cell (m_dim c0) i j k) in *.
  set (vs := std_sort (floor_mod_neighbours (m_dim c0) (m_radius c0) i j k)).
  assert (Z.of_nat (length vs) = W) as Hvs.
  { unfold vs, floor_mod_neighbours. rewrite length_std_sort, length_fmap.
    apply length_adj_offsets. exact Hr. }
  assert (forall cell, 0 <= cell < numCells (m_dim c0) ->
            0 <= cell * W /\ cell * W + W <= W * numCells (m_dim c0)) as Hrow.
  { intros cell Hcell.
    pose proof (slot_bound cell 0 W (numCells (m_dim c0)) Hcell ltac:(lia)).
    assert (cell * W <= (numCells (m_dim c0) - 1) * W)
      by (apply Z.mul_le_mono_nonneg_r; lia).
    rewrite Z.mul_sub_distr_r in *. lia. }
  destruct (Hrow cur Hcur) as [Hlo Hhi].
  assert (Z.to_nat (cur * W) + length vs <= length (m_cell_adj c))%nat as Hfit by lia.
  eexists. split; [|split; [|split]].
  - rewrite adj_cell_spec by (rewrite ?Hd; assumption). rewrite Hd, Hrad. reflexivity.
  - split.
    + apply adj_ready_set_cell_adj; [exact Hready|]. apply length_splice. exact Hfit.
    + rewrite Hc at 2. reflexivity.
  - unfold adj_row_done, cell_adj_list. cbn [m_cell_adj_indexer m_cell_adj set_cell_adj].
    unfold Index2D_at. rewrite Hw. fold W cur vs.
    rewrite (u32_small (cur * W + 0)) by machine_lia.
    replace (Z.to_nat (cur * W + 0)) with (Z.to_nat (cur * W)) by lia.
    replace (Z.to_nat W) with (length vs) by lia.
    apply row_splice_same. lia.
  - intros cell Hcell Hne. unfold cell_adj_list.
    cbn [m_cell_adj_indexer m_cell_adj set_cell_adj].
    unfold Index2D_at. rewrite Hw. fold W cur vs.
    destruct (Hrow cell Hcell) as [Hlo' Hhi'].
    rewrite (u32_small (cell * W + 0)) by machine_lia.
    apply row_splice_other; [exact Hfit|].
    destruct (Z.lt_trichotomy cell cur) as [Hlt|[Heq|Hgt]]; [left | contradiction | right].
    + assert ((cell + 1) * W <= cur * W) by (apply Z.mul_le_mono_nonneg_r; lia). lia.
    + assert ((cur + 1) * W <= cell * W) by (apply Z.mul_le_mono_nonneg_r; lia). lia.
Qed.

Lemma adj_cell_keeps_frame c0 (i j k : Z) :
  0 <= i < u3x (m_dim c0) -> 0 <= j < u3y (m_dim c0) -> 0 <= k < u3z (m_dim c0) ->
  returns (adj_frame c0) (adj_cell i j k) (fun _ => adj_frame c0).
Proof.
  intros Hi Hj Hk c Hc.
  destruct (adj_cell_rows c0 c i j k Hc Hi Hj Hk) as (c' & Hrun & Hfr & _).
  exists tt, c'. split; assumption.
Qed.

Lemma adj_cell_hits c0 (i j k : Z) :
  0 <= i < u3x (m_dim c0) -> 0 <= j < u3y (m_dim c0) -> 0 <= k < u3z (m_dim c0) ->
  returns (adj_frame c0) (adj_cell i j k)
    (fun _ c' => adj_frame c0 c' /\ adj_row_done (m_dim c0) (m_radius c0) i j k c').
Proof.
  intros Hi Hj Hk c Hc.
  destruct (adj_cell_rows c0 c i j k Hc Hi Hj Hk) as (c' & Hrun & Hfr & Hrow & _).
  exists tt, c'. auto.
Qed.

Lemma adj_cell_keeps_row c0 (i j k i0 j0 k0 : Z) :
  0 <= i < u3x (m_dim c0) -> 0 <= j < u3y (m_dim c0) -> 0 <= k < u3z (m_dim c0) ->
  0 <= i0 < u3x (m_dim c0) -> 0 <= j0 < u3y (m_dim c0) -> 0 <= k0 < u3z (m_dim c0) ->
  returns (fun c => adj_frame c0 c /\ adj_row_done (m_dim c0) (m_radius c0) i0 j0 k0 c)
    (adj_cell i j k)
    (fun _ c' => adj_frame c0 c' /\ adj_row_done (m_dim c0) (m_radius c0) i0 j0 k0 c').
Proof.
  intros Hi Hj Hk Hi0 Hj0 Hk0 c [Hc Hdone].
  destruct (adj_cell_rows c0 c i j k Hc Hi Hj Hk) as (c' & Hrun & Hfr & Hrow & Hother).
  exists tt, c'. split; [exact Hrun|]. split; [exact Hfr|].
  destruct (decide (flat_cell (m_dim c0) i0 j0 k0 = flat_cell (m_dim c0) i j k)) as [Heq|Hne].
  - apply flat_cell_inj in Heq as (-> & -> & ->); assumption.
  - unfold adj_row_done in *. rewrite Hother; [exact Hdone | | exact Hne].
    apply flat_cell_bound; assumption.
Qed.

Lemma adj_loops_keep_frame c0 :
  returns (adj_frame c0)
    (forM_ (seqZ 0 (int_of_uint (u3z (m_dim c0)))) (fun k =>
       forM_ (seqZ 0 (int_of_uint (u3y (m_dim c0)))) (fun j =>
         forM_ (seqZ 0 (int_of_uint (u3x (m_dim c0)))) (fun i => adj_cell i j k))))
    (fun _ => adj_frame c0).
Proof.
  pose proof (int_of_uint_le (u3x (m_dim c0))).
  pose proof (int_of_uint_le (u3y (m_dim c0))).
  pose proof (int_of_uint_le (u3z (m_dim c0))).
  apply returns_forM. intros k Hk%elem_of_seqZ.
  apply returns_forM. intros j Hj%elem_of_seqZ.
  apply returns_forM. intros i Hi%elem_of_seqZ.
  apply adj_cell_keeps_frame; lia.
Qed.

Lemma adj_loops_fill_row c0 (i0 j0 k0 : Z) :
  adj_ready c0 ->
  0 <= i0 < u3x (m_dim c0) -> 0 <= j0 < u3y (m_dim c0) -> 0 <= k0 < u3z (m_dim c0) ->
  returns (adj_frame c0)
    (forM_ (seqZ 0 (int_of_uint (u3z (m_dim c0)))) (fun k =>
       forM_ (seqZ 0 (int_of_uint (u3y (m_dim c0)))) (fun j =>
         forM_ (seqZ 0 (int_of_uint (u3x (m_dim c0)))) (fun i => adj_cell i j k))))
    (fun _ c' => adj_frame c0 c' /\ adj_row_done (m_dim c0) (m_radius c0) i0 j0 k0 c').
Proof.
  intros (Hr & _ & _ & _ & Hn & _) Hi0 Hj0 Hk0.
  pose proof (stencil_pos _ Hr) as Hs.
  assert (numCells (m_dim c0) < 2 ^ 31) as Hcells by nia.
  assert (u3x (m_dim c0) < 2 ^ 31 /\ u3y (m_dim c0) < 2 ^ 31 /\ u3z (m_dim c0) < 2 ^ 31)
    as (Hbx & Hby & Hbz) by (apply dims_below_cells; [lia | lia | lia | exact Hcells]).
  rewrite !int_of_uint_small by assumption.
  assert (forall j k, 0 <= j < u3y (m_dim c0) -> 0 <= k < u3z (m_dim c0) ->
            returns (adj_frame c0)
              (forM_ (seqZ 0 (u3x (m_dim c0))) (fun i => adj_cell i j k))
              (fun _ => adj_frame c0)) as Hx.
  { intros j k Hj Hk. apply returns_forM. intros i Hi%elem_of_seqZ.
    apply adj_cell_keeps_frame; lia. }
  assert (forall j k, 0 <= j < u3y (m_dim c0) -> 0 <= k < u3z (m_dim c0) ->
            returns
              (fun c => adj_frame c0 c /\ adj_row_done (m_dim c0) (m_radius c0) i0 j0 k0 c)
              (forM_ (seqZ 0 (u3x (m_dim c0))) (fun i => adj_cell i j k))
              (fun _ c => adj_frame c0 c /\ adj_row_done (m_dim c0) (m_radius c0) i0 j0 k0 c))
    as Hxq.
  { intros j k Hj Hk.
    apply (returns_forM (fun c => adj_frame c0 c /\ adj_row_done _ _ i0 j0 k0 c)).
    intros i Hi%elem_of_seqZ. apply adj_cell_keeps_row; lia. }
  apply (returns_forM_hit _ _ _ _ k0).
  - apply elem_of_seqZ. lia.
  - intros k Hk%elem_of_seqZ. apply returns_forM. intros j Hj%elem_of_seqZ.
    apply Hx; lia.
  - apply (returns_forM_hit _ _ _ _ j0).
    + apply elem_of_seqZ. lia.
    + intros j Hj%elem_of_seqZ. apply Hx; lia.
    + apply (returns_forM_hit _ _ _ _ i0).
      * apply elem_of_seqZ. lia.
      * intros i Hi%elem_of_seqZ. apply adj_cell_keeps_frame; lia.
      * apply adj_cell_hits; lia.
      * intros i Hi%elem_of_seqZ. apply adj_cell_keeps_row; lia.
    + intros j Hj%elem_of_seqZ. apply Hxq; lia.
  - intros k Hk%elem_of_seqZ.
    apply (returns_forM (fun c => adj_frame c0 c /\ adj_row_done _ _ i0 j0 k0 c)).
    intros j Hj%elem_of_seqZ. apply Hxq; lia.
Qed.

Lemma adj_frame_refl c : adj_ready c -> adj_frame c c.
Proof. intros Hc. split; [exact Hc | symmetry; apply set_cell_adj_id]. Qed.

(** C3. From the state in which [initializeMemory] calls it,
    [initializeCellAdj] returns normally and changes nothing but the
    adjacency array; afterwards the row of every cell [(i, j, k)] has
    exactly (2*radius+1)^3 entries, every entry is a cell id in
    [0, numCells), the row is sorted ascending, and it is a permutation of
    the floor-modulo wrapped neighbour ids, so that repeated neighbours
    stay repeated. *)
Theorem initializeCellAdj_rows c :
  adj_ready c ->
  exists c',
    initializeCellAdj c = (Returned tt, c')
    /\ c' = set_cell_adj (m_cell_adj c') c
    /\ forall i j k,
         0 <= i < u3x (m_dim c) -> 0 <= j < u3y (m_dim c) -> 0 <= k < u3z (m_dim c) ->
         let row := cell_adj_list c' (Index3D_at (m_cell_indexer c') i j k) in
         Z.of_nat (length row) = (2 * m_radius c + 1) ^ 3
         /\ Forall (fun e => 0 <= e < numCells (m_dim c)) row
         /\ Sorted Z.le row
         /\ row ≡ₚ floor_mod_neighbours (m_dim c) (m_radius c) i j k.
Proof.
  intros Hready.
  destruct (adj_loops_keep_frame c c (adj_frame_refl c Hready)) as ([] & c' & Hrun & Hfr).
  exists c'. split; [exact Hrun|]. split; [apply Hfr|].
  intros i j k Hi Hj Hk row.
  destruct (adj_loops_fill_row c i j k Hready Hi Hj Hk c (adj_frame_refl c Hready))
    as ([] & c'' & Hrun' & _ & Hrow).
  unfold initializeCellAdj, bind, gets in Hrun.
  rewrite Hrun in Hrun'. injection Hrun' as <-.
  destruct (adj_frame_fields _ _ Hfr) as (Hd & Hrad & Hcadj & Hci).
  pose proof Hready as (Hr & _ & _ & _ & Hn & Hcic & _).
  pose proof (stencil_pos _ Hr) as Hs.
  pose proof (flat_cell_bound (m_dim c) i j k Hi Hj Hk) as Hcur.
  assert (row = std_sort (floor_mod_neighbours (m_dim c) (m_radius c) i j k)) as ->.
  { unfold row. rewrite Hci, Hcic. unfold Index3D_at. cbn [i3_w i3_h i3_d].
    fold (flat_cell (m_dim c) i j k).
    assert (numCells (m_dim c) <= stencil (m_radius c) * numCells (m_dim c)) by nia.
    rewrite u32_small by machine_lia. exact Hrow. }
  split; [|split; [|split]].
  - rewrite length_std_sort. unfold floor_mod_neighbours.
    rewrite length_fmap, length_adj_offsets by exact Hr. unfold stencil. lia.
  - rewrite std_sort_perm. unfold floor_mod_neighbours.
    apply Forall_fmap, Forall_forall. intros t _. cbn.
    apply flat_cell_bound; apply Z.mod_pos_bound; lia.
  - apply std_sort_sorted.
  - apply std_sort_perm.
Qed.

End Adjacency.

(** * The bucket fill *)

Section BucketFill.
Context {Scalar : Type} `{ScalarOps Scalar}.
Variable NDEBUG : bool.
Implicit Type c : CellList Scalar.
Implicit Type p : Particle Scalar.

Lemma fill_ready_cells c :
  fill_ready c ->
  Index3D_getNumElements (m_cell_indexer c) = Z.of_nat (length (m_cell_size c)).
Proof.
  intros (Hn & _ & Hn32 & _ & _ & Hlen & _).
  unfold Index3D_getNumElements. rewrite u32_small by lia. symmetry. exact Hlen.
Qed.

(** The loop body either raises the fault of its particle, leaving the
    state alone, or performs [after_bin]. *)
Lemma bin_particle_spec c box scale (n : Z) p :
  fill_ready c ->
  bin_particle NDEBUG box scale (m_cell_indexer c) (m_cell_list_indexer c) n p c
  = match particle_fault box scale (m_dim c) (m_cell_indexer c) NDEBUG n p with
    | Some f => (Raised f, c)
    | None =>
        (Returned tt,
         after_bin (particle_bin box scale (m_dim c) (m_cell_indexer c) p) n p c)
    end.
Proof.
  intros Hready.
  pose proof (fill_ready_cells c Hready) as Hcells.
  destruct Hready as (Hn & HNmax & Hn32 & Hfit & Hcli & Hlen & Hxyzf & Htdb & Hcnt).
  unfold bin_particle, particle_fault. fold (has_nan p).
  destruct (has_nan p); [reflexivity|].
  unfold bind at 1, gets at 1.
  fold (axis_index (p_x p) (xlo box) (s3x scale) (u3x (m_dim c))).
  fold (axis_index (p_y p) (ylo box) (s3y scale) (u3y (m_dim c))).
  fold (axis_index (p_z p) (zlo box) (s3z scale) (u3z (m_dim c))).
  fold (particle_ib box scale (m_dim c) p).
  fold (particle_jb box scale (m_dim c) p).
  fold (particle_kb box scale (m_dim c) p).
  fold (in_grid (m_dim c) (particle_ib box scale (m_dim c) p)
          (particle_jb box scale (m_dim c) p) (particle_kb box scale (m_dim c) p)).
  fold (particle_bin box scale (m_dim c) (m_cell_indexer c) p).
  unfold bind at 1, assert_.
  destruct (NDEBUG || in_grid _ _ _ _); [|reflexivity].
  cbn [negb ret].
  set (bin := particle_bin box scale (m_dim c) (m_cell_indexer c) p).
  assert (0 <= bin < 2 ^ 32) as Hbin by apply u32_range.
  rewrite Hcells.
  destruct (Z.geb_spec bin (Z.of_nat (length (m_cell_size c)))) as [Hge|Hlt]; [reflexivity|].
  destruct (lookup_lt_is_Some_2 (m_cell_size c) (Z.to_nat bin) ltac:(machine_lia)) as [offset Hoff].
  pose proof (proj1 (Forall_lookup _ _) Hcnt _ _ Hoff) as Hrange. cbn beta in Hrange.
  unfold after_bin. rewrite Hoff. cbn [from_option id].
  assert ((bin <? Z.of_nat (length (m_cell_size c))) = true) as Ebin
    by (apply Z.ltb_lt; lia).
  unfold load_cell_size, store_xyzf, store_tdb, store_cell_size, Index2D_at.
  unfold bind, gets, modify, ret. rewrite Hoff, Hcli.
  destruct (Z.ltb_spec offset (m_Nmax c)) as [Hfree|Hfull].
  - pose proof (slot_bound bin offset (m_Nmax c) (Z.of_nat (length (m_cell_size c)))
                  ltac:(machine_lia) ltac:(machine_lia)) as Hslot.
    rewrite u32_small by machine_lia.
    assert ((bin * m_Nmax c + offset <? Z.of_nat (length (m_xyzf c))) = true) as Exyzf
      by (apply Z.ltb_lt; lia).
    rewrite Exyzf.
    cbn [m_compute_tdb m_tdb m_cell_size set_xyzf set_tdb].
    destruct (m_compute_tdb c) eqn:Etdb.
    + assert ((bin * m_Nmax c + offset <? Z.of_nat (length (m_tdb c))) = true) as Etdbl
        by (apply Z.ltb_lt; rewrite Htdb by reflexivity; lia).
      fields. rewrite Etdbl. fields. rewrite Ebin. reflexivity.
    + fields. rewrite Ebin. reflexivity.
  - fields. rewrite Ebin. reflexivity.
Qed.

(** *** What one iteration keeps *)

Lemma storage_frame_refl c : storage_frame c c.
Proof.
  exists (m_cell_size c), (m_xyzf c), (m_tdb c), (m_overflowed c).
  destruct c; reflexivity.
Qed.

Lemma storage_frame_trans c0 c1 c2 :
  storage_frame c0 c1 -> storage_frame c1 c2 -> storage_frame c0 c2.
Proof.
  intros (s1 & x1 & t1 & o1 & ->) (s2 & x2 & t2 & o2 & ->).
  exists s2, x2, t2, o2. reflexivity.
Qed.

Lemma storage_frame_fields c0 c :
  storage_frame c0 c ->
  m_dim c = m_dim c0 /\ m_Nmax c = m_Nmax c0
  /\ m_cell_indexer c = m_cell_indexer c0
  /\ m_cell_list_indexer c = m_cell_list_indexer c0
  /\ m_flag_charge c = m_flag_charge c0 /\ m_compute_tdb c = m_compute_tdb c0.
Proof. intros (s1 & x1 & t1 & o1 & ->). repeat split. Qed.

Lemma after_bin_frame c (b n : Z) p : storage_frame c (after_bin b n p c).
Proof.
  unfold after_bin.
  destruct (_ <? _); [destruct (m_compute_tdb c)|];
    eexists _, _, _, _; destruct c; reflexivity.
Qed.

Lemma fill_ready_after_bin c (b n : Z) p :
  fill_ready c -> fill_ready (after_bin b n p c).
Proof.
  intros (Hn & HNmax & Hn32 & Hfit & Hcli & Hlen & Hxyzf & Htdb & Hcnt).
  assert (Forall (fun v => 0 <= v < 2 ^ 32)
            (<[Z.to_nat b := u32 (default 0 (m_cell_size c !! Z.to_nat b) + 1)]>
               (m_cell_size c))) as Hcnt'.
  { apply Forall_insert; [exact Hcnt | apply u32_range]. }
  unfold after_bin, fill_ready.
  destruct (_ <? _); [destruct (m_compute_tdb c) eqn:Etdb|]; fields;
    rewrite ?length_insert; repeat split; try assumption.
  - intros _. apply Htdb. reflexivity.
  - intros Habs. rewrite Etdb in Habs. discriminate.
Qed.

Lemma after_bin_fields c (b n : Z) p :
  let offset := default 0 (m_cell_size c !! Z.to_nat b) in
  let s := Z.to_nat (b * m_Nmax c + offset) in
  m_cell_size (after_bin b n p c) = <[Z.to_nat b := u32 (offset + 1)]> (m_cell_size c)
  /\ m_xyzf (after_bin b n p c)
     = (if offset <? m_Nmax c
        then <[s := xyzf_record (m_flag_charge c) n p]> (m_xyzf c) else m_xyzf c)
  /\ m_tdb (after_bin b n p c)
     = (if (offset <? m_Nmax c) && m_compute_tdb c
        then <[s := tdb_record p]> (m_tdb c) else m_tdb c)
  /\ m_overflowed (after_bin b n p c)
     = (if offset <? m_Nmax c then m_overflowed c else true).
Proof.
  cbv zeta. unfold after_bin.
  destruct (_ <? _); [destruct (m_compute_tdb c)|]; repeat split.
Qed.

Lemma bin_of_nonneg box scale c0 p : 0 <= bin_of box scale c0 p.
Proof. unfold bin_of, particle_bin, Index3D_at. apply u32_range. Qed.

Lemma rank_prefix box scale c0 (pre : list (Particle Scalar)) p q (i : nat) :
  (i <= length pre)%nat -> rank box scale c0 (pre ++ [p]) i q = rank box scale c0 pre i q.
Proof. intros Hi. unfold rank. rewrite take_app_le by exact Hi. reflexivity. Qed.

(** An earlier particle sits in another slot than the one the next
    particle of the same sweep is given. *)
Lemma earlier_slot_differs box scale c0 (pre : list (Particle Scalar)) q p (i : nat) :
  pre !! i = Some q ->
  0 <= m_Nmax c0 ->
  rank box scale c0 pre i q < m_Nmax c0 ->
  occupancy (bin_of box scale c0 p) (bin_of box scale c0 <$> pre) < m_Nmax c0 ->
  slot c0 (bin_of box scale c0 q) (rank box scale c0 pre i q)
  <> slot c0 (bin_of box scale c0 p)
       (occupancy (bin_of box scale c0 p) (bin_of box scale c0 <$> pre)).
Proof.
  intros Hq HN Hr Hoff. unfold slot.
  pose proof (bin_of_nonneg box scale c0 q) as Hbq.
  pose proof (bin_of_nonneg box scale c0 p) as Hbp.
  pose proof (occupancy_bounds (bin_of box scale c0 q)
                (bin_of box scale c0 <$> take i pre)) as Hrq.
  pose proof (occupancy_bounds (bin_of box scale c0 p) (bin_of box scale c0 <$> pre)) as Hrp.
  fold (rank box scale c0 pre i q) in Hrq.
  intros Heq.
  assert (bin_of box scale c0 q * m_Nmax c0 + rank box scale c0 pre i q
          = bin_of box scale c0 p * m_Nmax c0
            + occupancy (bin_of box scale c0 p) (bin_of box scale c0 <$> pre)) as Heq'.
  { assert (0 <= bin_of box scale c0 q * m_Nmax c0) by (apply Z.mul_nonneg_nonneg; lia).
    assert (0 <= bin_of box scale c0 p * m_Nmax c0) by (apply Z.mul_nonneg_nonneg; lia).
    lia. }
  apply slot_inj in Heq' as [Hb Hrk]; [|lia|lia].
  assert ((bin_of box scale c0 <$> pre) !! i = Some (bin_of box scale c0 p)) as Hi
    by (rewrite list_lookup_fmap, Hq; cbn; rewrite Hb; reflexivity).
  apply occupancy_take_lt in Hi.
  unfold rank in Hrk. rewrite Hb in Hrk. rewrite <- fmap_take in Hi. lia.
Qed.

(** The loop invariant: binning one more fault-free particle extends
    [bucketed] by that particle. *)
Lemma bucketed_step box scale c0 c (pre : list (Particle Scalar)) p :
  storage_frame c0 c -> fill_ready c -> bucketed box scale c0 pre c ->
  bin_of box scale c0 p < Z.of_nat (length (m_cell_size c)) ->
  Z.of_nat (length pre) + 1 < 2 ^ 32 ->
  bucketed box scale c0 (pre ++ [p])
    (after_bin (bin_of box scale c0 p) (Z.of_nat (length pre)) p c).
Proof.
  intros Hfr Hready (B1 & B2 & B3 & B4) Hb Hlen.
  destruct (storage_frame_fields _ _ Hfr) as (Hd & HN & Hci & Hcli & Hfc & Htdbf).
  pose proof Hready as (Hn & HNmax & Hn32 & Hfit & _ & Hlcs & Hlx & Hlt & Hcnt).
  pose proof (bin_of_nonneg box scale c0 p) as Hb0.
  set (b := bin_of box scale c0 p) in *.
  set (off := occupancy b (bin_of box scale c0 <$> pre)).
  assert (m_cell_size c !! Z.to_nat b = Some off) as Hoff by (apply B1; lia).
  pose proof (occupancy_bounds b (bin_of box scale c0 <$> pre)) as Hoffb.
  rewrite length_fmap in Hoffb. fold off in Hoffb.
  destruct (after_bin_fields c b (Z.of_nat (length pre)) p) as (Ecs & Ex & Et & Eo).
  rewrite Hoff in Ecs, Ex, Et, Eo. cbn [from_option id] in Ecs, Ex, Et, Eo.
  rewrite HN, ?Hfc, ?Htdbf in *.
  rewrite (u32_small (off + 1)) in Ecs by machine_lia.
  assert (bin_of box scale c0 <$> pre ++ [p] = (bin_of box scale c0 <$> pre) ++ [b]) as Ebins
    by (rewrite fmap_app; reflexivity).
  unfold bucketed. rewrite Ecs, Ex, Et, Eo, Ebins, length_insert.
  split; [|split; [|split]].
  - (* counters *)
    intros b' Hb'. destruct (decide (b' = b)) as [->|Hne].
    + rewrite list_lookup_insert_eq by lia. rewrite occupancy_snoc_same. reflexivity.
    + rewrite list_lookup_insert_ne by lia.
      rewrite occupancy_snoc_other by congruence. apply B1. exact Hb'.
  - (* records *)
    intros i q Hq Hr.
    destruct (decide (i < length pre)%nat) as [Hi|Hi].
    + rewrite lookup_app_l in Hq by exact Hi.
      rewrite rank_prefix in Hr |- * by lia.
      destruct (B2 i q Hq Hr) as [Hx Ht].
      destruct (Z.ltb_spec off (m_Nmax c0)) as [Hfree|Hfull]; [|split; assumption].
      pose proof (earlier_slot_differs box scale c0 pre q p i Hq HNmax Hr Hfree) as Hslot.
      fold b off in Hslot. unfold slot in Hslot |- *.
      split.
      * rewrite list_lookup_insert_ne by congruence. exact Hx.
      * intros Htdb. cbn [andb]. rewrite Htdb.
        rewrite list_lookup_insert_ne by congruence. apply Ht. exact Htdb.
    + assert (i = length pre) as -> .
      { apply lookup_lt_Some in Hq. rewrite length_app in Hq. cbn in Hq. lia. }
      rewrite list_lookup_middle in Hq by reflexivity. injection Hq as <-.
      rewrite rank_prefix in Hr |- * by lia.
      assert (rank box scale c0 pre (length pre) p = off) as Erank
        by (unfold rank; rewrite firstn_all; reflexivity).
      rewrite Erank in *.
      destruct (Z.ltb_spec off (m_Nmax c0)) as [Hfree|Hfull]; [|lia].
      pose proof (slot_bound b off (m_Nmax c0) (Z.of_nat (length (m_cell_size c)))
                    ltac:(lia) ltac:(lia)) as Hslot.
      unfold slot. split.
      * apply list_lookup_insert_eq. lia.
      * intros Htdb. cbn [andb]. rewrite Htdb.
        apply list_lookup_insert_eq. specialize (Hlt Htdb). lia.
  - (* overflow flag *)
    destruct (Z.ltb_spec off (m_Nmax c0)) as [Hfree|Hfull].
    + rewrite B3. apply or_iff_compat_l. split; intros [b' Hb'].
      * exists b'. destruct (decide (b' = b)) as [->|Hne];
          [rewrite occupancy_snoc_same; fold off; lia
          | rewrite occupancy_snoc_other by congruence; exact Hb'].
      * destruct (decide (b' = b)) as [->|Hne].
        -- rewrite occupancy_snoc_same in Hb'. fold off in Hb'. lia.
        -- exists b'. rewrite occupancy_snoc_other in Hb' by congruence. exact Hb'.
    + split; [|reflexivity]. intros _. right. exists b.
      rewrite occupancy_snoc_same. fold off. lia.
  - (* sum *)
    rewrite (sumZ_insert _ _ off) by exact Hoff.
    rewrite B4, length_app. cbn. lia.
Qed.

(** *** The whole sweep *)

Lemma for_particles_sweep box scale (ps : list (Particle Scalar)) :
  forall (n : Z) c,
    fill_ready c ->
    for_particles n ps
      (bin_particle NDEBUG box scale (m_cell_indexer c) (m_cell_list_indexer c)) c
    = sweep NDEBUG box scale n ps c.
Proof.
  induction ps as [|p ps IH]; intros n c Hready; [reflexivity|].
  cbn [for_particles sweep]. unfold bind. rewrite bin_particle_spec by exact Hready.
  destruct (particle_fault _ _ _ _ _ _ _) as [f|]; [reflexivity|].
  set (c1 := after_bin _ n p c).
  destruct (storage_frame_fields c c1 (after_bin_frame c _ n p)) as (_ & _ & Hci & Hcli & _).
  rewrite <- Hci, <- Hcli. apply IH. apply fill_ready_after_bin. exact Hready.
Qed.

Lemma particle_fault_None_bin box scale c (n : Z) p :
  fill_ready c ->
  particle_fault box scale (m_dim c) (m_cell_indexer c) NDEBUG n p = None ->
  has_nan p = false
  /\ particle_bin box scale (m_dim c) (m_cell_indexer c) p
     < Z.of_nat (length (m_cell_size c)).
Proof.
  intros Hready. rewrite <- (fill_ready_cells c Hready). unfold particle_fault.
  destruct (has_nan p); [discriminate|].
  destruct (negb _); [discriminate|].
  destruct (Z.geb_spec (particle_bin box scale (m_dim c) (m_cell_indexer c) p)
              (Index3D_getNumElements (m_cell_indexer c))); [discriminate|].
  intros _. split; [reflexivity | lia].
Qed.

(** The sweep bins particles in order until one raises a fault; the
    state it leaves is [bucketed] by exactly the particles before that one. *)
Lemma sweep_bucketed box scale c0 (ps : list (Particle Scalar)) :
  forall (pre : list (Particle Scalar)) c r c',
    storage_frame c0 c -> fill_ready c -> bucketed box scale c0 pre c ->
    Z.of_nat (length pre + length ps) < 2 ^ 32 ->
    sweep NDEBUG box scale (Z.of_nat (length pre)) ps c = (r, c') ->
    exists binned rest,
      ps = binned ++ rest
      /\ storage_frame c0 c' /\ fill_ready c'
      /\ bucketed box scale c0 (pre ++ binned) c'
      /\ (forall i p, binned !! i = Some p ->
            particle_fault box scale (m_dim c0) (m_cell_indexer c0) NDEBUG
              (Z.of_nat (length pre + i)) p = None)
      /\ match r with
         | Returned _ => rest = []
         | Raised f =>
             exists p rest',
               rest = p :: rest'
               /\ particle_fault box scale (m_dim c0) (m_cell_indexer c0) NDEBUG
                    (Z.of_nat (length pre + length binned)) p = Some f
         end.
Proof.
  induction ps as [|p ps IH]; intros pre c r c' Hfr Hready Hb Hlen Hrun.
  - cbn in Hrun. injection Hrun as <- <-. exists [], [].
    rewrite !app_nil_r.
    split; [reflexivity|]. split; [exact Hfr|]. split; [exact Hready|].
    split; [exact Hb|]. split; [|reflexivity]. intros i p Hp. inversion Hp.
  - cbn [sweep] in Hrun.
    destruct (storage_frame_fields _ _ Hfr) as (Hd & HN & Hci & Hcli & Hfc & Htdbf).
    destruct (particle_fault box scale (m_dim c) (m_cell_indexer c) NDEBUG
                (Z.of_nat (length pre)) p) as [f|] eqn:Hfault.
    + injection Hrun as <- <-. exists [], (p :: ps).
      rewrite app_nil_r.
      split; [reflexivity|]. split; [exact Hfr|]. split; [exact Hready|].
      split; [exact Hb|]. split.
      * intros i q Hq. inversion Hq.
      * exists p, ps. split; [reflexivity|].
        cbn [length]. rewrite Nat.add_0_r, <- Hd, <- Hci. exact Hfault.
    + destruct (particle_fault_None_bin _ _ _ _ _ Hready Hfault) as [_ Hbin].
      rewrite Hd, Hci in Hbin, Hrun, Hfault. fold (bin_of box scale c0 p) in Hbin, Hrun.
      cbn [length] in Hlen.
      replace (Z.of_nat (length pre) + 1) with (Z.of_nat (length (pre ++ [p]))) in Hrun
        by (rewrite length_app; cbn; lia).
      apply IH in Hrun.
      * destruct Hrun as (binned & rest & -> & Hfr' & Hready' & Hb' & Hok & Hr).
        exists (p :: binned), rest.
        rewrite <- app_assoc in Hb'. cbn [app] in Hb'.
        split; [reflexivity|]. split; [exact Hfr'|]. split; [exact Hready'|].
        split; [exact Hb'|]. split.
        -- intros [|i] q Hq; cbn in Hq.
           ++ injection Hq as <-. rewrite Nat.add_0_r. exact Hfault.
           ++ specialize (Hok i q Hq). rewrite length_app in Hok. cbn [length] in Hok.
              replace (length pre + S i)%nat with (length pre + 1 + i)%nat by lia.
              exact Hok.
        -- destruct r as [[]|f]; [exact Hr|].
           destruct Hr as (q & rest' & -> & Hq). exists q, rest'.
           split; [reflexivity|]. rewrite length_app in Hq. cbn [length] in Hq |- *.
           replace (length pre + S (length binned))%nat
             with (length pre + 1 + length binned)%nat by lia.
           exact Hq.
      * eapply storage_frame_trans; [exact Hfr | apply after_bin_frame].
      * apply fill_ready_after_bin. exact Hready.
      * apply bucketed_step; [exact Hfr | exact Hready | exact Hb | exact Hbin | lia].
      * rewrite length_app. cbn [length]. lia.
Qed.

Lemma sweep_app box scale (l1 l2 : list (Particle Scalar)) :
  forall (n : Z) c,
    sweep NDEBUG box scale n (l1 ++ l2) c
    = match sweep NDEBUG box scale n l1 c with
      | (Returned _, c1) => sweep NDEBUG box scale (n + Z.of_nat (length l1)) l2 c1
      | (Raised f, c1) => (Raised f, c1)
      end.
Proof.
  induction l1 as [|p l1 IH]; intros n c.
  - cbn. rewrite Z.add_0_r. reflexivity.
  - cbn [app sweep length].
    destruct (particle_fault _ _ _ _ _ _ _); [reflexivity|].
    rewrite IH. replace (n + 1 + Z.of_nat (length l1)) with (n + Z.of_nat (S (length l1)))
      by lia. reflexivity.
Qed.

Lemma fill_ready_cleared c : fill_ready c -> fill_ready (cleared c).
Proof.
  intros (Hn & HNmax & Hn32 & Hfit & Hcli & Hlen & Hxyzf & Htdb & Hcnt).
  unfold fill_ready, cleared. fields. rewrite length_replicate.
  repeat split; try assumption.
  apply Forall_replicate. machine_lia.
Qed.

Lemma bucketed_cleared box scale c :
  0 <= m_Nmax c -> bucketed box scale (cleared c) [] (cleared c).
Proof.
  intros HN. unfold bucketed, cleared. fields. rewrite length_replicate.
  split; [|split; [|split]].
  - intros b Hb. cbn. apply lookup_replicate_2. lia.
  - intros i p Hp. inversion Hp.
  - cbn. split; [auto|]. intros [Ho|[b Hb]]; [exact Ho | lia].
  - apply sumZ_replicate_0.
Qed.

(** [computeCellList] is the memset followed by the sweep. *)
Lemma computeCellList_sweep_cleared sys c :
  fill_ready (cleared c) ->
  computeCellList NDEBUG sys c
  = sweep NDEBUG (getBox sys) (inverse_width c) 0 (arrays sys) (cleared c).
Proof.
  intros Hready. pose proof (fill_ready_cells _ Hready) as Hcells.
  unfold cleared in Hcells. fields in *. rewrite length_replicate in Hcells.
  unfold computeCellList, bind at 1 2 3, gets, memset_cell_size.
  unfold bind at 1, bind at 1, gets, modify. rewrite Hcells.
  destruct (Z.leb_spec (Z.of_nat (length (m_cell_size c)))
              (Z.of_nat (length (m_cell_size c)))); [|lia].
  rewrite Nat2Z.id, drop_all, app_nil_r. fold (cleared c). fold (inverse_width c).
  apply (for_particles_sweep _ _ _ 0 (cleared c)). exact Hready.
Qed.

Lemma computeCellList_sweep sys c :
  fill_ready c ->
  computeCellList NDEBUG sys c
  = sweep NDEBUG (getBox sys) (inverse_width c) 0 (arrays sys) (cleared c).
Proof. intros Hready. apply computeCellList_sweep_cleared, fill_ready_cleared, Hready. Qed.

(** A sweep over fault-free particles returns normally and is
    [bucketed] by all of them. *)
Lemma sweep_fault_free box scale c0 (ps : list (Particle Scalar)) :
  fill_ready c0 -> bucketed box scale c0 [] c0 ->
  Z.of_nat (length ps) < 2 ^ 32 ->
  (forall i p, ps !! i = Some p ->
     particle_fault box scale (m_dim c0) (m_cell_indexer c0) NDEBUG (Z.of_nat i) p = None) ->
  exists c',
    sweep NDEBUG box scale 0 ps c0 = (Returned tt, c')
    /\ storage_frame c0 c' /\ fill_ready c' /\ bucketed box scale c0 ps c'.
Proof.
  intros Hready Hb Hlen Hok.
  destruct (sweep NDEBUG box scale 0 ps c0) as [r c'] eqn:Hrun.
  destruct (sweep_bucketed box scale c0 ps [] c0 r c' (storage_frame_refl c0) Hready Hb
              ltac:(cbn [length]; lia) Hrun)
    as (binned & rest & -> & Hfr & Hready' & Hb' & _ & Hr).
  cbn [app length Nat.add] in *.
  destruct r as [[]|f].
  - subst rest. rewrite app_nil_r in *. exists c'. auto.
  - destruct Hr as (p & rest' & -> & Hp).
    rewrite (Hok (length binned) p) in Hp; [discriminate|].
    apply list_lookup_middle. reflexivity.
Qed.

(** A sweep stops at its first faulting particle, [bucketed] by the
    particles before it. *)
Lemma sweep_first_fault box scale c0 (pre post : list (Particle Scalar)) p (f : fault) :
  fill_ready c0 -> bucketed box scale c0 [] c0 ->
  Z.of_nat (length pre) < 2 ^ 32 ->
  (forall i q, pre !! i = Some q ->
     particle_fault box scale (m_dim c0) (m_cell_indexer c0) NDEBUG (Z.of_nat i) q = None) ->
  particle_fault box scale (m_dim c0) (m_cell_indexer c0) NDEBUG
    (Z.of_nat (length pre)) p = Some f ->
  exists c',
    sweep NDEBUG box scale 0 (pre ++ p :: post) c0 = (Raised f, c')
    /\ storage_frame c0 c' /\ fill_ready c' /\ bucketed box scale c0 pre c'.
Proof.
  intros Hready Hb Hlen Hok Hp.
  destruct (sweep_fault_free box scale c0 pre Hready Hb Hlen Hok)
    as (c' & Hrun & Hfr & Hready' & Hb').
  exists c'. rewrite sweep_app, Hrun. cbn [sweep].
  destruct (storage_frame_fields _ _ Hfr) as (-> & _ & -> & _).
  rewrite Z.add_0_l, Hp. auto.
Qed.

(** Sweeping over buckets that already hold every record the sweep is
    going to write leaves the bucket arrays as they are. *)
Lemma sweep_replay box scale c0 (ps : list (Particle Scalar)) :
  forall (pre : list (Particle Scalar)) c r c',
    storage_frame c0 c -> fill_ready c -> bucketed box scale c0 pre c ->
    Z.of_nat (length pre + length ps) < 2 ^ 32 ->
    (forall i p, (pre ++ ps) !! i = Some p ->
       rank box scale c0 (pre ++ ps) i p < m_Nmax c0 ->
       m_xyzf c !! slot c0 (bin_of box scale c0 p) (rank box scale c0 (pre ++ ps) i p)
       = Some (xyzf_record (m_flag_charge c0) (Z.of_nat i) p)
       /\ (m_compute_tdb c0 = true ->
           m_tdb c !! slot c0 (bin_of box scale c0 p) (rank box scale c0 (pre ++ ps) i p)
           = Some (tdb_record p))) ->
    sweep NDEBUG box scale (Z.of_nat (length pre)) ps c = (r, c') ->
    m_xyzf c' = m_xyzf c /\ m_tdb c' = m_tdb c.
Proof.
  induction ps as [|p ps IH]; intros pre c r c' Hfr Hready Hb Hlen Hheld Hrun.
  - cbn in Hrun. injection Hrun as _ <-. auto.
  - cbn [sweep] in Hrun.
    destruct (storage_frame_fields _ _ Hfr) as (Hd & HN & Hci & Hcli & Hfc & Htdbf).
    destruct (particle_fault box scale (m_dim c) (m_cell_indexer c) NDEBUG
                (Z.of_nat (length pre)) p) as [f|] eqn:Hfault.
    + injection Hrun as _ <-. auto.
    + destruct (particle_fault_None_bin _ _ _ _ _ Hready Hfault) as [_ Hbin].
      rewrite Hd, Hci in Hbin, Hrun. fold (bin_of box scale c0 p) in Hbin, Hrun.
      cbn [length] in Hlen.
      pose proof (bin_of_nonneg box scale c0 p) as Hb0.
      set (b := bin_of box scale c0 p) in *.
      set (off := occupancy b (bin_of box scale c0 <$> pre)).
      assert (m_cell_size c !! Z.to_nat b = Some off) as Hoff
        by (apply (proj1 Hb); lia).
      assert (rank box scale c0 (pre ++ p :: ps) (length pre) p = off) as Erank.
      { unfold rank. rewrite take_app_length. reflexivity. }
      destruct (after_bin_fields c b (Z.of_nat (length pre)) p) as (_ & Ex & Et & _).
      rewrite Hoff in Ex, Et. cbn [from_option id] in Ex, Et.
      rewrite HN in Ex, Et. rewrite Hfc in Ex. rewrite Htdbf in Et.
      assert (m_xyzf (after_bin b (Z.of_nat (length pre)) p c) = m_xyzf c
              /\ m_tdb (after_bin b (Z.of_nat (length pre)) p c) = m_tdb c) as [Ex' Et'].
      { destruct (Z.ltb_spec off (m_Nmax c0)) as [Hfree|Hfull]; [|cbn [andb] in Et; auto].
        destruct (Hheld (length pre) p) as [Hx Ht].
        { apply list_lookup_middle. reflexivity. }
        { rewrite Erank. exact Hfree. }
        rewrite Erank in Hx, Ht. unfold slot in Hx, Ht. fold b in Hx, Ht.
        split.
        - rewrite Ex. apply list_insert_id. exact Hx.
        - rewrite Et. cbn [andb]. destruct (m_compute_tdb c0); [|reflexivity].
          apply list_insert_id. apply Ht. reflexivity. }
      replace (Z.of_nat (length pre) + 1) with (Z.of_nat (length (pre ++ [p]))) in Hrun
        by (rewrite length_app; cbn; lia).
      apply IH in Hrun.
      * rewrite Ex', Et' in Hrun. exact Hrun.
      * eapply storage_frame_trans; [exact Hfr | apply after_bin_frame].
      * apply fill_ready_after_bin. exact Hready.
      * apply bucketed_step; [exact Hfr | exact Hready | exact Hb | exact Hbin | lia].
      * rewrite length_app. cbn [length]. lia.
      * rewrite <- app_assoc. cbn [app]. rewrite Ex', Et'. exact Hheld.
Qed.

(** *** Safety of the writes *)

(** C10. In a state whose bucket storage is sized as [initializeMemory]
    sizes it, one iteration of the particle loop never touches an array
    outside its allocation and keeps the storage so sized. It either
    raises the fault of its particle and changes nothing, or returns; in
    that case the counter [offset] of the particle's own cell [bin] was
    read, and either [offset < Nmax] and the record went to slot
    [bin*Nmax + offset], inside row [bin] and inside the array, with the
    overflow flag untouched, or [offset >= Nmax] and nothing was written
    to the bucket arrays while the overflow flag was set. Consequently a
    whole [computeCellList] never indexes past the end either. *)
Theorem bucket_writes_in_bounds c box scale (n : Z) p :
  fill_ready c ->
  let run := bin_particle NDEBUG box scale (m_cell_indexer c) (m_cell_list_indexer c) n p c in
  let bin := particle_bin box scale (m_dim c) (m_cell_indexer c) p in
  fst run <> Raised OutOfRangeAccess
  /\ fill_ready (snd run)
  /\ ((exists f, run = (Raised f, c))
      \/ (fst run = Returned tt
          /\ 0 <= bin < Z.of_nat (length (m_cell_size c))
          /\ exists offset,
               m_cell_size c !! Z.to_nat bin = Some offset
               /\ ((0 <= offset < m_Nmax c
                    /\ bin * m_Nmax c <= bin * m_Nmax c + offset < (bin + 1) * m_Nmax c
                    /\ bin * m_Nmax c + offset < Z.of_nat (length (m_xyzf c))
                    /\ m_xyzf (snd run)
                       = <[Z.to_nat (bin * m_Nmax c + offset)
                           := xyzf_record (m_flag_charge c) n p]> (m_xyzf c)
                    /\ m_overflowed (snd run) = m_overflowed c)
                   \/ (m_Nmax c <= offset
                       /\ m_xyzf (snd run) = m_xyzf c /\ m_tdb (snd run) = m_tdb c
                       /\ m_overflowed (snd run) = true))))
  /\ forall sys,
       fst (computeCellList NDEBUG sys c) <> Raised OutOfRangeAccess
       /\ fill_ready (snd (computeCellList NDEBUG sys c)).
Proof.
  intros Hready run bin. unfold run. rewrite bin_particle_spec by exact Hready.
  fold bin.
  assert (forall bx sc (ps : list (Particle Scalar)) (m : Z) c1,
            fill_ready c1 ->
            fst (sweep NDEBUG bx sc m ps c1) <> Raised OutOfRangeAccess
            /\ fill_ready (snd (sweep NDEBUG bx sc m ps c1))) as Hsweep.
  { intros bx sc. induction ps as [|q ps IH]; intros m c1 Hc1; cbn [sweep].
    - split; [discriminate | exact Hc1].
    - unfold particle_fault.
      destruct (has_nan q); [split; [discriminate | exact Hc1]|].
      destruct (negb _); [split; [discriminate | exact Hc1]|].
      destruct (_ >=? _); [split; [discriminate | exact Hc1]|].
      apply IH. apply fill_ready_after_bin. exact Hc1. }
  destruct (particle_fault box scale (m_dim c) (m_cell_indexer c) NDEBUG n p) as [f|] eqn:Hf.
  - cbn [fst snd]. split; [|split; [exact Hready|split]].
    + unfold particle_fault in Hf.
      destruct (has_nan p); [injection Hf as <-; discriminate|].
      destruct (negb _); [injection Hf as <-; discriminate|].
      destruct (_ >=? _); [injection Hf as <-; discriminate | discriminate].
    + left. exists f. reflexivity.
    + intros sys. clear Hf. rewrite computeCellList_sweep by exact Hready.
      apply Hsweep. apply fill_ready_cleared. exact Hready.
  - cbn [fst snd]. split; [discriminate|]. split; [apply fill_ready_after_bin, Hready|].
    split.
    + right. split; [reflexivity|].
      destruct (particle_fault_None_bin _ _ _ _ _ Hready Hf) as [_ Hbin]. fold bin in Hbin.
      assert (0 <= bin) as Hbin0 by (unfold bin, particle_bin, Index3D_at; apply u32_range).
      split; [lia|].
      destruct (lookup_lt_is_Some_2 (m_cell_size c) (Z.to_nat bin) ltac:(lia))
        as [offset Hoff].
      exists offset. split; [exact Hoff|].
      pose proof Hready as (Hn & HNmax & Hn32 & Hfit & _ & Hlcs & Hlx & Hlt & Hcnt).
      pose proof (proj1 (Forall_lookup _ _) Hcnt _ _ Hoff) as Hrange. cbn beta in Hrange.
      destruct (after_bin_fields c bin n p) as (_ & Ex & Et & Eo).
      rewrite Hoff in Ex, Et, Eo. cbn [from_option id] in Ex, Et, Eo.
      destruct (Z.ltb_spec offset (m_Nmax c)) as [Hfree|Hfull].
      * left.
        pose proof (slot_bound bin offset (m_Nmax c) (Z.of_nat (length (m_cell_size c)))
                      ltac:(lia) ltac:(lia)) as Hslot.
        split; [lia|]. split; [lia|]. split; [lia|]. split; assumption.
      * right. cbn [andb] in Et. auto.
    + intros sys. rewrite computeCellList_sweep by exact Hready.
      apply Hsweep. apply fill_ready_cleared. exact Hready.
Qed.

(** *** Assignment of particles to cells *)

Lemma axis_index_nonneg (x lo scale : Scalar) (d : Z) : 0 <= axis_index x lo scale d.
Proof.
  unfold axis_index. pose proof (S_to_uint_range (Smul (Ssub x lo) scale)).
  destruct (_ =? _); lia.
Qed.

(** A particle without NaN that passes the sanity check raises no fault,
    and its bin is the flat id of its cell coordinates. *)
Lemma in_grid_fault_free box scale c (n : Z) p :
  fill_ready c ->
  m_cell_indexer c = mkIndex3D (u3x (m_dim c)) (u3y (m_dim c)) (u3z (m_dim c)) ->
  has_nan p = false ->
  in_grid (m_dim c) (particle_ib box scale (m_dim c) p) (particle_jb box scale (m_dim c) p)
    (particle_kb box scale (m_dim c) p) = true ->
  particle_fault box scale (m_dim c) (m_cell_indexer c) NDEBUG n p = None
  /\ particle_bin box scale (m_dim c) (m_cell_indexer c) p
     = flat_cell (m_dim c) (particle_ib box scale (m_dim c) p)
         (particle_jb box scale (m_dim c) p) (particle_kb box scale (m_dim c) p)
  /\ 0 <= particle_bin box scale (m_dim c) (m_cell_indexer c) p < numCells (m_dim c).
Proof.
  intros Hready Hci Hnan Hgrid.
  pose proof (fill_ready_cells c Hready) as Hcells.
  destruct Hready as (Hn & _ & Hn32 & _ & _ & Hlen & _).
  rewrite Hci in Hn, Hn32, Hlen. cbn [i3_w i3_h i3_d] in Hn, Hn32, Hlen.
  fold (numCells (m_dim c)) in Hn, Hn32, Hlen.
  unfold in_grid in Hgrid. apply andb_prop in Hgrid as [Hgrid Hk].
  apply andb_prop in Hgrid as [Hi Hj].
  apply Z.ltb_lt in Hi, Hj, Hk.
  pose proof (axis_index_nonneg (p_x p) (xlo box) (s3x scale) (u3x (m_dim c))) as Hi0.
  pose proof (axis_index_nonneg (p_y p) (ylo box) (s3y scale) (u3y (m_dim c))) as Hj0.
  pose proof (axis_index_nonneg (p_z p) (zlo box) (s3z scale) (u3z (m_dim c))) as Hk0.
  fold (particle_ib box scale (m_dim c) p) in Hi0.
  fold (particle_jb box scale (m_dim c) p) in Hj0.
  fold (particle_kb box scale (m_dim c) p) in Hk0.
  pose proof (flat_cell_bound (m_dim c) _ _ _ (conj Hi0 Hi) (conj Hj0 Hj) (conj Hk0 Hk))
    as Hflat.
  assert (particle_bin box scale (m_dim c) (m_cell_indexer c) p
          = flat_cell (m_dim c) (particle_ib box scale (m_dim c) p)
              (particle_jb box scale (m_dim c) p) (particle_kb box scale (m_dim c) p))
    as Hbin.
  { unfold particle_bin. rewrite Hci. unfold Index3D_at. cbn [i3_w i3_h i3_d].
    apply u32_small. machine_lia. }
  split; [|split; [exact Hbin | rewrite Hbin; exact Hflat]].
  unfold particle_fault. rewrite Hnan.
  unfold in_grid. rewrite (proj2 (Z.ltb_lt _ _) Hi), (proj2 (Z.ltb_lt _ _) Hj),
    (proj2 (Z.ltb_lt _ _) Hk), orb_true_r. cbn [negb andb].
  rewrite Hbin, Hcells, Hlen.
  destruct (Z.geb_spec (flat_cell (m_dim c) (particle_ib box scale (m_dim c) p)
              (particle_jb box scale (m_dim c) p) (particle_kb box scale (m_dim c) p))
              (numCells (m_dim c))); [lia | reflexivity].
Qed.

(** Two particles of one sweep never share a slot. *)
Lemma slots_distinct box scale c0 (ps : list (Particle Scalar)) (i j : nat) p q :
  0 <= m_Nmax c0 ->
  ps !! i = Some p -> ps !! j = Some q -> i <> j ->
  rank box scale c0 ps i p < m_Nmax c0 -> rank box scale c0 ps j q < m_Nmax c0 ->
  slot c0 (bin_of box scale c0 p) (rank box scale c0 ps i p)
  <> slot c0 (bin_of box scale c0 q) (rank box scale c0 ps j q).
Proof.
  assert (forall (i j : nat) p q,
            0 <= m_Nmax c0 -> ps !! i = Some p -> ps !! j = Some q -> (i < j)%nat ->
            rank box scale c0 ps i p < m_Nmax c0 -> rank box scale c0 ps j q < m_Nmax c0 ->
            slot c0 (bin_of box scale c0 p) (rank box scale c0 ps i p)
            <> slot c0 (bin_of box scale c0 q) (rank box scale c0 ps j q)) as Hlt.
  { clear i j p q. intros i j p q HN Hp Hq Hij Hrp Hrq.
    pose proof (earlier_slot_differs box scale c0 (take j ps) p q i) as Hd.
    unfold rank in Hd. rewrite take_take, Nat.min_l in Hd by lia.
    apply Hd; [|exact HN|exact Hrp|exact Hrq].
    rewrite lookup_take_lt by exact Hij. exact Hp. }
  intros HN Hp Hq Hij Hrp Hrq.
  destruct (decide (i < j)%nat) as [Hl|Hl].
  - apply Hlt; assumption.
  - intros Heq. symmetry in Heq. revert Heq. apply Hlt; try assumption. lia.
Qed.

(** Placement by the code's own indices. Take a state whose storage is
    sized as [initializeMemory] sizes it, with the cell indexer built from
    [m_dim] and the overflow flag clear, and particles none of which has a
    NaN coordinate, all of which pass the sanity check, and no cell
    receives more than [Nmax] of them. Then [computeCellList] returns
    normally without overflow, the counters sum to the particle count,
    every particle's record sits in one slot of the bucket of the cell
    with its per-axis indices, below that cell's counter, and no two
    particles share a slot. *)
Lemma computeCellList_placement sys c :
  fill_ready c ->
  m_cell_indexer c = mkIndex3D (u3x (m_dim c)) (u3y (m_dim c)) (u3z (m_dim c)) ->
  getN sys < 2 ^ 32 ->
  m_overflowed c = false ->
  (forall i p, arrays sys !! i = Some p ->
     has_nan p = false
     /\ in_grid (m_dim c)
          (particle_ib (getBox sys) (inverse_width c) (m_dim c) p)
          (particle_jb (getBox sys) (inverse_width c) (m_dim c) p)
          (particle_kb (getBox sys) (inverse_width c) (m_dim c) p) = true) ->
  (forall b, occupancy b (bins sys c) <= m_Nmax c) ->
  exists c',
    computeCellList NDEBUG sys c = (Returned tt, c')
    /\ m_overflowed c' = false
    /\ sumZ (m_cell_size c') = getN sys
    /\ (forall i p, arrays sys !! i = Some p ->
          let cell := flat_cell (m_dim c)
                        (particle_ib (getBox sys) (inverse_width c) (m_dim c) p)
                        (particle_jb (getBox sys) (inverse_width c) (m_dim c) p)
                        (particle_kb (getBox sys) (inverse_width c) (m_dim c) p) in
          let r := rank (getBox sys) (inverse_width c) c (arrays sys) i p in
          bin_of (getBox sys) (inverse_width c) c p = cell
          /\ 0 <= cell < numCells (m_dim c)
          /\ exists count,
               m_cell_size c' !! Z.to_nat cell = Some count
               /\ 0 <= r < count /\ count <= m_Nmax c
               /\ m_xyzf c' !! slot c cell r
                  = Some (xyzf_record (m_flag_charge c) (Z.of_nat i) p))
    /\ (forall i j p q, arrays sys !! i = Some p -> arrays sys !! j = Some q -> i <> j ->
          slot c (bin_of (getBox sys) (inverse_width c) c p)
                 (rank (getBox sys) (inverse_width c) c (arrays sys) i p)
          <> slot c (bin_of (getBox sys) (inverse_width c) c q)
                    (rank (getBox sys) (inverse_width c) c (arrays sys) j q)).
Proof.
  intros Hready Hci HN Hov Hvalid Hcap.
  set (box := getBox sys). set (scale := inverse_width c).
  pose proof Hready as (_ & HNmax & _ & _ & _ & Hlcs & _).
  assert (forall i p, arrays sys !! i = Some p ->
            rank box scale c (arrays sys) i p < occupancy (bin_of box scale c p) (bins sys c))
    as Hrank.
  { intros i p Hp. unfold rank, bins. rewrite fmap_take.
    apply occupancy_take_lt. rewrite list_lookup_fmap, Hp. reflexivity. }
  destruct (sweep_fault_free box scale (cleared c) (arrays sys))
    as (c' & Hrun & Hfr & Hready' & B1 & B2 & B3 & B4).
  { apply fill_ready_cleared, Hready. }
  { apply bucketed_cleared, HNmax. }
  { exact HN. }
  { intros i p Hp. destruct (Hvalid i p Hp) as [Hnan Hgrid].
    apply (in_grid_fault_free box scale c (Z.of_nat i) p Hready Hci Hnan Hgrid). }
  exists c'. split; [rewrite computeCellList_sweep by exact Hready; exact Hrun|].
  assert (length (m_cell_size c') = length (m_cell_size c)) as Hlen'.
  { destruct Hready' as (_ & _ & _ & _ & _ & Hl' & _).
    destruct (storage_frame_fields _ _ Hfr) as (_ & _ & Hci' & _).
    rewrite Hci' in Hl'. unfold cleared in Hl'. fields in *. lia. }
  split; [|split; [|split]].
  - destruct (m_overflowed c') eqn:Eo; [|reflexivity].
    apply proj1 in B3. destruct (B3 eq_refl) as [Habs|[b Hb]].
    + cbn in Habs. congruence.
    + specialize (Hcap b). unfold bins in Hcap. fold box scale in Hcap.
      change (m_Nmax c < occupancy b (bin_of box scale c <$> arrays sys)) in Hb. lia.
  - exact B4.
  - intros i p Hp cell r. destruct (Hvalid i p Hp) as [Hnan Hgrid].
    destruct (in_grid_fault_free box scale c (Z.of_nat i) p Hready Hci Hnan Hgrid)
      as (_ & Hbin & Hrange).
    fold (bin_of box scale c p) in Hbin, Hrange. fold cell in Hbin.
    split; [exact Hbin|]. split; [rewrite <- Hbin; exact Hrange|].
    assert (Z.of_nat (length (m_cell_size c)) = numCells (m_dim c)) as Hcells.
    { rewrite Hlcs, Hci. reflexivity. }
    exists (occupancy cell (bins sys c)).
    specialize (Hrank i p Hp). rewrite Hbin in Hrank.
    pose proof (occupancy_bounds (bin_of box scale c p) (bin_of box scale c <$> take i (arrays sys)))
      as Hr0.
    split; [|split; [|split]].
    + apply B1. rewrite Hlen', Hcells, <- Hbin. exact Hrange.
    + unfold r. fold (rank box scale c (arrays sys) i p) in Hr0. lia.
    + apply Hcap.
    + rewrite <- Hbin. apply (B2 i p Hp).
      change (rank box scale c (arrays sys) i p < m_Nmax c).
      specialize (Hcap cell). lia.
  - intros i j p q Hp Hq Hij.
    apply slots_distinct; try assumption.
    + specialize (Hrank i p Hp). specialize (Hcap (bin_of box scale c p)). lia.
    + specialize (Hrank j q Hq). specialize (Hcap (bin_of box scale c q)). lia.
Qed.

End BucketFill.

Section BucketFillSinglePrecision.
Variable NDEBUG : bool.
Implicit Type c : CellList Scalar32.
Implicit Type p : Particle Scalar32.

(** A cell coordinate lies in one unit interval only. *)
Lemma f32_within_unit_unique (v : float32) (i j : Z) :
  f32_within i (i + 1) v = true -> f32_within j (j + 1) v = true -> i = j.
Proof.
  intros Hi Hj.
  apply f32_within_spec in Hi as (q & Hq & Hi1 & Hi2).
  apply f32_within_spec in Hj as (q' & Hq' & Hj1 & Hj2).
  rewrite Hq in Hq'. injection Hq' as <-.
  pose proof (Qle_lt_trans _ _ _ Hi1 Hj2) as H1. rewrite <- Zlt_Qlt in H1.
  pose proof (Qle_lt_trans _ _ _ Hj1 Hi2) as H2. rewrite <- Zlt_Qlt in H2.
  lia.
Qed.

(** At most one cell of an axis holds a given cell coordinate. *)
Lemma cell_holds_unique (d : Z) (v : float32) (i j : Z) :
  cell_holds d v i -> cell_holds d v j -> i = j.
Proof.
  intros [Hi [Hin|[-> Hin]]] [Hj [Hjn|[-> Hjn]]].
  - exact (f32_within_unit_unique v i j Hin Hjn).
  - pose proof (f32_within_unit_unique v i d Hin Hjn). lia.
  - pose proof (f32_within_unit_unique v j d Hjn Hin). lia.
  - reflexivity.
Qed.

(** The index that the loop body computes along one axis is that of the
    cell holding the cell coordinate. *)
Lemma axis_index_holds (x lo scale : Scalar32) (d : Z) :
  1 <= d < 2 ^ 32 ->
  f32_within 0 (d + 1) (cell_coordinate x lo scale) = true ->
  cell_holds d (cell_coordinate x lo scale) (axis_index x lo scale d).
Proof.
  intros Hd Hin.
  destruct (f32_trunc_floor _ 0 (d + 1) ltac:(lia) Hin) as [Hr Hfl].
  unfold axis_index. fold (cell_coordinate x lo scale).
  set (v := cell_coordinate x lo scale) in *.
  change (S_to_uint v) with (u32 (f32_trunc v)).
  rewrite u32_small by machine_lia.
  destruct (Z.eqb_spec (f32_trunc v) d) as [E|E].
  - split; [lia|]. right. split; [reflexivity|]. rewrite <- E. exact Hfl.
  - split; [lia|]. left. exact Hfl.
Qed.

(** On one axis, the index that the loop body computes is that of a cell
    that takes the position. *)
Lemma axis_index_takes (x lo w : Scalar32) (d : Z) :
  1 <= d < 2 ^ 32 ->
  f32_wellformed x = true -> f32_wellformed lo = true ->
  f32_exact_leb lo x = true -> width_invertible w = true ->
  f32_within 0 (d + 1) (cell_coordinate x lo (f32_div (f32_of_Z 1) w)) = true ->
  cell_takes d lo w x (axis_index x lo (f32_div (f32_of_Z 1) w) d).
Proof.
  intros Hd Wx Wl Hle Hw Hin.
  destruct (axis_index_holds x lo (f32_div (f32_of_Z 1) w) d Hd Hin) as [Hi Hcell].
  apply f32_exact_leb_spec in Hle as (vl & vx & Hl & Hx & Hle).
  apply andb_prop in Hw as [Hpos Hmag].
  pose proof Hpos as Hpos'.
  apply f32_positive_spec in Hpos' as (vw & Hvw & _).
  assert (forall k, 0 <= k ->
            f32_within k (k + 1) (cell_coordinate x lo (f32_div (f32_of_Z 1) w)) = true ->
            within_cell_slack lo w x k = true) as Hslack.
  { intros k Hk Hk'.
    destruct (cell_coordinate_position x lo w k vx vl vw Wx Wl Hx Hl Hvw Hle Hpos Hmag
                Hk Hk') as [H1 H2].
    unfold within_cell_slack. rewrite Hl, Hvw, Hx.
    apply andb_true_intro. split.
    - apply Qle_bool_iff. exact H1.
    - destruct (Qle_bool _ _) eqn:E; [|reflexivity].
      apply Qle_bool_iff in E. exfalso. exact (Qlt_not_le _ _ H2 E). }
  split; [exact Hi|].
  destruct Hcell as [H|[H0 H]].
  - left. apply Hslack; [lia | exact H].
  - right. split; [exact H0|]. apply Hslack; [lia | exact H].
Qed.

(** C1 (as amended). Take a state whose storage is sized as
    [initializeMemory] sizes it, with the cell indexer built from a grid
    [m_dim] of at least one cell per axis, positive cell widths below
    [2^126] and the overflow flag clear. Take particles with no NaN
    coordinate, at or above the lower box boundary on every axis, whose
    cell coordinate on every axis, the offset from the lower box boundary
    multiplied in single precision by the reciprocal cell width, lies in
    [[0, dim + 1)]; and let no cell receive more than [Nmax] of them. Then
    [computeCellList] returns normally without overflow and the counters
    sum to the particle count. Every particle is assigned to exactly one
    cell. On each axis the index of that cell is the one whose unit
    interval contains the cell coordinate, the first cell when the
    coordinate has reached [dim], and no other index qualifies. The
    bounds of that cell contain the particle's position up to the slack
    [(1 + 2^-23)^3] of the three roundings: the position lies between
    [lo + i * width / slack] and [lo + (i + 1) * width * slack], or, for
    the first cell, within such bounds one past the last cell, at the
    upper box boundary. The particle's record sits in a slot of that
    cell's bucket below the cell's counter, and no two particles share a
    slot. *)
Theorem computeCellList_assigns_each_particle
    (sys : SystemDefinition Scalar32) c :
  let box := getBox sys in
  let scale := inverse_width c in
  let d := m_dim c in
  let w := m_width c in
  fill_ready c ->
  m_cell_indexer c = mkIndex3D (u3x d) (u3y d) (u3z d) ->
  all_at_least_one d ->
  width_invertible (s3x w) = true ->
  width_invertible (s3y w) = true ->
  width_invertible (s3z w) = true ->
  f32_wellformed (xlo box) = true ->
  f32_wellformed (ylo box) = true ->
  f32_wellformed (zlo box) = true ->
  getN sys < 2 ^ 32 ->
  m_overflowed c = false ->
  (forall i p, arrays sys !! i = Some p ->
     has_nan p = false
     /\ (f32_wellformed (p_x p) = true /\ f32_exact_leb (xlo box) (p_x p) = true
         /\ f32_within 0 (u3x d + 1) (cell_coordinate (p_x p) (xlo box) (s3x scale)) = true)
     /\ (f32_wellformed (p_y p) = true /\ f32_exact_leb (ylo box) (p_y p) = true
         /\ f32_within 0 (u3y d + 1) (cell_coordinate (p_y p) (ylo box) (s3y scale)) = true)
     /\ (f32_wellformed (p_z p) = true /\ f32_exact_leb (zlo box) (p_z p) = true
         /\ f32_within 0 (u3z d + 1) (cell_coordinate (p_z p) (zlo box) (s3z scale))
            = true)) ->
  (forall b, occupancy b (bins sys c) <= m_Nmax c) ->
  exists c',
    computeCellList NDEBUG sys c = (Returned tt, c')
    /\ m_overflowed c' = false
    /\ sumZ (m_cell_size c') = getN sys
    /\ (forall i p, arrays sys !! i = Some p ->
          exists ib jb kb count,
            (cell_takes (u3x d) (xlo box) (s3x w) (p_x p) ib
             /\ cell_takes (u3y d) (ylo box) (s3y w) (p_y p) jb
             /\ cell_takes (u3z d) (zlo box) (s3z w) (p_z p) kb)
            /\ (cell_holds (u3x d) (cell_coordinate (p_x p) (xlo box) (s3x scale)) ib
                /\ cell_holds (u3y d) (cell_coordinate (p_y p) (ylo box) (s3y scale)) jb
                /\ cell_holds (u3z d) (cell_coordinate (p_z p) (zlo box) (s3z scale)) kb)
            /\ (forall ib' jb' kb',
                  cell_holds (u3x d) (cell_coordinate (p_x p) (xlo box) (s3x scale)) ib' ->
                  cell_holds (u3y d) (cell_coordinate (p_y p) (ylo box) (s3y scale)) jb' ->
                  cell_holds (u3z d) (cell_coordinate (p_z p) (zlo box) (s3z scale)) kb' ->
                  (ib', jb', kb') = (ib, jb, kb))
            /\ bin_of box scale c p = flat_cell d ib jb kb
            /\ 0 <= flat_cell d ib jb kb < numCells d
            /\ m_cell_size c' !! Z.to_nat (flat_cell d ib jb kb) = Some count
            /\ 0 <= rank box scale c (arrays sys) i p < count
            /\ count <= m_Nmax c
            /\ m_xyzf c' !! slot c (flat_cell d ib jb kb) (rank box scale c (arrays sys) i p)
               = Some (xyzf_record (m_flag_charge c) (Z.of_nat i) p))
    /\ (forall i j p q, arrays sys !! i = Some p -> arrays sys !! j = Some q -> i <> j ->
          slot c (bin_of box scale c p) (rank box scale c (arrays sys) i p)
          <> slot c (bin_of box scale c q) (rank box scale c (arrays sys) j q)).
Proof.
  intros box scale d w Hready Hci Hone Hwx Hwy Hwz Hlx Hly Hlz HN Hov Hvalid Hcap.
  assert (u3x d < 2 ^ 32 /\ u3y d < 2 ^ 32 /\ u3z d < 2 ^ 32) as (Hdx & Hdy & Hdz).
  { destruct Hready as (_ & _ & Hn32 & _).
    rewrite Hci in Hn32. cbn [i3_w i3_h i3_d] in Hn32.
    destruct Hone as (H1 & H2 & H3).
    assert (1 <= u3y d * u3z d) by nia.
    assert (1 <= u3x d * u3z d) by nia.
    assert (1 <= u3x d * u3y d) by nia.
    assert (u3x d * 1 <= u3x d * (u3y d * u3z d))
      by (apply Z.mul_le_mono_nonneg_l; lia).
    assert (u3y d * 1 <= u3y d * (u3x d * u3z d))
      by (apply Z.mul_le_mono_nonneg_l; lia).
    assert (u3z d * 1 <= u3z d * (u3x d * u3y d))
      by (apply Z.mul_le_mono_nonneg_l; lia).
    machine_lia. }
  destruct Hone as (Hx1 & Hy1 & Hz1).
  assert (forall i p, arrays sys !! i = Some p ->
            (cell_holds (u3x d) (cell_coordinate (p_x p) (xlo box) (s3x scale))
               (particle_ib box scale d p)
             /\ cell_holds (u3y d) (cell_coordinate (p_y p) (ylo box) (s3y scale))
                  (particle_jb box scale d p)
             /\ cell_holds (u3z d) (cell_coordinate (p_z p) (zlo box) (s3z scale))
                  (particle_kb box scale d p))
            /\ (cell_takes (u3x d) (xlo box) (s3x w) (p_x p) (particle_ib box scale d p)
                /\ cell_takes (u3y d) (ylo box) (s3y w) (p_y p) (particle_jb box scale d p)
                /\ cell_takes (u3z d) (zlo box) (s3z w) (p_z p)
                     (particle_kb box scale d p))) as Hholds.
  { intros i p Hp.
    destruct (Hvalid i p Hp) as (_ & (Wx & Lx & Hx) & (Wy & Ly & Hy) & (Wz & Lz & Hz)).
    split; split; [|split| |split].
    - apply axis_index_holds; [lia | exact Hx].
    - apply axis_index_holds; [lia | exact Hy].
    - apply axis_index_holds; [lia | exact Hz].
    - apply (axis_index_takes (p_x p) (xlo box) (s3x w)); try assumption; lia.
    - apply (axis_index_takes (p_y p) (ylo box) (s3y w)); try assumption; lia.
    - apply (axis_index_takes (p_z p) (zlo box) (s3z w)); try assumption; lia. }
  destruct (computeCellList_placement NDEBUG sys c Hready Hci HN Hov) as
    (c' & Hrun & Hov' & Hsum & Hplace & Hdistinct).
  { intros i p Hp. destruct (Hvalid i p Hp) as (Hnan & _).
    destruct (Hholds i p Hp) as (([Hi _] & [Hj _] & [Hk _]) & _).
    split; [exact Hnan|]. unfold in_grid.
    apply andb_true_intro; split; [apply andb_true_intro; split|];
      apply Z.ltb_lt; [apply Hi | apply Hj | apply Hk]. }
  { exact Hcap. }
  exists c'. split; [exact Hrun|]. split; [exact Hov'|]. split; [exact Hsum|].
  split; [|exact Hdistinct].
  intros i p Hp. destruct (Hholds i p Hp) as ((Hhx & Hhy & Hhz) & Htakes).
  destruct (Hplace i p Hp) as (Hbin & Hrange & count & Hcount & Hrank & Hle & Hrec).
  exists (particle_ib box scale d p), (particle_jb box scale d p),
    (particle_kb box scale d p), count.
  split; [exact Htakes|]. split; [auto|]. split.
  { intros ib' jb' kb' Hx' Hy' Hz'.
    rewrite (cell_holds_unique _ _ _ _ Hx' Hhx), (cell_holds_unique _ _ _ _ Hy' Hhy),
      (cell_holds_unique _ _ _ _ Hz' Hhz). reflexivity. }
  split; [exact Hbin|]. split; [exact Hrange|]. split; [exact Hcount|].
  split; [exact Hrank|]. split; [exact Hle | exact Hrec].
Qed.

End BucketFillSinglePrecision.

(** * The compute driver *)

Section Frames.
Context {Scalar : Type} `{ScalarOps Scalar}.
Implicit Type c : CellList Scalar.

#[export] Instance same_flags_preorder : PreOrder (same_flags (Scalar := Scalar)).
Proof.
  split.
  - intros c. repeat split.
  - intros c1 c2 c3 (H1 & H2 & H3) (H4 & H5 & H6). unfold same_flags. split; [|split]; congruence.
Qed.

#[export] Instance same_allocation_preorder : PreOrder (same_allocation (Scalar := Scalar)).
Proof.
  split.
  - intros c. split; [|auto].
    exists (m_cell_size c), (m_xyzf c), (m_tdb c), (m_overflowed c). destruct c; reflexivity.
  - intros c1 c2 c3 (F1 & L1 & L2 & L3) (F2 & L4 & L5 & L6).
    split; [|split; [|split]; congruence].
    destruct F1 as (s1 & x1 & t1 & o1 & ->). destruct F2 as (s2 & x2 & t2 & o2 & ->).
    exists s2, x2, t2, o2. reflexivity.
Qed.

End Frames.

Create HintDb frames discriminated.

(** Walks through a member function, one construct at a time; the frame
    lemmas of the array accesses come from the hint database. *)
Ltac frame :=
  repeat first
    [ solve [auto 1 with frames nocore]
    | refine (preserves_ret _ _)
    | refine (preserves_raise _ _)
    | refine (preserves_gets _ _)
    | refine (preserves_bind _ _ _ _ _); [|intro]
    | refine (preserves_foldM _ _ _ _ _); intros
    | refine (preserves_forM _ _ _ _); intros
    | refine (preserves_for_particles _ _ _ _ _); intros
    | progress cbv beta zeta
    | progress unfold assert_
    | match goal with
      | |- preserves _ (if ?b then _ else _) => destruct b
      | |- preserves _ (match ?x with _ => _ end) => destruct x
      end ].

Section Compute.
Context {Scalar : Type} `{ScalarOps Scalar}.
Variable NDEBUG : bool.
Variable powf : float32 -> float32 -> float32.
Implicit Type c : CellList Scalar.

(** *** What each member function leaves alone *)

Lemma computeDimensions_pure sys : preserves eq (computeDimensions NDEBUG powf sys).
Proof. frame. Qed.

Lemma initializeAll_flags sys : preserves same_flags (initializeAll NDEBUG powf sys).
Proof. frame; apply preserves_modify; intros c; repeat split. Qed.

Lemma initializeWidth_flags sys : preserves same_flags (initializeWidth NDEBUG powf sys).
Proof. frame; apply preserves_modify; intros c; repeat split. Qed.

Lemma same_allocation_insert_xyzf c (i : nat) v :
  same_allocation c (set_xyzf (<[i := v]> (m_xyzf c)) c).
Proof.
  split; [|fields; rewrite ?length_insert; auto].
  eexists _, _, _, _. destruct c; reflexivity.
Qed.

Lemma same_allocation_insert_tdb c (i : nat) v :
  same_allocation c (set_tdb (<[i := v]> (m_tdb c)) c).
Proof.
  split; [|fields; rewrite ?length_insert; auto].
  eexists _, _, _, _. destruct c; reflexivity.
Qed.

Lemma same_allocation_insert_cell_size c (i : nat) v :
  same_allocation c (set_cell_size (<[i := v]> (m_cell_size c)) c).
Proof.
  split; [|fields; rewrite ?length_insert; auto].
  eexists _, _, _, _. destruct c; reflexivity.
Qed.

Lemma same_allocation_overflowed c (b : bool) : same_allocation c (set_overflowed b c).
Proof. split; [|auto]. eexists _, _, _, _. destruct c; reflexivity. Qed.

Lemma load_cell_size_allocation (i : Z) :
  preserves same_allocation (load_cell_size (Scalar := Scalar) i).
Proof. frame. Qed.

Lemma store_xyzf_allocation (i : Z) v :
  preserves same_allocation (store_xyzf (Scalar := Scalar) i v).
Proof.
  intros c r c' Hrun. unfold store_xyzf, bind, gets, modify, raise in Hrun.
  destruct (_ <? _); injection Hrun as _ <-;
    [apply same_allocation_insert_xyzf | reflexivity].
Qed.

Lemma store_tdb_allocation (i : Z) v :
  preserves same_allocation (store_tdb (Scalar := Scalar) i v).
Proof.
  intros c r c' Hrun. unfold store_tdb, bind, gets, modify, raise in Hrun.
  destruct (_ <? _); injection Hrun as _ <-;
    [apply same_allocation_insert_tdb | reflexivity].
Qed.

Lemma store_cell_size_allocation (i v : Z) :
  preserves same_allocation (store_cell_size (Scalar := Scalar) i v).
Proof.
  intros c r c' Hrun. unfold store_cell_size, bind, gets, modify, raise in Hrun.
  destruct (_ <? _); injection Hrun as _ <-;
    [apply same_allocation_insert_cell_size | reflexivity].
Qed.

Lemma memset_cell_size_allocation (n : Z) :
  preserves same_allocation (memset_cell_size (Scalar := Scalar) n).
Proof.
  intros c r c' Hrun. unfold memset_cell_size, bind, gets, modify, raise in Hrun.
  destruct (Z.leb_spec n (Z.of_nat (length (m_cell_size c)))); injection Hrun as _ <-;
    [|reflexivity].
  split; [|fields; rewrite ?length_app, ?length_replicate, ?length_drop; repeat split; lia].
  eexists _, _, _, _. destruct c; reflexivity.
Qed.

Lemma set_overflowed_allocation (b : bool) :
  preserves same_allocation (modify (Scalar := Scalar) (set_overflowed b)).
Proof. apply preserves_modify. intros c. apply same_allocation_overflowed. Qed.

Hint Resolve load_cell_size_allocation store_xyzf_allocation store_tdb_allocation
  store_cell_size_allocation memset_cell_size_allocation set_overflowed_allocation
  : frames.

Lemma bin_particle_allocation box scale ci cli (n : Z) p :
  preserves same_allocation (bin_particle NDEBUG box scale ci cli n p).
Proof. unfold bin_particle. frame. Qed.

Hint Resolve bin_particle_allocation : frames.

Lemma computeCellList_allocation sys :
  preserves same_allocation (computeCellList NDEBUG sys).
Proof. unfold computeCellList. frame. Qed.

Lemma rebuild_allocation sys : preserves same_allocation (rebuild NDEBUG sys).
Proof. unfold rebuild, computeCellList. frame. Qed.

(** *** [compute] is [prepare] followed by the rebuild *)

Lemma compute_prepare sys (should_compute : bool) c :
  compute NDEBUG powf sys should_compute c
  = (let* force := prepare NDEBUG powf sys in
     if should_compute || force then rebuild NDEBUG sys else ret tt) c.
Proof.
  unfold compute, prepare, handle_params, handle_box, handle_sorted, rebuild.
  unfold bind, gets, modify, ret.
  destruct (m_params_changed c).
  - destruct (initializeAll NDEBUG powf sys c) as [[[]|f] c1]; [|reflexivity].
    fields. destruct (m_box_changed c1).
    + destruct (computeDimensions NDEBUG powf sys _) as [[d|f] c2]; [|reflexivity].
      destruct (uint3_eqb d (m_dim c2)).
      * destruct (initializeWidth NDEBUG powf sys c2) as [[[]|f] c3]; [|reflexivity].
        fields. destruct (m_particles_sorted c3); reflexivity.
      * destruct (initializeAll NDEBUG powf sys c2) as [[[]|f] c3]; [|reflexivity].
        fields. destruct (m_particles_sorted c3); reflexivity.
    + destruct (m_particles_sorted c1); reflexivity.
  - destruct (m_box_changed c).
    + destruct (computeDimensions NDEBUG powf sys c) as [[d|f] c2]; [|reflexivity].
      destruct (uint3_eqb d (m_dim c2)).
      * destruct (initializeWidth NDEBUG powf sys c2) as [[[]|f] c3]; [|reflexivity].
        fields. destruct (m_particles_sorted c3); reflexivity.
      * destruct (initializeAll NDEBUG powf sys c2) as [[[]|f] c3]; [|reflexivity].
        fields. destruct (m_particles_sorted c3); reflexivity.
    + destruct (m_particles_sorted c); reflexivity.
Qed.

Lemma set_particles_sorted_id c :
  m_particles_sorted c = false -> set_particles_sorted false c = c.
Proof. destruct c. cbn. intros ->. reflexivity. Qed.

Lemma set_overflowed_id c : m_overflowed c = false -> set_overflowed false c = c.
Proof. destruct c. cbn. intros ->. reflexivity. Qed.

(** With no parameter change and no box change pending, [prepare] only
    consumes the sort flag. *)
Lemma prepare_fresh sys c :
  m_params_changed c = false -> m_box_changed c = false ->
  prepare NDEBUG powf sys c = (Returned (m_particles_sorted c), set_particles_sorted false c).
Proof.
  intros Hpc Hbc. unfold prepare, handle_params, handle_box, handle_sorted.
  unfold bind, gets, modify, ret. rewrite Hpc, Hbc.
  destruct (m_particles_sorted c) eqn:Hps; [reflexivity|].
  rewrite set_particles_sorted_id by exact Hps. reflexivity.
Qed.

(** However it got there, a [prepare] that returns leaves all three
    flags down. *)
Lemma prepare_clears_flags sys c (force : bool) c' :
  prepare NDEBUG powf sys c = (Returned force, c') ->
  m_params_changed c' = false /\ m_box_changed c' = false /\ m_particles_sorted c' = false.
Proof.
  unfold prepare. intros Hrun.
  apply bind_returned in Hrun as (f1 & c1 & H1 & Hrun).
  apply bind_returned in Hrun as (f2 & c2 & H2 & H3).
  assert (m_params_changed c1 = false) as Hpc1.
  { unfold handle_params in H1. apply bind_returned in H1 as (pc & c0 & Hg & H1).
    injection Hg as <- <-. destruct (m_params_changed c) eqn:Hpc.
    - apply bind_returned in H1 as ([] & ca & Hinit & H1).
      apply bind_returned in H1 as ([] & cb & Hmod & H1).
      injection Hmod as <-. injection H1 as _ <-. reflexivity.
    - injection H1 as _ <-. exact Hpc. }
  assert (m_params_changed c2 = false /\ m_box_changed c2 = false) as [Hpc2 Hbc2].
  { unfold handle_box in H2. apply bind_returned in H2 as (bc & c0 & Hg & H2).
    injection Hg as <- <-. destruct (m_box_changed c1) eqn:Hbc.
    - apply bind_returned in H2 as (d & ca & Hdim & H2).
      apply bind_returned in H2 as (d' & cb & Hg & H2). injection Hg as <- <-.
      apply bind_returned in H2 as ([] & cc & Hinit & H2).
      apply bind_returned in H2 as ([] & cd & Hmod & H2).
      injection Hmod as <-. injection H2 as _ <-. fields.
      apply computeDimensions_pure in Hdim as <-.
      assert (same_flags c1 cc) as (Hf & _).
      { destruct (uint3_eqb d (m_dim c1));
          [eapply initializeWidth_flags | eapply initializeAll_flags]; exact Hinit. }
      split; [congruence | reflexivity].
    - injection H2 as _ <-. auto. }
  unfold handle_sorted, bind, gets, modify, ret in H3.
  destruct (m_particles_sorted c2) eqn:Hps; injection H3 as _ <-; fields; auto.
Qed.

(** *** The rebuild on a sized storage *)

Lemma fill_ready_flags c (b1 b2 : bool) :
  fill_ready c -> fill_ready (set_overflowed b1 (set_particles_sorted b2 c)).
Proof. intros Hc. exact Hc. Qed.

(** The rebuild over fault-free particles completes its sweep; it then
    raises the overflow failure exactly when the flag was set on the way. *)
Lemma rebuild_fault_free sys c :
  fill_ready c -> getN sys < 2 ^ 32 ->
  (forall i p, arrays sys !! i = Some p ->
     particle_fault (getBox sys) (inverse_width c) (m_dim c) (m_cell_indexer c) NDEBUG
       (Z.of_nat i) p = None) ->
  exists c',
    rebuild NDEBUG sys c
    = ((if m_overflowed c' then Raised BucketOverflow else Returned tt), c')
    /\ storage_frame c c' /\ fill_ready c'
    /\ bucketed (getBox sys) (inverse_width c) (set_overflowed false c) (arrays sys) c'.
Proof.
  intros Hready HN Hok.
  pose proof Hready as (_ & HNmax & _).
  destruct (sweep_fault_free NDEBUG (getBox sys) (inverse_width c)
              (cleared (set_overflowed false c)) (arrays sys))
    as (c' & Hrun & Hfr & Hready' & Hb).
  { apply fill_ready_cleared. exact Hready. }
  { apply (bucketed_cleared (getBox sys) (inverse_width c) (set_overflowed false c)).
    exact HNmax. }
  { exact HN. }
  { exact Hok. }
  exists c'. split; [|split; [|split]].
  - unfold rebuild, bind at 1, modify at 1. unfold bind at 1.
    rewrite (computeCellList_sweep NDEBUG sys (set_overflowed false c)) by exact Hready.
    change (inverse_width (set_overflowed false c)) with (inverse_width c).
    rewrite Hrun. unfold bind, gets, ret, raise.
    destruct (m_overflowed c'); reflexivity.
  - destruct Hfr as (s1 & x1 & t1 & o1 & ->). exists s1, x1, t1, o1. reflexivity.
  - exact Hready'.
  - exact Hb.
Qed.

Lemma has_nan_fault box scale d ci (n : Z) p :
  has_nan p = true -> particle_fault box scale d ci NDEBUG n p = Some (InvalidPosition n).
Proof. intros Hnan. unfold particle_fault. rewrite Hnan. reflexivity. Qed.

(** C2. Take a state with no parameter or box change pending, in which
    a rebuild is due or forced, with storage sized as [initializeMemory]
    sizes it, and particles none of which raises a fault of its own (no
    NaN, none outside the grid). Then [compute] sweeps all particles: it
    ends with every counter equal to the true number of particles of its
    cell, however large, the counters summing to the particle count; it
    raises [BucketOverflow], after that sweep, exactly when some cell
    received more than [Nmax] particles; and when it returns normally
    every particle's record is in its slot. *)
Theorem compute_overflow_after_full_sweep sys (should_compute : bool) c :
  m_params_changed c = false -> m_box_changed c = false ->
  should_compute || m_particles_sorted c = true ->
  fill_ready c -> getN sys < 2 ^ 32 ->
  (forall i p, arrays sys !! i = Some p ->
     particle_fault (getBox sys) (inverse_width c) (m_dim c) (m_cell_indexer c) NDEBUG
       (Z.of_nat i) p = None) ->
  exists (r : outcome unit) c',
    compute NDEBUG powf sys should_compute c = (r, c')
    /\ (r = Raised BucketOverflow \/ r = Returned tt)
    /\ (r = Raised BucketOverflow <-> exists b, m_Nmax c < occupancy b (bins sys c))
    /\ (forall b, 0 <= b < Z.of_nat (length (m_cell_size c)) ->
          m_cell_size c' !! Z.to_nat b = Some (occupancy b (bins sys c)))
    /\ sumZ (m_cell_size c') = getN sys
    /\ (r = Returned tt ->
        forall i p, arrays sys !! i = Some p ->
          rank (getBox sys) (inverse_width c) c (arrays sys) i p < m_Nmax c
          /\ m_xyzf c' !! slot c (bin_of (getBox sys) (inverse_width c) c p)
                             (rank (getBox sys) (inverse_width c) c (arrays sys) i p)
             = Some (xyzf_record (m_flag_charge c) (Z.of_nat i) p)).
Proof.
  intros Hpc Hbc Hdue Hready HN Hok.
  rewrite compute_prepare. unfold bind at 1.
  rewrite prepare_fresh by assumption. rewrite Hdue.
  destruct (rebuild_fault_free sys (set_particles_sorted false c) Hready HN Hok)
    as (c' & Hrun & Hfr & Hready' & B1 & B2 & B3 & B4).
  change (bin_of (getBox sys) (inverse_width (set_particles_sorted false c))
            (set_overflowed false (set_particles_sorted false c)))
    with (bin_of (getBox sys) (inverse_width c) c) in B1, B3.
  fold (bins sys c) in B1, B3. fields in *.
  assert (length (m_cell_size c') = length (m_cell_size c)) as Hlen.
  { destruct Hready' as (_ & _ & _ & _ & _ & Hl' & _).
    destruct Hready as (_ & _ & _ & _ & _ & Hl & _).
    destruct (storage_frame_fields _ _ Hfr) as (_ & _ & Hci' & _).
    rewrite Hci' in Hl'. fields in *. lia. }
  assert (m_overflowed c' = true <-> exists b, m_Nmax c < occupancy b (bins sys c)) as Hov.
  { rewrite B3. split; [intros [Habs|Hb]; [discriminate | exact Hb] | auto]. }
  eexists _, c'. split; [exact Hrun|].
  split; [destruct (m_overflowed c'); auto|].
  split; [|split; [|split]].
  - rewrite <- Hov. destruct (m_overflowed c'); split; congruence.
  - intros b Hb. apply B1. rewrite Hlen. exact Hb.
  - exact B4.
  - intros Hr i p Hp.
    assert (rank (getBox sys) (inverse_width c) c (arrays sys) i p < m_Nmax c) as Hrank.
    { destruct (Z.lt_ge_cases (rank (getBox sys) (inverse_width c) c (arrays sys) i p)
                  (m_Nmax c)) as [Hlt|Hge]; [exact Hlt|].
      assert (m_overflowed c' = true) as Htrue.
      { apply Hov. exists (bin_of (getBox sys) (inverse_width c) c p).
        assert (rank (getBox sys) (inverse_width c) c (arrays sys) i p
                < occupancy (bin_of (getBox sys) (inverse_width c) c p) (bins sys c)).
        { unfold rank, bins. rewrite fmap_take. apply occupancy_take_lt.
          rewrite list_lookup_fmap, Hp. reflexivity. }
        lia. }
      rewrite Htrue in Hr. discriminate. }
    split; [exact Hrank|]. apply (B2 i p Hp). exact Hrank.
Qed.

(** C7 (as amended). Take a state with no parameter or box change
    pending, in which a rebuild is due or forced, with storage sized as
    [initializeMemory] sizes it. If particle number [length pre] has a
    NaN coordinate and the particles before it raise no fault, [compute]
    raises [InvalidPosition] for that particle, before binning it and
    whatever the occupancy of the cells. The failure does not undo the
    sweep so far: the arrays a Consumer reads are left holding the
    particles before the faulting one, each counter counting those of
    them that fell into its cell. *)
Theorem compute_nan_stops_sweep sys (should_compute : bool) c
    (pre post : list (Particle Scalar)) p :
  m_params_changed c = false -> m_box_changed c = false ->
  should_compute || m_particles_sorted c = true ->
  fill_ready c -> Z.of_nat (length pre) < 2 ^ 32 ->
  arrays sys = pre ++ p :: post ->
  has_nan p = true ->
  (forall i q, pre !! i = Some q ->
     particle_fault (getBox sys) (inverse_width c) (m_dim c) (m_cell_indexer c) NDEBUG
       (Z.of_nat i) q = None) ->
  exists c',
    compute NDEBUG powf sys should_compute c
    = (Raised (InvalidPosition (Z.of_nat (length pre))), c')
    /\ (forall b, 0 <= b < Z.of_nat (length (m_cell_size c)) ->
          m_cell_size c' !! Z.to_nat b
          = Some (occupancy b (bin_of (getBox sys) (inverse_width c) c <$> pre)))
    /\ sumZ (m_cell_size c') = Z.of_nat (length pre)
    /\ (forall i q, pre !! i = Some q ->
          rank (getBox sys) (inverse_width c) c pre i q < m_Nmax c ->
          m_xyzf c' !! slot c (bin_of (getBox sys) (inverse_width c) c q)
                             (rank (getBox sys) (inverse_width c) c pre i q)
          = Some (xyzf_record (m_flag_charge c) (Z.of_nat i) q)).
Proof.
  intros Hpc Hbc Hdue Hready HN Harr Hnan Hok.
  rewrite compute_prepare. unfold bind at 1.
  rewrite prepare_fresh by assumption. rewrite Hdue.
  pose proof Hready as (_ & HNmax & _).
  set (c1 := set_overflowed false (set_particles_sorted false c)).
  destruct (sweep_first_fault NDEBUG (getBox sys) (inverse_width c) (cleared c1)
              pre post p (InvalidPosition (Z.of_nat (length pre))))
    as (c' & Hrun & Hfr & Hready' & B1 & B2 & B3 & B4).
  { apply fill_ready_cleared. exact Hready. }
  { apply (bucketed_cleared (getBox sys) (inverse_width c) c1). exact HNmax. }
  { exact HN. }
  { exact Hok. }
  { apply has_nan_fault. exact Hnan. }
  assert (length (m_cell_size c') = length (m_cell_size c)) as Hlen.
  { destruct Hready' as (_ & _ & _ & _ & _ & Hl' & _).
    destruct Hready as (_ & _ & _ & _ & _ & Hl & _).
    destruct (storage_frame_fields _ _ Hfr) as (_ & _ & Hci' & _).
    rewrite Hci' in Hl'. unfold cleared, c1 in Hl'. fields in *. lia. }
  exists c'. split; [|split; [|split]].
  - unfold rebuild, bind at 1, modify at 1. unfold bind at 1. fold c1.
    rewrite (computeCellList_sweep NDEBUG sys c1) by exact Hready.
    change (inverse_width c1) with (inverse_width c).
    rewrite Harr, Hrun. reflexivity.
  - intros b Hb. apply B1. rewrite Hlen. exact Hb.
  - exact B4.
  - intros i q Hq Hr. apply (B2 i q Hq). exact Hr.
Qed.

(** *** Box changes *)

Lemma uint3_eqb_eq (a b : uint3) : uint3_eqb a b = true <-> a = b.
Proof.
  destruct a as [ax ay az], b as [bx by_ bz]. unfold uint3_eqb. cbn [u3x u3y u3z].
  split.
  - intros Heq. apply andb_prop in Heq as [Heq Hz]. apply andb_prop in Heq as [Hx Hy].
    apply Z.eqb_eq in Hx, Hy, Hz. subst. reflexivity.
  - intros Heq. injection Heq as -> -> ->. rewrite !Z.eqb_refl. reflexivity.
Qed.

Lemma computeDimensions_run sys c (d : uint3) :
  fst (computeDimensions NDEBUG powf sys c) = Returned d ->
  computeDimensions NDEBUG powf sys c = (Returned d, c).
Proof.
  destruct (computeDimensions NDEBUG powf sys c) as [r c'] eqn:Hrun. cbn. intros ->.
  apply computeDimensions_pure in Hrun as <-. reflexivity.
Qed.

Lemma initializeWidth_run sys c (d : uint3) :
  computeDimensions NDEBUG powf sys c = (Returned d, c) ->
  initializeWidth NDEBUG powf sys c
  = (Returned tt, set_geometry d (refreshed_width sys d) c).
Proof. intros Hd. unfold initializeWidth, bind. rewrite Hd. reflexivity. Qed.

(** *** Idempotence *)

(** A sized state keeps being sized when its buckets are cleared, and so
    does any state with the same configuration and array sizes. *)
Lemma fill_ready_rebucket c (s1 : list Z) (x1 t1 : list (Scalar4 Scalar)) (o1 : bool) :
  fill_ready (rebucket s1 x1 t1 o1 c) ->
  length s1 = length (m_cell_size c) -> length x1 = length (m_xyzf c) ->
  length t1 = length (m_tdb c) ->
  fill_ready (cleared (set_overflowed false c)).
Proof.
  unfold fill_ready, cleared, rebucket. fields. cbn [m_cell_size m_xyzf m_tdb].
  intros (Hn & HNmax & Hn32 & Hfit & Hcli & Hlen & Hxyzf & Htdb & Hcnt) L1 L2 L3.
  rewrite length_replicate, <- L1, <- L2, <- L3.
  repeat split; try assumption.
  apply Forall_replicate. machine_lia.
Qed.

(** The rebuild of a state that a rebuild has just produced changes
    nothing. *)
Lemma rebuild_twice sys c c1 :
  getN sys < 2 ^ 32 ->
  rebuild NDEBUG sys c = (Returned tt, c1) -> fill_ready c1 ->
  rebuild NDEBUG sys c1 = (Returned tt, c1).
Proof.
  intros HN Hrun Hready1.
  pose proof (rebuild_allocation sys c _ _ Hrun) as ((s1 & x1 & t1 & o1 & ->) & L1 & L2 & L3).
  cbn [rebucket m_cell_size m_xyzf m_tdb] in L1, L2, L3.
  pose proof (fill_ready_rebucket c s1 x1 t1 o1 Hready1 L1 L2 L3) as Hready0.
  pose proof Hready1 as (_ & HNmax & _).
  change (0 <= m_Nmax c) in HNmax.
  (* the first rebuild *)
  unfold rebuild in Hrun.
  apply bind_returned in Hrun as ([] & c2 & Hmod & Hrun). injection Hmod as <-.
  apply bind_returned in Hrun as ([] & c3 & Hfill & Hrun).
  apply bind_returned in Hrun as (ov & c4 & Hg & Hrun). injection Hg as <- <-.
  destruct (m_overflowed c3) eqn:Hov3; [discriminate|]. injection Hrun as ->.
  cbn [rebucket m_overflowed] in Hov3. subst o1.
  rewrite (computeCellList_sweep_cleared NDEBUG sys (set_overflowed false c)) in Hfill
    by exact Hready0.
  change (inverse_width (set_overflowed false c)) with (inverse_width c) in Hfill.
  set (box := getBox sys) in *. set (scale := inverse_width c) in *.
  set (c0 := cleared (set_overflowed false c)) in *.
  destruct (sweep_bucketed NDEBUG box scale c0 (arrays sys) [] c0 _ _
              ltac:(exists (m_cell_size c0), (m_xyzf c0), (m_tdb c0), (m_overflowed c0);
                    destruct c; reflexivity)
              Hready0 (bucketed_cleared box scale (set_overflowed false c) HNmax)
              ltac:(cbn [length]; exact HN) Hfill)
    as (binned & rest & Harr & _ & _ & (B1 & B2 & B3 & _) & Hok & ->).
  rewrite app_nil_r in Harr. subst binned. cbn [app length Nat.add] in *.
  (* the second rebuild *)
  set (c1 := rebucket s1 x1 t1 false c) in *.
  assert (set_overflowed false c1 = c1) as Hid by reflexivity.
  unfold rebuild, bind at 1, modify at 1. rewrite Hid. unfold bind at 1.
  rewrite (computeCellList_sweep NDEBUG sys c1) by exact Hready1.
  change (inverse_width c1) with scale. fold box.
  destruct (sweep NDEBUG box scale 0 (arrays sys) (cleared c1)) as [r2 c2] eqn:Hrun2.
  pose proof (fill_ready_cleared c1 Hready1) as Hready1'.
  destruct (sweep_fault_free NDEBUG box scale (cleared c1) (arrays sys) Hready1'
              (bucketed_cleared box scale c1 HNmax) HN Hok)
    as (c2' & Hrun2' & Hfr2 & Hready2 & B1' & B2' & B3' & _).
  rewrite Hrun2 in Hrun2'. injection Hrun2' as -> <-.
  destruct (sweep_replay NDEBUG box scale (cleared c1) (arrays sys) [] (cleared c1) _ _
              ltac:(exists (m_cell_size (cleared c1)), (m_xyzf (cleared c1)),
                      (m_tdb (cleared c1)), (m_overflowed (cleared c1));
                    destruct c; reflexivity)
              Hready1' (bucketed_cleared box scale c1 HNmax)
              ltac:(cbn [length]; exact HN) B2 Hrun2)
    as [Ex Et].
  destruct Hfr2 as (s2 & x2 & t2 & o2 & ->). subst c1.
  cbn [rebucket m_xyzf m_tdb m_cell_size m_overflowed cleared set_cell_size] in Ex, Et, B1', B3'.
  cbn [rebucket m_xyzf m_tdb m_cell_size m_overflowed] in B1, B3.
  subst x2 t2.
  assert (o2 = false) as ->.
  { destruct o2; [|reflexivity]. apply proj1 in B3'. specialize (B3' eq_refl).
    apply proj2 in B3. destruct B3' as [Habs|Hb]; [discriminate|].
    symmetry. apply B3. right. exact Hb. }
  assert (s2 = s1) as ->.
  { destruct Hready2 as (_ & _ & _ & _ & _ & Hl2 & _).
    destruct Hready1 as (_ & _ & _ & _ & _ & Hl1 & _).
    cbn [rebucket m_cell_size m_cell_indexer cleared set_cell_size] in Hl1, Hl2.
    apply (list_eq_same_length _ _ (length s1)); [reflexivity | lia |].
    intros i x y Hi Hx Hy.
    specialize (B1 (Z.of_nat i) ltac:(lia)). specialize (B1' (Z.of_nat i) ltac:(lia)).
    rewrite Nat2Z.id in B1, B1'. rewrite Hx in B1'. rewrite Hy in B1.
    injection B1 as ->. injection B1' as ->. reflexivity. }
  unfold bind, gets, ret. reflexivity.
Qed.

(** C9. If a [compute] returns normally, in a state whose bucket storage
    is sized as [initializeMemory] sizes it, then calling [compute] again
    on that state, with the same particle data, box and periodicity
    decision and no notification in between, returns normally and leaves
    the state exactly as it was: bucket contents, occupancy counters and
    adjacency table included. *)
Theorem compute_twice sys (should_compute : bool) c c1 :
  getN sys < 2 ^ 32 ->
  compute NDEBUG powf sys should_compute c = (Returned tt, c1) ->
  fill_ready c1 ->
  compute NDEBUG powf sys should_compute c1 = (Returned tt, c1).
Proof.
  intros HN Hrun Hready1.
  rewrite compute_prepare in Hrun.
  apply bind_returned in Hrun as (force & cm & Hprep & Hk).
  destruct (prepare_clears_flags _ _ _ _ Hprep) as (Hpc & Hbc & Hps).
  assert (m_params_changed c1 = false /\ m_box_changed c1 = false
          /\ m_particles_sorted c1 = false) as (Hpc1 & Hbc1 & Hps1).
  { destruct (should_compute || force).
    - apply rebuild_allocation in Hk as ((s1 & x1 & t1 & o1 & ->) & _). auto.
    - injection Hk as <-. auto. }
  rewrite compute_prepare. unfold bind at 1.
  rewrite prepare_fresh by assumption.
  rewrite Hps1, orb_false_r, set_particles_sorted_id by exact Hps1.
  destruct should_compute; [|reflexivity].
  cbn [orb] in Hk. eapply rebuild_twice; [exact HN | exact Hk | exact Hready1].
Qed.

End Compute.

(** * Further properties of the member functions *)

Section GridSetup.
Context {Scalar : Type} `{ScalarOps Scalar}.
Variable NDEBUG : bool.
Variable powf : float32 -> float32 -> float32.
Implicit Type c : CellList Scalar.

(** X1. [computeDimensions] only observes the engine: whatever it answers,
    the state is the one it was called in. It fails in one way only, the
    assertion on entry, and that exactly in a debug build on a box with a
    non-positive extent; in every other case it returns a triple of
    unsigned 32-bit values. *)
Theorem computeDimensions_observes sys c :
  snd (computeDimensions NDEBUG powf sys c) = c
  /\ (fst (computeDimensions NDEBUG powf sys c) = Raised AssertionFailure
      <-> NDEBUG = false /\ box_positive (getBox sys) = false)
  /\ (fst (computeDimensions NDEBUG powf sys c) = Raised AssertionFailure
      \/ exists d,
           fst (computeDimensions NDEBUG powf sys c) = Returned d
           /\ 0 <= u3x d < 2 ^ 32 /\ 0 <= u3y d < 2 ^ 32 /\ 0 <= u3z d < 2 ^ 32).
Proof.
  pose proof (S_to_uint_range
    (Sdiv (Ssub (xhi (getBox sys)) (xlo (getBox sys))) (m_nominal_width c))) as Hx.
  pose proof (S_to_uint_range
    (Sdiv (Ssub (yhi (getBox sys)) (ylo (getBox sys))) (m_nominal_width c))) as Hy.
  pose proof (S_to_uint_range
    (Sdiv (Ssub (zhi (getBox sys)) (zlo (getBox sys))) (m_nominal_width c))) as Hz.
  unfold computeDimensions, assert_, bind, gets, ret, raise.
  fold (box_positive (getBox sys)).
  destruct NDEBUG, (box_positive (getBox sys)); cbn [orb]; cbv beta iota zeta.
  4: { cbn [fst snd]. split; [reflexivity|]. split; [tauto | left; reflexivity]. }
  all: destruct (getNDimensions sys =? 2); destruct (_ >? _); cbn [fst snd].
  all: (split; [reflexivity|]; split;
        [split; [discriminate | intros []; discriminate]|]).
  all: right; eexists; split; [reflexivity|]; cbn [u3x u3y u3z].
  all: repeat split; try apply u32_range; try apply Hx; try apply Hy; try apply Hz;
       machine_lia.
Qed.


(** X2. In a two-dimensional system the grid is always three cells deep:
    whenever [computeDimensions] returns, [dim.z] is 3, whatever the z
    extent of the box, the nominal width and [m_max_cells]; the scale-down,
    when it applies, shrinks x and y only. *)
Theorem computeDimensions_planar_depth sys c (d : uint3) :
  getNDimensions sys = 2 ->
  fst (computeDimensions NDEBUG powf sys c) = Returned d ->
  u3z d = 3.
Proof.
  intros H2d. unfold computeDimensions, assert_, bind, gets, ret, raise.
  rewrite H2d. change (2 =? 2) with true. cbv beta iota zeta.
  destruct (NDEBUG || _); [|discriminate].
  destruct (_ >? _); cbn [fst]; intros [= <-]; reflexivity.
Qed.

(** X3. The cap [m_max_cells] is compared with the cell count computed in
    [unsigned int]: when the true count of the unscaled grid exceeds the
    cap but its 32-bit wrap does not, [computeDimensions] returns the
    unscaled grid, with more cells than the cap allows. *)
Theorem computeDimensions_cap_missed_on_wrap sys c :
  box_positive (getBox sys) = true ->
  u32 (numCells (raw_dim sys c)) <= m_max_cells c < numCells (raw_dim sys c) ->
  computeDimensions NDEBUG powf sys c = (Returned (raw_dim sys c), c)
  /\ m_max_cells c < numCells (raw_dim sys c).
Proof.
  intros Hbox [Hwrap Hcap]. split; [|exact Hcap].
  unfold computeDimensions, assert_, bind, gets, ret.
  unfold box_positive in Hbox. rewrite Hbox, orb_true_r.
  unfold raw_dim, numCells, axis_cells in *. cbn [u3x u3y u3z] in Hwrap.
  destruct (getNDimensions sys =? 2);
    (destruct (_ >? _) eqn:Hgt; [apply Z.gtb_lt in Hgt; lia | reflexivity]).
Qed.

(** X4. [initializeWidth] writes [m_dim] and [m_width] and nothing else:
    when [computeDimensions] returns [d] it stores [d] and the extents
    divided by the components of [d]; when [computeDimensions] fails, so
    does [initializeWidth], with the state untouched. In both cases the
    capacity, the indexers, the flags and every array stay as they were. *)
Theorem initializeWidth_geometry_only sys c :
  let run := initializeWidth NDEBUG powf sys c in
  snd run = set_geometry (m_dim (snd run)) (m_width (snd run)) c
  /\ (forall d, fst (computeDimensions NDEBUG powf sys c) = Returned d ->
        run = (Returned tt, set_geometry d (refreshed_width sys d) c))
  /\ (forall f, fst (computeDimensions NDEBUG powf sys c) = Raised f ->
        run = (Raised f, c)).
Proof.
  cbv zeta. unfold initializeWidth, bind, modify.
  pose proof (computeDimensions_pure NDEBUG powf sys c) as Hpure.
  destruct (computeDimensions NDEBUG powf sys c) as [[d|f] c1] eqn:Hrun;
    specialize (Hpure _ _ eq_refl); subst c1; cbn [fst snd].
  - split; [reflexivity|]. split; [intros d' [= <-]; reflexivity | discriminate].
  - split; [destruct c; reflexivity|]. split; [discriminate | intros f' [= <-]; reflexivity].
Qed.

(** X5. The capacity that [initializeMemory] derives is always a multiple
    of 32 in unsigned range; and unless the estimate lies within 32 of
    2^32, it is strictly above the estimate, by at most 32, hence never
    below 32 and never the estimate itself. *)
Theorem estimate_Nmax_strictly_above (N : Z) (dim : uint3) :
  let e := f32_to_uint (ceilf (f32_div (f32_mul (f32_of_Z N) f32_1_1)
                                       (f32_of_Z (u32 (u3x dim * u3y dim * u3z dim))))) in
  estimate_Nmax N dim `mod` 32 = 0
  /\ 0 <= estimate_Nmax N dim < 2 ^ 32
  /\ (e + 32 < 2 ^ 32 ->
      estimate_Nmax N dim = 32 * (e / 32) + 32
      /\ e < estimate_Nmax N dim <= e + 32
      /\ 32 <= estimate_Nmax N dim).
Proof.
  cbv zeta. unfold estimate_Nmax.
  set (e := f32_to_uint _).
  assert (0 <= e < 2 ^ 32) as He by (apply u32_range).
  rewrite round_up_32_strict by lia.
  pose proof (Z.div_mod e 32 ltac:(lia)) as Hdm.
  pose proof (Z.mod_pos_bound e 32 ltac:(lia)) as Hm.
  assert (0 <= e / 32) as Hq by (apply Z.div_pos; lia).
  split; [|split; [apply u32_range|]].
  - unfold u32. change (2 ^ 32) with (32 * 134217728).
    rewrite Z.rem_mul_r by lia.
    replace (32 * (e / 32) + 32) with ((e / 32 + 1) * 32) by lia.
    rewrite Z.mod_mul by lia. rewrite Z.add_0_l.
    rewrite Z.mul_comm, Z.mod_mul by lia. reflexivity.
  - intros Hfit. rewrite u32_small by machine_lia. lia.
Qed.

(** X6. The wrap written as [n % m] followed by one conditional [+= m] is
    the floor-modulo for every [int] [n], negative or beyond [m] by any
    number of periods: the result lies in [0, m), is congruent to [n],
    fixes the in-range indices and has period [m]. *)
Theorem wrap_index_floor_mod (n m : Z) :
  0 < m ->
  0 <= wrap_index n m < m
  /\ wrap_index n m = n `mod` m
  /\ (0 <= n < m -> wrap_index n m = n)
  /\ wrap_index (n + m) m = wrap_index n m
  /\ wrap_index (n - m) m = wrap_index n m.
Proof.
  intros Hm. rewrite !wrap_index_mod by exact Hm.
  split; [apply Z.mod_pos_bound; exact Hm|]. split; [reflexivity|].
  split; [intros Hn; apply Z.mod_small; exact Hn|].
  split.
  - replace (n + m) with (n + 1 * m) by lia. apply Z.mod_add. lia.
  - replace (n - m) with (n + (-1) * m) by lia. apply Z.mod_add. lia.
Qed.

End GridSetup.

Section AdjacencyTable.
Context {Scalar : Type} `{ScalarOps Scalar}.
Implicit Type c : CellList Scalar.

(** The whole run of [initializeCellAdj]: every row ends up holding the
    sorted neighbour list of its cell. *)
Lemma initializeCellAdj_table c :
  adj_ready c ->
  exists c',
    initializeCellAdj c = (Returned tt, c') /\ adj_frame c c'
    /\ forall i j k,
         0 <= i < u3x (m_dim c) -> 0 <= j < u3y (m_dim c) -> 0 <= k < u3z (m_dim c) ->
         adj_row_done (m_dim c) (m_radius c) i j k c'.
Proof.
  intros Hready.
  destruct (adj_loops_keep_frame c c (adj_frame_refl c Hready)) as ([] & c' & Hrun & Hfr).
  exists c'. split; [exact Hrun|]. split; [exact Hfr|].
  intros i j k Hi Hj Hk.
  destruct (adj_loops_fill_row c i j k Hready Hi Hj Hk c (adj_frame_refl c Hready))
    as ([] & c'' & Hrun' & _ & Hrow).
  unfold initializeCellAdj, bind, gets in Hrun.
  rewrite Hrun in Hrun'. injection Hrun' as <-. exact Hrow.
Qed.

(** Membership in the stencil of a cell. *)
Lemma elem_of_adj_offsets (r i j k : Z) (t : Z * Z * Z) :
  t ∈ adj_offsets r i j k
  <-> (i - r <= t.1.1 < i - r + (2 * r + 1))
      /\ (j - r <= t.1.2 < j - r + (2 * r + 1))
      /\ (k - r <= t.2 < k - r + (2 * r + 1)).
Proof.
  unfold adj_offsets. rewrite list_elem_of_bind. split.
  - intros (nk & Hin & Hk). apply list_elem_of_bind in Hin as (nj & Hin & Hj).
    apply list_elem_of_fmap in Hin as (ni & -> & Hi). cbn.
    apply elem_of_seqZ in Hi, Hj, Hk. auto.
  - destruct t as [[ni nj] nk]. cbn. intros (Hi & Hj & Hk).
    exists nk. split; [|apply elem_of_seqZ; exact Hk].
    apply list_elem_of_bind. exists nj. split; [|apply elem_of_seqZ; exact Hj].
    apply list_elem_of_fmap. exists ni. split; [reflexivity | apply elem_of_seqZ; exact Hi].
Qed.

(** Every cell id is the flattening of in-range coordinates. *)
Lemma flat_cell_onto (d : uint3) (cell : Z) :
  0 <= u3x d -> 0 <= u3y d -> 0 <= u3z d ->
  0 <= cell < numCells d ->
  exists i j k,
    0 <= i < u3x d /\ 0 <= j < u3y d /\ 0 <= k < u3z d /\ cell = flat_cell d i j k.
Proof.
  unfold numCells, flat_cell. intros Hdx Hdy Hdz Hcell.
  assert (0 < u3x d) as Hx.
  { destruct (Z.eq_dec (u3x d) 0) as [E|]; [rewrite E in Hcell|]; lia. }
  assert (0 < u3y d) as Hy.
  { destruct (Z.eq_dec (u3y d) 0) as [E|]; [rewrite E in Hcell|]; lia. }
  exists (cell `mod` u3x d), ((cell / u3x d) `mod` u3y d), (cell / u3x d / u3y d).
  pose proof (Z.mod_pos_bound cell (u3x d) Hx).
  pose proof (Z.mod_pos_bound (cell / u3x d) (u3y d) Hy).
  pose proof (Z.div_mod cell (u3x d) ltac:(lia)) as E1.
  pose proof (Z.div_mod (cell / u3x d) (u3y d) ltac:(lia)) as E2.
  assert (0 <= cell / u3x d) by (apply Z.div_pos; lia).
  assert (0 <= cell / u3x d / u3y d) by (apply Z.div_pos; lia).
  split; [lia|]. split; [lia|]. split.
  - split; [lia|]. apply Z.div_lt_upper_bound; [lia|].
    apply Z.div_lt_upper_bound; [lia|]. lia.
  - rewrite E1 at 1. rewrite E2 at 1. lia.
Qed.

(** Two arrays of the same size with the same rows are the same array. *)
Lemma rows_determine_array (w n : Z) (a b : list Z) :
  0 <= w -> 0 <= n ->
  Z.of_nat (length a) = w * n -> Z.of_nat (length b) = w * n ->
  (forall row, 0 <= row < n ->
     take (Z.to_nat w) (drop (Z.to_nat (row * w)) a)
     = take (Z.to_nat w) (drop (Z.to_nat (row * w)) b)) ->
  a = b.
Proof.
  intros Hw Hn Ha Hb Hrows. apply list_eq. intros p.
  destruct (decide (Z.of_nat p < w * n)) as [Hp|Hp].
  - assert (0 < w) as Hw' by nia.
    pose proof (Z.div_mod (Z.of_nat p) w ltac:(lia)) as Hdm.
    pose proof (Z.mod_pos_bound (Z.of_nat p) w Hw') as Hm.
    assert (0 <= Z.of_nat p / w < n) as Hrow.
    { split; [apply Z.div_pos; lia | apply Z.div_lt_upper_bound; lia]. }
    specialize (Hrows _ Hrow).
    apply (f_equal (fun l => l !! Z.to_nat (Z.of_nat p `mod` w))) in Hrows.
    rewrite !lookup_take_lt, !lookup_drop in Hrows by lia.
    replace (Z.to_nat (Z.of_nat p / w * w) + Z.to_nat (Z.of_nat p `mod` w))%nat with p
      in Hrows by nia.
    exact Hrows.
  - rewrite !lookup_ge_None_2 by lia. reflexivity.
Qed.


(** The row of a cell, read without machine arithmetic. *)
Lemma cell_adj_list_row c (cell : Z) :
  adj_ready c -> 0 <= cell < numCells (m_dim c) ->
  cell_adj_list c cell
  = take (Z.to_nat (stencil (m_radius c)))
         (drop (Z.to_nat (cell * stencil (m_radius c))) (m_cell_adj c)).
Proof.
  intros (Hr & _ & _ & _ & Hn & _ & Hw & _) Hcell.
  pose proof (stencil_pos _ Hr) as Hs.
  unfold cell_adj_list, Index2D_at. rewrite Hw.
  rewrite u32_small; [rewrite Z.add_0_r; reflexivity|].
  assert (cell * stencil (m_radius c) < stencil (m_radius c) * numCells (m_dim c)) by nia.
  split; [nia | machine_lia].
Qed.

(** The id under which the engine addresses an in-range cell. *)
Lemma Index3D_at_flat c (i j k : Z) :
  adj_ready c ->
  0 <= i < u3x (m_dim c) -> 0 <= j < u3y (m_dim c) -> 0 <= k < u3z (m_dim c) ->
  Index3D_at (m_cell_indexer c) i j k = flat_cell (m_dim c) i j k.
Proof.
  intros (Hr & _ & _ & _ & Hn & Hci & _) Hi Hj Hk.
  pose proof (stencil_pos _ Hr) as Hs.
  pose proof (flat_cell_bound (m_dim c) i j k Hi Hj Hk) as Hb.
  rewrite Hci. unfold Index3D_at. cbn [i3_w i3_h i3_d]. fold (flat_cell (m_dim c) i j k).
  apply u32_small.
  assert (numCells (m_dim c) <= stencil (m_radius c) * numCells (m_dim c)) by nia.
  machine_lia.
Qed.

(** Being a neighbour is symmetric on the wrapped grid. *)
Lemma floor_mod_neighbours_sym (d : uint3) (r i j k i' j' k' : Z) :
  0 <= i < u3x d -> 0 <= j < u3y d -> 0 <= k < u3z d ->
  0 <= i' < u3x d -> 0 <= j' < u3y d -> 0 <= k' < u3z d ->
  flat_cell d i' j' k' ∈ floor_mod_neighbours d r i j k ->
  flat_cell d i j k ∈ floor_mod_neighbours d r i' j' k'.
Proof.
  intros Hi Hj Hk Hi' Hj' Hk'. unfold floor_mod_neighbours.
  rewrite !list_elem_of_fmap. intros ([[ni nj] nk] & Heq & Hin).
  apply elem_of_adj_offsets in Hin. cbn [fst snd] in Heq, Hin.
  destruct Hin as (Hni & Hnj & Hnk).
  apply flat_cell_inj in Heq as (Ei & Ej & Ek);
    try assumption; try (apply Z.mod_pos_bound; lia).
  assert (forall x n m, 0 < m -> 0 <= x < m -> (n `mod` m + x - n) `mod` m = x) as Hback.
  { intros x n m Hm Hx. rewrite (Z.mod_eq n m) by lia.
    replace (n - m * (n / m) + x - n) with (x + (- (n / m)) * m) by lia.
    rewrite Z.mod_add by lia. apply Z.mod_small. exact Hx. }
  exists (i' + i - ni, j' + j - nj, k' + k - nk). cbn [fst snd]. split.
  - rewrite Ei at 1. rewrite Ej at 1. rewrite Ek at 1.
    rewrite !Hback by lia. reflexivity.
  - apply elem_of_adj_offsets. cbn [fst snd]. lia.
Qed.

(** X7. After [initializeCellAdj], the adjacency list of every cell
    contains the cell itself, and adjacency is symmetric: cell [b] is
    listed for cell [a] exactly when [a] is listed for [b], wraparound
    included. *)
Theorem initializeCellAdj_reflexive_symmetric c (i j k i' j' k' : Z) :
  adj_ready c ->
  0 <= i < u3x (m_dim c) -> 0 <= j < u3y (m_dim c) -> 0 <= k < u3z (m_dim c) ->
  0 <= i' < u3x (m_dim c) -> 0 <= j' < u3y (m_dim c) -> 0 <= k' < u3z (m_dim c) ->
  exists c',
    initializeCellAdj c = (Returned tt, c')
    /\ let a := Index3D_at (m_cell_indexer c') i j k in
       let b := Index3D_at (m_cell_indexer c') i' j' k' in
       a ∈ cell_adj_list c' a
       /\ (b ∈ cell_adj_list c' a <-> a ∈ cell_adj_list c' b).
Proof.
  intros Hready Hi Hj Hk Hi' Hj' Hk'.
  destruct (initializeCellAdj_table c Hready) as (c' & Hrun & Hfr & Hrows).
  exists c'. split; [exact Hrun|]. cbv zeta.
  destruct (adj_frame_fields _ _ Hfr) as (Hd & Hrad & Hcadj & Hci).
  destruct Hfr as [Hready' _].
  rewrite !Index3D_at_flat by (try exact Hready'; rewrite Hd; assumption).
  rewrite Hd.
  pose proof (Hrows i j k Hi Hj Hk) as Ha. pose proof (Hrows i' j' k' Hi' Hj' Hk') as Hb.
  unfold adj_row_done in Ha, Hb. rewrite Ha, Hb.
  pose proof Hready as (Hr & _).
  split.
  - rewrite std_sort_perm. unfold floor_mod_neighbours.
    apply list_elem_of_fmap. exists (i, j, k). cbn [fst snd].
    rewrite !Z.mod_small by lia. split; [reflexivity|].
    apply elem_of_adj_offsets. cbn [fst snd]. lia.
  - rewrite !std_sort_perm. split; apply floor_mod_neighbours_sym; assumption.
Qed.

(** X8. [initializeCellAdj] overwrites the whole table: its result does
    not depend on what the adjacency array held before, and running it
    again on its own result changes nothing. *)
Theorem initializeCellAdj_overwrites c (a : list Z) :
  adj_ready c -> length a = length (m_cell_adj c) ->
  initializeCellAdj (set_cell_adj a c) = initializeCellAdj c
  /\ initializeCellAdj (snd (initializeCellAdj c)) = initializeCellAdj c.
Proof.
  assert (forall c a, adj_ready c -> length a = length (m_cell_adj c) ->
            initializeCellAdj (set_cell_adj a c) = initializeCellAdj c) as Hany.
  { clear c a. intros c a Hready Hlen.
    pose proof (adj_ready_set_cell_adj c a Hready Hlen) as Hready2.
    destruct (initializeCellAdj_table c Hready) as (c1 & Hrun1 & Hfr1 & Hrows1).
    destruct (initializeCellAdj_table _ Hready2) as (c2 & Hrun2 & Hfr2 & Hrows2).
    rewrite Hrun1, Hrun2. f_equal.
    destruct (adj_frame_fields _ _ Hfr1) as (Hd1 & Hrad1 & _).
    destruct (adj_frame_fields _ _ Hfr2) as (Hd2 & Hrad2 & _).
    destruct Hfr1 as [Hr1 E1]. destruct Hfr2 as [Hr2 E2]. fields in *.
    rewrite E1, E2.
    assert (m_cell_adj c2 = m_cell_adj c1) as ->; [|destruct c; reflexivity].
    pose proof Hready as (Hr & Hx & Hy & Hz & _).
    pose proof (stencil_pos _ Hr) as Hs.
    apply (rows_determine_array (stencil (m_radius c)) (numCells (m_dim c))).
    - lia.
    - unfold numCells. apply Z.mul_nonneg_nonneg; [apply Z.mul_nonneg_nonneg|]; lia.
    - destruct Hr2 as (_ & _ & _ & _ & _ & _ & _ & L). rewrite L, Hrad2, Hd2. reflexivity.
    - destruct Hr1 as (_ & _ & _ & _ & _ & _ & _ & L). rewrite L, Hrad1, Hd1. reflexivity.
    - intros row Hrow.
      destruct (flat_cell_onto (m_dim c) row Hx Hy Hz Hrow) as (i & j & k & Hi & Hj & Hk & ->).
      specialize (Hrows1 i j k Hi Hj Hk). specialize (Hrows2 i j k Hi Hj Hk).
      fields in *. unfold adj_row_done in Hrows1, Hrows2.
      rewrite cell_adj_list_row in Hrows1, Hrows2
        by (try assumption; rewrite ?Hd1, ?Hd2; fields; exact Hrow).
      rewrite Hrad1 in Hrows1. rewrite Hrad2 in Hrows2. fields in *.
      rewrite Hrows1, Hrows2. reflexivity. }
  intros Hready Hlen. split; [apply Hany; assumption|].
  destruct (initializeCellAdj_table c Hready) as (c1 & Hrun1 & [Hr1 E1] & _).
  rewrite Hrun1. cbn [snd]. rewrite E1 at 1. rewrite Hany; [exact Hrun1 | exact Hready|].
  destruct Hr1 as (_ & _ & _ & _ & _ & _ & _ & L).
  destruct Hready as (_ & _ & _ & _ & _ & _ & _ & L0).
  rewrite E1 in L. fields in *. lia.
Qed.

End AdjacencyTable.

Section Allocation.
Context {Scalar : Type} `{ScalarOps Scalar}.
Implicit Type c : CellList Scalar.

(** [initializeMemory] is the allocation followed by the adjacency
    fill. *)
Lemma initializeMemory_allocated sys c :
  initializeMemory sys c = initializeCellAdj (allocated sys c).
Proof.
  unfold initializeMemory, allocated, bind, gets, modify.
  destruct (m_compute_tdb c); reflexivity.
Qed.

(** On a grid with at least one cell per axis whose tables fit 32-bit
    indices, the allocation is sized for both loops. *)
Lemma allocated_ready sys c :
  0 <= m_radius c ->
  all_at_least_one (m_dim c) ->
  stencil (m_radius c) * numCells (m_dim c) < 2 ^ 31 ->
  estimate_Nmax (getN sys) (m_dim c) * numCells (m_dim c) < 2 ^ 32 ->
  adj_ready (allocated sys c) /\ fill_ready (allocated sys c)
  /\ allocated sys c
     = set_tdb (if m_compute_tdb c
                then replicate (Z.to_nat (estimate_Nmax (getN sys) (m_dim c)
                                          * numCells (m_dim c)))
                               (make_scalar4 Szero Szero Szero Szero)
                else [])
         (set_xyzf (replicate (Z.to_nat (estimate_Nmax (getN sys) (m_dim c)
                                         * numCells (m_dim c)))
                              (make_scalar4 Szero Szero Szero Szero))
            (set_cell_adj (replicate (Z.to_nat (stencil (m_radius c) * numCells (m_dim c))) 0)
               (set_cell_size (replicate (Z.to_nat (numCells (m_dim c))) 0)
                  (set_indexers (mkIndex3D (u3x (m_dim c)) (u3y (m_dim c)) (u3z (m_dim c)))
                     (mkIndex2D (estimate_Nmax (getN sys) (m_dim c)) (numCells (m_dim c)))
                     (mkIndex2D (stencil (m_radius c)) (numCells (m_dim c)))
                     (set_Nmax (estimate_Nmax (getN sys) (m_dim c)) c))))).
Proof.
  intros Hr (Hx & Hy & Hz) Hadj Hfit.
  pose proof (stencil_pos _ Hr) as Hs.
  set (d := m_dim c) in *. set (Nmax := estimate_Nmax (getN sys) d) in *.
  assert (1 <= numCells d) as Hcells by (unfold numCells; nia).
  assert (numCells d <= stencil (m_radius c) * numCells d) as Hle by nia.
  assert (stencil (m_radius c) <= stencil (m_radius c) * numCells d) as Hle' by nia.
  assert (0 <= Nmax < 2 ^ 32) as HNmax by (apply u32_range).
  assert (0 <= Nmax * numCells d) as Hnn by (apply Z.mul_nonneg_nonneg; lia).
  assert (Index3D_getNumElements (mkIndex3D (u3x d) (u3y d) (u3z d)) = numCells d) as Hci.
  { unfold Index3D_getNumElements. cbn [i3_w i3_h i3_d]. fold (numCells d).
    apply u32_small. machine_lia. }
  assert (u32 ((m_radius c * 2 + 1) * (m_radius c * 2 + 1) * (m_radius c * 2 + 1))
          = stencil (m_radius c)) as Hw.
  { replace ((m_radius c * 2 + 1) * (m_radius c * 2 + 1) * (m_radius c * 2 + 1))
      with (stencil (m_radius c)) by (unfold stencil; lia).
    apply u32_small. machine_lia. }
  assert (allocated sys c
          = set_tdb (if m_compute_tdb c
                     then replicate (Z.to_nat (Nmax * numCells d))
                                    (make_scalar4 Szero Szero Szero Szero)
                     else [])
              (set_xyzf (replicate (Z.to_nat (Nmax * numCells d))
                                   (make_scalar4 Szero Szero Szero Szero))
                 (set_cell_adj (replicate (Z.to_nat (stencil (m_radius c) * numCells d)) 0)
                    (set_cell_size (replicate (Z.to_nat (numCells d)) 0)
                       (set_indexers (mkIndex3D (u3x d) (u3y d) (u3z d))
                          (mkIndex2D Nmax (numCells d))
                          (mkIndex2D (stencil (m_radius c)) (numCells d))
                          (set_Nmax Nmax c)))))) as E.
  { unfold allocated. cbv zeta. fold d. fold Nmax. rewrite Hci, Hw.
    unfold Index2D_getNumElements, GPUArray_new. cbn [i2_w i2_h].
    rewrite !u32_small by machine_lia. reflexivity. }
  split; [|split; [|exact E]]; rewrite E.
  - unfold adj_ready. fields. fold d. rewrite length_replicate.
    split; [exact Hr|]. split; [lia|]. split; [lia|]. split; [lia|].
    split; [exact Hadj|]. split; [reflexivity|]. split; [reflexivity|]. lia.
  - unfold fill_ready. fields. cbn [i3_w i3_h i3_d]. fold (numCells d).
    rewrite !length_replicate.
    split; [machine_lia|]. split; [machine_lia|]. split; [machine_lia|].
    split; [exact Hfit|]. split; [reflexivity|]. split; [machine_lia|].
    split; [machine_lia|].
    split; [intros ->; rewrite length_replicate; machine_lia|].
    apply Forall_replicate. machine_lia.
Qed.

Lemma fill_ready_set_cell_adj c (a : list Z) :
  fill_ready c -> fill_ready (set_cell_adj a c).
Proof. intros Hc. exact Hc. Qed.

(** X9. On a grid with at least one cell per axis whose adjacency table
    fits signed and whose bucket array fits unsigned 32-bit indices,
    [initializeMemory] returns normally and leaves the storage exactly as
    the binning loop and its Consumers need it: capacity the rounded
    estimate, cell indexer built from [m_dim], one zeroed counter per cell,
    [Nmax] bucket slots per cell, the type/diameter/body array of the same
    size when requested and discarded (empty) when not, and an adjacency
    table of (2r+1)^3 entries per cell. Grid, widths and the three
    notification flags are not touched. *)
Theorem initializeMemory_sizes_storage sys c :
  0 <= m_radius c ->
  all_at_least_one (m_dim c) ->
  stencil (m_radius c) * numCells (m_dim c) < 2 ^ 31 ->
  estimate_Nmax (getN sys) (m_dim c) * numCells (m_dim c) < 2 ^ 32 ->
  exists c',
    initializeMemory sys c = (Returned tt, c')
    /\ fill_ready c' /\ adj_ready c'
    /\ m_Nmax c' = estimate_Nmax (getN sys) (m_dim c)
    /\ m_cell_indexer c' = mkIndex3D (u3x (m_dim c)) (u3y (m_dim c)) (u3z (m_dim c))
    /\ m_cell_size c' = replicate (Z.to_nat (numCells (m_dim c))) 0
    /\ Z.of_nat (length (m_xyzf c')) = m_Nmax c' * numCells (m_dim c)
    /\ Z.of_nat (length (m_tdb c'))
       = (if m_compute_tdb c then m_Nmax c' * numCells (m_dim c) else 0)
    /\ Z.of_nat (length (m_cell_adj c')) = stencil (m_radius c) * numCells (m_dim c)
    /\ m_dim c' = m_dim c /\ m_width c' = m_width c /\ same_flags c c'.
Proof.
  intros Hr Hdim Hadj Hfit.
  destruct (allocated_ready sys c Hr Hdim Hadj Hfit) as (Hready & Hfill & E).
  rewrite initializeMemory_allocated.
  destruct (initializeCellAdj_table _ Hready) as (c' & Hrun & Hfr & _).
  exists c'. split; [exact Hrun|].
  destruct (adj_frame_fields _ _ Hfr) as (Hd' & Hrad' & _).
  destruct Hfr as [Hready' E'].
  split; [rewrite E'; apply fill_ready_set_cell_adj; exact Hfill|].
  split; [exact Hready'|].
  pose proof Hready' as (_ & _ & _ & _ & _ & _ & _ & L).
  rewrite Hd', Hrad' in L. clear Hd' Hrad' Hready' Hready Hfill Hrun.
  rewrite E in L. rewrite E'. rewrite E. clear E E'.
  cbn [m_dim m_radius set_tdb set_xyzf set_cell_adj set_cell_size set_indexers set_Nmax]
    in L.
  fields.
  assert (0 <= estimate_Nmax (getN sys) (m_dim c)) as HN by (apply u32_range).
  assert (0 <= numCells (m_dim c)) as Hcells.
  { destruct Hdim as (Hx & Hy & Hz). unfold numCells.
    apply Z.mul_nonneg_nonneg; [apply Z.mul_nonneg_nonneg|]; lia. }
  assert (0 <= estimate_Nmax (getN sys) (m_dim c) * numCells (m_dim c)) as Hnn
    by (apply Z.mul_nonneg_nonneg; assumption).
  split; [reflexivity|]. split; [reflexivity|]. split; [reflexivity|].
  split; [rewrite length_replicate; lia|].
  split; [destruct (m_compute_tdb c); [rewrite length_replicate; lia | reflexivity]|].
  split; [exact L|]. split; [reflexivity|]. split; [reflexivity|]. repeat split.
Qed.

End Allocation.

Section BucketFillFrame.
Context {Scalar : Type} `{ScalarOps Scalar}.
Variable NDEBUG : bool.
Implicit Type c : CellList Scalar.

#[export] Instance overflow_kept_preorder : PreOrder (overflow_kept (Scalar := Scalar)).
Proof.
  split.
  - intros c Hc. exact Hc.
  - intros c1 c2 c3 H12 H23 Hc. apply H23, H12, Hc.
Qed.

(** X10. Whatever its outcome, a fault included, [computeCellList] changes
    nothing but the contents of the three bucket arrays and the overflow
    flag: grid, widths, capacity, indexers, adjacency table, configuration
    and notification flags are those of the state it started in, and no
    array changes its size. *)
Theorem computeCellList_touches_buckets_only sys c :
  let c' := snd (computeCellList NDEBUG sys c) in
  c' = rebucket (m_cell_size c') (m_xyzf c') (m_tdb c') (m_overflowed c') c
  /\ length (m_cell_size c') = length (m_cell_size c)
  /\ length (m_xyzf c') = length (m_xyzf c)
  /\ length (m_tdb c') = length (m_tdb c).
Proof.
  cbv zeta.
  destruct (computeCellList NDEBUG sys c) as [r c'] eqn:Hrun. cbn [snd].
  destruct (computeCellList_allocation NDEBUG sys c r c' Hrun)
    as ((s & x & t & o & ->) & Hs & Hx & Ht).
  split; [reflexivity|]. auto.
Qed.

(** X11. [computeCellList] can raise the overflow flag but never lowers
    it, whatever its outcome; clearing it is left to [compute], which does
    so before every rebuild. *)
Theorem computeCellList_never_clears_overflow sys c :
  m_overflowed c = true ->
  m_overflowed (snd (computeCellList NDEBUG sys c)) = true.
Proof.
  intros Hc.
  assert (preserves overflow_kept (computeCellList NDEBUG sys)) as Hkept.
  { unfold computeCellList, memset_cell_size, bin_particle, load_cell_size, store_xyzf,
      store_tdb, store_cell_size.
    frame; apply preserves_modify; intros c0 H0; fields; auto. }
  destruct (computeCellList NDEBUG sys c) as [r c'] eqn:Hrun.
  exact (Hkept c r c' Hrun Hc).
Qed.

End BucketFillFrame.

Section BucketFillOutcome.
Context {Scalar : Type} `{ScalarOps Scalar}.
Variable NDEBUG : bool.
Implicit Type c : CellList Scalar.

(** Whatever it answers, [computeCellList] has binned a prefix of the
    particles, none of which raised a fault, and stopped either at the end
    or at the first particle that does. *)
Lemma computeCellList_outcome sys c (r : outcome unit) c' :
  fill_ready c -> getN sys < 2 ^ 32 ->
  computeCellList NDEBUG sys c = (r, c') ->
  exists binned rest,
    arrays sys = binned ++ rest
    /\ storage_frame (cleared c) c' /\ fill_ready c'
    /\ bucketed (getBox sys) (inverse_width c) (cleared c) binned c'
    /\ (forall i p, binned !! i = Some p ->
          particle_fault (getBox sys) (inverse_width c) (m_dim c) (m_cell_indexer c) NDEBUG
            (Z.of_nat i) p = None)
    /\ match r with
       | Returned _ => rest = []
       | Raised f =>
           exists p rest',
             rest = p :: rest'
             /\ particle_fault (getBox sys) (inverse_width c) (m_dim c) (m_cell_indexer c)
                  NDEBUG (Z.of_nat (length binned)) p = Some f
       end.
Proof.
  intros Hready HN Hrun. rewrite computeCellList_sweep in Hrun by exact Hready.
  pose proof Hready as (_ & HNmax & _).
  apply (sweep_bucketed NDEBUG (getBox sys) (inverse_width c) (cleared c) (arrays sys) [])
    in Hrun.
  - exact Hrun.
  - apply storage_frame_refl.
  - apply fill_ready_cleared, Hready.
  - apply bucketed_cleared, HNmax.
  - exact HN.
Qed.

(** X12. A fault of [computeCellList] always names the first offending
    particle: every particle before it was binned without fault, the
    counters sum to its number, and the fault says what is wrong with it:
    [InvalidPosition n] for a NaN coordinate, the failed assertion, in a
    debug build only, for an index outside the grid, [OutOfBoundsCell n]
    for a flattened cell id beyond the grid. The loop itself never raises
    the overflow failure and never leaves an array. *)
Theorem computeCellList_fault_names_first_offender sys c (f : fault) c' :
  fill_ready c -> getN sys < 2 ^ 32 ->
  computeCellList NDEBUG sys c = (Raised f, c') ->
  let box := getBox sys in
  let scale := inverse_width c in
  exists (n : nat) p,
    arrays sys !! n = Some p
    /\ (forall i q, (i < n)%nat -> arrays sys !! i = Some q ->
          particle_fault box scale (m_dim c) (m_cell_indexer c) NDEBUG (Z.of_nat i) q = None)
    /\ sumZ (m_cell_size c') = Z.of_nat n
    /\ ((f = InvalidPosition (Z.of_nat n) /\ has_nan p = true)
        \/ (f = AssertionFailure /\ NDEBUG = false /\ has_nan p = false
            /\ in_grid (m_dim c) (particle_ib box scale (m_dim c) p)
                 (particle_jb box scale (m_dim c) p) (particle_kb box scale (m_dim c) p)
               = false)
        \/ (f = OutOfBoundsCell (Z.of_nat n) /\ has_nan p = false
            /\ Index3D_getNumElements (m_cell_indexer c)
               <= particle_bin box scale (m_dim c) (m_cell_indexer c) p)).
Proof.
  intros Hready HN Hrun box scale.
  destruct (computeCellList_outcome sys c _ c' Hready HN Hrun)
    as (binned & rest & Hsplit & _ & _ & (_ & _ & _ & Hsum) & Hok & p & rest' & -> & Hfault).
  exists (length binned), p. fold box scale in Hok, Hfault.
  split; [rewrite Hsplit; apply list_lookup_middle; reflexivity|].
  split; [|split; [exact Hsum|]].
  - intros i q Hi Hq. apply Hok. rewrite Hsplit, lookup_app_l in Hq by exact Hi. exact Hq.
  - unfold particle_fault in Hfault.
    destruct (has_nan p); [left; injection Hfault as <-; auto|].
    destruct NDEBUG; cbn [orb negb] in Hfault.
    + destruct (Z.geb_spec (particle_bin box scale (m_dim c) (m_cell_indexer c) p)
                  (Index3D_getNumElements (m_cell_indexer c))); [|discriminate].
      right; right. injection Hfault as <-. auto.
    + destruct (in_grid _ _ _ _) eqn:Hgrid; cbn [negb] in Hfault.
      * destruct (Z.geb_spec (particle_bin box scale (m_dim c) (m_cell_indexer c) p)
                    (Index3D_getNumElements (m_cell_indexer c))); [|discriminate].
        right; right. injection Hfault as <-. auto.
      * right; left. injection Hfault as <-. auto.
Qed.

(** X13. When the cell indexer is the one built from the grid, the debug
    build never reports [OutOfBoundsCell]: a particle that would leave the
    grid fails the sanity assertion first, and one that passes it has a
    flattened id inside the grid. *)
Theorem debug_assertion_shadows_bounds_check sys c (n : Z) :
  NDEBUG = false ->
  fill_ready c ->
  m_cell_indexer c = mkIndex3D (u3x (m_dim c)) (u3y (m_dim c)) (u3z (m_dim c)) ->
  getN sys < 2 ^ 32 ->
  fst (computeCellList NDEBUG sys c) <> Raised (OutOfBoundsCell n).
Proof.
  intros Hdebug Hready Hci HN Hrun.
  destruct (computeCellList NDEBUG sys c) as [r c'] eqn:Erun. cbn [fst] in Hrun. subst r.
  destruct (computeCellList_outcome sys c _ c' Hready HN Erun)
    as (binned & rest & _ & _ & _ & _ & _ & p & rest' & _ & Hfault).
  unfold particle_fault in Hfault.
  destruct (has_nan p) eqn:Hnan; [discriminate|].
  rewrite Hdebug in Hfault. cbn [orb] in Hfault.
  destruct (in_grid _ _ _ _) eqn:Hgrid; cbn [negb] in Hfault; [|discriminate].
  destruct (in_grid_fault_free NDEBUG (getBox sys) (inverse_width c) c
              (Z.of_nat (length binned)) p Hready Hci Hnan Hgrid) as (Hnone & _).
  unfold particle_fault in Hnone. rewrite Hnan, Hdebug, Hgrid in Hnone.
  cbn [orb negb] in Hnone. congruence.
Qed.

End BucketFillOutcome.

Section BucketContents.
Context {Scalar : Type} `{ScalarOps Scalar}.
Variable NDEBUG : bool.
Implicit Type c : CellList Scalar.

(** A later particle of the same cell has the larger slot offset. *)
Lemma rank_increasing box scale c0 (ps : list (Particle Scalar)) (i j : nat) p q :
  ps !! i = Some p -> ps !! j = Some q -> (i < j)%nat ->
  bin_of box scale c0 p = bin_of box scale c0 q ->
  0 <= rank box scale c0 ps i p < rank box scale c0 ps j q.
Proof.
  intros Hp Hq Hij Hsame. unfold rank. rewrite <- Hsame.
  split; [apply occupancy_bounds|].
  replace (take i ps) with (take i (take j ps)) by (rewrite take_take; f_equal; lia).
  rewrite !fmap_take. apply occupancy_take_lt.
  rewrite lookup_take_lt by exact Hij. rewrite list_lookup_fmap, Hp. reflexivity.
Qed.

(** X14. Within a bucket the records stand in particle order: after a
    completed sweep, two particles of the same cell that both found room
    sit at two slots of that cell's bucket, the one with the smaller
    particle number at the smaller offset. *)
Theorem computeCellList_keeps_particle_order sys c c' (i j : nat) p q :
  fill_ready c -> getN sys < 2 ^ 32 ->
  computeCellList NDEBUG sys c = (Returned tt, c') ->
  arrays sys !! i = Some p -> arrays sys !! j = Some q -> (i < j)%nat ->
  let box := getBox sys in
  let scale := inverse_width c in
  bin_of box scale c p = bin_of box scale c q ->
  rank box scale c (arrays sys) j q < m_Nmax c ->
  exists ri rj,
    0 <= ri < rj /\ rj < m_Nmax c
    /\ m_xyzf c' !! slot c (bin_of box scale c p) ri
       = Some (xyzf_record (m_flag_charge c) (Z.of_nat i) p)
    /\ m_xyzf c' !! slot c (bin_of box scale c p) rj
       = Some (xyzf_record (m_flag_charge c) (Z.of_nat j) q).
Proof.
  intros Hready HN Hrun Hp Hq Hij box scale Hsame Hroom.
  destruct (computeCellList_outcome NDEBUG sys c _ c' Hready HN Hrun)
    as (binned & rest & Hsplit & _ & _ & (_ & Hrec & _) & _ & ->).
  rewrite app_nil_r in Hsplit. subst binned. fold box scale in Hrec.
  pose proof (rank_increasing box scale c (arrays sys) i j p q Hp Hq Hij Hsame) as Hlt.
  exists (rank box scale c (arrays sys) i p), (rank box scale c (arrays sys) j q).
  split; [exact Hlt|]. split; [exact Hroom|]. split.
  - apply (Hrec i p Hp). change (rank box scale c (arrays sys) i p < m_Nmax c). lia.
  - rewrite Hsame. apply (Hrec j q Hq). exact Hroom.
Qed.

(** X15. The type/diameter/body array follows [m_compute_tdb]: when it is
    set, a completed sweep leaves the tdb record of every particle that
    found room at the very slot of its position record; when it is not
    set, the array is never written. *)
Theorem computeCellList_tdb_follows_switch sys c c' :
  fill_ready c -> getN sys < 2 ^ 32 ->
  computeCellList NDEBUG sys c = (Returned tt, c') ->
  let box := getBox sys in
  let scale := inverse_width c in
  (m_compute_tdb c = true ->
   forall i p, arrays sys !! i = Some p ->
     rank box scale c (arrays sys) i p < m_Nmax c ->
     m_xyzf c' !! slot c (bin_of box scale c p) (rank box scale c (arrays sys) i p)
     = Some (xyzf_record (m_flag_charge c) (Z.of_nat i) p)
     /\ m_tdb c' !! slot c (bin_of box scale c p) (rank box scale c (arrays sys) i p)
        = Some (tdb_record p))
  /\ (m_compute_tdb c = false -> m_tdb c' = m_tdb c).
Proof.
  intros Hready HN Hrun box scale. split.
  - intros Htdb i p Hp Hroom.
    destruct (computeCellList_outcome NDEBUG sys c _ c' Hready HN Hrun)
      as (binned & rest & Hsplit & _ & _ & (_ & Hrec & _) & _ & ->).
    rewrite app_nil_r in Hsplit. subst binned. fold box scale in Hrec.
    destruct (Hrec i p Hp Hroom) as [Hx Ht]. split; [exact Hx | exact (Ht Htdb)].
  - intros Htdb. rewrite computeCellList_sweep in Hrun by exact Hready.
    assert (forall ps n c1 r c2,
              m_compute_tdb c1 = false -> sweep NDEBUG box scale n ps c1 = (r, c2) ->
              m_tdb c2 = m_tdb c1) as Hkeep.
    { clear. induction ps as [|p ps IH]; intros n c1 r c2 Hoff Hrun; cbn [sweep] in Hrun.
      - injection Hrun as _ <-. reflexivity.
      - destruct (particle_fault _ _ _ _ _ _ _); [injection Hrun as _ <-; reflexivity|].
        apply IH in Hrun.
        + rewrite Hrun.
          destruct (after_bin_fields c1
                      (particle_bin box scale (m_dim c1) (m_cell_indexer c1) p) n p)
            as (_ & _ & Et & _).
          rewrite Et, Hoff, andb_false_r. reflexivity.
        + destruct (storage_frame_fields _ _
                      (after_bin_frame c1
                         (particle_bin box scale (m_dim c1) (m_cell_indexer c1) p) n p))
            as (_ & _ & _ & _ & _ & E).
          rewrite E. exact Hoff. }
    apply Hkeep in Hrun; [exact Hrun | exact Htdb].
Qed.


(** The slots of a bucket from the final counter on are not written by
    the sweep. *)
Lemma sweep_spares_free_slots box scale c0 (ps : list (Particle Scalar)) :
  forall (pre : list (Particle Scalar)) c r c',
    storage_frame c0 c -> fill_ready c -> bucketed box scale c0 pre c ->
    Z.of_nat (length pre + length ps) < 2 ^ 32 ->
    sweep NDEBUG box scale (Z.of_nat (length pre)) ps c = (r, c') ->
    forall (b o count : Z),
      0 <= b < Z.of_nat (length (m_cell_size c')) ->
      m_cell_size c' !! Z.to_nat b = Some count ->
      count <= o < m_Nmax c0 ->
      m_xyzf c' !! slot c0 b o = m_xyzf c !! slot c0 b o
      /\ m_tdb c' !! slot c0 b o = m_tdb c !! slot c0 b o.
Proof.
  induction ps as [|p ps IH]; intros pre c r c' Hfr Hready Hb Hlen Hrun b o count Hbr Hcount Ho.
  - cbn in Hrun. injection Hrun as _ <-. auto.
  - cbn [sweep] in Hrun.
    destruct (storage_frame_fields _ _ Hfr) as (Hd & HN & Hci & Hcli & Hfc & Htdbf).
    destruct (particle_fault box scale (m_dim c) (m_cell_indexer c) NDEBUG
                (Z.of_nat (length pre)) p) as [f|] eqn:Hfault.
    + injection Hrun as _ <-. auto.
    + destruct (particle_fault_None_bin _ _ _ _ _ _ Hready Hfault) as [_ Hbin].
      rewrite Hd, Hci in Hbin, Hrun. fold (bin_of box scale c0 p) in Hbin, Hrun.
      cbn [length] in Hlen.
      pose proof (bin_of_nonneg box scale c0 p) as Hb0.
      set (bp := bin_of box scale c0 p) in *.
      set (off := occupancy bp (bin_of box scale c0 <$> pre)).
      assert (m_cell_size c !! Z.to_nat bp = Some off) as Hoff
        by (apply (proj1 Hb); lia).
      replace (Z.of_nat (length pre) + 1) with (Z.of_nat (length (pre ++ [p]))) in Hrun
        by (rewrite length_app; cbn; lia).
      set (c1 := after_bin bp (Z.of_nat (length pre)) p c) in *.
      assert (storage_frame c0 c1) as Hfr1
        by (eapply storage_frame_trans; [exact Hfr | apply after_bin_frame]).
      assert (fill_ready c1) as Hready1 by (apply fill_ready_after_bin; exact Hready).
      assert (bucketed box scale c0 (pre ++ [p]) c1) as Hb1
        by (apply bucketed_step; [exact Hfr | exact Hready | exact Hb | exact Hbin | lia]).
      assert (Z.of_nat (length (pre ++ [p]) + length ps) < 2 ^ 32) as Hlen1
        by (rewrite length_app; cbn [length]; lia).
      destruct (IH _ _ _ _ Hfr1 Hready1 Hb1 Hlen1 Hrun b o count Hbr Hcount Ho) as [Ex Et].
      rewrite Ex, Et.
      destruct (sweep_bucketed NDEBUG box scale c0 ps _ _ _ _ Hfr1 Hready1 Hb1 Hlen1 Hrun)
        as (binned & rest & _ & _ & _ & (Hcnt & _) & _).
      rewrite (Hcnt b Hbr) in Hcount. injection Hcount as <-.
      destruct (after_bin_fields c bp (Z.of_nat (length pre)) p) as (_ & Ex1 & Et1 & _).
      fold c1 in Ex1, Et1. rewrite Hoff in Ex1, Et1. cbn [from_option id] in Ex1, Et1.
      rewrite HN in Ex1, Et1.
      destruct (Z.ltb_spec off (m_Nmax c0)) as [Hfree|Hfull];
        [|cbn [andb] in Et1; rewrite Ex1, Et1; auto].
      assert (slot c0 b o <> Z.to_nat (bp * m_Nmax c0 + off)) as Hne.
      { unfold slot. intros Heq.
        pose proof (occupancy_bounds bp (bin_of box scale c0 <$> pre)) as Hoff0. fold off in Hoff0.
        pose proof (occupancy_bounds b (bin_of box scale c0 <$> (pre ++ [p]) ++ binned))
          as Hcount0.
        assert (0 <= b * m_Nmax c0) as Hrow by (apply Z.mul_nonneg_nonneg; lia).
        assert (0 <= bp * m_Nmax c0) as Hrowp by (apply Z.mul_nonneg_nonneg; lia).
        assert (b * m_Nmax c0 + o = bp * m_Nmax c0 + off) as Heq'.
        { apply Z2Nat.inj in Heq; [exact Heq | lia | lia]. }
        apply slot_inj in Heq' as [-> ->]; [|lia|lia].
        rewrite <- app_assoc, fmap_app, occupancy_app in Ho. cbn [app fmap list_fmap] in Ho.
        change (occupancy bp (bin_of box scale c0 p :: (bin_of box scale c0 <$> binned)))
          with ((if bin_of box scale c0 p =? bp then 1 else 0)
                + occupancy bp (bin_of box scale c0 <$> binned)) in Ho.
        fold bp in Ho. rewrite Z.eqb_refl in Ho.
        pose proof (occupancy_bounds bp (bin_of box scale c0 <$> binned)). fold off in Ho. lia. }
      rewrite Ex1, Et1. cbn [andb].
      split; [apply list_lookup_insert_ne; auto|].
      destruct (m_compute_tdb c); [apply list_lookup_insert_ne; auto | reflexivity].
Qed.

(** X16. [computeCellList] never erases a record: in every bucket the
    slots from the final counter up to the capacity hold, whatever the
    outcome, exactly what they held before the call. Only the counters
    tell a Consumer which records are current. *)
Theorem computeCellList_leaves_free_slots_stale sys c (r : outcome unit) c' (b o count : Z) :
  fill_ready c -> getN sys < 2 ^ 32 ->
  computeCellList NDEBUG sys c = (r, c') ->
  0 <= b < Z.of_nat (length (m_cell_size c')) ->
  m_cell_size c' !! Z.to_nat b = Some count ->
  count <= o < m_Nmax c ->
  m_xyzf c' !! slot c b o = m_xyzf c !! slot c b o
  /\ m_tdb c' !! slot c b o = m_tdb c !! slot c b o.
Proof.
  intros Hready HN Hrun Hb Hcount Ho.
  rewrite computeCellList_sweep in Hrun by exact Hready.
  pose proof Hready as (_ & HNmax & _).
  apply (sweep_spares_free_slots (getBox sys) (inverse_width c) (cleared c) (arrays sys) []
           (cleared c) r c') with (count := count); try assumption.
  - apply storage_frame_refl.
  - apply fill_ready_cleared, Hready.
  - apply bucketed_cleared, HNmax.
Qed.

End BucketContents.

Section ComputeDriver.
Context {Scalar : Type} `{ScalarOps Scalar}.
Variable NDEBUG : bool.
Variable powf : float32 -> float32 -> float32.
Implicit Type c : CellList Scalar.

(** A [prepare] that returns forces the rebuild exactly when one of the
    three flags was up. *)
Lemma prepare_force sys c (force : bool) c' :
  prepare NDEBUG powf sys c = (Returned force, c') ->
  force = m_params_changed c || m_box_changed c || m_particles_sorted c.
Proof.
  unfold prepare. intros Hrun.
  apply bind_returned in Hrun as (f1 & c1 & H1 & Hrun).
  apply bind_returned in Hrun as (f2 & c2 & H2 & H3).
  assert (f1 = m_params_changed c /\ same_flags (set_params_changed false c) c1)
    as [-> (_ & Hb1 & Hs1)].
  { unfold handle_params in H1. apply bind_returned in H1 as (pc & c0 & Hg & H1).
    injection Hg as <- <-. destruct (m_params_changed c) eqn:Hpc.
    - apply bind_returned in H1 as ([] & ca & Hinit & H1).
      apply bind_returned in H1 as ([] & cb & Hmod & H1).
      injection Hmod as <-. injection H1 as <- <-. split; [reflexivity|].
      destruct (initializeAll_flags NDEBUG powf sys _ _ _ Hinit) as (E1 & E2 & E3).
      repeat split; fields; assumption.
    - injection H1 as <- <-. split; [reflexivity|]. repeat split; fields. exact Hpc. }
  fields in *.
  assert (f2 = m_params_changed c || m_box_changed c
          /\ m_particles_sorted c2 = m_particles_sorted c) as [-> Hs2].
  { unfold handle_box in H2. apply bind_returned in H2 as (bc & c0 & Hg & H2).
    injection Hg as <- <-. rewrite Hb1 in H2. destruct (m_box_changed c) eqn:Hbc.
    - apply bind_returned in H2 as (d & ca & Hdim & H2).
      apply bind_returned in H2 as (d' & cb & Hg & H2). injection Hg as <- <-.
      apply bind_returned in H2 as ([] & cc & Hinit & H2).
      apply bind_returned in H2 as ([] & cd & Hmod & H2).
      injection Hmod as <-. injection H2 as <- <-. fields.
      apply (computeDimensions_pure NDEBUG powf) in Hdim as <-.
      assert (same_flags c1 cc) as (_ & _ & E3).
      { destruct (uint3_eqb d (m_dim c1));
          [eapply initializeWidth_flags | eapply initializeAll_flags]; exact Hinit. }
      split; [rewrite orb_true_r; reflexivity | congruence].
    - injection H2 as <- <-. rewrite orb_false_r. auto. }
  unfold handle_sorted, bind, gets, modify, ret in H3. rewrite Hs2 in H3.
  destruct (m_particles_sorted c); injection H3 as <- _;
    [rewrite orb_true_r | rewrite orb_false_r]; reflexivity.
Qed.

(** X17. With no notification pending and the periodicity policy saying
    no, [compute] does nothing at all: it returns normally and the state,
    overflow flag included, is the one it was called in. *)
Theorem compute_idle sys c :
  m_params_changed c = false -> m_box_changed c = false ->
  m_particles_sorted c = false ->
  compute NDEBUG powf sys false c = (Returned tt, c).
Proof.
  intros Hpc Hbc Hps. rewrite compute_prepare. unfold bind.
  rewrite prepare_fresh by assumption.
  rewrite Hps, set_particles_sorted_id by exact Hps. reflexivity.
Qed.

(** X18. A pending notification overrides the periodicity policy: when
    any of the three flags is up, [compute] behaves as if [shouldCompute]
    had said yes, outcome and final state alike. *)
Theorem compute_notification_overrides_period sys c :
  m_params_changed c || m_box_changed c || m_particles_sorted c = true ->
  compute NDEBUG powf sys false c = compute NDEBUG powf sys true c.
Proof.
  intros Hflag. rewrite !compute_prepare. unfold bind.
  destruct (prepare NDEBUG powf sys c) as [[force|f] c1] eqn:Hprep; [|reflexivity].
  apply prepare_force in Hprep. rewrite Hprep, Hflag. reflexivity.
Qed.

(** X19. A [compute] that returns normally leaves the engine idle: the
    three notification flags are down; if a rebuild was due or forced the
    overflow flag is down as well; and a further call that the periodicity
    policy does not ask for returns at once without touching the state. *)
Theorem compute_returns_idle sys (should_compute : bool) c c' :
  compute NDEBUG powf sys should_compute c = (Returned tt, c') ->
  m_params_changed c' = false /\ m_box_changed c' = false
  /\ m_particles_sorted c' = false
  /\ (should_compute || m_params_changed c || m_box_changed c || m_particles_sorted c = true ->
      m_overflowed c' = false)
  /\ compute NDEBUG powf sys false c' = (Returned tt, c').
Proof.
  intros Hrun. rewrite compute_prepare in Hrun.
  apply bind_returned in Hrun as (force & cm & Hprep & Hk).
  destruct (prepare_clears_flags _ _ _ _ _ _ Hprep) as (Hpc & Hbc & Hps).
  apply prepare_force in Hprep. subst force.
  assert (m_params_changed c' = false /\ m_box_changed c' = false
          /\ m_particles_sorted c' = false) as (Hpc1 & Hbc1 & Hps1).
  { destruct (should_compute || _).
    - apply rebuild_allocation in Hk as ((s1 & x1 & t1 & o1 & ->) & _). auto.
    - injection Hk as <-. auto. }
  split; [exact Hpc1|]. split; [exact Hbc1|]. split; [exact Hps1|]. split.
  - intros Hdue.
    assert (should_compute
            || (m_params_changed c || m_box_changed c || m_particles_sorted c) = true)
      as Hdue'.
    { destruct should_compute, (m_params_changed c), (m_box_changed c),
        (m_particles_sorted c); auto. }
    rewrite Hdue' in Hk.
    unfold rebuild in Hk.
    apply bind_returned in Hk as ([] & c2 & _ & Hk).
    apply bind_returned in Hk as ([] & c3 & _ & Hk).
    apply bind_returned in Hk as (ov & c4 & Hg & Hk). injection Hg as <- <-.
    destruct (m_overflowed c3) eqn:Hov; [discriminate|]. injection Hk as <-. exact Hov.
  - rewrite compute_prepare. unfold bind.
    rewrite prepare_fresh by assumption.
    rewrite Hps1, set_particles_sorted_id by exact Hps1. reflexivity.
Qed.


(** The particle loop has no overflow failure of its own. *)
Lemma particle_fault_not_overflow (box : BoxDim Scalar) scale d ci (n : Z) p :
  particle_fault box scale d ci NDEBUG n p <> Some BucketOverflow.
Proof.
  unfold particle_fault.
  destruct (has_nan p); [discriminate|].
  destruct (negb _); [discriminate|].
  destruct (_ >=? _); discriminate.
Qed.

(** A rebuild that ended in the overflow failure ends in it again when
    repeated, and leaves the very same state. *)
Lemma rebuild_overflow_again sys c c1 :
  getN sys < 2 ^ 32 -> fill_ready c ->
  rebuild NDEBUG sys c = (Raised BucketOverflow, c1) ->
  m_overflowed c1 = true /\ same_allocation c c1
  /\ rebuild NDEBUG sys c1 = (Raised BucketOverflow, c1).
Proof.
  intros HN Hready Hrun.
  pose proof (rebuild_allocation NDEBUG sys c _ _ Hrun) as Halloc.
  split; [|split; [exact Halloc|]].
  - unfold rebuild, bind, modify, gets, raise, ret in Hrun.
    destruct (computeCellList NDEBUG sys (set_overflowed false c)) as [[[]|f] c3] eqn:Hfill.
    + destruct (m_overflowed c3) eqn:Hov; [|discriminate]. injection Hrun as <-. exact Hov.
    + injection Hrun as -> <-.
      destruct (computeCellList_outcome NDEBUG sys (set_overflowed false c) _ _ Hready HN Hfill)
        as (binned & rest & _ & _ & _ & _ & _ & p & rest' & _ & Hfault).
      apply particle_fault_not_overflow in Hfault. destruct Hfault.
  - destruct Halloc as ((s1 & x1 & t1 & o1 & ->) & L1 & L2 & L3).
    cbn [rebucket m_cell_size m_xyzf m_tdb] in L1, L2, L3.
    pose proof Hready as (_ & HNmax & _).
    (* the first rebuild *)
    unfold rebuild in Hrun. unfold bind at 1, modify at 1 in Hrun. unfold bind at 1 in Hrun.
    destruct (computeCellList NDEBUG sys (set_overflowed false c)) as [[[]|f] c3] eqn:Hfill.
    2: { injection Hrun as -> <-.
         destruct (computeCellList_outcome NDEBUG sys (set_overflowed false c) _ _ Hready HN Hfill)
           as (binned & rest & _ & _ & _ & _ & _ & p & rest' & _ & Hfault).
         apply particle_fault_not_overflow in Hfault. destruct Hfault. }
    unfold bind, gets, raise, ret in Hrun.
    destruct (m_overflowed c3) eqn:Hov3; [|discriminate]. injection Hrun as ->.
    cbn [rebucket m_overflowed] in Hov3. subst o1.
    rewrite (computeCellList_sweep NDEBUG sys (set_overflowed false c)) in Hfill
      by exact Hready.
    change (inverse_width (set_overflowed false c)) with (inverse_width c) in Hfill.
    set (box := getBox sys) in *. set (scale := inverse_width c) in *.
    set (c0 := cleared (set_overflowed false c)) in *.
    assert (fill_ready c0) as Hready0 by (apply fill_ready_cleared; exact Hready).
    destruct (sweep_bucketed NDEBUG box scale c0 (arrays sys) [] c0 _ _
                (storage_frame_refl c0)
                Hready0 (bucketed_cleared box scale (set_overflowed false c) HNmax)
                ltac:(cbn [length]; exact HN) Hfill)
      as (binned & rest & Harr & _ & Hready1 & (B1 & B2 & B3 & _) & Hok & ->).
    rewrite app_nil_r in Harr. subst binned. cbn [app length Nat.add] in *.
    (* the second rebuild *)
    set (c1 := rebucket s1 x1 t1 true c) in *.
    set (c1f := set_overflowed false c1).
    assert (fill_ready c1f) as Hready1f by exact Hready1.
    unfold rebuild, bind at 1, modify at 1. fold c1f. unfold bind at 1.
    rewrite (computeCellList_sweep NDEBUG sys c1f) by exact Hready1f.
    change (inverse_width c1f) with scale. fold box.
    destruct (sweep NDEBUG box scale 0 (arrays sys) (cleared c1f)) as [r2 c2] eqn:Hrun2.
    pose proof (fill_ready_cleared c1f Hready1f) as Hready1'.
    destruct (sweep_fault_free NDEBUG box scale (cleared c1f) (arrays sys) Hready1'
                (bucketed_cleared box scale c1f HNmax) HN Hok)
      as (c2' & Hrun2' & Hfr2 & Hready2 & B1' & B2' & B3' & _).
    rewrite Hrun2 in Hrun2'. injection Hrun2' as -> <-.
    destruct (sweep_replay NDEBUG box scale (cleared c1f) (arrays sys) [] (cleared c1f) _ _
                (storage_frame_refl _)
                Hready1' (bucketed_cleared box scale c1f HNmax)
                ltac:(cbn [length]; exact HN) B2 Hrun2)
      as [Ex Et].
    destruct Hfr2 as (s2 & x2 & t2 & o2 & ->). subst c1f c1.
    cbn [rebucket m_xyzf m_tdb m_cell_size m_overflowed cleared set_cell_size set_overflowed]
      in Ex, Et, B1', B3'.
    cbn [rebucket m_xyzf m_tdb m_cell_size m_overflowed] in B1, B3.
    subst x2 t2.
    assert (o2 = true) as ->.
    { apply B3'. right. apply proj1 in B3. destruct (B3 eq_refl) as [Habs|Hb];
        [discriminate | exact Hb]. }
    assert (s2 = s1) as ->.
    { destruct Hready2 as (_ & _ & _ & _ & _ & Hl2 & _).
      destruct Hready1 as (_ & _ & _ & _ & _ & Hl1 & _).
      cbn [rebucket m_cell_size m_cell_indexer cleared set_cell_size set_overflowed]
        in Hl1, Hl2.
      apply (list_eq_same_length _ _ (length s1)); [reflexivity | lia |].
      intros i x y Hi Hx Hy.
      specialize (B1 (Z.of_nat i) ltac:(lia)). specialize (B1' (Z.of_nat i) ltac:(lia)).
      rewrite Nat2Z.id in B1, B1'. rewrite Hx in B1'. rewrite Hy in B1.
      injection B1 as ->. injection B1' as ->. reflexivity. }
    unfold bind, gets, raise. reflexivity.
Qed.

(** X20. Overflow is not repaired by retrying. In the steady state (no
    parameter or box change pending, storage sized), a [compute] that ends
    in [BucketOverflow] leaves the capacity [Nmax] and every array size
    as they were, with the overflow flag up. A further [compute] on the
    same particles changes nothing: if the periodicity policy asks for a
    rebuild it ends in [BucketOverflow] again, and if it does not, it
    returns normally without rebuilding, the overflow flag still up. *)
Theorem compute_overflow_repeats sys (should_compute : bool) c c1 :
  m_params_changed c = false -> m_box_changed c = false ->
  fill_ready c -> getN sys < 2 ^ 32 ->
  compute NDEBUG powf sys should_compute c = (Raised BucketOverflow, c1) ->
  m_Nmax c1 = m_Nmax c
  /\ length (m_cell_size c1) = length (m_cell_size c)
  /\ length (m_xyzf c1) = length (m_xyzf c)
  /\ length (m_tdb c1) = length (m_tdb c)
  /\ m_overflowed c1 = true
  /\ compute NDEBUG powf sys true c1 = (Raised BucketOverflow, c1)
  /\ compute NDEBUG powf sys false c1 = (Returned tt, c1).
Proof.
  intros Hpc Hbc Hready HN Hrun.
  rewrite compute_prepare in Hrun. unfold bind at 1 in Hrun.
  rewrite prepare_fresh in Hrun by assumption.
  destruct (should_compute || m_particles_sorted c); [|discriminate].
  destruct (rebuild_overflow_again sys (set_particles_sorted false c) c1 HN Hready Hrun)
    as (Hov & ((s1 & x1 & t1 & o1 & E) & Ls & Lx & Lt) & Hagain).
  split; [rewrite E; reflexivity|]. split; [exact Ls|]. split; [exact Lx|].
  split; [exact Lt|]. split; [exact Hov|].
  assert (m_particles_sorted c1 = false) as Hps1 by (rewrite E; reflexivity).
  split.
  - rewrite compute_prepare. unfold bind at 1.
    rewrite prepare_fresh by (rewrite E; assumption).
    rewrite Hps1, set_particles_sorted_id by exact Hps1. exact Hagain.
  - rewrite compute_prepare. unfold bind at 1.
    rewrite prepare_fresh by (rewrite E; assumption).
    rewrite Hps1, set_particles_sorted_id by exact Hps1. reflexivity.
Qed.

End ComputeDriver.

Section ComputeInitialisation.
Context {Scalar : Type} `{ScalarOps Scalar}.
Variable NDEBUG : bool.
Variable powf : float32 -> float32 -> float32.
Implicit Type c : CellList Scalar.

#[export] Instance geometry_kept_preorder : PreOrder (geometry_kept (Scalar := Scalar)).
Proof.
  split.
  - intros c. repeat split.
  - intros c1 c2 c3 (A1 & A2 & A3 & A4) (B1 & B2 & B3 & B4).
    unfold geometry_kept. split; [|split; [|split]]; congruence.
Qed.

Lemma initializeMemory_geometry sys :
  preserves geometry_kept (initializeMemory (Scalar := Scalar) sys).
Proof.
  unfold initializeMemory, initializeCellAdj, adj_cell, adj_entry, store_cell_adj,
    sort_cell_adj.
  frame; apply preserves_modify; intros c; repeat split.
Qed.

(** [computeDimensions] reads the nominal width and the cap, nothing else
    of the state. *)
Lemma computeDimensions_reads sys c c1 :
  m_nominal_width c1 = m_nominal_width c -> m_max_cells c1 = m_max_cells c ->
  fst (computeDimensions NDEBUG powf sys c1) = fst (computeDimensions NDEBUG powf sys c).
Proof.
  intros Hw Hm. unfold computeDimensions, assert_, bind, gets, ret, raise.
  destruct (NDEBUG || _); [|reflexivity]. cbv beta iota zeta. rewrite Hw, Hm.
  destruct (getNDimensions sys =? 2); destruct (_ >? _); reflexivity.
Qed.

Lemma set_geometry_id c : set_geometry (m_dim c) (m_width c) c = c.
Proof. destruct c. reflexivity. Qed.

(** The rebuild keeps a sized storage sized, whatever its outcome, and
    ends in the state in which the sweep ended. *)
Lemma rebuild_keeps_ready sys c :
  fill_ready c -> getN sys < 2 ^ 32 -> fill_ready (snd (rebuild NDEBUG sys c)).
Proof.
  intros Hready HN. unfold rebuild, bind, modify, gets, raise, ret.
  destruct (computeCellList NDEBUG sys (set_overflowed false c)) as [r c3] eqn:Hfill.
  destruct (computeCellList_outcome NDEBUG sys (set_overflowed false c) _ _ Hready HN Hfill)
    as (_ & _ & _ & _ & Hready3 & _).
  destruct r as [[]|f]; [destruct (m_overflowed c3)|]; exact Hready3.
Qed.

(** What a returning [initializeAll] has done. *)
Lemma initializeAll_returned sys c c1 :
  initializeAll NDEBUG powf sys c = (Returned tt, c1) ->
  exists d,
    computeDimensions NDEBUG powf sys c = (Returned d, c)
    /\ initializeMemory sys (set_geometry d (refreshed_width sys d) c) = (Returned tt, c1)
    /\ m_dim c1 = d /\ m_width c1 = refreshed_width sys d
    /\ m_nominal_width c1 = m_nominal_width c /\ m_max_cells c1 = m_max_cells c.
Proof.
  intros Hrun. unfold initializeAll in Hrun.
  apply bind_returned in Hrun as ([] & cw & Hw & Hmem).
  unfold initializeWidth in Hw.
  apply bind_returned in Hw as (d & c0 & Hdim & Hw).
  pose proof (computeDimensions_pure NDEBUG powf sys _ _ _ Hdim) as <-.
  injection Hw as <-. exists d. split; [exact Hdim|]. split; [exact Hmem|].
  destruct (initializeMemory_geometry sys _ _ _ Hmem) as (E1 & E2 & E3 & E4).
  fields in *. auto.
Qed.

(** X21. The call that follows a parameter change (the first call after
    construction is one) initialises and then rebuilds, whatever the
    periodicity policy says. If [computeDimensions] yields a grid [d] with
    at least one cell per axis whose tables fit 32-bit indices, then
    [initializeAll] returns with grid [d], widths the extents divided by
    [d], capacity the rounded estimate and storage sized for both loops;
    [compute] is the rebuild on that state with the flags cleared, it
    leaves the storage sized and the adjacency table as built. *)
Theorem compute_after_parameter_change sys (should_compute : bool) c (d : uint3) :
  m_params_changed c = true -> m_box_changed c = false ->
  fst (computeDimensions NDEBUG powf sys c) = Returned d ->
  0 <= m_radius c -> all_at_least_one d ->
  stencil (m_radius c) * numCells d < 2 ^ 31 ->
  estimate_Nmax (getN sys) d * numCells d < 2 ^ 32 ->
  getN sys < 2 ^ 32 ->
  exists c1,
    initializeAll NDEBUG powf sys c = (Returned tt, c1)
    /\ m_dim c1 = d /\ m_width c1 = refreshed_width sys d
    /\ m_Nmax c1 = estimate_Nmax (getN sys) d
    /\ fill_ready c1 /\ adj_ready c1
    /\ compute NDEBUG powf sys should_compute c
       = rebuild NDEBUG sys (set_particles_sorted false (set_params_changed false c1))
    /\ fill_ready (snd (compute NDEBUG powf sys should_compute c))
    /\ m_cell_adj (snd (compute NDEBUG powf sys should_compute c)) = m_cell_adj c1.
Proof.
  intros Hpc Hbc Hdim Hr Hd Hadj Hfit HN.
  apply computeDimensions_run in Hdim.
  pose proof (initializeWidth_run NDEBUG powf sys c d Hdim) as Hw.
  set (cw := set_geometry d (refreshed_width sys d) c) in *.
  destruct (allocated_ready sys cw Hr Hd Hadj Hfit) as (Hready & Hfill & E).
  destruct (initializeCellAdj_table _ Hready) as (c1 & Hrun & [Hready1 E1] & _).
  rewrite <- initializeMemory_allocated in Hrun.
  assert (initializeAll NDEBUG powf sys c = (Returned tt, c1)) as Hall.
  { unfold initializeAll, bind. rewrite Hw. exact Hrun. }
  assert (fill_ready c1) as Hfill1
    by (rewrite E1; apply fill_ready_set_cell_adj; exact Hfill).
  exists c1. split; [exact Hall|].
  split; [rewrite E1, E; reflexivity|]. split; [rewrite E1, E; reflexivity|].
  split; [rewrite E1, E; reflexivity|]. split; [exact Hfill1|]. split; [exact Hready1|].
  assert (m_box_changed c1 = false) as Hbc1 by (rewrite E1, E; exact Hbc).
  assert (compute NDEBUG powf sys should_compute c
          = rebuild NDEBUG sys (set_particles_sorted false (set_params_changed false c1)))
    as Hcompute.
  { rewrite compute_prepare. unfold prepare, handle_params, handle_box, handle_sorted.
    unfold bind at 1. unfold bind at 1. unfold bind at 1. unfold gets at 1.
    rewrite Hpc. unfold bind at 1. rewrite Hall.
    unfold bind, modify, gets, ret. fields. rewrite Hbc1. fields.
    destruct (m_particles_sorted c1) eqn:Hps; rewrite orb_true_r; [reflexivity|].
    rewrite (set_particles_sorted_id (set_params_changed false c1)) by exact Hps.
    reflexivity. }
  split; [exact Hcompute|]. rewrite Hcompute. split.
  - apply rebuild_keeps_ready; [exact Hfill1 | exact HN].
  - destruct (rebuild NDEBUG sys (set_particles_sorted false (set_params_changed false c1)))
      as [r c2] eqn:Hreb.
    apply rebuild_allocation in Hreb as ((s & x & t & o & ->) & _). reflexivity.
Qed.

(** X22. When a parameter change and a box change are pending together,
    memory is initialised once: after [initializeAll] the box block finds
    the grid it would compute already in place, only refreshes widths
    that are already current, and clears its flag. *)
Theorem compute_parameter_and_box_change sys (should_compute : bool) c :
  m_params_changed c = true -> m_box_changed c = true ->
  compute NDEBUG powf sys should_compute c
  = (initializeAll NDEBUG powf sys;;
     modify (set_params_changed false);;
     modify (set_box_changed false);;
     modify (set_particles_sorted false);;
     rebuild NDEBUG sys) c.
Proof.
  intros Hpc Hbc.
  assert ((initializeAll NDEBUG powf sys;;
           modify (set_params_changed false);;
           modify (set_box_changed false);;
           modify (set_particles_sorted false);;
           rebuild NDEBUG sys) c
          = match initializeAll NDEBUG powf sys c with
            | (Returned _, c1) =>
                rebuild NDEBUG sys
                  (set_particles_sorted false
                     (set_box_changed false (set_params_changed false c1)))
            | (Raised f, c1) => (Raised f, c1)
            end) as ->.
  { unfold bind, modify.
    destruct (initializeAll NDEBUG powf sys c) as [[[]|f] c1]; reflexivity. }
  rewrite compute_prepare. unfold bind at 1. unfold prepare. unfold bind at 1.
  assert (handle_params NDEBUG powf sys c
          = match initializeAll NDEBUG powf sys c with
            | (Returned _, c1) => (Returned true, set_params_changed false c1)
            | (Raised f, c1) => (Raised f, c1)
            end) as ->.
  { unfold handle_params, bind, gets, modify, ret. rewrite Hpc.
    destruct (initializeAll NDEBUG powf sys c) as [[[]|f] c1]; reflexivity. }
  destruct (initializeAll NDEBUG powf sys c) as [[[]|f] c1] eqn:Hall; [|reflexivity].
  destruct (initializeAll_flags NDEBUG powf sys _ _ _ Hall) as (_ & Hbc1 & _).
  destruct (initializeAll_returned sys c c1 Hall) as (d & Hdim & _ & Hd1 & Hw1 & Hnw & Hmc).
  set (c2 := set_params_changed false c1).
  assert (computeDimensions NDEBUG powf sys c2 = (Returned d, c2)) as Hdim2.
  { apply computeDimensions_run.
    rewrite (computeDimensions_reads sys c c2) by assumption.
    rewrite Hdim. reflexivity. }
  assert (initializeWidth NDEBUG powf sys c2 = (Returned tt, c2)) as Hw2.
  { rewrite (initializeWidth_run NDEBUG powf sys c2 d Hdim2).
    f_equal. rewrite <- Hw1, <- Hd1. apply (set_geometry_id c2). }
  assert (uint3_eqb d d = true) as Heqb by (apply uint3_eqb_eq; reflexivity).
  unfold bind at 1.
  assert (handle_box NDEBUG powf sys true c2 = (Returned true, set_box_changed false c2))
    as ->.
  { unfold handle_box. unfold bind at 1. unfold gets at 1.
    change (m_box_changed c2) with (m_box_changed c1). rewrite Hbc1, Hbc.
    unfold bind at 1. rewrite Hdim2. unfold bind at 1. unfold gets at 1.
    change (m_dim c2) with (m_dim c1). rewrite Hd1, Heqb.
    unfold bind at 1. rewrite Hw2. reflexivity. }
  unfold handle_sorted, bind, gets, modify, ret. subst c2. fields.
  destruct (m_particles_sorted c1) eqn:Hps; rewrite orb_true_r; [reflexivity|].
  rewrite <- (set_particles_sorted_id (set_box_changed false (set_params_changed false c1)))
    at 1 by exact Hps.
  reflexivity.
Qed.

(** The full initialisation on a grid [d] with at least one cell per axis
    whose tables fit 32-bit indices: it returns in the freshly allocated
    state with the adjacency table filled in. *)
Lemma initializeAll_fresh sys c (d : uint3) :
  computeDimensions NDEBUG powf sys c = (Returned d, c) ->
  0 <= m_radius c -> all_at_least_one d ->
  stencil (m_radius c) * numCells d < 2 ^ 31 ->
  estimate_Nmax (getN sys) d * numCells d < 2 ^ 32 ->
  let Nmax := estimate_Nmax (getN sys) d in
  exists c1 adj,
    initializeAll NDEBUG powf sys c = (Returned tt, c1)
    /\ c1 = set_tdb (if m_compute_tdb c
                     then replicate (Z.to_nat (Nmax * numCells d))
                                    (make_scalar4 Szero Szero Szero Szero)
                     else [])
              (set_xyzf (replicate (Z.to_nat (Nmax * numCells d))
                                   (make_scalar4 Szero Szero Szero Szero))
                 (set_cell_adj adj
                    (set_cell_size (replicate (Z.to_nat (numCells d)) 0)
                       (set_indexers (mkIndex3D (u3x d) (u3y d) (u3z d))
                          (mkIndex2D Nmax (numCells d))
                          (mkIndex2D (stencil (m_radius c)) (numCells d))
                          (set_Nmax Nmax (set_geometry d (refreshed_width sys d) c))))))
    /\ fill_ready c1 /\ adj_ready c1
    /\ forall i j k, 0 <= i < u3x d -> 0 <= j < u3y d -> 0 <= k < u3z d ->
         cell_adj_list c1 (flat_cell d i j k)
         = std_sort (floor_mod_neighbours d (m_radius c) i j k).
Proof.
  intros Hdim Hr Hd Hadj Hfit Nmax.
  pose proof (initializeWidth_run NDEBUG powf sys c d Hdim) as Hw.
  set (cw := set_geometry d (refreshed_width sys d) c) in *.
  destruct (allocated_ready sys cw Hr Hd Hadj Hfit) as (Hready & Hfill & E).
  destruct (initializeCellAdj_table _ Hready) as (c1 & Hrun & [Hready1 E1] & Hrows).
  rewrite <- initializeMemory_allocated in Hrun.
  exists c1, (m_cell_adj c1).
  split; [unfold initializeAll, bind; rewrite Hw; exact Hrun|].
  split; [rewrite E1 at 1; rewrite E; reflexivity|].
  split; [rewrite E1; apply fill_ready_set_cell_adj; exact Hfill|].
  split; [exact Hready1|].
  intros i j k Hi Hj Hk.
  assert (m_dim (allocated sys cw) = d) as Ed by (rewrite E; reflexivity).
  assert (m_radius (allocated sys cw) = m_radius c) as Er by (rewrite E; reflexivity).
  specialize (Hrows i j k). rewrite Ed, Er in Hrows.
  exact (Hrows Hi Hj Hk).
Qed.

(** C8. With no parameter change pending and a box change notified, let
    [d] be the grid that [computeDimensions] returns.

    If [d] is the current [m_dim], [compute] only replaces the width
    triple by the extents divided by [m_dim] and then rebuilds, whatever
    the periodicity policy says: the grid, [Nmax], the adjacency table,
    the three indexers and the sizes of the bucket arrays are as before,
    and on sized storage with fault-free particles the buckets are rebuilt
    with the refreshed widths.

    If [d] differs, for a grid of at least one cell per axis whose tables
    fit 32-bit indices, [compute] runs the full [initializeAll] first: the
    grid becomes [d], the widths the extents divided by [d], [Nmax] the
    rounded estimate for the new grid, the indexers those of the new grid,
    the counters and bucket arrays are allocated anew, zero-filled, in the
    sizes of the new grid, and the adjacency table holds for every cell of
    the new grid its sorted neighbour list; then the buckets are rebuilt
    in the new grid, which leaves grid, widths, capacity and adjacency
    table as initialised. *)
Theorem compute_box_change sys (should_compute : bool) c (d : uint3) :
  m_params_changed c = false -> m_box_changed c = true ->
  fst (computeDimensions NDEBUG powf sys c) = Returned d ->
  let run := compute NDEBUG powf sys should_compute c in
  (d = m_dim c ->
     let cw := set_particles_sorted false
                 (set_box_changed false (set_geometry d (refreshed_width sys d) c)) in
     run = rebuild NDEBUG sys cw
     /\ m_dim (snd run) = m_dim c
     /\ m_width (snd run) = refreshed_width sys (m_dim c)
     /\ m_Nmax (snd run) = m_Nmax c
     /\ m_cell_adj (snd run) = m_cell_adj c
     /\ m_cell_indexer (snd run) = m_cell_indexer c
     /\ m_cell_list_indexer (snd run) = m_cell_list_indexer c
     /\ m_cell_adj_indexer (snd run) = m_cell_adj_indexer c
     /\ length (m_cell_size (snd run)) = length (m_cell_size c)
     /\ length (m_xyzf (snd run)) = length (m_xyzf c)
     /\ length (m_tdb (snd run)) = length (m_tdb c)
     /\ m_box_changed (snd run) = false
     /\ (fill_ready c -> getN sys < 2 ^ 32 -> fault_free NDEBUG sys cw ->
         rebuilt sys cw run))
  /\ (d <> m_dim c ->
      0 <= m_radius c -> all_at_least_one d ->
      stencil (m_radius c) * numCells d < 2 ^ 31 ->
      estimate_Nmax (getN sys) d * numCells d < 2 ^ 32 ->
      exists c1,
        initializeAll NDEBUG powf sys c = (Returned tt, c1)
        /\ run = rebuild NDEBUG sys (set_particles_sorted false (set_box_changed false c1))
        /\ m_dim c1 = d
        /\ m_width c1 = refreshed_width sys d
        /\ m_Nmax c1 = estimate_Nmax (getN sys) d
        /\ m_cell_indexer c1 = mkIndex3D (u3x d) (u3y d) (u3z d)
        /\ m_cell_list_indexer c1 = mkIndex2D (m_Nmax c1) (numCells d)
        /\ m_cell_adj_indexer c1 = mkIndex2D (stencil (m_radius c)) (numCells d)
        /\ m_cell_size c1 = replicate (Z.to_nat (numCells d)) 0
        /\ m_xyzf c1 = replicate (Z.to_nat (m_Nmax c1 * numCells d))
                         (make_scalar4 Szero Szero Szero Szero)
        /\ m_tdb c1 = (if m_compute_tdb c
                       then replicate (Z.to_nat (m_Nmax c1 * numCells d))
                                      (make_scalar4 Szero Szero Szero Szero)
                       else [])
        /\ Z.of_nat (length (m_cell_adj c1)) = stencil (m_radius c) * numCells d
        /\ (forall i j k, 0 <= i < u3x d -> 0 <= j < u3y d -> 0 <= k < u3z d ->
              cell_adj_list c1 (flat_cell d i j k)
              = std_sort (floor_mod_neighbours d (m_radius c) i j k))
        /\ m_dim (snd run) = d
        /\ m_width (snd run) = refreshed_width sys d
        /\ m_Nmax (snd run) = m_Nmax c1
        /\ m_cell_adj (snd run) = m_cell_adj c1
        /\ length (m_cell_size (snd run)) = length (m_cell_size c1)
        /\ length (m_xyzf (snd run)) = length (m_xyzf c1)
        /\ length (m_tdb (snd run)) = length (m_tdb c1)
        /\ m_box_changed (snd run) = false
        /\ (getN sys < 2 ^ 32 -> fault_free NDEBUG sys c1 ->
            rebuilt sys (set_particles_sorted false (set_box_changed false c1)) run)).
Proof.
  intros Hpc Hbc Hd run. apply computeDimensions_run in Hd.
  split.
  - intros Hsame cw.
    assert (run = rebuild NDEBUG sys cw) as Hrun.
    { unfold run, cw. rewrite compute_prepare.
      unfold prepare, handle_params, handle_box, handle_sorted.
      unfold bind at 1 2 3, gets at 1. rewrite Hpc. unfold ret at 1.
      unfold bind at 1 2, gets at 1. rewrite Hbc.
      unfold bind at 1. rewrite Hd. unfold bind at 1, gets at 1.
      rewrite (proj2 (uint3_eqb_eq d (m_dim c)) Hsame).
      unfold bind at 1. rewrite (initializeWidth_run NDEBUG powf sys c d Hd).
      unfold bind at 1, modify at 1, ret at 1.
      unfold bind at 1, gets at 1, bind, modify, ret. fields.
      destruct (m_particles_sorted c) eqn:Hps; rewrite orb_true_r; [reflexivity|].
      rewrite set_particles_sorted_id by exact Hps. reflexivity. }
    split; [exact Hrun|]. rewrite Hrun.
    assert (fill_ready c -> getN sys < 2 ^ 32 -> fault_free NDEBUG sys cw ->
            rebuilt sys cw (rebuild NDEBUG sys cw)) as Hreb.
    { intros Hready HN Hok.
      destruct (rebuild_fault_free NDEBUG sys cw Hready HN Hok) as (c' & E & _ & _ & Hb).
      unfold rebuilt. rewrite E. cbn [fst snd]. split; [reflexivity | exact Hb]. }
    destruct (rebuild NDEBUG sys cw) as [r c'] eqn:Hreb'.
    destruct (rebuild_allocation NDEBUG sys cw _ _ Hreb')
      as ((s1 & x1 & t1 & o1 & E) & L1 & L2 & L3).
    cbn [snd]. subst d.
    repeat (split; [first [assumption | rewrite E; reflexivity]|]).
    exact Hreb.
  - intros Hdiff Hr Hone Hadj Hfit.
    assert (uint3_eqb d (m_dim c) = false) as Hneq.
    { destruct (uint3_eqb d (m_dim c)) eqn:E; [|reflexivity].
      apply uint3_eqb_eq in E. contradiction. }
    destruct (initializeAll_fresh sys c d Hd Hr Hone Hadj Hfit)
      as (c1 & adj & Hall & E & Hfill & Hready & Hrows).
    exists c1. split; [exact Hall|].
    set (c2 := set_particles_sorted false (set_box_changed false c1)).
    assert (run = rebuild NDEBUG sys c2) as Hrun.
    { unfold run, c2. rewrite compute_prepare.
      unfold prepare, handle_params, handle_box, handle_sorted.
      unfold bind at 1 2 3, gets at 1. rewrite Hpc. unfold ret at 1.
      unfold bind at 1 2, gets at 1. rewrite Hbc.
      unfold bind at 1. rewrite Hd. unfold bind at 1, gets at 1. rewrite Hneq.
      unfold bind at 1. rewrite Hall.
      unfold bind, modify, ret, gets. fields.
      destruct (m_particles_sorted c1) eqn:Hps; rewrite orb_true_r; [reflexivity|].
      rewrite set_particles_sorted_id by exact Hps. reflexivity. }
    split; [exact Hrun|].
    assert (m_Nmax c1 = estimate_Nmax (getN sys) d) as HNmax by (rewrite E; reflexivity).
    split; [rewrite E; reflexivity|]. split; [rewrite E; reflexivity|].
    split; [exact HNmax|]. split; [rewrite E; reflexivity|].
    split; [rewrite HNmax, E; reflexivity|]. split; [rewrite E; reflexivity|].
    split; [rewrite E; reflexivity|]. split; [rewrite HNmax, E; reflexivity|].
    split; [rewrite HNmax, E; reflexivity|].
    split.
    { assert (m_radius c1 = m_radius c) as Er by (rewrite E; reflexivity).
      assert (m_dim c1 = d) as Ed by (rewrite E; reflexivity).
      destruct Hready as (_ & _ & _ & _ & _ & _ & _ & L).
      rewrite Er, Ed in L. exact L. }
    split; [exact Hrows|].
    assert (m_dim c1 = d) as Hd1 by (rewrite E; reflexivity).
    assert (m_width c1 = refreshed_width sys d) as Hw1 by (rewrite E; reflexivity).
    clear E. rewrite Hrun.
    assert (getN sys < 2 ^ 32 -> fault_free NDEBUG sys c1 ->
            rebuilt sys c2 (rebuild NDEBUG sys c2)) as Hreb.
    { intros HN Hok.
      destruct (rebuild_fault_free NDEBUG sys c2 Hfill HN Hok) as (c' & E & _ & _ & Hb).
      unfold rebuilt. rewrite E. cbn [fst snd]. split; [reflexivity | exact Hb]. }
    destruct (rebuild NDEBUG sys c2) as [r c'] eqn:Hreb'.
    destruct (rebuild_allocation NDEBUG sys c2 _ _ Hreb')
      as ((s1 & x1 & t1 & o1 & E) & L1 & L2 & L3).
    cbn [snd].
    split; [rewrite E; exact Hd1|]. split; [rewrite E; exact Hw1|].
    repeat (split; [first [assumption | rewrite E; reflexivity]|]).
    exact Hreb.
Qed.

End ComputeInitialisation.

(** * Worked instances *)

Module Examples.
Import Fixtures.

(** Closes a goal about concrete data by evaluation. *)
Ltac evaluated :=
  vm_compute;
  lazymatch goal with
  | |- _ /\ _ => split; evaluated
  | |- _ = _ => reflexivity
  | |- True => exact I
  | |- _ -> _ => let H := fresh in intros H; first [discriminate H | evaluated]
  end.

(** Splits conjunctions only, leaving equations to evaluation. *)
Ltac conjuncts := repeat match goal with |- _ /\ _ => split end.

Ltac sized :=
  unfold fill_ready; cbv zeta; conjuncts;
  lazymatch goal with
  | |- Forall _ _ => apply (bool_decide_unpack _); vm_compute; exact I
  | _ => evaluated
  end.

Lemma computeDimensions_cells_at_least_one_witness :
  box_positive (getBox two_particles) = true
  /\ axis_fits (F 0) (F 1000) (m_nominal_width (engine 500)) = true
  /\ u32 (numCells (raw_dim two_particles (engine 500))) <= m_max_cells (engine 500)
  /\ exists d,
       computeDimensions false powf_uncalled two_particles (engine 500)
       = (Returned d, engine 500)
       /\ d = make_uint3 2 2 2 /\ all_at_least_one d.
Proof.
  assert (box_positive (getBox two_particles) = true) as H1 by evaluated.
  assert (axis_fits (F 0) (F 1000) (m_nominal_width (engine 500)) = true) as H2
    by evaluated.
  assert (u32 (numCells (raw_dim two_particles (engine 500))) <= m_max_cells (engine 500))
    as H3 by evaluated.
  split; [exact H1|]. split; [exact H2|]. split; [exact H3|].
  destruct (computeDimensions_cells_at_least_one false powf_uncalled two_particles
              (engine 500) H1 H2 H2 (fun _ => H2) H3) as (d & Hrun & Hone & _).
  exists d. split; [exact Hrun|]. split; [|exact Hone].
  assert (computeDimensions false powf_uncalled two_particles (engine 500)
          = (Returned (make_uint3 2 2 2), engine 500)) as Hval by (vm_compute; reflexivity).
  rewrite Hval in Hrun. injection Hrun as <-. reflexivity.
Defined.

Lemma initializeCellAdj_rows_witness :
  adj_ready (built 500 two_particles)
  /\ exists c',
       initializeCellAdj (built 500 two_particles) = (Returned tt, c')
       /\ Z.of_nat (length (cell_adj_list c' (Index3D_at (m_cell_indexer c') 1 0 1))) = 27
       /\ Sorted Z.le (cell_adj_list c' (Index3D_at (m_cell_indexer c') 1 0 1)).
Proof.
  assert (adj_ready (built 500 two_particles)) as Hready.
  { unfold adj_ready. cbv zeta. conjuncts; evaluated. }
  split; [exact Hready|].
  destruct (initializeCellAdj_rows (built 500 two_particles) Hready) as (c' & Hrun & _ & Hrows).
  exists c'. split; [exact Hrun|].
  destruct (Hrows 1 0 1 ltac:(evaluated) ltac:(evaluated) ltac:(evaluated))
    as (Hlen & _ & Hsorted & _).
  split; [exact Hlen | exact Hsorted].
Defined.

(** C1 (counterexample). The box [0, 100)^3 with nominal width 30 has
    three cells of width 33.333332 per axis. The first particle sits at
    x = 99.99999237, the largest single-precision number below 100: it is
    strictly inside the box, no coordinate is NaN and nothing overflows.
    Its position lies within the bounds of the last cell along x, index 2,
    and not within those of cell 0. Yet its offset multiplied in single
    precision by the reciprocal width is exactly 3, the number of cells,
    which the loop body sends to index 0: the rebuild, in the debug as in
    the release build, puts its record into the bucket of cell 0, next to
    the particle at (1, 1, 1). *)
Lemma computeCellList_inside_box_wrong_cell :
  let c := built 30 near_edge in
  let box := getBox near_edge in
  compute true powf_uncalled near_edge true (engine 30) = (Returned tt, c)
  /\ compute false powf_uncalled near_edge true (engine 30) = (Returned tt, c)
  /\ computeCellList false near_edge c = (Returned tt, c)
  /\ computeCellList true near_edge c = (Returned tt, c)
  /\ m_dim c = make_uint3 3 3 3
  /\ has_nan inside_edge = false /\ has_nan (at_ 1 1 1) = false
  /\ m_overflowed c = false
  /\ SFltb (xlo box) (p_x inside_edge) = true
  /\ SFltb (p_x inside_edge) (xhi box) = true
  /\ f32_within 99 100 (p_x inside_edge) = true
  /\ within_cell (xlo box) (s3x (m_width c)) (p_x inside_edge) 2 = true
  /\ within_cell (xlo box) (s3x (m_width c)) (p_x inside_edge) 0 = false
  /\ cell_coordinate (p_x inside_edge) (xlo box) (s3x (inverse_width c)) = F 3
  /\ particle_ib box (inverse_width c) (m_dim c) inside_edge = 0
  /\ bin_of box (inverse_width c) c inside_edge = 0
  /\ m_cell_size c = 2 :: replicate 26 0
  /\ m_xyzf c !! slot c 0 0 = Some (xyzf_record (m_flag_charge c) 0 inside_edge)
  /\ m_xyzf c !! slot c 0 1 = Some (xyzf_record (m_flag_charge c) 1 (at_ 1 1 1)).
Proof. cbv zeta. conjuncts; vm_compute; reflexivity. Qed.

Lemma computeCellList_assigns_each_particle_witness :
  let c := built 30 near_edge in
  fill_ready c
  /\ m_cell_indexer c = mkIndex3D (u3x (m_dim c)) (u3y (m_dim c)) (u3z (m_dim c))
  /\ all_at_least_one (m_dim c)
  /\ width_invertible (s3x (m_width c)) = true
  /\ f32_wellformed (xlo (getBox near_edge)) = true
  /\ getN near_edge < 2 ^ 32
  /\ m_overflowed c = false
  /\ (f32_wellformed (p_x inside_edge) = true
      /\ f32_exact_leb (xlo (getBox near_edge)) (p_x inside_edge) = true
      /\ f32_within 0 (u3x (m_dim c) + 1)
           (cell_coordinate (p_x inside_edge) (xlo (getBox near_edge))
              (s3x (inverse_width c))) = true)
  /\ (forall b, occupancy b (bins near_edge c) <= m_Nmax c)
  /\ exists c',
       computeCellList false near_edge c = (Returned tt, c')
       /\ m_overflowed c' = false
       /\ sumZ (m_cell_size c') = getN near_edge
       /\ exists jb kb count,
            cell_holds 3 (cell_coordinate (p_x inside_edge) (F 0) (s3x (inverse_width c))) 0
            /\ cell_takes 3 (F 0) (s3x (m_width c)) (p_x inside_edge) 0
            /\ within_cell_slack (F 0) (s3x (m_width c)) (p_x inside_edge) 3 = true
            /\ bin_of (getBox near_edge) (inverse_width c) c inside_edge
               = flat_cell (m_dim c) 0 jb kb
            /\ m_cell_size c' !! Z.to_nat (flat_cell (m_dim c) 0 jb kb) = Some count
            /\ count <= m_Nmax c.
Proof.
  cbv zeta.
  set (c := built 30 near_edge).
  assert (fill_ready c) as H1 by (subst c; sized).
  assert (m_cell_indexer c = mkIndex3D (u3x (m_dim c)) (u3y (m_dim c)) (u3z (m_dim c)))
    as H2 by evaluated.
  assert (all_at_least_one (m_dim c)) as H3.
  { unfold all_at_least_one. conjuncts; evaluated. }
  assert (width_invertible (s3x (m_width c)) = true) as Hwx by evaluated.
  assert (width_invertible (s3y (m_width c)) = true) as Hwy by evaluated.
  assert (width_invertible (s3z (m_width c)) = true) as Hwz by evaluated.
  assert (f32_wellformed (xlo (getBox near_edge)) = true) as Hlx by evaluated.
  assert (f32_wellformed (ylo (getBox near_edge)) = true) as Hly by evaluated.
  assert (f32_wellformed (zlo (getBox near_edge)) = true) as Hlz by evaluated.
  assert (getN near_edge < 2 ^ 32) as H4 by evaluated.
  assert (m_overflowed c = false) as H5 by evaluated.
  assert (forall (i : nat) (p : Particle Scalar32),
            arrays near_edge !! i = Some p ->
            has_nan p = false
            /\ (f32_wellformed (p_x p) = true
                /\ f32_exact_leb (xlo (getBox near_edge)) (p_x p) = true
                /\ f32_within 0 (u3x (m_dim c) + 1)
                     (cell_coordinate (p_x p) (xlo (getBox near_edge))
                        (s3x (inverse_width c))) = true)
            /\ (f32_wellformed (p_y p) = true
                /\ f32_exact_leb (ylo (getBox near_edge)) (p_y p) = true
                /\ f32_within 0 (u3y (m_dim c) + 1)
                     (cell_coordinate (p_y p) (ylo (getBox near_edge))
                        (s3y (inverse_width c))) = true)
            /\ (f32_wellformed (p_z p) = true
                /\ f32_exact_leb (zlo (getBox near_edge)) (p_z p) = true
                /\ f32_within 0 (u3z (m_dim c) + 1)
                     (cell_coordinate (p_z p) (zlo (getBox near_edge))
                        (s3z (inverse_width c))) = true)) as H6.
  { intros [|[|i]] p Hp; cbn in Hp; [injection Hp as <- | injection Hp as <- | discriminate];
      conjuncts; vm_compute; reflexivity. }
  assert (forall b, occupancy b (bins near_edge c) <= m_Nmax c) as H7.
  { assert (Z.of_nat (length (bins near_edge c)) = 2) as Hlen
      by (vm_compute; reflexivity).
    assert (m_Nmax c = 32) as HNmax by (vm_compute; reflexivity).
    intros b.
    pose proof (occupancy_bounds b (bins near_edge c)) as Hb.
    rewrite Hlen in Hb. rewrite HNmax. lia. }
  split; [exact H1|]. split; [exact H2|]. split; [exact H3|]. split; [exact Hwx|].
  split; [exact Hlx|]. split; [exact H4|]. split; [exact H5|].
  split; [exact (proj1 (proj2 (H6 0%nat inside_edge eq_refl)))|].
  split; [exact H7|].
  destruct (computeCellList_assigns_each_particle false near_edge c
              H1 H2 H3 Hwx Hwy Hwz Hlx Hly Hlz H4 H5 H6 H7)
    as (c' & Hrun & Hov & Hsum & Hplace & _).
  exists c'. split; [exact Hrun|]. split; [exact Hov|]. split; [exact Hsum|].
  destruct (Hplace 0%nat inside_edge eq_refl)
    as (ib & jb & kb & count & (Htx & _) & (Hx & _) & _ & Hbin & _ & Hcount & _ & Hle & _).
  assert (cell_holds 3 (cell_coordinate (p_x inside_edge) (F 0) (s3x (inverse_width c))) 0)
    as Hzero.
  { split; [lia|]. right. split; [reflexivity | vm_compute; reflexivity]. }
  assert (ib = 0) as -> by exact (cell_holds_unique _ _ _ _ Hx Hzero).
  exists jb, kb, count.
  split; [exact Hzero|]. split; [exact Htx|].
  split; [vm_compute; reflexivity|].
  split; [exact Hbin|]. split; [exact Hcount | exact Hle].
Defined.

Lemma compute_overflow_after_full_sweep_witness :
  let c := built 500 crowded in
  m_params_changed c = false /\ m_box_changed c = false
  /\ fill_ready c /\ getN crowded < 2 ^ 32
  /\ m_Nmax c = 32
  /\ exists c',
       compute false powf_uncalled crowded true c = (Raised BucketOverflow, c')
       /\ m_cell_size c' !! 0%nat = Some 40
       /\ sumZ (m_cell_size c') = 40.
Proof.
  cbv zeta.
  assert (m_params_changed (built 500 crowded) = false) as H1 by evaluated.
  assert (m_box_changed (built 500 crowded) = false) as H2 by evaluated.
  assert (true || m_particles_sorted (built 500 crowded) = true) as H3 by reflexivity.
  assert (fill_ready (built 500 crowded)) as H4 by sized.
  assert (getN crowded < 2 ^ 32) as H5 by evaluated.
  assert (forall (i : nat) (p : Particle Scalar32),
            arrays crowded !! i = Some p ->
            particle_fault (getBox crowded) (inverse_width (built 500 crowded))
              (m_dim (built 500 crowded)) (m_cell_indexer (built 500 crowded)) false
              (Z.of_nat i) p = None) as H6.
  { intros i p Hp. apply lookup_replicate_1 in Hp as [-> _]. vm_compute. reflexivity. }
  assert (bins crowded (built 500 crowded) = replicate 40 0) as Hbins
    by (vm_compute; reflexivity).
  split; [exact H1|]. split; [exact H2|]. split; [exact H4|]. split; [exact H5|].
  split; [evaluated|].
  destruct (compute_overflow_after_full_sweep false powf_uncalled crowded true
              (built 500 crowded) H1 H2 H3 H4 H5 H6)
    as (r & c' & Hrun & _ & Hover & Hcount & Hsum & _).
  exists c'. rewrite Hbins in Hover, Hcount.
  assert (r = Raised BucketOverflow) as ->.
  { apply Hover. exists 0. vm_compute. reflexivity. }
  split; [exact Hrun|]. split.
  - apply (Hcount 0). evaluated.
  - exact Hsum.
Defined.


(** C7 (counterexample). The engine was built on two particles near the
    origin, so cell 1 is empty. Then particle 0 moves to x = 600 and
    particle 1 becomes NaN: [compute] raises [InvalidPosition] for
    particle 1, and the arrays that Consumers read hold the half-done
    sweep: cell 1 counts one particle, whose record is in the first slot
    of its bucket, and cell 0 counts none. *)
Lemma compute_fault_leaves_partial_buckets :
  let c := built 500 two_particles in
  let run := compute false powf_uncalled then_lost true c in
  m_cell_size c = [2; 0; 0; 0; 0; 0; 0; 0]
  /\ fst run = Raised (InvalidPosition 1)
  /\ m_cell_size (snd run) = [0; 1; 0; 0; 0; 0; 0; 0]
  /\ m_xyzf (snd run)
     !! Z.to_nat (Index2D_at (m_cell_list_indexer c) 0 1)
     = Some (make_scalar4 (F 600) (F 0) (F 0) (int_as_scalar 0))
  /\ m_xyzf c !! Z.to_nat (Index2D_at (m_cell_list_indexer c) 0 1)
     = Some (make_scalar4 Szero Szero Szero Szero).
Proof. cbv zeta. conjuncts; vm_compute; reflexivity. Qed.

Lemma compute_nan_stops_sweep_witness :
  let c := built 500 two_particles in
  m_params_changed c = false /\ m_box_changed c = false /\ fill_ready c
  /\ has_nan lost = true
  /\ exists c',
       compute false powf_uncalled then_lost true c = (Raised (InvalidPosition 1), c')
       /\ sumZ (m_cell_size c') = 1.
Proof.
  cbv zeta.
  assert (m_params_changed (built 500 two_particles) = false) as H1 by evaluated.
  assert (m_box_changed (built 500 two_particles) = false) as H2 by evaluated.
  assert (true || m_particles_sorted (built 500 two_particles) = true) as H3 by reflexivity.
  assert (fill_ready (built 500 two_particles)) as H4 by sized.
  assert (Z.of_nat (length [at_ 600 0 0]) < 2 ^ 32) as H5 by evaluated.
  assert (arrays then_lost = [at_ 600 0 0] ++ lost :: []) as H6 by reflexivity.
  assert (has_nan lost = true) as H7 by evaluated.
  assert (forall (i : nat) (q : Particle Scalar32),
            [at_ 600 0 0] !! i = Some q ->
            particle_fault (getBox then_lost) (inverse_width (built 500 two_particles))
              (m_dim (built 500 two_particles)) (m_cell_indexer (built 500 two_particles))
              false (Z.of_nat i) q = None) as H8.
  { intros [|i] q Hq; cbn in Hq; [injection Hq as <- | discriminate].
    vm_compute. reflexivity. }
  split; [exact H1|]. split; [exact H2|]. split; [exact H4|]. split; [exact H7|].
  destruct (compute_nan_stops_sweep false powf_uncalled then_lost true
              (built 500 two_particles) [at_ 600 0 0] [] lost H1 H2 H3 H4 H5 H6 H7 H8)
    as (c' & Hrun & _ & Hsum & _).
  exists c'. split; [exact Hrun | exact Hsum].
Defined.

Lemma compute_box_change_witness :
  let c := set_box_changed true (built 500 two_particles) in
  let same := compute false powf_uncalled grown false c in
  let full := compute false powf_uncalled doubled false c in
  m_params_changed c = false /\ m_box_changed c = true
  /\ m_dim c = make_uint3 2 2 2
  /\ fst (computeDimensions false powf_uncalled grown c) = Returned (make_uint3 2 2 2)
  /\ fst (computeDimensions false powf_uncalled doubled c) = Returned (make_uint3 4 4 4)
  /\ (m_Nmax (snd same) = m_Nmax c
      /\ m_cell_adj (snd same) = m_cell_adj c
      /\ length (m_xyzf (snd same)) = length (m_xyzf c)
      /\ m_width (snd same) = refreshed_width grown (m_dim c)
      /\ sumZ (m_cell_size (snd same)) = 2)
  /\ exists c1,
       initializeAll false powf_uncalled doubled c = (Returned tt, c1)
       /\ m_dim c1 = make_uint3 4 4 4
       /\ m_cell_size c1 = replicate 64 0
       /\ Z.of_nat (length (m_cell_adj c1)) = 1728
       /\ Sorted Z.le (cell_adj_list c1 0)
       /\ m_dim (snd full) = make_uint3 4 4 4
       /\ m_cell_adj (snd full) = m_cell_adj c1
       /\ sumZ (m_cell_size (snd full)) = 2.
Proof.
  cbv zeta.
  set (c := set_box_changed true (built 500 two_particles)).
  assert (m_params_changed c = false) as H1 by evaluated.
  assert (m_box_changed c = true) as H2 by reflexivity.
  assert (m_dim c = make_uint3 2 2 2) as H0 by evaluated.
  assert (fst (computeDimensions false powf_uncalled grown c)
          = Returned (make_uint3 2 2 2)) as H3 by evaluated.
  assert (fst (computeDimensions false powf_uncalled doubled c)
          = Returned (make_uint3 4 4 4)) as H4 by evaluated.
  split; [exact H1|]. split; [exact H2|]. split; [exact H0|].
  split; [exact H3|]. split; [exact H4|]. split.
  - assert (make_uint3 2 2 2 = m_dim c) as Hsame by evaluated.
    destruct (proj1 (compute_box_change false powf_uncalled grown false c
                       (make_uint3 2 2 2) H1 H2 H3) Hsame)
      as (_ & _ & Hw & HN & Hadj & _ & _ & _ & _ & Hx & _ & _ & Hreb).
    split; [exact HN|]. split; [exact Hadj|]. split; [exact Hx|]. split; [exact Hw|].
    assert (fill_ready c) as Hready by (subst c; sized).
    assert (getN grown < 2 ^ 32) as Hn by evaluated.
    destruct (Hreb Hready Hn) as (_ & _ & _ & _ & Hsum).
    { intros [|[|i]] p Hp; cbn in Hp;
        [injection Hp as <- | injection Hp as <- | discriminate];
        vm_compute; reflexivity. }
    exact Hsum.
  - assert (make_uint3 4 4 4 <> m_dim c) as Hdiff by (rewrite H0; discriminate).
    assert (0 <= m_radius c) as Hr by evaluated.
    assert (all_at_least_one (make_uint3 4 4 4)) as Hone.
    { unfold all_at_least_one. conjuncts; evaluated. }
    assert (stencil (m_radius c) * numCells (make_uint3 4 4 4) < 2 ^ 31) as Hadj
      by evaluated.
    assert (estimate_Nmax (getN doubled) (make_uint3 4 4 4) * numCells (make_uint3 4 4 4)
            < 2 ^ 32) as Hfit by evaluated.
    destruct (proj2 (compute_box_change false powf_uncalled doubled false c
                       (make_uint3 4 4 4) H1 H2 H4) Hdiff Hr Hone Hadj Hfit)
      as (c1 & Hall & _ & Hd1 & Hw1 & _ & Hci1 & _ & _ & Hcs & _ & _ & Hlen & Hrows
          & Hd' & _ & _ & Hadj' & _ & _ & _ & _ & Hreb).
    exists c1. split; [exact Hall|]. split; [exact Hd1|]. split; [exact Hcs|].
    split; [exact Hlen|]. split.
    { change 0 with (flat_cell (make_uint3 4 4 4) 0 0 0).
      rewrite (Hrows 0 0 0) by (cbn; lia). apply std_sort_sorted. }
    split; [exact Hd'|]. split; [exact Hadj'|].
    assert (getN doubled < 2 ^ 32) as Hn by evaluated.
    destruct (Hreb Hn) as (_ & _ & _ & _ & Hsum).
    { intros i p Hp. unfold inverse_width. rewrite Hw1, Hd1, Hci1.
      destruct i as [|[|i]]; cbn in Hp;
        [injection Hp as <- | injection Hp as <- | discriminate];
        vm_compute; reflexivity. }
    exact Hsum.
Defined.

Lemma compute_twice_witness :
  getN two_particles < 2 ^ 32
  /\ compute false powf_uncalled two_particles true (engine 500)
     = (Returned tt, built 500 two_particles)
  /\ fill_ready (built 500 two_particles)
  /\ compute false powf_uncalled two_particles true (built 500 two_particles)
     = (Returned tt, built 500 two_particles).
Proof.
  assert (getN two_particles < 2 ^ 32) as H1 by evaluated.
  assert (compute false powf_uncalled two_particles true (engine 500)
          = (Returned tt, built 500 two_particles)) as H2 by (vm_compute; reflexivity).
  assert (fill_ready (built 500 two_particles)) as H3 by sized.
  split; [exact H1|]. split; [exact H2|]. split; [exact H3|].
  exact (compute_twice false powf_uncalled two_particles true (engine 500)
           (built 500 two_particles) H1 H2 H3).
Defined.

Lemma bucket_writes_in_bounds_witness :
  let c := built 500 crowded in
  fill_ready c
  /\ fst (bin_particle false (cube 1000) (inverse_width c) (m_cell_indexer c)
            (m_cell_list_indexer c) 40 (at_ 1 1 1) c) <> Raised OutOfRangeAccess
  /\ fst (computeCellList false crowded c) <> Raised OutOfRangeAccess.
Proof.
  cbv zeta.
  assert (fill_ready (built 500 crowded)) as H1 by sized.
  split; [exact H1|].
  destruct (bucket_writes_in_bounds false (built 500 crowded) (cube 1000)
              (inverse_width (built 500 crowded)) 40 (at_ 1 1 1) H1)
    as (Hsafe & _ & _ & Hall).
  split; [exact Hsafe | exact (proj1 (Hall crowded))].
Defined.

End Examples.

(** * Worked instances of the further properties *)

Module FurtherExamples.
Import Fixtures.
Import Examples.

Lemma computeDimensions_planar_depth_witness :
  let sys := mkSystem 2 (cube 1000) [] in
  getNDimensions sys = 2
  /\ fst (computeDimensions false powf_uncalled sys (engine 500))
     = Returned (make_uint3 2 2 3)
  /\ u3z (make_uint3 2 2 3) = 3.
Proof.
  cbv zeta.
  assert (getNDimensions (mkSystem 2 (cube 1000) ([] : list (Particle Scalar32))) = 2)
    as H1 by reflexivity.
  assert (fst (computeDimensions false powf_uncalled (mkSystem 2 (cube 1000) []) (engine 500))
          = Returned (make_uint3 2 2 3)) as H2 by evaluated.
  split; [exact H1|]. split; [exact H2|].
  exact (computeDimensions_planar_depth false powf_uncalled (mkSystem 2 (cube 1000) [])
           (engine 500) (make_uint3 2 2 3) H1 H2).
Defined.

Lemma computeDimensions_cap_missed_on_wrap_witness :
  let sys := mkSystem 3 (cube 65536) [] in
  box_positive (getBox sys) = true
  /\ raw_dim sys (engine 1) = make_uint3 65536 65536 65536
  /\ u32 (numCells (raw_dim sys (engine 1))) = 0
  /\ m_max_cells (engine 1) = UINT_MAX
  /\ computeDimensions false powf_uncalled sys (engine 1)
     = (Returned (raw_dim sys (engine 1)), engine 1).
Proof.
  cbv zeta.
  assert (box_positive (getBox (mkSystem 3 (cube 65536) ([] : list (Particle Scalar32))))
          = true) as H1 by evaluated.
  assert (u32 (numCells (raw_dim (mkSystem 3 (cube 65536) []) (engine 1)))
          <= m_max_cells (engine 1)
          < numCells (raw_dim (mkSystem 3 (cube 65536) []) (engine 1))) as H2 by evaluated.
  split; [exact H1|]. split; [evaluated|]. split; [evaluated|]. split; [reflexivity|].
  exact (proj1 (computeDimensions_cap_missed_on_wrap false powf_uncalled
                  (mkSystem 3 (cube 65536) []) (engine 1) H1 H2)).
Defined.

Lemma wrap_index_floor_mod_witness :
  0 < 3 /\ wrap_index (-4) 3 = 2 /\ wrap_index (-4) 3 = (-4) `mod` 3
  /\ wrap_index (-4 + 3) 3 = wrap_index (-4) 3.
Proof.
  assert (0 < 3) as H1 by lia.
  destruct (wrap_index_floor_mod (-4) 3 H1) as (_ & Hmod & _ & Hper & _).
  split; [exact H1|]. split; [reflexivity|]. split; [exact Hmod | exact Hper].
Defined.

Lemma initializeCellAdj_reflexive_symmetric_witness :
  let c := built 500 two_particles in
  adj_ready c
  /\ exists c',
       initializeCellAdj c = (Returned tt, c')
       /\ Index3D_at (m_cell_indexer c') 0 0 0
          ∈ cell_adj_list c' (Index3D_at (m_cell_indexer c') 0 0 0)
       /\ (Index3D_at (m_cell_indexer c') 1 1 1
             ∈ cell_adj_list c' (Index3D_at (m_cell_indexer c') 0 0 0)
           <-> Index3D_at (m_cell_indexer c') 0 0 0
                 ∈ cell_adj_list c' (Index3D_at (m_cell_indexer c') 1 1 1)).
Proof.
  cbv zeta.
  assert (adj_ready (built 500 two_particles)) as Hready.
  { unfold adj_ready. cbv zeta. conjuncts; evaluated. }
  split; [exact Hready|].
  destruct (initializeCellAdj_reflexive_symmetric (built 500 two_particles) 0 0 0 1 1 1 Hready
              ltac:(evaluated) ltac:(evaluated) ltac:(evaluated)
              ltac:(evaluated) ltac:(evaluated) ltac:(evaluated))
    as (c' & Hrun & Hself & Hsym).
  exists c'. split; [exact Hrun|]. split; [exact Hself | exact Hsym].
Defined.

Lemma initializeCellAdj_overwrites_witness :
  let c := built 500 two_particles in
  adj_ready c /\ length (replicate 216 7) = length (m_cell_adj c)
  /\ initializeCellAdj (set_cell_adj (replicate 216 7) c) = initializeCellAdj c
  /\ initializeCellAdj (snd (initializeCellAdj c)) = initializeCellAdj c.
Proof.
  cbv zeta.
  assert (adj_ready (built 500 two_particles)) as Hready.
  { unfold adj_ready. cbv zeta. conjuncts; evaluated. }
  assert (length (replicate 216 7) = length (m_cell_adj (built 500 two_particles))) as Hlen
    by (vm_compute; reflexivity).
  split; [exact Hready|]. split; [exact Hlen|].
  exact (initializeCellAdj_overwrites (built 500 two_particles) (replicate 216 7) Hready Hlen).
Defined.

Lemma initializeMemory_sizes_storage_witness :
  let c := built 500 two_particles in
  0 <= m_radius c /\ all_at_least_one (m_dim c)
  /\ stencil (m_radius c) * numCells (m_dim c) = 216
  /\ estimate_Nmax (getN two_particles) (m_dim c) * numCells (m_dim c) = 256
  /\ exists c',
       initializeMemory two_particles c = (Returned tt, c')
       /\ fill_ready c' /\ adj_ready c' /\ m_Nmax c' = 32
       /\ m_cell_size c' = replicate 8 0
       /\ Z.of_nat (length (m_tdb c')) = 0.
Proof.
  cbv zeta.
  assert (0 <= m_radius (built 500 two_particles)) as H1 by evaluated.
  assert (all_at_least_one (m_dim (built 500 two_particles))) as H2.
  { unfold all_at_least_one. conjuncts; evaluated. }
  assert (stencil (m_radius (built 500 two_particles))
          * numCells (m_dim (built 500 two_particles)) = 216) as E3 by evaluated.
  assert (estimate_Nmax (getN two_particles) (m_dim (built 500 two_particles))
          * numCells (m_dim (built 500 two_particles)) = 256) as E4 by evaluated.
  assert (stencil (m_radius (built 500 two_particles))
          * numCells (m_dim (built 500 two_particles)) < 2 ^ 31) as H3
    by (rewrite E3; reflexivity).
  assert (estimate_Nmax (getN two_particles) (m_dim (built 500 two_particles))
          * numCells (m_dim (built 500 two_particles)) < 2 ^ 32) as H4
    by (rewrite E4; reflexivity).
  split; [exact H1|]. split; [exact H2|]. split; [exact E3|]. split; [exact E4|].
  destruct (initializeMemory_sizes_storage two_particles (built 500 two_particles) H1 H2 H3 H4)
    as (c' & Hrun & Hfill & Hadj & HN & _ & Hcs & _ & Htdb & _).
  exists c'. split; [exact Hrun|]. split; [exact Hfill|]. split; [exact Hadj|].
  split; [rewrite HN; evaluated|]. split; [rewrite Hcs; evaluated|].
  rewrite Htdb. evaluated.
Defined.

Lemma computeCellList_never_clears_overflow_witness :
  let c := set_overflowed true (built 500 two_particles) in
  m_overflowed c = true
  /\ fst (computeCellList false two_particles c) = Returned tt
  /\ m_overflowed (snd (computeCellList false two_particles c)) = true.
Proof.
  cbv zeta.
  assert (m_overflowed (set_overflowed true (built 500 two_particles)) = true) as H1
    by reflexivity.
  split; [exact H1|]. split; [evaluated|].
  exact (computeCellList_never_clears_overflow false two_particles
           (set_overflowed true (built 500 two_particles)) H1).
Defined.

Lemma computeCellList_fault_names_first_offender_witness :
  let c := built 500 two_particles in
  let c' := snd (computeCellList false then_lost c) in
  fill_ready c /\ getN then_lost < 2 ^ 32
  /\ computeCellList false then_lost c = (Raised (InvalidPosition 1), c')
  /\ exists (n : nat) p,
       arrays then_lost !! n = Some p /\ sumZ (m_cell_size c') = Z.of_nat n.
Proof.
  cbv zeta.
  assert (fill_ready (built 500 two_particles)) as H1 by sized.
  assert (getN then_lost < 2 ^ 32) as H2 by evaluated.
  assert (computeCellList false then_lost (built 500 two_particles)
          = (Raised (InvalidPosition 1),
             snd (computeCellList false then_lost (built 500 two_particles)))) as H3
    by (vm_compute; reflexivity).
  split; [exact H1|]. split; [exact H2|]. split; [exact H3|].
  destruct (computeCellList_fault_names_first_offender false then_lost
              (built 500 two_particles) _ _ H1 H2 H3) as (n & p & Hp & _ & Hsum & _).
  exists n, p. split; [exact Hp | exact Hsum].
Defined.

Lemma debug_assertion_shadows_bounds_check_witness :
  let c := built 500 two_particles in
  fill_ready c
  /\ m_cell_indexer c = mkIndex3D (u3x (m_dim c)) (u3y (m_dim c)) (u3z (m_dim c))
  /\ getN escaped < 2 ^ 32
  /\ fst (computeCellList true escaped c) = Raised (OutOfBoundsCell 0)
  /\ fst (computeCellList false escaped c) <> Raised (OutOfBoundsCell 0).
Proof.
  cbv zeta.
  assert (fill_ready (built 500 two_particles)) as H1 by sized.
  assert (m_cell_indexer (built 500 two_particles)
          = mkIndex3D (u3x (m_dim (built 500 two_particles)))
              (u3y (m_dim (built 500 two_particles)))
              (u3z (m_dim (built 500 two_particles)))) as H2 by evaluated.
  assert (getN escaped < 2 ^ 32) as H3 by evaluated.
  split; [exact H1|]. split; [exact H2|]. split; [exact H3|]. split; [evaluated|].
  exact (debug_assertion_shadows_bounds_check false escaped (built 500 two_particles) 0
           eq_refl H1 H2 H3).
Defined.


Lemma computeCellList_keeps_particle_order_witness :
  let c := built 500 two_particles in
  let c' := snd (computeCellList false two_particles c) in
  fill_ready c /\ getN two_particles < 2 ^ 32
  /\ computeCellList false two_particles c = (Returned tt, c')
  /\ bin_of (getBox two_particles) (inverse_width c) c (at_ 0 0 0)
     = bin_of (getBox two_particles) (inverse_width c) c (at_ 1 1 1)
  /\ exists ri rj,
       0 <= ri < rj /\ rj < m_Nmax c
       /\ m_xyzf c' !! slot c (bin_of (getBox two_particles) (inverse_width c) c (at_ 0 0 0)) ri
          = Some (xyzf_record (m_flag_charge c) 0 (at_ 0 0 0))
       /\ m_xyzf c' !! slot c (bin_of (getBox two_particles) (inverse_width c) c (at_ 0 0 0)) rj
          = Some (xyzf_record (m_flag_charge c) 1 (at_ 1 1 1)).
Proof.
  cbv zeta.
  assert (fill_ready (built 500 two_particles)) as H1 by sized.
  assert (getN two_particles < 2 ^ 32) as H2 by evaluated.
  assert (computeCellList false two_particles (built 500 two_particles)
          = (Returned tt, snd (computeCellList false two_particles (built 500 two_particles))))
    as H3 by (vm_compute; reflexivity).
  assert (arrays two_particles !! 0%nat = Some (at_ 0 0 0)) as H4 by reflexivity.
  assert (arrays two_particles !! 1%nat = Some (at_ 1 1 1)) as H5 by reflexivity.
  assert (0 < 1)%nat as H6 by lia.
  assert (bin_of (getBox two_particles) (inverse_width (built 500 two_particles))
            (built 500 two_particles) (at_ 0 0 0)
          = bin_of (getBox two_particles) (inverse_width (built 500 two_particles))
              (built 500 two_particles) (at_ 1 1 1)) as H7 by evaluated.
  assert (rank (getBox two_particles) (inverse_width (built 500 two_particles))
            (built 500 two_particles) (arrays two_particles) 1 (at_ 1 1 1)
          < m_Nmax (built 500 two_particles)) as H8 by evaluated.
  split; [exact H1|]. split; [exact H2|]. split; [exact H3|]. split; [exact H7|].
  exact (computeCellList_keeps_particle_order false two_particles (built 500 two_particles)
           _ 0 1 (at_ 0 0 0) (at_ 1 1 1) H1 H2 H3 H4 H5 H6 H7 H8).
Defined.

Lemma computeCellList_tdb_follows_switch_witness :
  let c := built 500 two_particles in
  let c' := snd (computeCellList false two_particles c) in
  let e := extended in
  let e' := snd (computeCellList false two_particles e) in
  (fill_ready c /\ getN two_particles < 2 ^ 32
   /\ computeCellList false two_particles c = (Returned tt, c')
   /\ m_compute_tdb c = false
   /\ m_tdb c' = m_tdb c)
  /\ (fill_ready e
      /\ computeCellList false two_particles e = (Returned tt, e')
      /\ m_compute_tdb e = true
      /\ rank (getBox two_particles) (inverse_width e) e (arrays two_particles) 1 (at_ 1 1 1)
         = 1
      /\ m_tdb e' !! slot e (bin_of (getBox two_particles) (inverse_width e) e (at_ 1 1 1)) 1
         = Some (tdb_record (at_ 1 1 1))).
Proof.
  cbv zeta.
  assert (getN two_particles < 2 ^ 32) as H2 by evaluated.
  split.
  - assert (fill_ready (built 500 two_particles)) as H1 by sized.
    assert (computeCellList false two_particles (built 500 two_particles)
            = (Returned tt,
               snd (computeCellList false two_particles (built 500 two_particles))))
      as H3 by (vm_compute; reflexivity).
    assert (m_compute_tdb (built 500 two_particles) = false) as H4 by evaluated.
    split; [exact H1|]. split; [exact H2|]. split; [exact H3|]. split; [exact H4|].
    exact (proj2 (computeCellList_tdb_follows_switch false two_particles
                    (built 500 two_particles) _ H1 H2 H3) H4).
  - assert (fill_ready extended) as H1 by sized.
    assert (computeCellList false two_particles extended
            = (Returned tt, snd (computeCellList false two_particles extended)))
      as H3 by (vm_compute; reflexivity).
    assert (m_compute_tdb extended = true) as H4 by evaluated.
    assert (rank (getBox two_particles) (inverse_width extended) extended
              (arrays two_particles) 1 (at_ 1 1 1) = 1) as H5 by evaluated.
    split; [exact H1|]. split; [exact H3|]. split; [exact H4|]. split; [exact H5|].
    destruct (proj1 (computeCellList_tdb_follows_switch false two_particles
                       extended _ H1 H2 H3) H4 1%nat (at_ 1 1 1) eq_refl) as [_ Ht].
    + rewrite H5. vm_compute. reflexivity.
    + rewrite H5 in Ht. exact Ht.
Defined.

Lemma computeCellList_leaves_free_slots_stale_witness :
  let c := built 500 two_particles in
  let c' := snd (computeCellList false then_lost c) in
  fill_ready c /\ getN then_lost < 2 ^ 32
  /\ computeCellList false then_lost c = (Raised (InvalidPosition 1), c')
  /\ m_cell_size c' !! Z.to_nat 0 = Some 0
  /\ m_xyzf c' !! slot c 0 1 = m_xyzf c !! slot c 0 1
  /\ m_xyzf c !! slot c 0 1 = Some (xyzf_record false 1 (at_ 1 1 1)).
Proof.
  cbv zeta.
  assert (fill_ready (built 500 two_particles)) as H1 by sized.
  assert (getN then_lost < 2 ^ 32) as H2 by evaluated.
  assert (computeCellList false then_lost (built 500 two_particles)
          = (Raised (InvalidPosition 1),
             snd (computeCellList false then_lost (built 500 two_particles)))) as H3
    by (vm_compute; reflexivity).
  assert (0 <= 0 < Z.of_nat (length (m_cell_size
            (snd (computeCellList false then_lost (built 500 two_particles)))))) as H4
    by evaluated.
  assert (m_cell_size (snd (computeCellList false then_lost (built 500 two_particles)))
            !! Z.to_nat 0 = Some 0) as H5 by evaluated.
  assert (0 <= 1 < m_Nmax (built 500 two_particles)) as H6 by evaluated.
  split; [exact H1|]. split; [exact H2|]. split; [exact H3|]. split; [exact H5|].
  split; [|evaluated].
  exact (proj1 (computeCellList_leaves_free_slots_stale false then_lost
                  (built 500 two_particles) _ _ 0 1 0 H1 H2 H3 H4 H5 H6)).
Defined.

Lemma compute_idle_witness :
  let c := built 500 two_particles in
  m_params_changed c = false /\ m_box_changed c = false /\ m_particles_sorted c = false
  /\ compute false powf_uncalled then_lost false c = (Returned tt, c).
Proof.
  cbv zeta.
  assert (m_params_changed (built 500 two_particles) = false) as H1 by evaluated.
  assert (m_box_changed (built 500 two_particles) = false) as H2 by evaluated.
  assert (m_particles_sorted (built 500 two_particles) = false) as H3 by evaluated.
  split; [exact H1|]. split; [exact H2|]. split; [exact H3|].
  exact (compute_idle false powf_uncalled then_lost (built 500 two_particles) H1 H2 H3).
Defined.

Lemma compute_notification_overrides_period_witness :
  let c := snd (slotParticlesSorted (built 500 two_particles)) in
  m_params_changed c || m_box_changed c || m_particles_sorted c = true
  /\ compute false powf_uncalled two_particles false c
     = compute false powf_uncalled two_particles true c.
Proof.
  cbv zeta.
  assert (m_params_changed (snd (slotParticlesSorted (built 500 two_particles)))
          || m_box_changed (snd (slotParticlesSorted (built 500 two_particles)))
          || m_particles_sorted (snd (slotParticlesSorted (built 500 two_particles))) = true)
    as H1 by evaluated.
  split; [exact H1|].
  exact (compute_notification_overrides_period false powf_uncalled two_particles
           (snd (slotParticlesSorted (built 500 two_particles))) H1).
Defined.

Lemma compute_returns_idle_witness :
  compute true powf_uncalled two_particles true (engine 500)
  = (Returned tt, built 500 two_particles)
  /\ m_params_changed (built 500 two_particles) = false
  /\ m_overflowed (built 500 two_particles) = false
  /\ compute true powf_uncalled two_particles false (built 500 two_particles)
     = (Returned tt, built 500 two_particles).
Proof.
  assert (compute true powf_uncalled two_particles true (engine 500)
          = (Returned tt, built 500 two_particles)) as H1 by (vm_compute; reflexivity).
  destruct (compute_returns_idle true powf_uncalled two_particles true (engine 500)
              (built 500 two_particles) H1) as (Hpc & _ & _ & Hov & Hidle).
  split; [exact H1|]. split; [exact Hpc|]. split; [exact (Hov eq_refl) | exact Hidle].
Defined.

Lemma compute_overflow_repeats_witness :
  let c := built 500 two_particles in
  let c1 := snd (compute false powf_uncalled crowded true c) in
  m_params_changed c = false /\ m_box_changed c = false
  /\ fill_ready c /\ getN crowded < 2 ^ 32
  /\ compute false powf_uncalled crowded true c = (Raised BucketOverflow, c1)
  /\ m_Nmax c1 = m_Nmax c
  /\ m_overflowed c1 = true
  /\ compute false powf_uncalled crowded true c1 = (Raised BucketOverflow, c1)
  /\ compute false powf_uncalled crowded false c1 = (Returned tt, c1).
Proof.
  cbv zeta.
  assert (m_params_changed (built 500 two_particles) = false) as H1 by evaluated.
  assert (m_box_changed (built 500 two_particles) = false) as H2 by evaluated.
  assert (fill_ready (built 500 two_particles)) as H3 by sized.
  assert (getN crowded < 2 ^ 32) as H4 by evaluated.
  assert (compute false powf_uncalled crowded true (built 500 two_particles)
          = (Raised BucketOverflow,
             snd (compute false powf_uncalled crowded true (built 500 two_particles))))
    as H5 by (vm_compute; reflexivity).
  split; [exact H1|]. split; [exact H2|]. split; [exact H3|]. split; [exact H4|].
  split; [exact H5|].
  destruct (compute_overflow_repeats false powf_uncalled crowded true
              (built 500 two_particles) _ H1 H2 H3 H4 H5)
    as (HN & _ & _ & _ & Hov & Hagain & Hidle).
  split; [exact HN|]. split; [exact Hov|]. split; [exact Hagain | exact Hidle].
Defined.

Lemma compute_after_parameter_change_witness :
  let c := engine 500 in
  m_params_changed c = true /\ m_box_changed c = false
  /\ fst (computeDimensions false powf_uncalled two_particles c)
     = Returned (make_uint3 2 2 2)
  /\ exists c1,
       initializeAll false powf_uncalled two_particles c = (Returned tt, c1)
       /\ m_dim c1 = make_uint3 2 2 2 /\ fill_ready c1 /\ adj_ready c1
       /\ compute false powf_uncalled two_particles false c
          = rebuild false two_particles
              (set_particles_sorted false (set_params_changed false c1))
       /\ fill_ready (snd (compute false powf_uncalled two_particles false c)).
Proof.
  cbv zeta.
  assert (m_params_changed (engine 500) = true) as H1 by reflexivity.
  assert (m_box_changed (engine 500) = false) as H2 by reflexivity.
  assert (fst (computeDimensions false powf_uncalled two_particles (engine 500))
          = Returned (make_uint3 2 2 2)) as H3 by evaluated.
  assert (0 <= m_radius (engine 500)) as H4 by evaluated.
  assert (all_at_least_one (make_uint3 2 2 2)) as H5.
  { unfold all_at_least_one. conjuncts; evaluated. }
  assert (stencil (m_radius (engine 500)) * numCells (make_uint3 2 2 2) < 2 ^ 31) as H6
    by evaluated.
  assert (estimate_Nmax (getN two_particles) (make_uint3 2 2 2)
          * numCells (make_uint3 2 2 2) < 2 ^ 32) as H7 by evaluated.
  assert (getN two_particles < 2 ^ 32) as H8 by evaluated.
  split; [exact H1|]. split; [exact H2|]. split; [exact H3|].
  destruct (compute_after_parameter_change false powf_uncalled two_particles false
              (engine 500) (make_uint3 2 2 2) H1 H2 H3 H4 H5 H6 H7 H8)
    as (c1 & Hall & Hd & _ & _ & Hfill & Hadj & Hrun & Hfill' & _).
  exists c1. split; [exact Hall|]. split; [exact Hd|]. split; [exact Hfill|].
  split; [exact Hadj|]. split; [exact Hrun | exact Hfill'].
Defined.

Lemma compute_parameter_and_box_change_witness :
  let c := snd (slotBoxChanged (engine 500)) in
  m_params_changed c = true /\ m_box_changed c = true
  /\ compute false powf_uncalled two_particles false c
     = (initializeAll false powf_uncalled two_particles;;
        modify (set_params_changed false);;
        modify (set_box_changed false);;
        modify (set_particles_sorted false);;
        rebuild false two_particles)%cell c.
Proof.
  cbv zeta.
  assert (m_params_changed (snd (slotBoxChanged (engine 500))) = true) as H1 by reflexivity.
  assert (m_box_changed (snd (slotBoxChanged (engine 500))) = true) as H2 by reflexivity.
  split; [exact H1|]. split; [exact H2|].
  exact (compute_parameter_and_box_change false powf_uncalled two_particles false
           (snd (slotBoxChanged (engine 500))) H1 H2).
Defined.

End FurtherExamples.
